(* ===== verification/_CoqProject ===== *)
-Q . S2P
Prelude.v
Gob.v
PersisterModel.v
RaftState.v
RaftVote.v
RaftAppend.v
RaftChain.v
RaftNode.v
RaftInv.v
RaftVoteRace.v
LeaderIndexes.v
Cluster.v
ClusterInv.v
Runs.v
ClusterProps.v
Findings.v
ClusterBounds.v
ClusterAddresses.v
Labrpc.v
NetCalls.v
NetProps.v
NetTheorems.v
Labgob.v
RandString.v
Config.v
ConfigProps.v
ConfigChecks.v
ConfigLinks.v
ConfigRuns.v
ConfigHeap.v
ConfigView.v
RaftRpc.v
RaftRpcInv.v
RaftRpcSteps.v
RaftRpcProps.v
RaftRpcSim.v
RaftRpcRuns.v
ConfigRpc.v
ConfigRpcRuns.v
