(* ===== verification/Prelude.v ===== *)
(** * A verification development for the Go code under src/Task5

    src/Task5 is an implementation of the Raft consensus protocol with the
    simulated network and the test harness it runs on: raft/raft.go (the
    peer), raft/persister.go (its persisted state), labrpc/labrpc.go (the
    network), labgob/labgob.go (checks around the gob encoder) and
    raft/config.go (the harness).  Peers exchange RequestVote and
    AppendEntries RPCs through labrpc, write their state with gob to their
    persister before they answer, and hand committed commands to the service
    on applyCh; the harness reads applyCh, crashes, restarts and disconnects
    peers, and checks what it sees.

    ** How the code is modelled

    Go code becomes functions on records.  [outcome] ([Ret] or [Panic]) is the
    result of code that can panic, end the process ([log.Fatalf]) or end the
    test ([t.Fatal]); it is a monad with stdpp's bind notation.  Slices are
    lists indexed by Z with Go's bounds checks ([go_index], [go_store],
    [go_slice_to], [go_slice_from]); maps are gmaps, and reading an absent key
    yields the zero value.  int is Z: where the code adds to an int that
    nothing bounds, the wrap-around is written out ([+!], [*!], [wrap_int]).
    [iface] is the part of interface{} that commands and end names use.  A
    mutex that is held for a whole body makes the body one atomic function; a
    body that gives its mutex up is split there.  Code that runs without the
    mutex is split further: [heartBeat] calls [persist] after it has unlocked,
    so that there each Encode reads its field at a step of its own and the
    save is a last step ([persist_step]); what other goroutines did in between
    is overwritten.

    ** The files

    - Prelude: Go values, slices, integers, sorting, loops; shared lemmas.
    - Gob: the part of encoding/gob's wire format that persisted state uses.
    - PersisterModel: raft/persister.go, every method.
    - RaftState: the Raft struct, persist, in one piece and step by step, and
      readPersist, the role changes, startApplyLogs, Start, Kill, GetState,
      Make (raft/raft.go).
    - RaftVote: the RequestVote handler and startRequestVote.
    - RaftAppend: the AppendEntries handler and the two critical sections of
      startAppendEntries.
    - RaftNode: heartBeat, the main loop, as a state machine ([hb_step]) with
      one step per critical section or channel operation, and per read and
      write of the unlocked persist; the notification goroutines and the
      timer.
    - RaftChain, RaftInv, LeaderIndexes: logs as chains of entries; the
      invariants of a peer, the relation [quiet] most operations satisfy, and
      the ranges of a leader's nextIndex and matchIndex.
    - RaftVoteRace: the RequestVote handler, which takes no mutex, as a
      sequence of reads and writes, those of its persist included,
      interleaved with the rest of the peer.
    - Cluster: peers and the messages between them as a transition system
      ([exec], [run], [reachable]): RPCs are delivered in any order, delayed
      or lost, peers crash at any step and restart from their persister.
      [elections] and [created] record who was elected and what leaders
      appended; no step reads them.
    - ClusterInv: the inductive invariant; ClusterProps: what follows for
      every run; ClusterBounds: indexes in range and which steps panic;
      ClusterAddresses: who talks to whom, every message can be delivered.
    - Runs: executable schedules; Findings: schedules that break promises.
    - Labrpc: the objects and operations of labrpc.go; NetCalls: the life of
      a call (Call, the network goroutine, processReq, the handler's
      goroutine) as a transition system; NetProps, NetTheorems: what the
      network promises.
    - Labgob: labgob.go, with types as a possibly cyclic graph.
    - RandString: randstring, which draws the names of ends, with the base64
      encoding it uses, and makeSeed.
    - Config: raft/config.go, every method; ConfigProps, ConfigChecks: the
      reader of applyCh and the checks; ConfigLinks, ConfigRuns, ConfigHeap: the
      invariants of the harness over all its runs.
    - RaftRpc: the peers of raft.go calling each other through labrpc.go,
      crashed and started again as config.go does it: every Raft object ever
      made, killed ones included, with its ends and its server; RaftRpcInv,
      RaftRpcSteps: the invariant of this system and that every step keeps
      it; RaftRpcProps, RaftRpcSim: the simulation by Cluster; RaftRpcRuns:
      the theorems and a run.
    - ConfigView: what [crash1] and [start1] do to instances and persisters;
      ConfigRpc, ConfigRpcRuns: the harness of Config drives RaftRpc.

    ** What is shown

    The protocol over all runs (ClusterProps, ClusterBounds), with any
    interleaving of heartBeat's unlocked persist: entries of one term at one
    index come with equal logs before them (log matching), every entry of a
    log was appended by a leader elected in its term, a leader only appends,
    a restarted peer holds exactly what its last completed save wrote,
    deliveries are in order without gaps, and no step of a cluster takes a
    process down but one.  Log matching, append-only leaders and the last
    statement assume that no term had two leaders, which the code does not
    ensure: Findings has runs with two leaders in a term, with services that
    disagree, with a commit no other peer holds, with a vote counted twice,
    with a panic, and one in which the unlocked persist overwrites a newer
    save and a crash then loses an entry the peer had acknowledged.

    The protocol over labrpc (RaftRpcRuns): the peers over labrpc's network,
    crashed and started by the harness, only reach states of Cluster, so
    everything shown of Cluster's runs holds over labrpc; labrpc takes no step
    away from a running peer; and no step of a killed object, which cannot
    really be killed, and no reply to it changes a running peer any more.  The
    harness's own code, call by call as Config has it, takes exactly these
    steps (ConfigRpcRuns): whatever a test does that connects running servers
    only, the instances it runs are the peers of a reachable Cluster.

    The handler without a mutex (RaftVoteRace): alone it is the atomic
    RequestVote of the other files; overlapping handlers can grant two votes
    of a term, move a term back, and panic.

    The operations (RaftVote, RaftAppend, RaftState): when a vote is granted
    and an election won; acceptance, rejection, faults, commits and the log
    update of AppendEntries, equal to the update rule of the Raft paper unless
    the first entry conflicts; the leader's commit rule, equal to its
    definition by counting, and its back-off; persisting and reading back.

    labrpc (NetTheorems), labgob (Labgob) and the harness (ConfigProps,
    ConfigHeap): a request runs the method its name spells, or ends the
    process; a call runs its handler at most once and returns its reply; on a
    reliable network it completes; a deleted server answers no call whose last
    check is still to come; statistics are exact; the checks around
    gob terminate and count right; the harness accepts deliveries exactly when
    they agree; ends are enabled between connected servers only; a restarted
    server shares no persister with its predecessors; what [one],
    [checkOneLeader], [checkTerms], [checkNoLeader], [nCommitted] and [wait]
    report; when two random names are the same (RandString).

    ** Bounds and fuel

    [reachable] runs through states whose integers fit in Go's int and whose
    logs fit in one gob message ([bounded]); the cluster's schedules of Runs
    check it at every state.  [apply_loop] has fuel committedIndex -
    lastApplied, one unit per round that does anything ([startApplyLogs_spec]).
    Other loops recurse on lists.  [checkType] has one unit of fuel per type
    of the graph that is not marked yet.

    ** Parameters

    gob's run-time type ids and type-definition messages ([GobTypes], with
    their laws [GobTypesOk]; [first_types] is an instance), gob's codec where
    labrpc passes whole values ([Codec], and [RpcGob] for Raft's RPCs), what
    reflect shows of types and methods, random numbers and bytes, clocks.

    ** Not modelled

    Durations: timers may fire at any moment, delays reorder at will.  In
    RaftRpc [crash1] and [start1] are one step each: no other goroutine runs
    between the calls they make; and the ends of killed objects are not
    enabled again there ([connect] does not check that, and the theorems of
    ConfigRpcRuns are about runs that connect running servers only,
    [op_allowed]).  In Cluster and RaftRpc, and so in the methods the
    dispatcher runs, the RequestVote handler is one step although it takes no
    mutex: every theorem about runs of a cluster is about runs in which it
    does not overlap with another goroutine of its peer, and what overlapping
    handlers do is in RaftVoteRace only.  An unlocked persist encodes the log
    as of one instant (its slice header and its entries), and an expression
    such as rf.log[len(rf.log)-1] reads the log once.  The send of
    startApplyLogs on applyCh, which happens under the mutex, never blocks.
    Printing (raft/util.go) and GetGoroutineID.
    The other directories (Task1 to Task4: C++, C and Python exercises) share
    nothing with this program. *)

From stdpp Require Export base list numbers strings gmap sorting.
From Stdlib Require Export ZArith Lia.

(** ** Go values *)

Declare Scope go_scope.
Delimit Scope go_scope with go.
Open Scope Z_scope.

(** A run-time fault of a goroutine.  An index or slice expression out of
    range, a nil dereference, closing a closed channel and reading an
    unexported field with reflect panic; [log.Fatalf] ends the process, and
    [t.Fatalf] the test. *)
Inductive fault : Type :=
| IndexOutOfRange
| SliceOutOfRange
| NilDereference
| CloseOfClosedChannel
| UnexportedField
| TestFailed
| Fatal.

#[export] Instance fault_eq_dec : EqDecision fault.
Proof. solve_decision. Defined.

(** The result of running a piece of Go code: a value, or a fault that takes
    the process down. *)
Inductive outcome (A : Type) : Type :=
| Ret (a : A)
| Panic (f : fault).
Arguments Ret {A} a.
Arguments Panic {A} f.

#[export] Instance outcome_ret : MRet outcome := fun A a => Ret a.
#[export] Instance outcome_bind : MBind outcome := fun A B k m =>
  match m with
  | Ret a => k a
  | Panic f => Panic f
  end.

#[export] Instance outcome_eq_dec `{EqDecision A} : EqDecision (outcome A).
Proof. solve_decision. Defined.

Definition returns {A} (m : outcome A) : Prop := exists a, m = Ret a.

(** *** int: 64-bit two's complement *)

Definition int_min : Z := - 2 ^ 63.
Definition int_max : Z := 2 ^ 63 - 1.
Definition is_int (z : Z) : Prop := int_min <= z <= int_max.
Definition wrap_int (z : Z) : Z := (z + 2 ^ 63) mod 2 ^ 64 - 2 ^ 63.

Notation "x +! y" := (wrap_int (x + y)) (at level 50, left associativity) : go_scope.
Notation "x *! y" := (wrap_int (x * y)) (at level 40, left associativity) : go_scope.

(** *** interface{}: the dynamic values the program stores in one *)

Inductive iface : Type :=
| INil
| IInt (z : Z)
| IString (s : string).

#[export] Instance iface_eq_dec : EqDecision iface.
Proof. solve_decision. Defined.

#[export] Instance iface_countable : Countable iface.
Proof.
  refine (inj_countable'
    (fun v => match v with
              | INil => inl tt
              | IInt z => inr (inl z)
              | IString s => inr (inr s)
              end)
    (fun c => match c with
              | inl tt => INil
              | inr (inl z) => IInt z
              | inr (inr s) => IString s
              end) _).
  by intros [].
Defined.

(** *** Slices

    A slice is a list of its elements.  No two slices of the modelled code
    share a backing array that one of them writes to: entries are copied into
    fresh slices and into RPC messages. *)

Section slices.
Context {A : Type}.
Implicit Types (l : list A) (i : Z) (x : A).

Definition len l : Z := Z.of_nat (length l).

Definition go_index l i : outcome A :=
  if decide (0 <= i) then
    match l !! Z.to_nat i with
    | Some x => Ret x
    | None => Panic IndexOutOfRange
    end
  else Panic IndexOutOfRange.

Definition go_store l i x : outcome (list A) :=
  if decide (0 <= i < len l) then Ret (<[Z.to_nat i := x]> l)
  else Panic IndexOutOfRange.

(** [l[:hi]]; Go bounds [hi] by the capacity, this definition by the
    length: every use below has [hi < len l]. *)
Definition go_slice_to l hi : outcome (list A) :=
  if decide (0 <= hi <= len l) then Ret (take (Z.to_nat hi) l)
  else Panic SliceOutOfRange.

Definition go_slice_from l lo : outcome (list A) :=
  if decide (0 <= lo <= len l) then Ret (drop (Z.to_nat lo) l)
  else Panic SliceOutOfRange.
End slices.

(** [copy(dst, src)]: the first [min(len dst, len src)] elements. *)
Definition go_copy {A} (dst src : list A) : list A :=
  take (length dst) src ++ drop (length src) dst.

(** [sort.Ints] *)
Definition sort_Ints (l : list Z) : list Z := merge_sort Z.le l.

(** *** Record update *)

Class Eta (R : Type) := eta_expand : R -> R.
Class Setter {R T : Type} (proj : R -> T) := set_field : (T -> T) -> R -> R.
Arguments set_field {R T} proj {_} _ _ / : simpl nomatch.

Ltac solve_setter :=
  match goal with
  | |- @Setter ?R ?T ?proj =>
      let e := constr:(ltac:(let i := constr:(_ : Eta R) in
                             let i := eval hnf in i in exact i) : R -> R) in
      let t := constr:(fun (f : T -> T) (r : R) =>
                 ltac:(let b := eval cbv beta in (e r) in
                       match eval pattern (proj r) in b with
                       | ?g _ => let b' := eval cbv beta in (g (f (proj r))) in exact b'
                       end)) in
      exact t
  end.

#[export] Hint Extern 1 (Setter _) => solve_setter : typeclass_instances.

Notation "r <| proj := v |>" := (set_field proj (fun _ => v) r)
  (at level 1, left associativity, proj at level 0) : go_scope.

(** ** Shared automation *)

Create HintDb go discriminated.
Create Rewrite HintDb go_len.

(** Split the conjunctions and existentials of the context. *)
Ltac split_hyps :=
  repeat match goal with
  | H : _ /\ _ |- _ => destruct H
  | H : exists _, _ |- _ => destruct H
  | H : returns _ |- _ => destruct H
  end.

(** Case on every boolean or [decide] test of the goal or of a hypothesis. *)
Ltac case_tests :=
  repeat (case_match; simplify_eq/=).

(** Turn the boolean comparisons of the context into their propositions. *)
Ltac bool_hyps :=
  rewrite ?andb_true_iff, ?andb_false_iff, ?orb_true_iff, ?orb_false_iff,
    ?negb_true_iff, ?negb_false_iff, ?Z.ltb_lt, ?Z.ltb_ge, ?Z.leb_le, ?Z.leb_gt,
    ?Z.eqb_eq, ?Z.eqb_neq, ?Z.gtb_lt, ?Z.geb_le in *.

(** Invert a chain of monadic binds that returned a value. *)
Ltac invert_bind :=
  repeat match goal with
  | H : mbind _ ?m = Ret _ |- _ =>
      let E := fresh "E" in
      destruct m eqn:E; [cbn in H | discriminate H]
  | H : Ret _ = Ret _ |- _ => injection H as H
  | H : Panic _ = Ret _ |- _ => discriminate H
  end; simplify_eq/=.

(** ** Integers *)

Lemma wrap_int_small z : is_int z -> wrap_int z = z.
Proof. unfold is_int, wrap_int, int_min, int_max. intros H. rewrite Z.mod_small; lia. Qed.

Lemma wrap_int_is_int z : is_int (wrap_int z).
Proof.
  unfold is_int, wrap_int, int_min, int_max.
  pose proof (Z.mod_pos_bound (z + 2 ^ 63) (2 ^ 64)). lia.
Qed.

(** ** Slices *)

Section slice_lemmas.
Context {A : Type}.
Implicit Types (l : list A) (i : Z) (x : A).

Lemma len_nonneg l : 0 <= len l.
Proof. unfold len. lia. Qed.

Lemma len_app l k : len (l ++ k) = len l + len k.
Proof. unfold len. rewrite length_app. lia. Qed.

Lemma len_cons x l : len (x :: l) = len l + 1.
Proof. unfold len. cbn [length]. lia. Qed.

Lemma len_nil : len (@nil A) = 0.
Proof. reflexivity. Qed.

Lemma len_snoc l x : len (l ++ [x]) = len l + 1.
Proof. rewrite len_app. done. Qed.

Lemma len_zero l : len l = 0 -> l = [].
Proof. destruct l; [done|]. unfold len. cbn. lia. Qed.

Lemma len_take l n : 0 <= n <= len l -> len (take (Z.to_nat n) l) = n.
Proof. unfold len. intros. rewrite length_take. lia. Qed.

Lemma go_index_Ret l i x :
  go_index l i = Ret x <-> 0 <= i /\ l !! Z.to_nat i = Some x.
Proof. unfold go_index. case_decide; [case_match|]; naive_solver. Qed.

Lemma go_index_lt l i x : go_index l i = Ret x -> 0 <= i < len l.
Proof.
  rewrite go_index_Ret. intros [? H%lookup_lt_Some]. unfold len. lia.
Qed.

Lemma go_index_in l i : 0 <= i < len l -> exists x, go_index l i = Ret x.
Proof.
  intros H. destruct (lookup_lt_is_Some_2 l (Z.to_nat i)) as [x Hx]; [unfold len in H; lia|].
  exists x. apply go_index_Ret. split; [lia|done].
Qed.

Lemma go_index_out l i : ~ (0 <= i < len l) -> go_index l i = Panic IndexOutOfRange.
Proof.
  intros H. unfold go_index. case_decide; [|done].
  rewrite lookup_ge_None_2; [done|]. unfold len in H. lia.
Qed.

Lemma go_store_in l i x :
  0 <= i < len l -> go_store l i x = Ret (<[Z.to_nat i := x]> l).
Proof. intros. unfold go_store. by rewrite decide_True. Qed.

Lemma go_slice_to_in l hi : 0 <= hi <= len l -> go_slice_to l hi = Ret (take (Z.to_nat hi) l).
Proof. intros. unfold go_slice_to. by rewrite decide_True. Qed.

Lemma go_slice_from_in l lo : 0 <= lo <= len l -> go_slice_from l lo = Ret (drop (Z.to_nat lo) l).
Proof. intros. unfold go_slice_from. by rewrite decide_True. Qed.
End slice_lemmas.

#[export] Hint Resolve len_nonneg wrap_int_is_int : go.
#[export] Hint Rewrite @len_app @len_cons @len_nil : go_len.

Lemma sort_Ints_Permutation l : sort_Ints l ≡ₚ l.
Proof. apply merge_sort_Permutation. Qed.

Lemma sort_Ints_StronglySorted l : StronglySorted Z.le (sort_Ints l).
Proof. apply (StronglySorted_merge_sort _). Qed.

Lemma go_copy_same {A} (dst src : list A) : length dst = length src -> go_copy dst src = src.
Proof.
  intros H. unfold go_copy. rewrite take_ge by lia. rewrite drop_ge by lia.
  apply app_nil_r.
Qed.

(** In a sorted list, the elements from position [k] on are all at least the
    one at [k]. *)
Lemma StronglySorted_count_ge (l : list Z) (k : nat) (x : Z) :
  StronglySorted Z.le l -> l !! k = Some x ->
  (length l - k <= length (filter (Z.le x) l))%nat.
Proof.
  intros Hs Hk.
  rewrite <- (take_drop k l) at 2. rewrite filter_app, length_app.
  enough (filter (Z.le x) (drop k l) = drop k l) as ->.
  { rewrite length_drop. lia. }
  rewrite <- (take_drop_middle l k x Hk) in Hs. 
  apply StronglySorted_app_1_r in Hs. apply StronglySorted_inv in Hs as [_ Hs].
  rewrite (drop_S l x) by done. rewrite filter_cons_True by lia. f_equal.
  clear Hk. induction Hs as [|y l' Hy Hs IH]; [done|].
  rewrite filter_cons_True by done. by f_equal.
Qed.

Lemma sort_Ints_count_ge (l : list Z) (k : nat) (x : Z) :
  sort_Ints l !! k = Some x ->
  (length l - k <= length (filter (Z.le x) l))%nat.
Proof.
  intros Hk. pose proof (StronglySorted_count_ge _ _ _ (sort_Ints_StronglySorted l) Hk) as H.
  assert (filter (Z.le x) (sort_Ints l) ≡ₚ filter (Z.le x) l) as Hf.
  { by rewrite sort_Ints_Permutation. }
  rewrite (Permutation_length (sort_Ints_Permutation l)), (Permutation_length Hf) in H. done.
Qed.

(** And those at most [k] are at most the one at [k]. *)
Lemma StronglySorted_count_gt (l : list Z) (k : nat) (x y : Z) :
  StronglySorted Z.le l -> l !! k = Some x -> x < y ->
  (length (filter (Z.le y) l) < length l - k)%nat.
Proof.
  intros Hs. revert k. induction Hs as [|z l Hs IH Hz]; intros k Hk Hy; [done|].
  rewrite filter_cons. destruct k as [|k]; cbn in Hk.
  - injection Hk as ->. rewrite decide_False by lia. cbn. pose proof (length_filter (Z.le y) l). lia.
  - pose proof (lookup_lt_Some _ _ _ Hk). rewrite decide_False.
    + cbn. by apply IH.
    + rewrite Forall_forall in Hz. specialize (Hz x (list_elem_of_lookup_2 _ _ _ Hk)). lia.
Qed.

(** The element at [k] of the sorted list, by counting. *)
Lemma sort_Ints_count (l : list Z) (k : nat) (x y : Z) :
  sort_Ints l !! k = Some x ->
  (length l - k <= length (filter (Z.le y) l))%nat <-> y <= x.
Proof.
  intros Hk. split.
  - intros Hc. destruct (Z.le_gt_cases y x) as [|Hlt]; [done|exfalso].
    pose proof (StronglySorted_count_gt _ _ _ y (sort_Ints_StronglySorted l) Hk ltac:(lia)) as H.
    assert (filter (Z.le y) (sort_Ints l) ≡ₚ filter (Z.le y) l) as Hf by by rewrite sort_Ints_Permutation.
    rewrite (Permutation_length (sort_Ints_Permutation l)), (Permutation_length Hf) in H. lia.
  - intros Hle. apply sort_Ints_count_ge in Hk. etrans; [exact Hk|].
    clear Hk. induction l as [|z l IH]; [done|]. rewrite !filter_cons.
    repeat case_decide; cbn; lia.
Qed.

Lemma sort_Ints_unique l k : StronglySorted Z.le k -> l ≡ₚ k -> sort_Ints l = k.
Proof.
  intros Hk Hp. apply (StronglySorted_unique Z.le); [apply sort_Ints_StronglySorted|done|].
  by rewrite sort_Ints_Permutation.
Qed.

(** *** Sums and wrap-around *)

Lemma wrap_int_add a b : wrap_int (wrap_int a + b) = wrap_int (a + b).
Proof.
  unfold wrap_int.
  replace ((a + 2 ^ 63) mod 2 ^ 64 - 2 ^ 63 + b + 2 ^ 63) with ((a + 2 ^ 63) mod 2 ^ 64 + b) by lia.
  rewrite Z.add_mod_idemp_l by done. do 2 f_equal. lia.
Qed.

(** A sum over a list. *)
Definition zsum {A} (f : A -> Z) (l : list A) : Z := foldr (fun x acc => f x + acc) 0 l.

Lemma zsum_app {A} (f : A -> Z) l1 l2 : zsum f (l1 ++ l2) = zsum f l1 + zsum f l2.
Proof. induction l1 as [|x l1 IH]; cbn; [done|]. fold (zsum f (l1 ++ l2)). rewrite IH. unfold zsum. lia. Qed.

Lemma zsum_insert {A} (f : A -> Z) l k x y :
  l !! k = Some x -> zsum f (<[k := y]> l) = zsum f l + (f y - f x).
Proof.
  revert k. induction l as [|z l IH]; intros [|k] Hk; try done.
  - injection Hk as ->. cbn. lia.
  - change (f z + zsum f (<[k := y]> l) = f z + zsum f l + (f y - f x)). rewrite (IH k Hk). lia.
Qed.

Lemma zsum_ext {A} (f g : A -> Z) l : (forall x, x ∈ l -> f x = g x) -> zsum f l = zsum g l.
Proof.
  intros Hfg. induction l as [|x l IH]; [done|].
  change (f x + zsum f l = g x + zsum g l). rewrite IH; [|intros; apply Hfg; by right].
  rewrite Hfg; [done|by left].
Qed.

(** [f] and [g] differ at one element only. *)
Lemma zsum_change {A} (f g : A -> Z) l x :
  NoDup l -> x ∈ l -> (forall y, y <> x -> f y = g y) -> zsum f l = zsum g l + (f x - g x).
Proof.
  intros Hnd Hx Hfg. induction Hnd as [|y l Hy Hnd IH]; [by apply not_elem_of_nil in Hx|].
  change (f y + zsum f l = g y + zsum g l + (f x - g x)).
  apply elem_of_cons in Hx as [->|Hx].
  - rewrite (zsum_ext f g l); [lia|]. intros z Hz. apply Hfg. by intros ->.
  - rewrite (IH Hx), (Hfg y); [lia|]. by intros ->.
Qed.

(** *** Loops *)

(** [for x in l { s = f(x, s) }] *)
Fixpoint for_each {A S} (l : list A) (f : A -> S -> outcome S) (s : S) : outcome S :=
  match l with
  | [] => Ret s
  | x :: l => s ← f x s; for_each l f s
  end.

(** [for j := 0; j < n; j++] *)
Definition for_range {S} (n : nat) (f : Z -> S -> outcome S) (s : S) : outcome S :=
  for_each (seqZ 0 (Z.of_nat n)) f s.

Lemma bind_Ret {A B} (m : outcome A) (k : A -> outcome B) b :
  (x ← m; k x) = Ret b <-> exists a, m = Ret a /\ k a = Ret b.
Proof.
  destruct m as [a|f]; cbn [mbind outcome_bind]; split; try done.
  - by exists a.
  - by intros (a' & [= ->] & Hk).
  - by intros (a' & ? & _).
Qed.

Lemma for_each_ext {A S} (l : list A) (f g : A -> S -> outcome S) s :
  (forall x s, x ∈ l -> f x s = g x s) -> for_each l f s = for_each l g s.
Proof.
  revert s. induction l as [|x l IH]; intros s Hfg; cbn [for_each]; [done|].
  rewrite Hfg by (by left). destruct (g x s) as [s'|]; [|done].
  apply IH. intros y t Hy. apply Hfg. by right.
Qed.

Lemma for_each_inv {A S} (I : S -> Prop) (l : list A) (f : A -> S -> outcome S) s s' :
  (forall x s s', x ∈ l -> I s -> f x s = Ret s' -> I s') ->
  I s -> for_each l f s = Ret s' -> I s'.
Proof.
  revert s. induction l as [|x l IH]; intros s Hf Hs; cbn [for_each].
  { by intros [= <-]. }
  intros (s1 & H1 & H2)%bind_Ret. apply (IH s1); [|eapply Hf; [by left|done|done]|done].
  intros y t t' Hy. apply Hf. by right.
Qed.
