(* ===== verification/Gob.v ===== *)
(** * encoding/gob: the wire format the persisted state is written in

    [rf.persist] writes four integers and the log with an encoding/gob encoder
    and [rf.readPersist] reads them back.  This file models the part of the
    format those calls use: variable-length unsigned integers, zigzag signed
    integers, length-framed messages, type-definition messages in front of a
    value of a user-defined type, omitted zero fields of a struct, and
    interface values (name, type id, length-framed payload).

    A type's identifier is assigned when the process first uses the type, so
    the identifier of []LogEntry and the messages that define it are a
    parameter, [GobTypes]. *)

From S2P Require Import Prelude.

(** A byte is an integer in 0..255. *)
Definition is_byte (b : Z) : Prop := 0 <= b < 256.

(** ** Unsigned integers

    One byte below 128; otherwise the number of bytes, negated, and the
    big-endian bytes without leading zeroes. *)

Fixpoint be_bytes (fuel : nat) (x : Z) (acc : list Z) : list Z :=
  match fuel with
  | O => acc
  | S fuel => if x =? 0 then acc else be_bytes fuel (x / 256) (x mod 256 :: acc)
  end.

Definition be_value (bs : list Z) : Z := fold_left (fun v b => v * 256 + b) bs 0.

Definition enc_uint (x : Z) : list Z :=
  if x <? 128 then [x]
  else let bs := be_bytes 8 x [] in (256 - len bs) :: bs.

Definition dec_uint (s : list Z) : option (Z * list Z) :=
  match s with
  | [] => None
  | b :: s =>
      if b <? 128 then Some (b, s)
      else
        let n := Z.to_nat (256 - b) in
        if decide ((n <= 8 /\ n <= length s)%nat) then Some (be_value (take n s), drop n s)
        else None
  end.

(** ** Signed integers: the low bit is the sign, the rest the complemented or
    plain magnitude. *)

Definition zigzag (i : Z) : Z :=
  if i <? 0 then Z.lor (Z.shiftl (Z.lnot i) 1) 1 else Z.shiftl i 1.

Definition unzigzag (u : Z) : Z :=
  if Z.odd u then Z.lnot (Z.shiftr u 1) else Z.shiftr u 1.

Definition enc_int (i : Z) : list Z := enc_uint (zigzag i).

Definition dec_int (s : list Z) : option (Z * list Z) :=
  '(u, s) ← dec_uint s; Some (unzigzag u, s).

(** ** Byte strings *)

Definition enc_bytes (b : list Z) : list Z := enc_uint (len b) ++ b.

Definition dec_bytes (s : list Z) : option (list Z * list Z) :=
  '(n, s) ← dec_uint s;
  if decide (n <= len s) then Some (take (Z.to_nat n) s, drop (Z.to_nat n) s) else None.

Fixpoint string_bytes (s : string) : list Z :=
  match s with
  | EmptyString => []
  | String c s => Z.of_N (Ascii.N_of_ascii c) :: string_bytes s
  end.

Fixpoint bytes_string (b : list Z) : string :=
  match b with
  | [] => EmptyString
  | c :: b => String (Ascii.ascii_of_N (Z.to_N c)) (bytes_string b)
  end.

(** ** Interface values

    The registered name of the dynamic type, its type id, and the value as a
    length-framed message; the pre-registered basic types int (id 2) and
    string (id 6). *)

Definition int_id : Z := 2.
Definition string_id : Z := 6.
Definition int_name : list Z := string_bytes "int".
Definition string_name : list Z := string_bytes "string".

Definition enc_iface (v : iface) : list Z :=
  match v with
  | INil => enc_uint 0
  | IInt z => enc_bytes int_name ++ enc_int int_id ++ enc_bytes (0 :: enc_int z)
  | IString s => enc_bytes string_name ++ enc_int string_id ++
                 enc_bytes (0 :: enc_bytes (string_bytes s))
  end.

Definition dec_iface (s : list Z) : option (iface * list Z) :=
  '(name, s) ← dec_bytes s;
  if decide (name = []) then Some (INil, s)
  else
    '(id, s) ← dec_int s;
    '(payload, s) ← dec_bytes s;
    match payload with
    | 0 :: body =>
        if decide (name = int_name /\ id = int_id) then
          '(z, r) ← dec_int body; if decide (r = []) then Some (IInt z, s) else None
        else if decide (name = string_name /\ id = string_id) then
          '(b, r) ← dec_bytes body;
          if decide (r = []) then Some (IString (bytes_string b), s) else None
        else None
    | _ => None
    end.

(** ** Messages

    A stream is a sequence of length-framed messages.  A message starts with
    a type id: a negative one defines a type, any other one carries a value. *)

Definition tooBig : Z := 2 ^ 33.

(** A message of [tooBig] bytes or more is an encoding error: nothing is
    written. *)
Definition enc_message (id : Z) (body : list Z) : list Z :=
  let m := enc_int id ++ body in
  if len m <? tooBig then enc_bytes m else [].

Definition dec_message (s : list Z) : option (list Z * list Z) :=
  '(m, s) ← dec_bytes s;
  if len m <? tooBig then Some (m, s) else None.

(** Skip type definitions up to the next value message.  [fuel] bounds the
    number of messages skipped; every message takes at least one byte. *)
Fixpoint next_value (fuel : nat) (s : list Z) : option (Z * list Z * list Z) :=
  match fuel with
  | O => None
  | S fuel =>
      '(m, s) ← dec_message s;
      '(id, body) ← dec_int m;
      if id <? 0 then next_value fuel s else Some (id, body, s)
  end.

Definition read_value (s : list Z) : option (Z * list Z * list Z) := next_value (length s) s.

(** [e.Encode(i)] and [d.Decode(&i)] of an int. *)
Definition gob_encode_int (i : Z) : list Z := enc_message int_id (0 :: enc_int i).

Definition gob_decode_int (s : list Z) : option Z * list Z :=
  match read_value s with
  | None => (None, [])
  | Some (id, body, s) =>
      (match body with
       | 0 :: body =>
           if id =? int_id then '(i, r) ← dec_int body; if decide (r = []) then Some i else None
           else None
       | _ => None
       end, s)
  end.

(** ** Lemmas *)

Lemma be_bytes_length fuel x acc :
  (length (be_bytes fuel x acc) <= fuel + length acc)%nat.
Proof.
  revert x acc. induction fuel as [|fuel IH]; intros x acc; cbn; [lia|].
  destruct (x =? 0); [lia|]. specialize (IH (x / 256) (x mod 256 :: acc)). cbn in IH. lia.
Qed.

Lemma be_bytes_nonempty fuel x acc :
  0 < x -> (0 < fuel)%nat -> (0 < length (be_bytes fuel x acc))%nat.
Proof.
  intros Hx Hf. destruct fuel as [|fuel]; [lia|]. cbn.
  destruct (Z.eqb_spec x 0); [lia|].
  enough (forall f y a, (length a <= length (be_bytes f y a))%nat) as Hmono.
  { specialize (Hmono fuel (x / 256) (x mod 256 :: acc)). cbn in Hmono. lia. }
  clear. induction f as [|f IH]; intros y a; cbn; [lia|].
  destruct (y =? 0); [lia|]. specialize (IH (y / 256) (y mod 256 :: a)). cbn in IH. lia.
Qed.

Lemma be_bytes_value fuel x acc v :
  0 <= x < 256 ^ Z.of_nat fuel ->
  fold_left (fun v b => v * 256 + b) (be_bytes fuel x acc) 0 = v <->
  fold_left (fun v b => v * 256 + b) acc x = v.
Proof.
  revert x acc. induction fuel as [|fuel IH]; intros x acc Hx.
  { cbn in Hx |- *. replace x with 0 by lia. done. }
  cbn [be_bytes]. destruct (Z.eqb_spec x 0) as [->|Hn]; [done|].
  rewrite IH.
  2:{ rewrite Nat2Z.inj_succ, Z.pow_succ_r in Hx by lia.
      split; [apply Z.div_pos; lia | apply Z.div_lt_upper_bound; lia]. }
  cbn. by replace (x / 256 * 256 + x mod 256) with x
    by (rewrite Z.mul_comm; apply Z.div_mod; lia).
Qed.

Lemma be_value_bytes x : 0 <= x < 2 ^ 64 -> be_value (be_bytes 8 x []) = x.
Proof. intros H. unfold be_value. by apply (be_bytes_value 8 x []). Qed.

Lemma dec_enc_uint x s : 0 <= x < 2 ^ 64 -> dec_uint (enc_uint x ++ s) = Some (x, s).
Proof.
  intros H. unfold enc_uint.
  destruct (Z.ltb_spec x 128) as [Hs|Hs].
  { cbn. by rewrite (proj2 (Z.ltb_lt x 128)). }
  pose proof (be_bytes_length 8 x []) as Hl.
  pose proof (be_bytes_nonempty 8 x [] ltac:(lia) ltac:(lia)) as Hp.
  pose proof (be_value_bytes x H) as Hv.
  cbv zeta. revert Hl Hp Hv. generalize (be_bytes 8 x []). intros bs Hl Hp Hv.
  cbn [length] in Hl.
  cbn [dec_uint app]. unfold len.
  rewrite (proj2 (Z.ltb_ge _ 128)) by lia.
  replace (Z.to_nat (256 - (256 - Z.of_nat (length bs)))) with (length bs) by lia.
  rewrite decide_True by (rewrite length_app; lia).
  by rewrite take_app_length, drop_app_length, Hv.
Qed.

Lemma zigzag_arith i : zigzag i = if i <? 0 then 1 + 2 * (- i - 1) else 0 + 2 * i.
Proof.
  unfold zigzag. rewrite !Z.shiftl_mul_pow2 by lia. change (2 ^ 1) with 2.
  destruct (Z.ltb_spec i 0); [|lia].
  replace (Z.lnot i) with (- i - 1) by (unfold Z.lnot; lia).
  assert (0 <= - i - 1) as Hp by lia. revert Hp. generalize (- i - 1). intros j Hj.
  rewrite (Z.mul_comm j), (Z.add_comm 1). destruct j; [done..|lia].
Qed.

Lemma unzigzag_arith (b : Z) j :
  b = 0 \/ b = 1 -> unzigzag (b + 2 * j) = if b =? 0 then j else - j - 1.
Proof.
  intros Hb. unfold unzigzag. rewrite Z.odd_add_mul_2, Z.shiftr_div_pow2 by lia.
  change (2 ^ 1) with 2. rewrite (Z.mul_comm 2 j), Z.div_add by lia.
  destruct Hb as [-> | ->]; cbn [Z.odd Z.eqb Pos.eqb].
  - change (0 / 2) with 0. lia.
  - change (1 / 2) with 0. unfold Z.lnot. lia.
Qed.

Lemma unzigzag_zigzag i : unzigzag (zigzag i) = i.
Proof.
  rewrite zigzag_arith. destruct (Z.ltb_spec i 0); rewrite unzigzag_arith by auto;
    cbn [Z.eqb]; lia.
Qed.

Lemma zigzag_bounds i : is_int i -> 0 <= zigzag i < 2 ^ 64.
Proof.
  rewrite zigzag_arith. unfold is_int, int_min, int_max.
  destruct (Z.ltb_spec i 0); lia.
Qed.

Lemma dec_enc_int i s : is_int i -> dec_int (enc_int i ++ s) = Some (i, s).
Proof.
  intros H. unfold dec_int, enc_int. rewrite dec_enc_uint by by apply zigzag_bounds.
  cbn. by rewrite unzigzag_zigzag.
Qed.

Lemma dec_enc_bytes b s : len b < 2 ^ 64 -> dec_bytes (enc_bytes b ++ s) = Some (b, s).
Proof.
  intros H. unfold dec_bytes, enc_bytes. rewrite <- app_assoc.
  rewrite dec_enc_uint by (pose proof (len_nonneg b); lia). cbn.
  unfold len. rewrite decide_True by (rewrite length_app; lia).
  by rewrite Nat2Z.id, take_app_length, drop_app_length.
Qed.

Lemma bytes_string_bytes s : bytes_string (string_bytes s) = s.
Proof.
  induction s as [|c s IH]; cbn; [done|].
  by rewrite N2Z.id, Ascii.ascii_N_embedding, IH.
Qed.

(** Sizes, to discharge the bounds of the round trips. *)
Lemma enc_uint_len x : 1 <= len (enc_uint x) <= 9.
Proof.
  unfold enc_uint. destruct (x <? 128); [unfold len; cbn [length]; lia|].
  pose proof (be_bytes_length 8 x []). unfold len. cbn [length] in *. lia.
Qed.

Lemma enc_bytes_len b : len b + 1 <= len (enc_bytes b) <= len b + 9.
Proof. unfold enc_bytes. rewrite len_app. pose proof (enc_uint_len (len b)). lia. Qed.

Lemma enc_int_len i : 1 <= len (enc_int i) <= 9.
Proof. apply enc_uint_len. Qed.

(** The dynamic values an interface can be sent with: ints in range, strings
    whose length a length prefix can hold. *)
Definition iface_ok (v : iface) : Prop :=
  match v with
  | INil => True
  | IInt z => is_int z
  | IString s => len (string_bytes s) < 2 ^ 63
  end.

Lemma is_int_small z : 0 <= z < 2 ^ 63 -> is_int z.
Proof. unfold is_int, int_min, int_max. lia. Qed.

Lemma dec_enc_iface v s : iface_ok v -> dec_iface (enc_iface v ++ s) = Some (v, s).
Proof.
  intros H. destruct v as [|z|str]; unfold dec_iface, enc_iface; cbn [iface_ok] in H.
  - change (enc_uint 0) with (enc_bytes []). by rewrite dec_enc_bytes.
  - rewrite <- !app_assoc.
    rewrite dec_enc_bytes by done. cbn [mbind option_bind].
    rewrite decide_False by done.
    rewrite dec_enc_int by by apply is_int_small. cbn [mbind option_bind].
    rewrite dec_enc_bytes by (rewrite len_cons; pose proof (enc_int_len z); lia).
    cbn [mbind option_bind].
    rewrite decide_True by done.
    rewrite <- (app_nil_r (enc_int z)), dec_enc_int by done.
    cbn [mbind option_bind]. by rewrite decide_True.
  - rewrite <- !app_assoc.
    rewrite dec_enc_bytes by done. cbn [mbind option_bind].
    rewrite decide_False by done.
    rewrite dec_enc_int by by apply is_int_small. cbn [mbind option_bind].
    pose proof (enc_bytes_len (string_bytes str)).
    rewrite dec_enc_bytes by (rewrite len_cons; lia).
    cbn [mbind option_bind].
    rewrite decide_False by (intros [? _]; done). rewrite decide_True by done.
    rewrite <- (app_nil_r (enc_bytes _)), dec_enc_bytes by lia.
    cbn [mbind option_bind]. rewrite decide_True by done. by rewrite bytes_string_bytes.
Qed.

(** A message that fits: what the encoder writes and the decoder accepts. *)
Definition message_fits (id : Z) (body : list Z) : Prop :=
  is_int id /\ len (enc_int id ++ body) < tooBig.

Lemma dec_enc_message id body s :
  message_fits id body ->
  dec_message (enc_message id body ++ s) = Some (enc_int id ++ body, s).
Proof.
  intros [Hid Hl]. unfold dec_message, enc_message. cbv zeta.
  rewrite (proj2 (Z.ltb_lt _ _) Hl).
  rewrite dec_enc_bytes by (unfold tooBig in Hl; lia). cbn [mbind option_bind].
  by rewrite (proj2 (Z.ltb_lt _ _) Hl).
Qed.

Lemma enc_message_length id body :
  message_fits id body -> (0 < length (enc_message id body))%nat.
Proof.
  intros [Hid Hl]. unfold enc_message. cbv zeta. rewrite (proj2 (Z.ltb_lt _ _) Hl).
  pose proof (enc_bytes_len (enc_int id ++ body)) as H.
  pose proof (len_nonneg (enc_int id ++ body)). unfold len in *. lia.
Qed.

(** ** Run-time type identifiers

    The type id of []LogEntry and the (id, body) of the messages that define
    it and the types it mentions. *)

Class GobTypes := {
  log_type_id : Z;
  log_typedefs : list (Z * list Z);
}.

(** What encoding/gob documents of them: a user type's id is positive and
    outside the ids of the basic types, and a definition carries the negated
    id of the type it defines. *)
Class GobTypesOk {GT : GobTypes} : Prop := {
  log_type_id_range : 64 <= log_type_id < 2 ^ 63;
  log_typedefs_negative : Forall (fun d => d.1 < 0) log_typedefs;
  log_typedefs_fit : Forall (fun d => message_fits d.1 d.2) log_typedefs;
}.

Definition enc_typedefs (ds : list (Z * list Z)) : list Z :=
  concat (map (fun d => enc_message d.1 d.2) ds).

Lemma next_value_message fuel id body s :
  message_fits id body -> 0 <= id ->
  next_value (S fuel) (enc_message id body ++ s) = Some (id, body, s).
Proof.
  intros Hf Hid. cbn [next_value]. rewrite dec_enc_message by done. cbn [mbind option_bind].
  rewrite dec_enc_int by apply Hf. cbn [mbind option_bind].
  by rewrite (proj2 (Z.ltb_ge _ _) Hid).
Qed.

Lemma next_value_typedefs ds fuel id body s :
  Forall (fun d => d.1 < 0) ds -> Forall (fun d => message_fits d.1 d.2) ds ->
  message_fits id body -> 0 <= id -> (length ds < fuel)%nat ->
  next_value fuel (enc_typedefs ds ++ enc_message id body ++ s) = Some (id, body, s).
Proof.
  intros Hneg Hfit Hf Hid. revert fuel.
  induction ds as [|[i b] ds IH]; intros [|fuel] Hfuel; cbn in Hfuel; try lia.
  { by apply next_value_message. }
  apply Forall_cons in Hneg as [Hi Hneg]. apply Forall_cons in Hfit as [Hb Hfit].
  cbn in Hi, Hb. unfold enc_typedefs. cbn [map concat fst snd]. rewrite <- app_assoc.
  cbn [next_value]. rewrite dec_enc_message by done. cbn [mbind option_bind].
  rewrite dec_enc_int by apply Hb. cbn [mbind option_bind].
  rewrite (proj2 (Z.ltb_lt _ _) Hi). apply IH; auto. lia.
Qed.

Lemma enc_typedefs_length ds :
  Forall (fun d => message_fits d.1 d.2) ds -> (length ds <= length (enc_typedefs ds))%nat.
Proof.
  induction 1 as [|[i b] ds Hd _ IH]; cbn; [lia|].
  rewrite length_app. pose proof (enc_message_length i b Hd).
  unfold enc_typedefs in IH. lia.
Qed.

Lemma read_value_typedefs ds id body s :
  Forall (fun d => d.1 < 0) ds -> Forall (fun d => message_fits d.1 d.2) ds ->
  message_fits id body -> 0 <= id ->
  read_value (enc_typedefs ds ++ enc_message id body ++ s) = Some (id, body, s).
Proof.
  intros. unfold read_value. apply next_value_typedefs; auto.
  rewrite !length_app. pose proof (enc_typedefs_length ds ltac:(done)).
  pose proof (enc_message_length id body ltac:(done)). lia.
Qed.

Lemma read_value_message id body s :
  message_fits id body -> 0 <= id ->
  read_value (enc_message id body ++ s) = Some (id, body, s).
Proof. intros. by apply (read_value_typedefs []). Qed.

Lemma int_message_fits i : message_fits int_id (0 :: enc_int i).
Proof.
  split; [by apply is_int_small|]. rewrite len_app, len_cons.
  pose proof (enc_int_len i). pose proof (enc_int_len int_id). unfold tooBig. lia.
Qed.

Lemma gob_decode_encode_int i s :
  is_int i -> gob_decode_int (gob_encode_int i ++ s) = (Some i, s).
Proof.
  intros H. unfold gob_decode_int, gob_encode_int.
  rewrite read_value_message by (done || apply int_message_fits).
  rewrite <- (app_nil_r (enc_int i)), dec_enc_int by done. done.
Qed.

(** The identifiers of a process that has sent no other user-defined type:
    LogEntry is 65, []LogEntry is 66. *)
Definition first_types : GobTypes := {|
  log_type_id := 66;
  log_typedefs :=
    [(-66, [2; 1; 2; 255; 132; 0; 1; 255; 130; 0; 0]);
     (-65, [3; 1; 1; 8] ++ string_bytes "LogEntry" ++ [1; 255; 130; 0; 1; 2; 1; 7] ++
           string_bytes "Command" ++ [1; 16; 0; 1; 4] ++ string_bytes "Term" ++ [1; 4; 0; 0; 0])]
|}.

Lemma first_types_ok : @GobTypesOk first_types.
Proof.
  constructor; cbn [log_type_id log_typedefs first_types].
  - lia.
  - repeat constructor.
  - repeat constructor; try done; unfold int_min, int_max; lia.
Qed.
