(* ===== verification/PersisterModel.v ===== *)
(** * raft/persister.go: the holder of a peer's persisted state

    A [Persister] holds the bytes last saved by the Raft instance and by the
    service above it.  Every method takes the object's mutex for its whole
    body, so each is one atomic operation on the record. *)

From S2P Require Import Prelude.
Open Scope go_scope.

Record Persister := mkPersister {
  raftstate : list Z;
  snapshot : list Z;
}.

#[export] Instance Persister_eta : Eta Persister :=
  fun ps => mkPersister (raftstate ps) (snapshot ps).

#[export] Instance Persister_eq_dec : EqDecision Persister.
Proof. solve_decision. Defined.

(** A nil slice is the empty list. *)
Definition MakePersister : Persister := mkPersister [] [].

Definition Copy (ps : Persister) : Persister :=
  let np := MakePersister in
  np <| raftstate := raftstate ps |> <| snapshot := snapshot ps |>.

Definition SaveRaftState (ps : Persister) (state : list Z) : Persister :=
  ps <| raftstate := state |>.

Definition ReadRaftState (ps : Persister) : list Z := raftstate ps.

Definition RaftStateSize (ps : Persister) : Z := len (raftstate ps).

Definition SaveStateAndSnapshot (ps : Persister) (state snap : list Z) : Persister :=
  ps <| raftstate := state |> <| snapshot := snap |>.

Definition ReadSnapshot (ps : Persister) : list Z := snapshot ps.

Definition SnapshotSize (ps : Persister) : Z := len (snapshot ps).
