(* ===== verification/RaftState.v ===== *)
(** * raft/raft.go: the state of a peer, its persistence and its conversions

    The data types of raft.go, the gob encoding of the fields [persist] saves,
    and the operations that the RPC handlers and the background goroutines
    share: [persist], [readPersist], [convertToFollower],
    [convertToCandidate], [convertToLeader], [startApplyLogs], [GetState],
    [Start], [Kill], [killed] and [Make]. *)

From S2P Require Import Prelude Gob PersisterModel.
Open Scope go_scope.

(** ** Data *)

Record ApplyMsg := mkApplyMsg {
  CommandValid : bool;
  msg_Command : iface;
  CommandIndex : Z;
}.

Record LogEntry := mkLogEntry {
  Command : iface;
  Term : Z;
}.

#[export] Instance ApplyMsg_eq_dec : EqDecision ApplyMsg.
Proof. solve_decision. Defined.
#[export] Instance LogEntry_eq_dec : EqDecision LogEntry.
Proof. solve_decision. Defined.

(** The int constants Follower, Candidate and Leader. *)
Inductive ServerState := Follower | Candidate | Leader.

#[export] Instance ServerState_eq_dec : EqDecision ServerState.
Proof. solve_decision. Defined.

(** A [time.Timer]: whether it is running, and whether a tick waits in its
    channel (of capacity one).  Durations are not modelled: a running timer
    may fire at any moment. *)
Record Timer := mkTimer {
  armed : bool;
  ticked : bool;
}.

(** One of the unbuffered notification channels.  Each notification is a
    goroutine that first tries to receive from the channel without blocking
    and then sends; [starting] counts those that have not done the first
    part, [sending] those that are at the send. *)
Record NotifyCh := mkNotifyCh {
  starting : nat;
  sending : nat;
}.

Record Raft := mkRaft {
  peers : nat; (* len(rf.peers) *)
  persister : Persister;
  me : Z;
  dead : Z;
  currentTerm : Z;
  votedFor : Z;
  log : list LogEntry;
  committedIndex : Z;
  lastApplied : Z;
  nextIndex : list Z;
  matchIndex : list Z;
  state : ServerState;
  applyCh : list ApplyMsg; (* the messages sent on it so far *)
  timer : Timer;
  grantVoteCh : NotifyCh;
  heartBeatCh : NotifyCh;
  leaderCh : NotifyCh;
  voteGranted : Z;
  voteNotGranted : Z;
}.

#[export] Instance Raft_eta : Eta Raft := fun rf =>
  mkRaft (peers rf) (persister rf) (me rf) (dead rf) (currentTerm rf) (votedFor rf)
    (log rf) (committedIndex rf) (lastApplied rf) (nextIndex rf) (matchIndex rf)
    (state rf) (applyCh rf) (timer rf) (grantVoteCh rf) (heartBeatCh rf) (leaderCh rf)
    (voteGranted rf) (voteNotGranted rf).

(** Reduce reads of an updated peer; all projections go at once, since a
    partly reduced chain of updates grows exponentially. *)
Ltac raft_simpl :=
  cbn [set_field peers persister me dead currentTerm votedFor log committedIndex lastApplied
       nextIndex matchIndex state applyCh timer grantVoteCh heartBeatCh leaderCh
       voteGranted voteNotGranted].
Ltac raft_simpl_in H :=
  cbn [set_field peers persister me dead currentTerm votedFor log committedIndex lastApplied
       nextIndex matchIndex state applyCh timer grantVoteCh heartBeatCh leaderCh
       voteGranted voteNotGranted] in H.

(** ** The gob encoding of the log

    A struct is its non-zero fields, each preceded by the distance from the
    previous field sent, and a zero; a slice is its length and its elements. *)

Definition enc_entry (e : LogEntry) : list Z :=
  let c := decide (Command e = INil) in
  (if c then [] else enc_uint 1 ++ enc_iface (Command e)) ++
  (if decide (Term e = 0) then []
   else enc_uint (if c then 2 else 1) ++ enc_int (Term e)) ++
  enc_uint 0.

(** [fieldnum] is the last field read, [-1] at the start; two fields and the
    end marker are at most three rounds. *)
Fixpoint dec_fields (fuel : nat) (fieldnum : Z) (e : LogEntry) (s : list Z) :
    option (LogEntry * list Z) :=
  match fuel with
  | O => None
  | S fuel =>
      '(delta, s) ← dec_uint s;
      if delta =? 0 then Some (e, s)
      else
        let fieldnum := fieldnum + delta in
        if fieldnum =? 0 then
          '(c, s) ← dec_iface s; dec_fields fuel fieldnum (mkLogEntry c (Term e)) s
        else if fieldnum =? 1 then
          '(t, s) ← dec_int s; dec_fields fuel fieldnum (mkLogEntry (Command e) t) s
        else None
  end.

Definition dec_entry (s : list Z) : option (LogEntry * list Z) :=
  dec_fields 3 (-1) (mkLogEntry INil 0) s.

Fixpoint dec_entries (n : nat) (s : list Z) : option (list LogEntry * list Z) :=
  match n with
  | O => Some ([], s)
  | S n => '(e, s) ← dec_entry s; '(es, s) ← dec_entries n s; Some (e :: es, s)
  end.

Definition enc_log (l : list LogEntry) : list Z :=
  enc_uint (len l) ++ concat (map enc_entry l).

(** The decoder rejects a length larger than the bytes that are left. *)
Definition dec_log (s : list Z) : option (list LogEntry) :=
  '(n, s) ← dec_uint s;
  if decide (n <= len s) then
    '(l, r) ← dec_entries (Z.to_nat n) s; if decide (r = []) then Some l else None
  else None.

Section raft.
Context {GT : GobTypes}.

(** [e.Encode(rf.log)] and [d.Decode(&rf.log)] *)
Definition gob_encode_log (l : list LogEntry) : list Z :=
  enc_typedefs log_typedefs ++ enc_message log_type_id (0 :: enc_log l).

Definition gob_decode_log (s : list Z) : option (list LogEntry) * list Z :=
  match read_value s with
  | None => (None, [])
  | Some (id, body, s) =>
      (match body with
       | 0 :: body => if id =? log_type_id then dec_log body else None
       | _ => None
       end, s)
  end.

(** ** Persistence *)

(** The bytes [persist] collects in its buffer. *)
Definition persist_data (rf : Raft) : list Z :=
  gob_encode_int (currentTerm rf) ++
  gob_encode_int (votedFor rf) ++
  gob_encode_log (log rf) ++
  gob_encode_int (voteGranted rf) ++
  gob_encode_int (voteNotGranted rf).

Definition persist (rf : Raft) : Raft :=
  rf <| persister := SaveRaftState (persister rf) (persist_data rf) |>.

(** Without the mutex, [persist] is six steps, and other goroutines of the
    peer run in between: each [Encode] reads one field and appends it to the
    buffer, and at the end [SaveRaftState] stores whatever the buffer holds.
    [PersistAt] is the next step. *)
Inductive PersistAt : Type :=
| PeTerm        (* e.Encode(rf.currentTerm) *)
| PeVotedFor    (* e.Encode(rf.votedFor) *)
| PeLog         (* e.Encode(rf.log) *)
| PeGranted     (* e.Encode(rf.voteGranted) *)
| PeNotGranted  (* e.Encode(rf.voteNotGranted) *)
| PeSave.       (* rf.persister.SaveRaftState(data) *)

(** One step with the buffer [w]; [None] when [persist] has returned. *)
Definition persist_step (at_ : PersistAt) (w : list Z) (rf : Raft) :
    Raft * option (PersistAt * list Z) :=
  match at_ with
  | PeTerm => (rf, Some (PeVotedFor, w ++ gob_encode_int (currentTerm rf)))
  | PeVotedFor => (rf, Some (PeLog, w ++ gob_encode_int (votedFor rf)))
  | PeLog => (rf, Some (PeGranted, w ++ gob_encode_log (log rf)))
  | PeGranted => (rf, Some (PeNotGranted, w ++ gob_encode_int (voteGranted rf)))
  | PeNotGranted => (rf, Some (PeSave, w ++ gob_encode_int (voteNotGranted rf)))
  | PeSave => (rf <| persister := SaveRaftState (persister rf) w |>, None)
  end.

(** A failed [Decode] leaves its target alone and its error is dropped; the
    next one goes on with what is left of the stream. *)
Definition readPersist (rf : Raft) (data : list Z) : Raft :=
  let '(v, d) := gob_decode_int data in
  let rf := rf <| currentTerm := default (currentTerm rf) v |> in
  let '(v, d) := gob_decode_int d in
  let rf := rf <| votedFor := default (votedFor rf) v |> in
  let '(v, d) := gob_decode_log d in
  let rf := rf <| log := default (log rf) v |> in
  let '(v, d) := gob_decode_int d in
  let rf := rf <| voteGranted := default (voteGranted rf) v |> in
  let '(v, d) := gob_decode_int d in
  rf <| voteNotGranted := default (voteNotGranted rf) v |>.

(** ** Conversions *)

Definition convertToFollower (rf : Raft) (term voteFor : Z) : Raft :=
  let rf := rf <| currentTerm := term |> in
  let rf := rf <| state := Follower |> in
  let rf := rf <| votedFor := voteFor |> in
  let rf := rf <| voteGranted := 0 |> in
  let rf := rf <| voteNotGranted := 0 |> in
  persist rf.

(** [timer.Reset]: the timer runs again; a tick that already waits in the
    channel stays there. *)
Definition timer_Reset (t : Timer) : Timer := mkTimer true (ticked t).

Definition convertToCandidate (rf : Raft) : Raft :=
  let rf := rf <| currentTerm := currentTerm rf +! 1 |> in
  let rf := rf <| state := Candidate |> in
  let rf := rf <| votedFor := me rf |> in
  let rf := rf <| voteGranted := 1 |> in
  let rf := rf <| voteNotGranted := 0 |> in
  let rf := rf <| timer := timer_Reset (timer rf) |> in
  persist rf.

Definition convertToLeader (rf : Raft) : Raft :=
  let rf := rf <| state := Leader |> in
  let rf := rf <| nextIndex := replicate (peers rf) (len (log rf)) |> in
  let rf := rf <| matchIndex := replicate (peers rf) (-1) |> in
  persist rf.

(** ** Applying committed entries *)

(** The loop of [startApplyLogs].  Each round raises lastApplied by one and
    the loop stops when it reaches committedIndex, so [committedIndex -
    lastApplied] rounds are enough ([startApplyLogs_spec] below). *)
Fixpoint apply_loop (fuel : nat) (rf : Raft) : outcome Raft :=
  match fuel with
  | O => Ret rf
  | S fuel =>
      if (lastApplied rf <? committedIndex rf) && (lastApplied rf + 1 <? len (log rf)) then
        e ← go_index (log rf) (lastApplied rf + 1);
        let msg := mkApplyMsg true (Command e) (lastApplied rf + 1) in
        let rf := rf <| applyCh := applyCh rf ++ [msg] |> in
        apply_loop fuel (rf <| lastApplied := lastApplied rf + 1 |>)
      else Ret rf
  end.

Definition startApplyLogs (rf : Raft) : outcome Raft :=
  apply_loop (Z.to_nat (committedIndex rf - lastApplied rf)) rf.

(** ** The service's interface *)

Definition GetState (rf : Raft) : Z * bool :=
  (currentTerm rf, bool_decide (state rf = Leader)).

Definition Start (rf : Raft) (command : iface) : Raft * (Z * Z * bool) :=
  let index := -1 in
  let term := currentTerm rf in
  let isLeader := bool_decide (state rf = Leader) in
  if isLeader then
    let index := len (log rf) in
    let rf := rf <| log := log rf ++ [mkLogEntry command (currentTerm rf)] |> in
    (persist rf, (index, term, isLeader))
  else (rf, (index, term, isLeader)).

Definition Kill (rf : Raft) : Raft := rf <| dead := 1 |>.

Definition killed (rf : Raft) : bool := dead rf =? 1.

Definition Make (peers : nat) (me : Z) (ps : Persister) : Raft :=
  let rf := {|
    peers := peers;
    persister := ps;
    me := me;
    dead := 0;
    currentTerm := 0;
    votedFor := -1;
    log := [];
    committedIndex := -1;
    lastApplied := -1;
    nextIndex := [];
    matchIndex := [];
    state := Follower;
    applyCh := [];
    timer := mkTimer true false;
    grantVoteCh := mkNotifyCh 0 0;
    heartBeatCh := mkNotifyCh 0 0;
    leaderCh := mkNotifyCh 0 0;
    voteGranted := 0;
    voteNotGranted := 0
  |} in
  readPersist rf (ReadRaftState ps).

End raft.

(** ** Applying: lemmas *)

(** The messages for the log entries from index [from] up to, not
    including, [to]. *)
Definition apply_msgs (l : list LogEntry) (from to : Z) : list ApplyMsg :=
  imap (fun k e => mkApplyMsg true (Command e) (from + Z.of_nat k))
    (drop (Z.to_nat from) (take (Z.to_nat to) l)).

(** Where applying stops. *)
Definition apply_target (rf : Raft) : Z :=
  Z.max (lastApplied rf) (Z.min (committedIndex rf) (len (log rf) - 1)).

Lemma apply_msgs_nil l from to : to <= from -> apply_msgs l from to = [].
Proof.
  intros H. unfold apply_msgs. rewrite drop_ge; [done|]. rewrite length_take. lia.
Qed.

Lemma apply_msgs_cons l from to e :
  0 <= from < to -> l !! Z.to_nat from = Some e ->
  apply_msgs l from to = mkApplyMsg true (Command e) from :: apply_msgs l (from + 1) to.
Proof.
  intros Hlt He. unfold apply_msgs.
  rewrite (drop_S _ e) by (rewrite lookup_take_lt by lia; done).
  cbn [imap]. f_equal; [f_equal; lia|].
  replace (Z.to_nat (from + 1)) with (S (Z.to_nat from)) by lia.
  apply imap_ext. intros k x _. cbn. f_equal. lia.
Qed.

Lemma apply_msgs_len l from to :
  0 <= from <= to -> (to <= len l \/ to = from) -> len (apply_msgs l from to) = to - from.
Proof.
  unfold apply_msgs, len. rewrite length_imap, length_drop, length_take. lia.
Qed.

Lemma apply_msgs_lookup l from to k m :
  0 <= from -> apply_msgs l from to !! k = Some m ->
  CommandValid m = true /\ CommandIndex m = from + Z.of_nat k /\
  CommandIndex m < to /\
  exists e, l !! Z.to_nat (from + Z.of_nat k) = Some e /\ msg_Command m = Command e.
Proof.
  intros Hfrom. unfold apply_msgs. rewrite list_lookup_imap, fmap_Some.
  intros (e & He & ->). cbn. rewrite lookup_drop, lookup_take_Some in He.
  destruct He as [He Hlt]. split_and!; [done..| |]; [lia|].
  exists e. split; [|done]. rewrite <- He. f_equal. lia.
Qed.

Lemma apply_loop_done rf :
  Z.min (committedIndex rf) (len (log rf) - 1) <= lastApplied rf ->
  Ret rf = Ret (rf <| applyCh := applyCh rf ++
                        apply_msgs (log rf) (lastApplied rf + 1) (apply_target rf + 1) |>
                   <| lastApplied := apply_target rf |>).
Proof.
  intros Hle. unfold apply_target. rewrite Z.max_l by lia.
  rewrite apply_msgs_nil by lia. rewrite app_nil_r. by destruct rf.
Qed.

Lemma apply_loop_spec fuel rf :
  -1 <= lastApplied rf ->
  Z.min (committedIndex rf) (len (log rf) - 1) - lastApplied rf <= Z.of_nat fuel ->
  apply_loop fuel rf =
    Ret (rf <| applyCh := applyCh rf ++
                 apply_msgs (log rf) (lastApplied rf + 1) (apply_target rf + 1) |>
            <| lastApplied := apply_target rf |>).
Proof.
  revert rf. induction fuel as [|fuel IH]; intros rf Hla Hfuel; cbn [apply_loop].
  - apply apply_loop_done. lia.
  - destruct (Z.ltb_spec (lastApplied rf) (committedIndex rf)) as [Hc|Hc]; cbn [andb].
    2:{ apply apply_loop_done; lia. }
    destruct (Z.ltb_spec (lastApplied rf + 1) (len (log rf))) as [Hl|Hl].
    2:{ apply apply_loop_done; lia. }
    destruct (go_index_in (log rf) (lastApplied rf + 1)) as [e He]; [lia|].
    rewrite He. cbn [mbind outcome_bind]. apply go_index_Ret in He as [_ He].
    rewrite IH by (cbn; lia). unfold apply_target. cbn.
    rewrite <- app_assoc. cbn.
    rewrite (Z.max_r (lastApplied rf)), (Z.max_r (lastApplied rf + 1)) by lia.
    rewrite (apply_msgs_cons _ (lastApplied rf + 1) _ e) by (done || lia). done.
Qed.

Lemma startApplyLogs_spec rf :
  -1 <= lastApplied rf ->
  startApplyLogs rf =
    Ret (rf <| applyCh := applyCh rf ++
                 apply_msgs (log rf) (lastApplied rf + 1) (apply_target rf + 1) |>
            <| lastApplied := apply_target rf |>).
Proof. intros H. apply apply_loop_spec; lia. Qed.

(** ** Persistence: lemmas *)

Definition entry_ok (e : LogEntry) : Prop := iface_ok (Command e) /\ is_int (Term e).

Lemma dec_fields_end fuel f e s : dec_fields (S fuel) f e (enc_uint 0 ++ s) = Some (e, s).
Proof. done. Qed.

Lemma dec_fields_Command fuel f d c e s :
  f + d = 0 -> 0 < d < 128 -> iface_ok c ->
  dec_fields (S fuel) f e (enc_uint d ++ enc_iface c ++ s) =
  dec_fields fuel 0 (mkLogEntry c (Term e)) s.
Proof.
  intros Hf Hd Hc. cbn [dec_fields]. rewrite dec_enc_uint by lia. cbn [mbind option_bind].
  rewrite (proj2 (Z.eqb_neq d 0)) by lia. cbv zeta. rewrite Hf. cbn [Z.eqb].
  by rewrite dec_enc_iface.
Qed.

Lemma dec_fields_Term fuel f d t e s :
  f + d = 1 -> 0 < d < 128 -> is_int t ->
  dec_fields (S fuel) f e (enc_uint d ++ enc_int t ++ s) =
  dec_fields fuel 1 (mkLogEntry (Command e) t) s.
Proof.
  intros Hf Hd Ht. cbn [dec_fields]. rewrite dec_enc_uint by lia. cbn [mbind option_bind].
  rewrite (proj2 (Z.eqb_neq d 0)) by lia. cbv zeta. rewrite Hf. cbn [Z.eqb Pos.eqb].
  by rewrite dec_enc_int.
Qed.

Lemma dec_enc_entry e s : entry_ok e -> dec_entry (enc_entry e ++ s) = Some (e, s).
Proof.
  intros [Hc Ht]. destruct e as [c t]. cbn [Command Term] in Hc, Ht.
  unfold dec_entry, enc_entry. cbn [Command Term].
  destruct (decide (c = INil)) as [->|Hn]; destruct (decide (t = 0)) as [->|Hz];
    cbn [app]; rewrite <- ?app_assoc.
  - done.
  - by rewrite dec_fields_Term, dec_fields_end by (done || lia).
  - by rewrite dec_fields_Command, dec_fields_end by (done || lia).
  - by rewrite dec_fields_Command, dec_fields_Term, dec_fields_end by (done || lia).
Qed.

Lemma dec_enc_entries l s :
  Forall entry_ok l -> dec_entries (length l) (concat (map enc_entry l) ++ s) = Some (l, s).
Proof.
  intros Hl. induction Hl as [|e l He Hl IH]; [done|].
  cbn [map concat length dec_entries]. rewrite <- app_assoc, dec_enc_entry by done.
  cbn [mbind option_bind]. by rewrite IH.
Qed.

Lemma enc_entry_len e : 1 <= len (enc_entry e).
Proof.
  unfold enc_entry. cbv zeta. rewrite !len_app.
  pose proof (enc_uint_len 0).
  match goal with |- 1 <= len ?a + (len ?b + _) =>
    pose proof (len_nonneg a); pose proof (len_nonneg b) end.
  lia.
Qed.

Lemma enc_entries_len l : len l <= len (concat (map enc_entry l)).
Proof.
  induction l as [|e l IH]; [done|]. cbn [map concat]. rewrite len_app, len_cons.
  pose proof (enc_entry_len e). lia.
Qed.

Lemma dec_enc_log l : Forall entry_ok l -> len l < 2 ^ 63 -> dec_log (enc_log l) = Some l.
Proof.
  intros Hl Hn. unfold dec_log, enc_log.
  rewrite dec_enc_uint by (pose proof (len_nonneg l); lia). cbn [mbind option_bind].
  rewrite decide_True by apply enc_entries_len.
  unfold len at 1. rewrite Nat2Z.id.
  rewrite <- (app_nil_r (concat _)), dec_enc_entries by done. done.
Qed.

Section persistence.
Context {GT : GobTypes}.

(** The fields [persist] saves are what gob can carry: machine integers,
    registered commands, and a log that fits in one message. *)
Record persistable (rf : Raft) : Prop := {
  p_currentTerm : is_int (currentTerm rf);
  p_votedFor : is_int (votedFor rf);
  p_voteGranted : is_int (voteGranted rf);
  p_voteNotGranted : is_int (voteNotGranted rf);
  p_entries : Forall entry_ok (log rf);
  p_size : message_fits log_type_id (0 :: enc_log (log rf));
}.

(** The state recovered from what [rf] saved into [rf0]. *)
Definition restored (rf0 rf : Raft) : Raft :=
  rf0 <| currentTerm := currentTerm rf |> <| votedFor := votedFor rf |>
      <| log := log rf |> <| voteGranted := voteGranted rf |>
      <| voteNotGranted := voteNotGranted rf |>.

Context {GTok : GobTypesOk}.

Lemma message_fits_log_len l : message_fits log_type_id (0 :: enc_log l) -> len l < 2 ^ 63.
Proof.
  intros [_ Hs]. unfold enc_log, tooBig in Hs. rewrite len_app, len_cons, len_app in Hs.
  pose proof (enc_entries_len l). pose proof (enc_int_len log_type_id).
  pose proof (enc_uint_len (len l)). lia.
Qed.

Lemma gob_decode_encode_log l s :
  Forall entry_ok l -> message_fits log_type_id (0 :: enc_log l) ->
  gob_decode_log (gob_encode_log l ++ s) = (Some l, s).
Proof.
  intros Hl Hf. unfold gob_decode_log, gob_encode_log. rewrite <- app_assoc.
  pose proof log_type_id_range.
  rewrite read_value_typedefs; [|apply log_typedefs_negative|apply log_typedefs_fit|done|lia].
  rewrite Z.eqb_refl, dec_enc_log by eauto using message_fits_log_len. done.
Qed.

Lemma readPersist_persist_data rf0 rf :
  persistable rf -> readPersist rf0 (persist_data rf) = restored rf0 rf.
Proof.
  intros []. unfold readPersist, persist_data.
  rewrite gob_decode_encode_int by done.
  rewrite gob_decode_encode_int by done.
  rewrite gob_decode_encode_log by done.
  rewrite gob_decode_encode_int by done.
  rewrite <- (app_nil_r (gob_encode_int (voteNotGranted rf))), gob_decode_encode_int by done.
  done.
Qed.

(** Decoding from an empty buffer changes nothing. *)
Lemma readPersist_nil rf0 : readPersist rf0 [] = rf0.
Proof. by destruct rf0. Qed.

End persistence.

(** ** Properties *)

(** C22: startApplyLogs returns, and sends the service exactly the log entries
    after lastApplied up to the commit index (or the end of the log, if that
    comes first), one message per entry, in log order, with consecutive
    indexes; afterwards the loop condition is false. *)
Theorem startApplyLogs_applies (rf : Raft) :
  -1 <= lastApplied rf ->
  exists rf' msgs,
    startApplyLogs rf = Ret rf' /\
    applyCh rf' = applyCh rf ++ msgs /\
    len msgs = lastApplied rf' - lastApplied rf /\
    (forall k m, msgs !! k = Some m ->
       CommandValid m = true /\ CommandIndex m = lastApplied rf + 1 + Z.of_nat k /\
       exists e, log rf !! Z.to_nat (CommandIndex m) = Some e /\ msg_Command m = Command e) /\
    (lastApplied rf' <? committedIndex rf') && (lastApplied rf' + 1 <? len (log rf')) = false /\
    log rf' = log rf /\ committedIndex rf' = committedIndex rf /\
    lastApplied rf <= lastApplied rf'.
Proof.
  intros Hla. rewrite startApplyLogs_spec by done. do 2 eexists. split; [reflexivity|].
  unfold apply_target. raft_simpl. split_and!; try done; try lia.
  - rewrite apply_msgs_len by lia. lia.
  - intros k m Hk. apply apply_msgs_lookup in Hk; [|lia].
    destruct Hk as (Hv & Hi & _ & e & He & Hm).
    split_and!; try done. exists e. by rewrite Hi.
Qed.

Definition raft_example : Raft :=
  {| peers := 3; persister := MakePersister; me := 0; dead := 0; currentTerm := 2; votedFor := 1;
     log := [mkLogEntry (IInt 10) 1; mkLogEntry (IString "x") 1; mkLogEntry (IInt 30) 2];
     committedIndex := 1; lastApplied := -1; nextIndex := []; matchIndex := [];
     state := Follower; applyCh := []; timer := mkTimer true false;
     grantVoteCh := mkNotifyCh 0 0; heartBeatCh := mkNotifyCh 0 0; leaderCh := mkNotifyCh 0 0;
     voteGranted := 0; voteNotGranted := 0 |}.

Lemma startApplyLogs_applies_witness :
  -1 <= lastApplied raft_example /\
  exists rf' msgs, startApplyLogs raft_example = Ret rf' /\ applyCh rf' = [] ++ msgs.
Proof.
  split; [done|]. destruct (startApplyLogs_applies raft_example) as (rf' & msgs & H1 & H2 & _).
  { done. }
  exists rf', msgs. done.
Defined.

(** C23: what [persist] saves is what a peer started from the same persister
    reads back: the recovered term, vote, log and vote counts are those of
    the peer that saved them, whatever its other fields were, and the commit
    index, the apply index and the role start afresh. *)
Theorem Make_recovers_persisted {GT : GobTypes} {GTok : GobTypesOk} (rf : Raft) (n : nat) (i : Z) :
  persistable rf ->
  let rf' := Make n i (persister (persist rf)) in
  currentTerm rf' = currentTerm rf /\ votedFor rf' = votedFor rf /\ log rf' = log rf /\
  voteGranted rf' = voteGranted rf /\ voteNotGranted rf' = voteNotGranted rf /\
  state rf' = Follower /\ committedIndex rf' = -1 /\ lastApplied rf' = -1 /\ killed rf' = false.
Proof.
  intros Hp. cbv zeta.
  unfold Make, ReadRaftState, persist. raft_simpl. cbn [SaveRaftState set_field raftstate].
  rewrite readPersist_persist_data by done. done.
Qed.

Lemma raft_example_persistable : persistable (GT := first_types) raft_example.
Proof.
  split; try (unfold is_int, int_min, int_max; cbn; lia).
  - repeat constructor; cbn; unfold is_int, int_min, int_max; lia.
  - split; [unfold is_int, int_min, int_max; cbn; lia|by vm_compute].
Qed.

Lemma Make_recovers_persisted_witness :
  persistable (GT := first_types) raft_example /\
  log (Make (GT := first_types) 3 0 (persister (persist (GT := first_types) raft_example))) =
    log raft_example.
Proof.
  split; [exact raft_example_persistable|].
  exact (proj1 (proj2 (proj2 (@Make_recovers_persisted first_types first_types_ok raft_example 3 0
    raft_example_persistable)))).
Defined.
