(* ===== verification/RaftVote.v ===== *)
(** * raft/raft.go: leader election

    The RequestVote handler ([RequestVote]), the candidate's side of the RPC
    ([startRequestVote_args] is the critical section that builds the
    arguments, [startRequestVote_reply] the one that handles a reply), and
    what they guarantee.  [RequestVote] does not take the peer's mutex in the
    source; here, as every other handler, it is one atomic step, and
    RaftVoteRace.v has it read by read and write by write. *)

From S2P Require Import Prelude Gob PersisterModel RaftState.
Open Scope go_scope.

Record RequestVoteArgs := mkRequestVoteArgs {
  rv_Term : Z;
  CandidateID : Z;
  LastLogIndex : Z;
  LastLogTerm : Z;
}.

Record RequestVoteReply := mkRequestVoteReply {
  rvr_Term : Z;
  VoteGranted : bool;
}.

#[export] Instance RequestVoteArgs_eq_dec : EqDecision RequestVoteArgs.
Proof. solve_decision. Defined.
#[export] Instance RequestVoteReply_eq_dec : EqDecision RequestVoteReply.
Proof. solve_decision. Defined.

(** [go func() { select { case <-ch: default: }; ch <- true }()] *)
Definition spawn_notify (ch : NotifyCh) : NotifyCh :=
  mkNotifyCh (S (starting ch)) (sending ch).

Section vote.
Context {GT : GobTypes}.

(** Whether the candidate's log is at least as up to date as the peer's. *)
Definition RequestVote_newer (l : list LogEntry) (args : RequestVoteArgs) : outcome bool :=
  if len l =? 0 then Ret true
  else
    e ← go_index l (len l - 1);
    if Term e <? LastLogTerm args then Ret true
    else
      e ← go_index l (len l - 1);
      Ret ((LastLogTerm args =? Term e) && (len l <=? LastLogIndex args +! 1)).

Definition RequestVote (rf : Raft) (args : RequestVoteArgs) :
    outcome (Raft * RequestVoteReply) :=
  let rf := if currentTerm rf <? rv_Term args then rf <| votedFor := -1 |> else rf in
  newer ← RequestVote_newer (log rf) args;
  let granted := newer && ((votedFor rf =? -1) || (votedFor rf =? CandidateID args)) in
  let voted := if granted : bool then CandidateID args else -1 in
  let rf := rf <| votedFor := voted |> in
  let '(rf, granted) :=
    if rv_Term args <? currentTerm rf then (rf, false)
    else if currentTerm rf <? rv_Term args then
      let rf := rf <| currentTerm := rv_Term args |> in
      (if decide (state rf <> Follower) then convertToFollower rf (currentTerm rf) voted else rf,
       granted)
    else (rf, granted) in
  let reply := mkRequestVoteReply (currentTerm rf) granted in
  let rf := persist rf in
  Ret (if granted : bool then rf <| grantVoteCh := spawn_notify (grantVoteCh rf) |> else rf, reply).

(** The arguments every RequestVote of one round carries; [None] when the
    peer is no longer a candidate. *)
Definition startRequestVote_args (rf : Raft) : outcome (option RequestVoteArgs) :=
  if decide (state rf <> Candidate) then Ret None
  else
    let lastLogIndex := len (log rf) - 1 in
    lastLogTerm ← (if 0 <=? lastLogIndex then
                     e ← go_index (log rf) lastLogIndex; Ret (Term e)
                   else Ret (-1));
    Ret (Some (mkRequestVoteArgs (currentTerm rf) (me rf) lastLogIndex lastLogTerm)).

(** What the goroutine of one peer does with a reply.  [nLeader] is the
    variable all goroutines of the round share. *)
Definition startRequestVote_reply (rf : Raft) (args : RequestVoteArgs)
    (reply : RequestVoteReply) (nLeader : Z) : Raft * Z :=
  if currentTerm rf <? rvr_Term reply then
    (convertToFollower rf (rvr_Term reply) (-1), nLeader)
  else if decide (currentTerm rf <> rv_Term args \/ state rf <> Candidate) then (rf, nLeader)
  else
    let '(rf, nLeader) :=
      if VoteGranted reply then
        let rf := rf <| voteGranted := voteGranted rf +! 1 |> in
        if (nLeader =? 0) && (Z.of_nat (peers rf) <? voteGranted rf *! 2) &&
           bool_decide (state rf = Candidate) then
          let rf := convertToLeader rf in
          (rf <| leaderCh := spawn_notify (leaderCh rf) |>, nLeader +! 1)
        else (rf, nLeader)
      else (rf <| voteNotGranted := voteNotGranted rf +! 1 |>, nLeader) in
    (persist rf, nLeader).

End vote.

(** ** Specification *)

(** Index and term of the last entry, [-1] for an empty log. *)
Definition last_term (l : list LogEntry) : Z :=
  match last l with Some e => Term e | None => -1 end.

(** The order on (last term, last index) that decides which of two logs is
    more up to date. *)
Definition log_le (t1 i1 t2 i2 : Z) : Prop := t1 < t2 \/ (t1 = t2 /\ i1 <= i2).

#[export] Instance log_le_dec t1 i1 t2 i2 : Decision (log_le t1 i1 t2 i2).
Proof. unfold log_le. apply _. Defined.

(** The peer's log is no more up to date than the candidate's. *)
Definition up_to_date (l : list LogEntry) (args : RequestVoteArgs) : Prop :=
  l = [] \/ log_le (last_term l) (len l - 1) (LastLogTerm args) (LastLogIndex args).

#[export] Instance up_to_date_dec l args : Decision (up_to_date l args).
Proof. unfold up_to_date. apply _. Defined.

(** The peer is free to vote for the candidate in the candidate's term. *)
Definition may_vote (rf : Raft) (args : RequestVoteArgs) : Prop :=
  currentTerm rf < rv_Term args \/ votedFor rf = -1 \/ votedFor rf = CandidateID args.

#[export] Instance may_vote_dec rf args : Decision (may_vote rf args).
Proof. unfold may_vote. apply _. Defined.

(** ** Lemmas *)

Lemma go_index_last (l : list LogEntry) :
  l <> [] -> exists e, last l = Some e /\ go_index l (len l - 1) = Ret e.
Proof.
  intros Hl. destruct l as [|e l _] using rev_ind; [done|]. exists e.
  split; [apply last_snoc|]. apply go_index_Ret. unfold len. rewrite length_app. cbn.
  split; [lia|]. rewrite lookup_app_r by lia.
  by replace (Z.to_nat _ - _)%nat with 0%nat by lia.
Qed.

Lemma up_to_date_last l e args :
  last l = Some e ->
  up_to_date l args <->
  Term e < LastLogTerm args \/ (Term e = LastLogTerm args /\ len l <= LastLogIndex args + 1).
Proof.
  intros He. unfold up_to_date, log_le, last_term. rewrite He.
  split; [intros [->|?]; [done|lia] | right; lia].
Qed.

Lemma RequestVote_newer_spec l args :
  LastLogIndex args < int_max -> is_int (LastLogIndex args) ->
  RequestVote_newer l args = Ret (bool_decide (up_to_date l args)).
Proof.
  intros Hmax Hint. unfold RequestVote_newer.
  destruct (decide (l = [])) as [->|Hl]; [done|].
  destruct (go_index_last l Hl) as (e & He & Hi).
  destruct (Z.eqb_spec (len l) 0) as [H0|_]; [by apply len_zero in H0|].
  rewrite Hi. cbn [mbind outcome_bind].
  rewrite wrap_int_small by (unfold is_int, int_max, int_min in *; lia).
  pose proof (up_to_date_last l e args He) as Hu.
  case_bool_decide as Hb; rewrite Hu in Hb; case_tests; f_equal; bool_hyps; lia.
Qed.

Lemma RequestVote_newer_returns l args : returns (RequestVote_newer l args).
Proof.
  unfold RequestVote_newer. destruct (Z.eqb_spec (len l) 0) as [H0|H0]; [by eexists|].
  destruct (go_index_last l) as (e & _ & Hi); [by intros ->|].
  rewrite Hi. cbn. case_match; by eexists.
Qed.

Section vote_lemmas.
Context {GT : GobTypes}.

(** The vote the handler gives, before it compares the terms. *)
Definition would_grant (rf : Raft) (args : RequestVoteArgs) : Prop :=
  up_to_date (log rf) args /\ may_vote rf args.

#[export] Instance would_grant_dec rf args : Decision (would_grant rf args).
Proof. unfold would_grant. apply _. Defined.

Definition RequestVote_votedFor (rf : Raft) (args : RequestVoteArgs) : Z :=
  if bool_decide (would_grant rf args) then CandidateID args else -1.

Definition RequestVote_granted (rf : Raft) (args : RequestVoteArgs) : bool :=
  bool_decide (would_grant rf args) && (currentTerm rf <=? rv_Term args).

(** The peer steps down exactly when it sees a higher term. *)
Definition RequestVote_steps_down (rf : Raft) (args : RequestVoteArgs) : bool :=
  (currentTerm rf <? rv_Term args) && bool_decide (state rf <> Follower).

(** The whole handler in closed form. *)
Definition RequestVote_result (rf : Raft) (args : RequestVoteArgs) : Raft :=
  let down := RequestVote_steps_down rf args in
  let rf1 :=
    rf <| currentTerm := Z.max (currentTerm rf) (rv_Term args) |>
       <| votedFor := RequestVote_votedFor rf args |>
       <| state := if down then Follower else state rf |>
       <| voteGranted := if down then 0 else voteGranted rf |>
       <| voteNotGranted := if down then 0 else voteNotGranted rf |> in
  let rf2 := persist rf1 in
  if RequestVote_granted rf args then rf2 <| grantVoteCh := spawn_notify (grantVoteCh rf) |>
  else rf2.

Lemma would_grant_old_term rf args :
  rv_Term args <= currentTerm rf ->
  bool_decide (up_to_date (log rf) args) &&
    ((votedFor rf =? -1) || (votedFor rf =? CandidateID args)) =
  bool_decide (would_grant rf args).
Proof.
  intros Hle. unfold would_grant, may_vote.
  destruct (Z.eqb_spec (votedFor rf) (-1)), (Z.eqb_spec (votedFor rf) (CandidateID args));
    cbn [orb]; rewrite ?andb_true_r, ?andb_false_r;
    [apply bool_decide_ext; tauto..|].
  symmetry. apply bool_decide_eq_false_2. intros [_ [?|[?|?]]]; [lia|done..].
Qed.

Lemma would_grant_new_term rf args :
  currentTerm rf < rv_Term args ->
  bool_decide (up_to_date (log rf) args) = bool_decide (would_grant rf args).
Proof. intros Hlt. apply bool_decide_ext. unfold would_grant, may_vote. tauto. Qed.

Lemma RequestVote_closed_form rf args :
  LastLogIndex args < int_max -> is_int (LastLogIndex args) ->
  RequestVote rf args =
    Ret (RequestVote_result rf args,
         mkRequestVoteReply (Z.max (currentTerm rf) (rv_Term args))
           (RequestVote_granted rf args)).
Proof.
  intros Hmax Hint. unfold RequestVote.
  replace (log (if currentTerm rf <? rv_Term args then rf <| votedFor := -1 |> else rf))
    with (log rf) by by case_match.
  rewrite RequestVote_newer_spec by done. cbn [mbind outcome_bind].
  unfold RequestVote_result, RequestVote_granted, RequestVote_steps_down, RequestVote_votedFor.
  destruct (Z.ltb_spec (currentTerm rf) (rv_Term args)) as [Hlt|Hge].
  - raft_simpl. cbn [Z.eqb Pos.eqb orb andb].
    rewrite (andb_true_r (bool_decide (up_to_date (log rf) args))).
    rewrite (would_grant_new_term rf args Hlt).
    rewrite (proj2 (Z.ltb_ge (rv_Term args) (currentTerm rf))), (proj2 (Z.leb_le _ _)),
      (proj2 (Z.ltb_lt (currentTerm rf) (rv_Term args))), Z.max_r by lia.
    destruct (bool_decide (would_grant rf args)), rf as [? ? ? ? ? ? ? ? ? ? ? []]; done.
  - raft_simpl. cbn [andb].
    rewrite (would_grant_old_term rf args), Z.max_l by lia.
    rewrite (proj2 (Z.ltb_ge (currentTerm rf) (rv_Term args))) by lia.
    destruct (Z.ltb_spec (rv_Term args) (currentTerm rf)), (Z.leb_spec (currentTerm rf) (rv_Term args));
      try lia; destruct (bool_decide (would_grant rf args)), rf; done.
Qed.

Lemma RequestVote_fields rf args :
  LastLogIndex args < int_max /\ is_int (LastLogIndex args) ->
  exists rf' reply, RequestVote rf args = Ret (rf', reply) /\
    VoteGranted reply = RequestVote_granted rf args /\
    votedFor rf' = RequestVote_votedFor rf args /\
    currentTerm rf' = Z.max (currentTerm rf) (rv_Term args) /\ log rf' = log rf.
Proof.
  intros [Hmax Hint]. do 2 eexists. split; [by apply RequestVote_closed_form|].
  unfold RequestVote_result, persist. split_and!; [done|by case_match..].
Qed.

(** The two outcomes in the peer's own term. *)
Lemma RequestVote_yes rf args :
  rv_Term args = currentTerm rf -> up_to_date (log rf) args -> may_vote rf args ->
  RequestVote_granted rf args = true /\ RequestVote_votedFor rf args = CandidateID args.
Proof.
  intros Ht Hu Hm. unfold RequestVote_granted, RequestVote_votedFor.
  rewrite bool_decide_eq_true_2 by done. rewrite (proj2 (Z.leb_le _ _)) by lia. done.
Qed.

Lemma RequestVote_no rf args :
  ~ may_vote rf args ->
  RequestVote_granted rf args = false /\ RequestVote_votedFor rf args = -1.
Proof.
  intros Hm. unfold RequestVote_granted, RequestVote_votedFor.
  rewrite bool_decide_eq_false_2; [done|]. intros [_ ?]. done.
Qed.
End vote_lemmas.

(** ** Properties *)

Section vote_properties.
Context {GT : GobTypes}.

(** C20: RequestVote never faults, grants a vote exactly when the candidate's
    term is not older, its log is at least as up to date in the order on
    (last term, last index), and the peer is free to vote for it; a granted
    vote is recorded for the candidate in the candidate's term, the reply and
    the peer carry the larger of the two terms, the log is untouched and the
    new state is on the persister before the reply leaves. *)
Theorem RequestVote_grants (rf : Raft) (args : RequestVoteArgs) :
  LastLogIndex args < int_max -> is_int (LastLogIndex args) ->
  exists rf' reply,
    RequestVote rf args = Ret (rf', reply) /\
    (VoteGranted reply = true <->
       currentTerm rf <= rv_Term args /\ up_to_date (log rf) args /\ may_vote rf args) /\
    (VoteGranted reply = true ->
       votedFor rf' = CandidateID args /\ currentTerm rf' = rv_Term args) /\
    currentTerm rf' = Z.max (currentTerm rf) (rv_Term args) /\
    rvr_Term reply = currentTerm rf' /\
    (currentTerm rf < rv_Term args -> state rf' = Follower) /\
    log rf' = log rf /\
    raftstate (persister rf') = persist_data rf'.
Proof.
  intros Hmax Hint. do 2 eexists. split; [by apply RequestVote_closed_form|].
  cbn [VoteGranted rvr_Term].
  assert (RequestVote_granted rf args = true <->
    currentTerm rf <= rv_Term args /\ up_to_date (log rf) args /\ may_vote rf args) as Hg.
  { unfold RequestVote_granted. rewrite andb_true_iff, bool_decide_eq_true, Z.leb_le.
    unfold would_grant. tauto. }
  split; [done|]. unfold RequestVote_result, RequestVote_steps_down.
  assert (currentTerm rf < rv_Term args ->
    (currentTerm rf <? rv_Term args) && bool_decide (state rf ≠ Follower) = true \/
    state rf = Follower) as Hdown.
  { intros Hlt. rewrite (proj2 (Z.ltb_lt _ _) Hlt). cbn [andb].
    destruct (decide (state rf = Follower)); [by right|left]. by apply bool_decide_eq_true_2. }
  destruct (RequestVote_granted rf args) eqn:Hgr; unfold persist; raft_simpl; split_and!; try done.
  - intros _. destruct (proj1 Hg eq_refl) as (Hle & Hup & Hmay). split; [|lia].
    unfold RequestVote_votedFor. by rewrite bool_decide_eq_true_2.
  - intros Hlt. destruct (Hdown Hlt) as [->|Hs]; [done|]. rewrite Hs. by case_match.
  - intros Hlt. destruct (Hdown Hlt) as [->|Hs]; [done|]. rewrite Hs. by case_match.
Qed.

(** A peer that has voted in a term can vote again in it: a request from
    a second candidate of the same term is refused but clears the recorded
    vote, and a third candidate of that term with an up-to-date log then gets
    it too.  (raft.go:236-242 store -1 whenever the vote is not granted.) *)
Theorem RequestVote_votes_twice (rf : Raft) (a b c : RequestVoteArgs) :
  Forall (fun x => LastLogIndex x < int_max /\ is_int (LastLogIndex x)) [a; b; c] ->
  rv_Term a = currentTerm rf -> rv_Term b = currentTerm rf -> rv_Term c = currentTerm rf ->
  votedFor rf = -1 -> CandidateID a <> -1 -> CandidateID b <> CandidateID a ->
  up_to_date (log rf) a -> up_to_date (log rf) c ->
  exists rf1 r1 rf2 r2 rf3 r3,
    RequestVote rf a = Ret (rf1, r1) /\ VoteGranted r1 = true /\
    RequestVote rf1 b = Ret (rf2, r2) /\ VoteGranted r2 = false /\ votedFor rf2 = -1 /\
    RequestVote rf2 c = Ret (rf3, r3) /\ VoteGranted r3 = true /\
    currentTerm rf3 = currentTerm rf /\ votedFor rf3 = CandidateID c.
Proof.
  intros Hb Ha1 Hb1 Hc1 Hv Hna Hnb Hua Huc.
  rewrite !Forall_cons in Hb. destruct Hb as (Ba & Bb & Bc & _).
  destruct (RequestVote_fields rf a Ba) as (rf1 & r1 & E1 & G1 & V1 & T1 & L1).
  destruct (RequestVote_yes rf a) as [Ga Va]; [done..|right; by left|].
  destruct (RequestVote_fields rf1 b Bb) as (rf2 & r2 & E2 & G2 & V2 & T2 & L2).
  destruct (RequestVote_no rf1 b) as [Gb Vb].
  { unfold may_vote. rewrite V1, Va, T1. intros [?|[?|?]]; [lia|congruence..]. }
  destruct (RequestVote_fields rf2 c Bc) as (rf3 & r3 & E3 & G3 & V3 & T3 & L3).
  destruct (RequestVote_yes rf2 c) as [Gc Vc].
  { lia. } { by rewrite L2, L1. } { right. left. congruence. }
  exists rf1, r1, rf2, r2, rf3, r3. split_and!; try done; try congruence. lia.
Qed.

Definition vote_args (term candidate : Z) : RequestVoteArgs :=
  mkRequestVoteArgs term candidate 2 2.

(** C21: a candidate becomes leader on a reply exactly when the reply grants
    the vote of the candidate's current term and the votes counted so far,
    with this one, are more than half of the peers; it then keeps its term
    and log, expects every peer to be level with its own log and assumes
    nothing about what they have stored. *)
Theorem startRequestVote_reply_elects (rf rf' : Raft) (args : RequestVoteArgs)
    (reply : RequestVoteReply) (nLeader' : Z) :
  state rf <> Leader ->
  startRequestVote_reply rf args reply 0 = (rf', nLeader') ->
  (state rf' = Leader <->
     rvr_Term reply <= currentTerm rf /\ currentTerm rf = rv_Term args /\ state rf = Candidate /\
     VoteGranted reply = true /\ Z.of_nat (peers rf) < (voteGranted rf +! 1) *! 2) /\
  (state rf' = Leader ->
     currentTerm rf' = currentTerm rf /\ log rf' = log rf /\
     nextIndex rf' = replicate (peers rf) (len (log rf)) /\
     matchIndex rf' = replicate (peers rf) (-1) /\
     raftstate (persister rf') = persist_data rf' /\
     starting (leaderCh rf') = S (starting (leaderCh rf))).
Proof.
  intros Hnl. unfold startRequestVote_reply.
  destruct (Z.ltb_spec (currentTerm rf) (rvr_Term reply)) as [Hlt|Hge].
  { intros [= <- <-]. split; [split; [done|lia]|done]. }
  case_decide as Hd.
  { intros [= <- <-]. split; [split; [done|tauto]|done]. }
  apply Decidable.not_or in Hd as [Hd1 Hd2].
  apply dec_stable in Hd1, Hd2. raft_simpl. rewrite Hd2.
  destruct (VoteGranted reply).
  - destruct (Z.ltb_spec (Z.of_nat (peers rf)) ((voteGranted rf +! 1) *! 2)) as [Hm|Hm]; cbn [Z.eqb andb].
    + rewrite bool_decide_eq_true_2 by done. intros [= <- <-]. split; [|done].
      split; [|done]. intros _. split_and!; try done; lia.
    + intros [= <- <-]. unfold persist. raft_simpl.
      split; [split; [done|lia]|done].
  - intros [= <- <-]. unfold persist. raft_simpl. split; [split; [done|naive_solver]|done].
Qed.

End vote_properties.

Definition candidate_example : Raft :=
  raft_example <| state := Candidate |> <| votedFor := 0 |> <| voteGranted := 1 |>.

Lemma RequestVote_grants_witness :
  exists rf' reply, RequestVote (GT := first_types) raft_example (vote_args 3 2) = Ret (rf', reply) /\
    VoteGranted reply = true.
Proof.
  destruct (RequestVote_grants (GT := first_types) raft_example (vote_args 3 2))
    as (rf' & reply & E & [_ G] & _); [done|done|].
  exists rf', reply. split; [exact E|]. apply G. split_and!; cbn; [lia| |left; cbn; lia].
  by apply (bool_decide_unpack _); vm_compute.
Defined.

Lemma RequestVote_votes_twice_witness :
  let rf := raft_example <| votedFor := -1 |> in
  exists rf1 r1 rf2 r2 rf3 r3,
    RequestVote (GT := first_types) rf (vote_args 2 0) = Ret (rf1, r1) /\ VoteGranted r1 = true /\
    RequestVote (GT := first_types) rf1 (vote_args 2 1) = Ret (rf2, r2) /\ VoteGranted r2 = false /\
    votedFor rf2 = -1 /\
    RequestVote (GT := first_types) rf2 (vote_args 2 2) = Ret (rf3, r3) /\ VoteGranted r3 = true /\
    currentTerm rf3 = currentTerm rf /\ votedFor rf3 = 2.
Proof.
  cbv zeta. apply (RequestVote_votes_twice (GT := first_types)
    (raft_example <| votedFor := -1 |>) (vote_args 2 0) (vote_args 2 1) (vote_args 2 2)); try done.
  - repeat constructor; done.
  - by apply (bool_decide_unpack _); vm_compute.
  - by apply (bool_decide_unpack _); vm_compute.
Defined.

Lemma startRequestVote_reply_elects_witness :
  exists rf' n, startRequestVote_reply (GT := first_types) candidate_example (vote_args 2 0)
    (mkRequestVoteReply 2 true) 0 = (rf', n) /\ state rf' = Leader.
Proof.
  destruct (startRequestVote_reply (GT := first_types) candidate_example (vote_args 2 0)
    (mkRequestVoteReply 2 true) 0) as [rf' n] eqn:E.
  exists rf', n. split; [reflexivity|].
  assert (state candidate_example <> Leader) as Hs by by vm_compute.
  apply (startRequestVote_reply_elects (GT := first_types) candidate_example rf' (vote_args 2 0)
    (mkRequestVoteReply 2 true) n Hs E).
  split_and!; by vm_compute.
Defined.
