(* ===== verification/RaftAppend.v ===== *)
(** * raft/raft.go: log replication

    The AppendEntries handler, and the leader's side of the RPC:
    [appendEntries_args] is the critical section that builds the arguments
    for one peer, [appendEntries_reply] the one that handles its reply. *)

From S2P Require Import Prelude Gob PersisterModel RaftState RaftVote.
Open Scope go_scope.

Record AppendEntriesArgs := mkAppendEntriesArgs {
  ae_Term : Z;
  LeaderID : Z;
  PrevLogIndex : Z;
  PrevLogTerm : Z;
  Entries : list LogEntry;
  LeaderCommit : Z;
}.

Record AppendEntriesReply := mkAppendEntriesReply {
  aer_Term : Z;
  Success : bool;
  ConflictIndex : Z;
  ConflictTerm : Z;
}.

#[export] Instance AppendEntriesArgs_eq_dec : EqDecision AppendEntriesArgs.
Proof. solve_decision. Defined.
#[export] Instance AppendEntriesReply_eq_dec : EqDecision AppendEntriesReply.
Proof. solve_decision. Defined.

(** The first index of an entry of the given term, from index [i] on; the
    search of the handler's conflict reply, which leaves the zero value when
    there is none. *)
Fixpoint first_index_of (l : list LogEntry) (term i : Z) : Z :=
  match l with
  | [] => 0
  | e :: l => if Term e =? term then i else first_index_of l term (i + 1)
  end.

(** The if-else chain that fills in Success, ConflictIndex and ConflictTerm. *)
Definition check_prev (rf : Raft) (args : AppendEntriesArgs) : outcome AppendEntriesReply :=
  let term := currentTerm rf in
  if ae_Term args <? term then Ret (mkAppendEntriesReply term false 0 0)
  else if len (log rf) <=? PrevLogIndex args then
    Ret (mkAppendEntriesReply term false (len (log rf) - 1) (-1))
  else if PrevLogIndex args =? -1 then Ret (mkAppendEntriesReply term true 0 0)
  else
    e ← go_index (log rf) (PrevLogIndex args);
    if decide (Term e <> PrevLogTerm args) then
      prevLogTerm ← (if 0 <=? PrevLogIndex args then
                       e ← go_index (log rf) (PrevLogIndex args); Ret (Term e)
                     else Ret (-1));
      if decide (PrevLogTerm args <> prevLogTerm) then
        Ret (mkAppendEntriesReply term false (first_index_of (log rf) prevLogTerm 0) prevLogTerm)
      else Ret (mkAppendEntriesReply term false 0 0)
    else Ret (mkAppendEntriesReply term true 0 0).

(** The first loop over the entries: cut the log at the first entry whose
    term differs.  [i] is the loop's index. *)
Fixpoint truncate_conflict (l : list LogEntry) (prev : Z) (entries : list LogEntry) (i : Z) :
    outcome (list LogEntry) :=
  match entries with
  | [] => Ret l
  | e :: entries =>
      if len l <=? prev + i + 1 then Ret l
      else
        x ← go_index l (prev + i + 1);
        if decide (Term x <> Term e) then go_slice_to l (prev + i)
        else truncate_conflict l prev entries (i + 1)
  end.

(** The second loop: append the entry or overwrite the one in its place. *)
Fixpoint write_entries (l : list LogEntry) (prev : Z) (entries : list LogEntry) (i : Z) :
    outcome (list LogEntry) :=
  match entries with
  | [] => Ret l
  | e :: entries =>
      l ← (if len l <=? prev + i + 1 then Ret (l ++ [e]) else go_store l (prev + i + 1) e);
      write_entries l prev entries (i + 1)
  end.

Definition merge_log (l : list LogEntry) (prev : Z) (entries : list LogEntry) :
    outcome (list LogEntry) :=
  l ← truncate_conflict l prev entries 0;
  if prev <? len l then write_entries l prev entries 0 else Ret l.

Definition advance_commit (rf : Raft) (args : AppendEntriesArgs) : Raft :=
  if committedIndex rf <? LeaderCommit args then
    let last := PrevLogIndex args + len (Entries args) in
    let rf := if last <? LeaderCommit args then rf <| committedIndex := last |>
              else rf <| committedIndex := LeaderCommit args |> in
    if len (log rf) <=? committedIndex rf then rf <| committedIndex := len (log rf) - 1 |> else rf
  else rf.

Section append.
Context {GT : GobTypes}.

Definition AppendEntries (rf : Raft) (args : AppendEntriesArgs) :
    outcome (Raft * AppendEntriesReply) :=
  let rf :=
    if currentTerm rf <? ae_Term args then
      let rf := rf <| currentTerm := ae_Term args |> in
      if decide (state rf <> Follower) then convertToFollower rf (currentTerm rf) (votedFor rf)
      else rf
    else rf in
  reply ← check_prev rf args;
  rf ← (if Success reply then
          l ← merge_log (log rf) (PrevLogIndex args) (Entries args);
          startApplyLogs (advance_commit (rf <| log := l |>) args)
        else Ret rf);
  let rf := persist rf in
  Ret (rf <| heartBeatCh := spawn_notify (heartBeatCh rf) |>, reply).

(** ** The leader's side *)

(** The arguments for peer [j]; [None] when the peer is no longer leader. *)
Definition appendEntries_args (rf : Raft) (j : Z) : outcome (option AppendEntriesArgs) :=
  if decide (state rf <> Leader) then Ret None
  else
    next ← go_index (nextIndex rf) j;
    let prevLogIndex := next - 1 in
    prevLogTerm ← (if 0 <=? prevLogIndex then
                     e ← go_index (log rf) prevLogIndex; Ret (Term e)
                   else Ret (-1));
    entries ← go_slice_from (log rf) (prevLogIndex + 1);
    Ret (Some (mkAppendEntriesArgs (currentTerm rf) (me rf) prevLogIndex prevLogTerm entries
                 (committedIndex rf))).

(** The commit rule: the middle of the sorted match indexes. *)
Definition commit_index (rf : Raft) : outcome Z :=
  let copyMatchIndex := go_copy (replicate (peers rf) 0) (matchIndex rf) in
  copyMatchIndex ← go_store copyMatchIndex (me rf) (len (log rf));
  go_index (sort_Ints copyMatchIndex) (Z.of_nat (peers rf) / 2).

(** The loop that looks for a new nextIndex after a conflict, from index [i]
    on; [None] when it ends without an assignment. *)
Fixpoint backoff (l : list LogEntry) (reply : AppendEntriesReply) (has : bool) (i : Z) :
    option Z :=
  match l with
  | [] => None
  | e :: l =>
      let has := has || (Term e =? ConflictTerm reply) in
      if ConflictTerm reply <? Term e then Some (if has : bool then i else ConflictIndex reply)
      else backoff l reply has (i + 1)
  end.

(** Handles a reply from peer [j]; the boolean is whether the goroutine goes
    round its loop again. *)
Definition appendEntries_reply (rf : Raft) (j : Z) (args : AppendEntriesArgs)
    (reply : AppendEntriesReply) : outcome (Raft * bool) :=
  if currentTerm rf <? aer_Term reply then
    Ret (convertToFollower rf (aer_Term reply) (-1), false)
  else if decide (currentTerm rf <> ae_Term args \/ state rf <> Leader) then Ret (rf, false)
  else if Success reply then
    match' ← go_store (matchIndex rf) j (PrevLogIndex args + len (Entries args));
    let rf := rf <| matchIndex := match' |> in
    m ← go_index (matchIndex rf) j;
    next' ← go_store (nextIndex rf) j (m + 1);
    let rf := rf <| nextIndex := next' |> in
    N ← commit_index rf;
    rf ← (if committedIndex rf <? N then
            e ← go_index (log rf) N;
            Ret (if Term e =? currentTerm rf then rf <| committedIndex := N |> else rf)
          else Ret rf);
    rf ← startApplyLogs rf;
    Ret (rf, false)
  else
    next' ← (match backoff (log rf) reply false 0 with
             | Some n => go_store (nextIndex rf) j n
             | None => Ret (nextIndex rf)
             end);
    n ← go_index next' j;
    next' ← (if n <? 0 then go_store next' j 0 else Ret next');
    Ret (rf <| nextIndex := next' |>, true).

End append.

(** ** Specification of the log update *)

(** The offset of the first received entry whose term differs from that of
    the entry already in its place. *)
Fixpoint first_conflict (old entries : list LogEntry) : option nat :=
  match old, entries with
  | x :: old, e :: entries =>
      if decide (Term x = Term e) then S <$> first_conflict old entries else Some O
  | _, _ => None
  end.

(** The entries of [l] up to index [prev], the received ones, and what of
    [l] lies past them. *)
Definition overwrite (l : list LogEntry) (prev : Z) (entries : list LogEntry) : list LogEntry :=
  take (Z.to_nat (prev + 1)) l ++ entries ++ drop (Z.to_nat (prev + 1) + length entries) l.

(** The update rule of the Raft paper: a conflicting entry and all that
    follow it are replaced by the received ones. *)
Definition paper_merge (l : list LogEntry) (prev : Z) (entries : list LogEntry) : list LogEntry :=
  match first_conflict (drop (Z.to_nat (prev + 1)) l) entries with
  | None => overwrite l prev entries
  | Some _ => take (Z.to_nat (prev + 1)) l ++ entries
  end.

(** ** Lemmas on the log update *)

Lemma first_conflict_lt old entries k :
  first_conflict old entries = Some k -> (k < length old)%nat /\ (k < length entries)%nat.
Proof.
  revert entries k. induction old as [|x old IH]; intros [|e entries] k; cbn; try done.
  case_decide; [|naive_solver lia].
  intros (k' & [??]%IH & ->)%fmap_Some. lia.
Qed.

Lemma truncate_conflict_spec l prev entries i :
  0 <= prev + i + 1 ->
  truncate_conflict l prev entries i =
    match first_conflict (drop (Z.to_nat (prev + i + 1)) l) entries with
    | None => Ret l
    | Some k => go_slice_to l (prev + i + Z.of_nat k)
    end.
Proof.
  revert i. induction entries as [|e entries IH]; intros i Hi; cbn [truncate_conflict].
  { by destruct (drop _ l). }
  destruct (Z.leb_spec (len l) (prev + i + 1)) as [Hle|Hlt].
  { rewrite drop_ge by (unfold len in Hle; lia). done. }
  destruct (go_index_in l (prev + i + 1)) as [x Hx]; [lia|].
  rewrite Hx. apply go_index_Ret in Hx as [_ Hx]. cbn [mbind outcome_bind].
  rewrite (drop_S l x) by done. cbn [first_conflict].
  case_decide; case_decide; try done.
  - f_equal. lia.
  - rewrite IH by lia.
    replace (Z.to_nat (prev + (i + 1) + 1)) with (S (Z.to_nat (prev + i + 1))) by lia.
    destruct (first_conflict _ entries); cbn; [f_equal; lia|done].
Qed.

Lemma write_entries_spec l prev entries i :
  0 <= prev + i + 1 <= len l ->
  write_entries l prev entries i = Ret (overwrite l (prev + i) entries).
Proof.
  unfold overwrite.
  revert l i. induction entries as [|e entries IH]; intros l i Hi; cbn [write_entries].
  { cbn. by rewrite Nat.add_0_r, take_drop. }
  destruct (Z.leb_spec (len l) (prev + i + 1)) as [Hle|Hlt].
  - cbn [mbind outcome_bind]. assert (Z.to_nat (prev + i + 1) = length l) as Hn by (unfold len in *; lia).
    rewrite IH by (rewrite len_snoc; lia).
    replace (Z.to_nat (prev + (i + 1) + 1)) with (length (l ++ [e])) by (rewrite length_app; cbn; lia).
    rewrite Hn, (take_ge (l ++ [e])), (take_ge l) by lia.
    rewrite !drop_ge by (rewrite ?length_app; cbn; lia).
    by rewrite !app_nil_r, <- app_assoc.
  - rewrite go_store_in by lia. cbn [mbind outcome_bind].
    rewrite IH by (unfold len in *; rewrite length_insert; lia).
    replace (Z.to_nat (prev + (i + 1) + 1)) with (S (Z.to_nat (prev + i + 1))) by lia.
    rewrite (take_S_r _ _ e) by (apply list_lookup_insert_eq; unfold len in *; lia).
    rewrite take_insert_ge, drop_insert_lt by lia.
    rewrite <- app_assoc. cbn. by replace (Z.to_nat (prev + i + 1) + S (length entries))%nat
      with (S (Z.to_nat (prev + i + 1) + length entries)) by lia.
Qed.

(** The handler's two loops in closed form. *)
Lemma merge_log_spec l prev entries :
  -1 <= prev < len l ->
  merge_log l prev entries =
    match first_conflict (drop (Z.to_nat (prev + 1)) l) entries with
    | None => Ret (overwrite l prev entries)
    | Some O => if prev =? -1 then Panic SliceOutOfRange else Ret (take (Z.to_nat prev) l)
    | Some (S _) => Ret (take (Z.to_nat (prev + 1)) l ++ entries)
    end.
Proof.
  intros Hp. unfold merge_log.
  rewrite truncate_conflict_spec by lia. rewrite Z.add_0_r.
  destruct (first_conflict _ entries) as [[|k]|] eqn:Hc; cbn [mbind outcome_bind].
  - destruct (Z.eqb_spec prev (-1)) as [->|Hne].
    { unfold go_slice_to. rewrite decide_False by (cbn; lia). done. }
    rewrite go_slice_to_in by (cbn; lia). cbn [mbind outcome_bind].
    replace (prev + Z.of_nat 0) with prev by lia.
    by rewrite (proj2 (Z.ltb_ge _ _)) by (rewrite len_take; lia).
  - apply first_conflict_lt in Hc as [Hc1 Hc2]. rewrite length_drop in Hc1. unfold len in Hp.
    rewrite go_slice_to_in by (unfold len; lia). cbn [mbind outcome_bind].
    rewrite (proj2 (Z.ltb_lt _ _)) by (rewrite len_take; unfold len; lia).
    rewrite write_entries_spec by (rewrite len_take; unfold len; lia).
    rewrite Z.add_0_r. unfold overwrite.
    rewrite take_take, Nat.min_l by lia.
    rewrite (drop_ge (take _ l)) by (rewrite length_take; lia). by rewrite app_nil_r.
  - rewrite (proj2 (Z.ltb_lt _ _)) by lia.
    rewrite write_entries_spec by lia. by rewrite Z.add_0_r.
Qed.

(** ** Lemmas on the handler *)

(** The consistency check on the entry before the received ones. *)
Definition prev_matches (l : list LogEntry) (prev term : Z) : Prop :=
  prev = -1 \/ exists e, 0 <= prev /\ l !! Z.to_nat prev = Some e /\ Term e = term.

Lemma check_prev_term rf args reply :
  check_prev rf args = Ret reply -> aer_Term reply = currentTerm rf.
Proof. unfold check_prev. intros Hc. case_tests; invert_bind; case_tests; done. Qed.

Lemma check_prev_success rf args reply :
  check_prev rf args = Ret reply -> Success reply = true ->
  currentTerm rf <= ae_Term args /\ -1 <= PrevLogIndex args < len (log rf) /\
  prev_matches (log rf) (PrevLogIndex args) (PrevLogTerm args).
Proof.
  unfold check_prev, prev_matches. intros Hc Hs. pose proof (len_nonneg (log rf)).
  destruct (Z.ltb_spec (ae_Term args) (currentTerm rf)); [by simplify_eq|].
  destruct (Z.leb_spec (len (log rf)) (PrevLogIndex args)); [by simplify_eq|].
  destruct (Z.eqb_spec (PrevLogIndex args) (-1)) as [->|]; [lia|].
  destruct (go_index _ _) as [e|] eqn:He; [|done]. cbn in Hc.
  pose proof (go_index_lt _ _ _ He). apply go_index_Ret in He as [Hp He].
  split_and!; try lia. right. exists e. split_and!; [done..|].
  destruct (decide _) as [Hne|Heq]; [|by apply dec_stable].
  rewrite (proj2 (Z.leb_le _ _)) in Hc by lia.
  cbn in Hc.
  case_decide; by simplify_eq.
Qed.

(** A rejection leaves a hint: the end of a log that is too short, or the
    term found in place of the expected one and where it starts. *)
Lemma first_index_of_spec l t i k e :
  l !! k = Some e -> Term e = t ->
  exists j e', first_index_of l t i = i + Z.of_nat j /\ (j <= k)%nat /\
    l !! j = Some e' /\ Term e' = t /\
    (forall j' x, (j' < j)%nat -> l !! j' = Some x -> Term x <> t).
Proof.
  revert i k. induction l as [|x l IH]; intros i k Hk Ht; [done|]. cbn [first_index_of].
  destruct (Z.eqb_spec (Term x) t) as [Hx|Hx].
  { exists 0%nat, x. split_and!; [lia..|done|done|lia]. }
  destruct k as [|k]; [naive_solver|].
  destruct (IH (i + 1) k Hk Ht) as (j & e' & -> & Hj & Hl & He & Hb).
  exists (S j), e'. split_and!; [lia..|done|done|].
  intros [|j'] y Hlt Hy; [naive_solver|]. eapply Hb; [|done]. lia.
Qed.

Lemma check_prev_panic rf args f :
  check_prev rf args = Panic f <->
  currentTerm rf <= ae_Term args /\ PrevLogIndex args < -1 /\ f = IndexOutOfRange.
Proof.
  unfold check_prev. pose proof (len_nonneg (log rf)).
  destruct (Z.ltb_spec (ae_Term args) (currentTerm rf)); [split; [done|lia]|].
  destruct (Z.leb_spec (len (log rf)) (PrevLogIndex args)); [split; [done|lia]|].
  destruct (Z.eqb_spec (PrevLogIndex args) (-1)); [split; [done|lia]|].
  destruct (decide (0 <= PrevLogIndex args)).
  - destruct (go_index_in (log rf) (PrevLogIndex args)) as [e He]; [lia|].
    rewrite He. cbn. rewrite (proj2 (Z.leb_le _ _)) by lia. cbn.
    split; [|lia]. case_decide; [case_decide|]; done.
  - rewrite go_index_out by lia. cbn. split; [|by intros (_ & _ & ->)].
    intros. simplify_eq. split_and!; [lia..|done].
Qed.

Section append_lemmas.
Context {GT : GobTypes}.

(** The peer after the handler has compared the terms. *)
Definition AppendEntries_enter (rf : Raft) (args : AppendEntriesArgs) : Raft :=
  if currentTerm rf <? ae_Term args then
    let rf := rf <| currentTerm := ae_Term args |> in
    if decide (state rf <> Follower) then convertToFollower rf (currentTerm rf) (votedFor rf)
    else rf
  else rf.

Lemma AppendEntries_enter_fields rf args :
  let rf1 := AppendEntries_enter rf args in
  peers rf1 = peers rf /\ me rf1 = me rf /\ log rf1 = log rf /\
  currentTerm rf1 = Z.max (currentTerm rf) (ae_Term args) /\
  votedFor rf1 = votedFor rf /\
  committedIndex rf1 = committedIndex rf /\ lastApplied rf1 = lastApplied rf /\
  applyCh rf1 = applyCh rf /\
  state rf1 = (if currentTerm rf <? ae_Term args then Follower else state rf).
Proof.
  unfold AppendEntries_enter. destruct (Z.ltb_spec (currentTerm rf) (ae_Term args)); cbv zeta.
  - raft_simpl. case_decide as Hs; unfold convertToFollower, persist; raft_simpl;
      split_and!; try done; try lia; by apply dec_stable.
  - split_and!; try done. lia.
Qed.

(** What [advance_commit] does to the commit index. *)
Definition advanced (rf : Raft) (args : AppendEntriesArgs) : Z :=
  if committedIndex rf <? LeaderCommit args then
    Z.min (Z.min (LeaderCommit args) (PrevLogIndex args + len (Entries args))) (len (log rf) - 1)
  else committedIndex rf.

Lemma advance_commit_eq rf args :
  advance_commit rf args = rf <| committedIndex := advanced rf args |>.
Proof.
  unfold advance_commit, advanced.
  destruct (committedIndex rf <? LeaderCommit args); [|by destruct rf].
  cbv zeta. destruct (Z.ltb_spec (PrevLogIndex args + len (Entries args)) (LeaderCommit args));
    raft_simpl; case_match; bool_hyps; destruct rf; raft_simpl; cbn in *; f_equal; lia.
Qed.

Definition AppendEntries_spec (rf : Raft) (args : AppendEntriesArgs)
    (rf' : Raft) (reply : AppendEntriesReply) : Prop :=
  peers rf' = peers rf /\ me rf' = me rf /\
  currentTerm rf' = Z.max (currentTerm rf) (ae_Term args) /\
  aer_Term reply = currentTerm rf' /\
  votedFor rf' = votedFor rf /\
  state rf' = (if currentTerm rf <? ae_Term args then Follower else state rf) /\
  raftstate (persister rf') = persist_data rf' /\
  if Success reply then
    currentTerm rf <= ae_Term args /\ -1 <= PrevLogIndex args < len (log rf) /\
    prev_matches (log rf) (PrevLogIndex args) (PrevLogTerm args) /\
    merge_log (log rf) (PrevLogIndex args) (Entries args) = Ret (log rf') /\
    committedIndex rf' = advanced (rf <| log := log rf' |>) args /\
    lastApplied rf' =
      Z.max (lastApplied rf) (Z.min (committedIndex rf') (len (log rf') - 1)) /\
    applyCh rf' = applyCh rf ++ apply_msgs (log rf') (lastApplied rf + 1) (lastApplied rf' + 1)
  else
    log rf' = log rf /\ committedIndex rf' = committedIndex rf /\
    lastApplied rf' = lastApplied rf /\ applyCh rf' = applyCh rf.

Lemma AppendEntries_inv rf args rf' reply :
  -1 <= lastApplied rf ->
  AppendEntries rf args = Ret (rf', reply) ->
  AppendEntries_spec rf args rf' reply.
Proof.
  intros Hla. unfold AppendEntries. fold (AppendEntries_enter rf args).
  pose proof (AppendEntries_enter_fields rf args) as Hf. cbv zeta in Hf |- *.
  revert Hf. generalize (AppendEntries_enter rf args). intros rf1.
  intros (Hpe & Hme & Hlog & Hct & Hvf & Hci & Hla1 & Hch & Hst) Hr.
  destruct (check_prev rf1 args) as [reply1|] eqn:Hc; [|done]. cbn [mbind outcome_bind] in Hr.
  pose proof (check_prev_term _ _ _ Hc) as Ht.
  destruct (Success reply1) eqn:Hs.
  - destruct (check_prev_success _ _ _ Hc Hs) as (Hge & Hpr & Hpm).
    rewrite Hlog in *.
    destruct (merge_log _ _ _) as [l|] eqn:Hm; [|done]. cbn [mbind outcome_bind] in Hr.
    rewrite advance_commit_eq in Hr.
    rewrite startApplyLogs_spec in Hr by (raft_simpl; lia).
    cbn [mbind outcome_bind] in Hr. injection Hr as <- <-.
    unfold AppendEntries_spec, persist, advanced, apply_target. rewrite Hs. raft_simpl.
    rewrite Hci, Hla1, Hch, Hpe, Hme, Hct, Hst, Hvf, Ht in *. 
    split_and!; try done; lia.
  - cbn [mbind outcome_bind] in Hr. injection Hr as <- <-.
    unfold AppendEntries_spec, persist. rewrite Hs. raft_simpl.
    split_and!; try done; congruence.
Qed.

(** ** Lemmas on the leader's side *)

(** The match indexes the commit rule looks at: the leader counts its own
    log in full. *)
Definition effective_match (rf : Raft) : list Z := <[Z.to_nat (me rf) := len (log rf)]> (matchIndex rf).

Lemma commit_index_count rf N :
  length (matchIndex rf) = peers rf -> commit_index rf = Ret N ->
  (peers rf - peers rf / 2 <= length (filter (Z.le N) (effective_match rf)))%nat.
Proof.
  intros Hl. unfold commit_index, effective_match. cbv zeta.
  rewrite go_copy_same by (rewrite length_replicate; lia).
  unfold go_store. case_decide as Hm; [|done]. cbn [mbind outcome_bind].
  intros [_ HN%sort_Ints_count_ge]%go_index_Ret.
  rewrite length_insert, Hl in HN.
  replace (Z.to_nat (Z.of_nat (peers rf) / 2)) with (peers rf / 2)%nat in HN; [done|].
  change 2 with (Z.of_nat 2). by rewrite <- Nat2Z.inj_div, Nat2Z.id.
Qed.

Lemma backoff_Some l reply has i n :
  backoff l reply has i = Some n ->
  exists k e, l !! k = Some e /\ ConflictTerm reply < Term e /\
    (forall k' x, (k' < k)%nat -> l !! k' = Some x -> Term x <= ConflictTerm reply) /\
    (n = i + Z.of_nat k \/ n = ConflictIndex reply).
Proof.
  revert has i. induction l as [|x l IH]; intros has i; cbn [backoff]; [done|]. cbv zeta.
  destruct (Z.ltb_spec (ConflictTerm reply) (Term x)) as [Hlt|Hge].
  - intros [= <-]. exists 0%nat, x. split_and!; [done..|lia|]. case_match; [left; lia|by right].
  - intros (k & e & Hk & He & Hb & Hn)%IH. exists (S k), e. split_and!; [done..| |].
    + intros [|k'] y Hlt Hy; [naive_solver|]. eapply Hb; [|done]. lia.
    + destruct Hn; [left; lia|by right].
Qed.

Lemma backoff_None l reply has i :
  backoff l reply has i = None <-> Forall (fun e => Term e <= ConflictTerm reply) l.
Proof.
  revert has i. induction l as [|x l IH]; intros has i; cbn [backoff]; [done|]. cbv zeta.
  rewrite Forall_cons. destruct (Z.ltb_spec (ConflictTerm reply) (Term x)).
  - split; [done|lia].
  - rewrite IH. tauto.
Qed.

(** The peer changed only what a leader keeps for itself, and what it applied. *)
Definition same_persistent (rf rf' : Raft) : Prop :=
  peers rf' = peers rf /\ me rf' = me rf /\ persister rf' = persister rf /\
  currentTerm rf' = currentTerm rf /\ votedFor rf' = votedFor rf /\ log rf' = log rf /\
  state rf' = state rf /\ voteGranted rf' = voteGranted rf /\
  voteNotGranted rf' = voteNotGranted rf.

Definition reply_success_spec (rf : Raft) (j : Z) (args : AppendEntriesArgs) (rf' : Raft) : Prop :=
  let last := PrevLogIndex args + len (Entries args) in
  same_persistent rf rf' /\
  matchIndex rf' = <[Z.to_nat j := last]> (matchIndex rf) /\
  nextIndex rf' = <[Z.to_nat j := last + 1]> (nextIndex rf) /\
  (committedIndex rf' = committedIndex rf \/
   committedIndex rf < committedIndex rf' /\
   commit_index (rf <| matchIndex := matchIndex rf' |>) = Ret (committedIndex rf') /\
   exists e, go_index (log rf) (committedIndex rf') = Ret e /\ Term e = currentTerm rf) /\
  lastApplied rf' = Z.max (lastApplied rf) (Z.min (committedIndex rf') (len (log rf) - 1)) /\
  applyCh rf' = applyCh rf ++ apply_msgs (log rf) (lastApplied rf + 1) (lastApplied rf' + 1).

Lemma go_store_inv {A} (l l' : list A) i x :
  go_store l i x = Ret l' -> 0 <= i < len l /\ l' = <[Z.to_nat i := x]> l.
Proof. unfold go_store. case_decide; naive_solver. Qed.

Lemma go_index_insert (l : list Z) i x :
  0 <= i < len l -> go_index (<[Z.to_nat i := x]> l) i = Ret x.
Proof.
  intros Hi. apply go_index_Ret. split; [lia|]. apply list_lookup_insert_eq. unfold len in Hi. lia.
Qed.

Lemma appendEntries_reply_success rf j args reply rf' again :
  -1 <= lastApplied rf -> aer_Term reply <= currentTerm rf -> currentTerm rf = ae_Term args ->
  state rf = Leader -> Success reply = true ->
  appendEntries_reply rf j args reply = Ret (rf', again) ->
  again = false /\ reply_success_spec rf j args rf'.
Proof.
  intros Hla Ht Hct Hst Hs. unfold appendEntries_reply.
  rewrite (proj2 (Z.ltb_ge _ _)), decide_False, Hs by (try tauto; lia).
  intros Hr. destruct (go_store (matchIndex rf) _ _) as [m'|] eqn:Em; [|done].
  cbn [mbind outcome_bind] in Hr. apply go_store_inv in Em as [Hj ->].
  raft_simpl_in Hr. rewrite go_index_insert in Hr by done. cbn [mbind outcome_bind] in Hr.
  destruct (go_store (nextIndex rf) _ _) as [n'|] eqn:En; [|done].
  cbn [mbind outcome_bind] in Hr. apply go_store_inv in En as [_ ->].
  destruct (commit_index _) as [N|] eqn:EN; [|done]. cbn [mbind outcome_bind] in Hr.
  match type of Hr with (?m ≫= _) = _ => destruct m as [rf2|] eqn:E2; [|done] end.
  cbn [mbind outcome_bind] in Hr.
  assert (exists ci, rf2 = rf <| matchIndex := <[Z.to_nat j:=PrevLogIndex args + len (Entries args)]> (matchIndex rf) |>
      <| nextIndex := <[Z.to_nat j:=PrevLogIndex args + len (Entries args) + 1]> (nextIndex rf) |>
      <| committedIndex := ci |> /\
    (ci = committedIndex rf \/ committedIndex rf < ci /\ ci = N /\
      exists e, go_index (log rf) ci = Ret e /\ Term e = currentTerm rf)) as (ci & -> & Hci).
  { raft_simpl_in E2. destruct (Z.ltb_spec (committedIndex rf) N).
    - destruct (go_index (log rf) N) as [e|] eqn:Ee; [|done]. cbn in E2.
      destruct (Z.eqb_spec (Term e) (currentTerm rf)); simplify_eq/=.
      + exists N. split; [done|]. right. eauto.
      + exists (committedIndex rf). split; [by destruct rf|by left].
    - simplify_eq. exists (committedIndex rf). split; [by destruct rf|by left]. }
  rewrite startApplyLogs_spec in Hr by (raft_simpl; done). cbn [mbind outcome_bind] in Hr.
  injection Hr as <- <-. split; [done|].
  unfold reply_success_spec, same_persistent, apply_target. raft_simpl.
  split_and!; try done.
  destruct Hci as [->|(Hlt & -> & He)]; [by left|right].
  split_and!; [done| |done].
  by rewrite <- EN.
Qed.

End append_lemmas.

(** ** Properties of the handler *)

Section append_properties.
Context {GT : GobTypes}.

(** Running the handler on a request whose consistency check passes. *)
Lemma AppendEntries_accept rf args :
  -1 <= lastApplied rf -> currentTerm rf <= ae_Term args ->
  -1 <= PrevLogIndex args < len (log rf) ->
  prev_matches (log rf) (PrevLogIndex args) (PrevLogTerm args) ->
  match merge_log (log rf) (PrevLogIndex args) (Entries args) with
  | Ret _ => exists rf' reply, AppendEntries rf args = Ret (rf', reply) /\ Success reply = true
  | Panic f => AppendEntries rf args = Panic f
  end.
Proof.
  intros Hla Hge Hp Hm. unfold AppendEntries. fold (AppendEntries_enter rf args).
  pose proof (AppendEntries_enter_fields rf args) as Hf. cbv zeta in Hf |- *.
  revert Hf. generalize (AppendEntries_enter rf args). intros rf1.
  intros (_ & _ & Hlog & Hct & _ & Hci & Hla1 & _).
  assert (check_prev rf1 args = Ret (mkAppendEntriesReply (currentTerm rf1) true 0 0)) as ->.
  { unfold check_prev. rewrite Hlog.
    rewrite (proj2 (Z.ltb_ge _ _)), (proj2 (Z.leb_gt _ _)) by lia.
    destruct Hm as [->|(e & Hp0 & He & Ht)]; [done|].
    rewrite (proj2 (Z.eqb_neq _ _)) by lia.
    rewrite (proj2 (go_index_Ret _ _ e)) by done. cbn [mbind outcome_bind].
    by rewrite decide_False by tauto. }
  cbn [mbind outcome_bind Success]. rewrite Hlog.
  destruct (merge_log _ _ _) as [l|]; [|done]. cbn [mbind outcome_bind].
  rewrite advance_commit_eq, startApplyLogs_spec by (raft_simpl; lia).
  cbn [mbind outcome_bind]. do 2 eexists. done.
Qed.

Lemma overwrite_lookup l prev entries k e :
  -1 <= prev < len l -> entries !! k = Some e ->
  overwrite l prev entries !! (Z.to_nat (prev + 1) + k)%nat = Some e.
Proof.
  intros Hp Hk. unfold overwrite, len in *.
  rewrite lookup_app_r by (rewrite length_take; lia).
  rewrite length_take, Nat.min_l by lia.
  replace (Z.to_nat (prev + 1) + k - Z.to_nat (prev + 1))%nat with k by lia.
  rewrite lookup_app_l; [done|]. by eapply lookup_lt_Some.
Qed.

Lemma paper_merge_lookup l prev entries k e :
  -1 <= prev < len l -> entries !! k = Some e ->
  paper_merge l prev entries !! (Z.to_nat (prev + 1) + k)%nat = Some e.
Proof.
  intros Hp Hk. unfold paper_merge. case_match; [|by apply overwrite_lookup].
  unfold len in *. rewrite lookup_app_r by (rewrite length_take; lia).
  rewrite length_take, Nat.min_l by lia.
  by replace (Z.to_nat (prev + 1) + k - Z.to_nat (prev + 1))%nat with k by lia.
Qed.

Lemma paper_merge_prefix l prev entries :
  -1 <= prev < len l ->
  take (Z.to_nat (prev + 1)) (paper_merge l prev entries) = take (Z.to_nat (prev + 1)) l.
Proof.
  intros Hp. unfold paper_merge, overwrite, len in *.
  case_match; apply take_app_length'; rewrite length_take; lia.
Qed.

Lemma merge_log_paper l prev entries l' :
  -1 <= prev < len l ->
  first_conflict (drop (Z.to_nat (prev + 1)) l) entries <> Some O ->
  merge_log l prev entries = Ret l' -> l' = paper_merge l prev entries.
Proof.
  intros Hp Hc. rewrite merge_log_spec by done. unfold paper_merge.
  destruct (first_conflict _ _) as [[|k]|]; [done|..]; congruence.
Qed.

(** Unless the first entry conflicts, the new log reaches the last one. *)
Lemma merge_log_reaches l prev entries l' :
  -1 <= prev < len l ->
  first_conflict (drop (Z.to_nat (prev + 1)) l) entries <> Some O ->
  merge_log l prev entries = Ret l' -> prev + len entries < len l'.
Proof.
  intros Hp Hc Hm. rewrite (merge_log_paper _ _ _ _ Hp Hc Hm). unfold paper_merge, overwrite.
  pose proof (len_take l (prev + 1) ltac:(lia)).
  case_match; rewrite !len_app; [lia|].
  match goal with |- context [len (drop ?n ?l)] => pose proof (len_nonneg (drop n l)) end. lia.
Qed.

(** What stays below the received entries, and what is cut above them. *)
Lemma paper_merge_take l prev entries :
  -1 <= prev < len l ->
  take (Z.to_nat (prev + 1)) (paper_merge l prev entries) = take (Z.to_nat (prev + 1)) l.
Proof.
  intros Hp. unfold paper_merge, overwrite, len in *.
  case_match; rewrite take_app_le by (rewrite length_take; lia); rewrite take_take; f_equal; lia.
Qed.

Lemma paper_merge_len l prev entries :
  -1 <= prev < len l -> first_conflict (drop (Z.to_nat (prev + 1)) l) entries <> None ->
  len (paper_merge l prev entries) = prev + 1 + len entries.
Proof.
  intros Hp Hc. unfold paper_merge. case_match; [|done]. rewrite len_app, len_take by lia. lia.
Qed.

(** C15: when AppendEntries reports success and the first received entry does
    not conflict with the one in its place, the log is the one the Raft
    paper's update rule gives: the received entries are stored right after
    PrevLogIndex and everything up to PrevLogIndex is kept. *)
Theorem AppendEntries_stores_entries (rf rf' : Raft) (args : AppendEntriesArgs)
    (reply : AppendEntriesReply) :
  -1 <= lastApplied rf ->
  AppendEntries rf args = Ret (rf', reply) -> Success reply = true ->
  first_conflict (drop (Z.to_nat (PrevLogIndex args + 1)) (log rf)) (Entries args) <> Some O ->
  log rf' = paper_merge (log rf) (PrevLogIndex args) (Entries args) /\
  (forall k e, Entries args !! k = Some e ->
     log rf' !! (Z.to_nat (PrevLogIndex args + 1) + k)%nat = Some e) /\
  take (Z.to_nat (PrevLogIndex args + 1)) (log rf') =
    take (Z.to_nat (PrevLogIndex args + 1)) (log rf).
Proof.
  intros Hla Hr Hs Hc. apply AppendEntries_inv in Hr; [|done].
  destruct Hr as (_ & _ & _ & _ & _ & _ & _ & Hif). rewrite Hs in Hif.
  destruct Hif as (_ & Hp & _ & Hm & _).
  rewrite (merge_log_paper _ _ _ _ Hp Hc Hm).
  split_and!; [done| |by apply paper_merge_prefix].
  intros k e Hk. by apply paper_merge_lookup.
Qed.

(** When the first received entry does conflict, AppendEntries still
    reports success but stores none of the entries, and it also drops the
    entry at PrevLogIndex, which had just been found to match.
    (raft.go:377 cuts one entry too many, so the guard at raft.go:381 skips
    the append.) *)
Theorem AppendEntries_success_loses_entries (rf : Raft) (args : AppendEntriesArgs) :
  -1 <= lastApplied rf -> currentTerm rf <= ae_Term args ->
  0 <= PrevLogIndex args < len (log rf) ->
  prev_matches (log rf) (PrevLogIndex args) (PrevLogTerm args) ->
  first_conflict (drop (Z.to_nat (PrevLogIndex args + 1)) (log rf)) (Entries args) = Some O ->
  exists rf' reply,
    AppendEntries rf args = Ret (rf', reply) /\ Success reply = true /\
    log rf' = take (Z.to_nat (PrevLogIndex args)) (log rf).
Proof.
  intros Hla Hge Hp Hm Hc.
  assert (merge_log (log rf) (PrevLogIndex args) (Entries args) =
    Ret (take (Z.to_nat (PrevLogIndex args)) (log rf))) as Hl.
  { rewrite merge_log_spec, Hc, (proj2 (Z.eqb_neq _ _)) by lia. done. }
  pose proof (AppendEntries_accept rf args Hla Hge ltac:(lia) Hm) as Ha. rewrite Hl in Ha.
  destruct Ha as (rf' & reply & Hr & Hs). exists rf', reply. split_and!; try done.
  apply AppendEntries_inv in Hr; [|done].
  destruct Hr as (_ & _ & _ & _ & _ & _ & _ & Hif). rewrite Hs in Hif.
  destruct Hif as (_ & _ & _ & Hm' & _). congruence.
Qed.

Lemma AppendEntries_panics (rf : Raft) (args : AppendEntriesArgs) (f : fault) :
  -1 <= lastApplied rf ->
  AppendEntries rf args = Panic f <->
  currentTerm rf <= ae_Term args /\
  (PrevLogIndex args < -1 /\ f = IndexOutOfRange \/
   PrevLogIndex args = -1 /\ first_conflict (log rf) (Entries args) = Some O /\
   f = SliceOutOfRange).
Proof.
  intros Hla.
  destruct (check_prev (AppendEntries_enter rf args) args) as [reply|g] eqn:Hc.
  2:{ assert (AppendEntries rf args = Panic g) as ->.
      { unfold AppendEntries. fold (AppendEntries_enter rf args). cbv zeta. by rewrite Hc. }
      apply check_prev_panic in Hc as (Hge & Hp & ->).
      destruct (AppendEntries_enter_fields rf args) as (_ & _ & _ & Hct & _).
      split; [intros [= <-]|intros [_ [[_ ->]|[? _]]]; [done|lia]].
      split; [lia|]. by left. }
  pose proof (AppendEntries_enter_fields rf args) as (_ & _ & Hlog & Hct & _).
  destruct (Success reply) eqn:Hs.
  - apply check_prev_success in Hc as (Hge & Hp & Hm); [|done]. rewrite Hlog in *.
    pose proof (AppendEntries_accept rf args Hla ltac:(lia) Hp Hm) as Ha.
    rewrite merge_log_spec in Ha by done.
    destruct (Z.eqb_spec (PrevLogIndex args) (-1)) as [Hm1|Hm1].
    + rewrite Hm1 in *. change (drop (Z.to_nat (-1 + 1)) (log rf)) with (log rf) in Ha.
      destruct (first_conflict _ _) as [[|k]|]; [|destruct Ha as (? & ? & -> & _)..].
      * rewrite Ha. split; [intros [= <-]|naive_solver lia]. split; [lia|]. right. done.
      * split; [done|]. intros [_ [?|[_ [? _]]]]; [lia|done].
      * split; [done|]. intros [_ [?|[_ [? _]]]]; [lia|done].
    + assert (exists rf' reply, AppendEntries rf args = Ret (rf', reply)) as (? & ? & ->).
      { destruct (first_conflict _ _) as [[|k]|]; destruct Ha as (? & ? & -> & _); eauto. }
      split; [done|lia].
  - assert (exists x, AppendEntries rf args = Ret x) as [x ->].
    { unfold AppendEntries. fold (AppendEntries_enter rf args). cbv zeta. rewrite Hc.
      cbn [mbind outcome_bind]. rewrite Hs. eexists. done. }
    split; [done|]. intros [Hge Hcase]. exfalso.
    destruct Hcase as [[Hp ->]|(Hp & _ & _)].
    + assert (check_prev (AppendEntries_enter rf args) args = Panic IndexOutOfRange) as Hx
        by (apply check_prev_panic; split_and!; [lia..|done]). congruence.
    + unfold check_prev in Hc. pose proof (len_nonneg (log (AppendEntries_enter rf args))).
      rewrite (proj2 (Z.ltb_ge _ _)), (proj2 (Z.leb_gt _ _)), Hp in Hc by lia.
      cbn in Hc. by simplify_eq.
Qed.

(** Exactly the requests that take the receiving process down: a request
    of a current term with a PrevLogIndex below -1, and one that starts at
    the beginning of the log and whose first entry conflicts with the first
    entry of the log (raft.go:377 then slices the log at -1). *)
Theorem AppendEntries_panics_iff (rf : Raft) (args : AppendEntriesArgs) (f : fault) :
  -1 <= lastApplied rf ->
  AppendEntries rf args = Panic f <->
  currentTerm rf <= ae_Term args /\
  (PrevLogIndex args < -1 /\ f = IndexOutOfRange \/
   PrevLogIndex args = -1 /\ first_conflict (log rf) (Entries args) = Some O /\
   f = SliceOutOfRange).
Proof. apply AppendEntries_panics. Qed.

(** C17: a rejected request leaves the log, the commit index and what was
    applied alone, and the reply says why: the sender's term is stale; or the
    log is too short, and its last index is returned; or the entry at
    PrevLogIndex has another term, and that term is returned with the index
    of the first entry of the log that has it. *)
Theorem AppendEntries_rejects (rf rf' : Raft) (args : AppendEntriesArgs)
    (reply : AppendEntriesReply) :
  -1 <= lastApplied rf ->
  AppendEntries rf args = Ret (rf', reply) -> Success reply = false ->
  log rf' = log rf /\ committedIndex rf' = committedIndex rf /\
  lastApplied rf' = lastApplied rf /\ applyCh rf' = applyCh rf /\
  raftstate (persister rf') = persist_data rf' /\
  aer_Term reply = Z.max (currentTerm rf) (ae_Term args) /\
  (ae_Term args < currentTerm rf \/
   len (log rf) <= PrevLogIndex args /\
     ConflictTerm reply = -1 /\ ConflictIndex reply = len (log rf) - 1 \/
   exists e k e0, 0 <= PrevLogIndex args /\
     log rf !! Z.to_nat (PrevLogIndex args) = Some e /\ Term e <> PrevLogTerm args /\
     ConflictTerm reply = Term e /\ ConflictIndex reply = Z.of_nat k /\
     Z.of_nat k <= PrevLogIndex args /\
     log rf !! k = Some e0 /\ Term e0 = Term e /\
     (forall k' x, (k' < k)%nat -> log rf !! k' = Some x -> Term x <> Term e)).
Proof.
  intros Hla Hr Hs. pose proof Hr as Hi. apply AppendEntries_inv in Hi; [|done].
  destruct Hi as (_ & _ & Hct & Hrt & _ & _ & Hps & Hif). rewrite Hs in Hif.
  destruct Hif as (Hl & Hci & Hap & Hch). split_and!; try done; [congruence|].
  unfold AppendEntries in Hr. fold (AppendEntries_enter rf args) in Hr. cbv zeta in Hr.
  pose proof (AppendEntries_enter_fields rf args) as (_ & _ & Hlog & Hct1 & _).
  destruct (check_prev _ _) as [reply1|] eqn:Hc; [|done]. cbn [mbind outcome_bind] in Hr.
  destruct (Success reply1) eqn:Hs1.
  { match type of Hr with mbind _ ?m = _ => destruct m; [|done] end.
    cbn [mbind outcome_bind] in Hr. congruence. }
  injection Hr as _ <-. unfold check_prev in Hc. rewrite Hlog, Hct1 in Hc.
  destruct (Z.ltb_spec (ae_Term args) (currentTerm rf `max` ae_Term args)); [left; lia|right].
  destruct (Z.leb_spec (len (log rf)) (PrevLogIndex args)); [left; by simplify_eq|right].
  destruct (Z.eqb_spec (PrevLogIndex args) (-1)); [by simplify_eq|].
  destruct (go_index _ _) as [e|] eqn:He; [|done]. cbn [mbind outcome_bind] in Hc.
  apply go_index_Ret in He as [Hp He].
  case_decide as Ht; [|by simplify_eq].
  rewrite (proj2 (Z.leb_le _ _)) in Hc by done. cbn [mbind outcome_bind] in Hc.
  rewrite decide_True in Hc by congruence.
  destruct (first_index_of_spec _ _ 0 _ _ He eq_refl) as (k & e0 & Hk & Hle & He0 & Ht0 & Hb).
  rewrite Hk in Hc. simplify_eq. exists e, k, e0. split_and!; try done. cbn. lia.
Qed.

(** C16: what a successful request does to the commit index, for every request.
    When the leader's commit index is not larger, nothing; otherwise it
    becomes the smallest of the leader's commit index, the index of the last
    received entry and the last index of the new log.  Unless the first
    received entry conflicts, the last of the three never decides.  The commit
    index goes back exactly when the last received entry or the end of the new
    log lies below it.  The service receives exactly the entries of the new log
    from lastApplied + 1 up to the new commit index, once. *)
Theorem AppendEntries_commits (rf rf' : Raft) (args : AppendEntriesArgs)
    (reply : AppendEntriesReply) :
  -1 <= lastApplied rf -> AppendEntries rf args = Ret (rf', reply) -> Success reply = true ->
  let last_new := PrevLogIndex args + len (Entries args) in
  (LeaderCommit args <= committedIndex rf -> committedIndex rf' = committedIndex rf) /\
  (committedIndex rf < LeaderCommit args ->
     committedIndex rf' = Z.min (Z.min (LeaderCommit args) last_new) (len (log rf') - 1) /\
     (first_conflict (drop (Z.to_nat (PrevLogIndex args + 1)) (log rf)) (Entries args) <> Some O ->
        committedIndex rf' = Z.min (LeaderCommit args) last_new)) /\
  (committedIndex rf' < committedIndex rf <->
     committedIndex rf < LeaderCommit args /\ Z.min last_new (len (log rf') - 1) < committedIndex rf) /\
  lastApplied rf' = Z.max (lastApplied rf) (Z.min (committedIndex rf') (len (log rf') - 1)) /\
  applyCh rf' = applyCh rf ++ apply_msgs (log rf') (lastApplied rf + 1) (lastApplied rf' + 1).
Proof.
  intros Hla Hr Hs last_new. apply AppendEntries_inv in Hr; [|done].
  destruct Hr as (_ & _ & _ & _ & _ & _ & _ & Hif). rewrite Hs in Hif.
  destruct Hif as (_ & Hp & _ & Hm & Hci' & Hla' & Hch).
  revert Hci'. unfold advanced. raft_simpl. fold last_new. intros Hci'.
  split_and!; try done.
  - intros Hle. by rewrite (proj2 (Z.ltb_ge _ _)) in Hci' by done.
  - intros Hlt. rewrite (proj2 (Z.ltb_lt _ _)) in Hci' by done. split; [lia|]. intros Hc.
    pose proof (merge_log_reaches _ _ _ _ Hp Hc Hm). fold last_new in H. lia.
  - destruct (Z.ltb_spec (committedIndex rf) (LeaderCommit args)); lia.
Qed.

(** ** Properties of the leader's side *)

(** C18: on a successful reply the leader moves its commit index only forward,
    only to an entry of its own term, and only when the peers whose match
    index reaches it, itself included, are so many that any peers/2 + 1 voters
    include one of them; with an odd number of peers they are a majority. *)
Theorem leader_commits_quorum (rf rf' : Raft) (j : Z) (args : AppendEntriesArgs)
    (reply : AppendEntriesReply) (again : bool) :
  -1 <= lastApplied rf -> state rf = Leader -> currentTerm rf = ae_Term args ->
  aer_Term reply <= currentTerm rf -> Success reply = true ->
  length (matchIndex rf) = peers rf ->
  appendEntries_reply rf j args reply = Ret (rf', again) ->
  committedIndex rf' = committedIndex rf \/
  committedIndex rf < committedIndex rf' /\
  (exists e, go_index (log rf') (committedIndex rf') = Ret e /\ Term e = currentTerm rf) /\
  let holders := length (filter (Z.le (committedIndex rf')) (effective_match rf')) in
  (peers rf' < holders + (peers rf' / 2 + 1))%nat /\
  (Nat.Odd (peers rf') -> peers rf' < 2 * holders)%nat.
Proof.
  intros Hla Hst Ht Hrt Hs Hlen Hr.
  apply appendEntries_reply_success in Hr as [_ Hspec]; try done.
  destruct Hspec as ((Hpe & Hme & _ & _ & _ & Hl & _) & Hm & _ & Hci & _).
  destruct Hci as [Hci|(Hlt & Hidx & He)]; [by left|right].
  rewrite Hl. cbv zeta. split; [done|]. split; [done|].
  assert (length (matchIndex rf') = peers rf) as Hlen' by (by rewrite Hm, length_insert).
  apply commit_index_count in Hidx; [|done]. revert Hidx. unfold effective_match. raft_simpl.
  rewrite Hme, Hl, Hpe. intros Hcount.
  pose proof (Nat.div_le_upper_bound (peers rf) 2 (peers rf) ltac:(lia) ltac:(lia)).
  split; [lia|]. intros [q Hq]. rewrite Hq in *.
  replace ((2 * q + 1) / 2)%nat with q in Hcount; [lia|].
  apply (Nat.div_unique _ 2 q 1); lia.
Qed.

Lemma commit_index_two rf m :
  peers rf = 2%nat -> me rf = 0 \/ me rf = 1 -> length (matchIndex rf) = 2%nat ->
  matchIndex rf !! Z.to_nat (1 - me rf) = Some m -> m < len (log rf) ->
  commit_index rf = Ret (len (log rf)).
Proof.
  intros Hp Hme Hl Hm Hlt. unfold commit_index. rewrite Hp.
  rewrite go_copy_same by (by rewrite Hl).
  rewrite go_store_in by (unfold len; lia). cbn [mbind outcome_bind].
  rewrite (sort_Ints_unique _ [m; len (log rf)]); [done| |].
  - repeat constructor; lia.
  - destruct (matchIndex rf) as [|a [|b [|]]]; try done.
    destruct Hme as [Hme|Hme]; rewrite Hme in *; vm_compute in Hm; simplify_eq;
      [apply Permutation_swap|done].
Qed.

(** In a cluster of two peers the leader process goes down on the first
    successful reply: the middle of the two sorted match indexes is the
    leader's own one, which is the length of its log (raft.go:672), and
    indexing the log with it faults. *)
Theorem leader_of_two_panics (rf : Raft) (args : AppendEntriesArgs) (reply : AppendEntriesReply) :
  state rf = Leader -> currentTerm rf = ae_Term args -> aer_Term reply <= currentTerm rf ->
  Success reply = true ->
  peers rf = 2%nat -> me rf = 0 \/ me rf = 1 ->
  length (matchIndex rf) = 2%nat -> length (nextIndex rf) = 2%nat ->
  committedIndex rf < len (log rf) ->
  PrevLogIndex args + len (Entries args) < len (log rf) ->
  appendEntries_reply rf (1 - me rf) args reply = Panic IndexOutOfRange.
Proof.
  intros Hst Ht Hrt Hs Hp Hme Hm Hn Hci Hlast.
  unfold appendEntries_reply. rewrite (proj2 (Z.ltb_ge _ _)), decide_False, Hs by (tauto || lia).
  rewrite go_store_in by (unfold len; lia). cbn [mbind outcome_bind].
  raft_simpl. rewrite go_index_insert by (unfold len; lia). cbn [mbind outcome_bind].
  rewrite go_store_in by (unfold len; lia). cbn [mbind outcome_bind].
  set (last := PrevLogIndex args + len (Entries args)) in *.
  erewrite (commit_index_two _ last); raft_simpl; try done.
  - cbn [mbind outcome_bind]. rewrite (proj2 (Z.ltb_lt _ _)) by done.
    by rewrite go_index_out by lia.
  - by rewrite length_insert.
  - apply list_lookup_insert_eq. lia.
Qed.

(** the retry loop of a leader that has nothing newer than the
    conflicting term makes no progress: a reply whose conflict term is not
    below any term of the leader's log leaves the leader exactly as it was
    and sends the goroutine round its loop again, with the same arguments. *)
Theorem leader_retry_stuck (rf : Raft) (j : Z) (args : AppendEntriesArgs)
    (reply : AppendEntriesReply) :
  state rf = Leader -> currentTerm rf = ae_Term args -> aer_Term reply <= currentTerm rf ->
  Success reply = false ->
  Forall (fun e => Term e <= ConflictTerm reply) (log rf) ->
  (exists n, go_index (nextIndex rf) j = Ret n /\ 0 <= n) ->
  appendEntries_args rf j = Ret (Some args) ->
  exists rf', appendEntries_reply rf j args reply = Ret (rf', true) /\
    rf' = rf /\ appendEntries_args rf' j = Ret (Some args).
Proof.
  intros Hst Ht Hrt Hs Hall (n & Hn & Hpos) Hargs.
  exists rf. split_and!; try done.
  unfold appendEntries_reply. rewrite (proj2 (Z.ltb_ge _ _)), decide_False, Hs by (tauto || lia).
  rewrite (proj2 (backoff_None _ _ _ _) Hall). cbn [mbind outcome_bind].
  rewrite Hn. cbn [mbind outcome_bind]. rewrite (proj2 (Z.ltb_ge _ _)) by done.
  cbn [mbind outcome_bind]. by destruct rf.
Qed.

Lemma backoff_no_conflict_term l reply i :
  Forall (fun e => Term e <> ConflictTerm reply) l ->
  Exists (fun e => ConflictTerm reply < Term e) l ->
  backoff l reply false i = Some (ConflictIndex reply).
Proof.
  intros Hno. revert i. induction Hno as [|e l He Hno IH]; intros i Hex; [by apply Exists_nil in Hex|].
  cbn [backoff orb]. rewrite (proj2 (Z.eqb_neq _ _)) by done.
  destruct (Z.ltb_spec (ConflictTerm reply) (Term e)); [done|].
  apply Exists_cons in Hex as [?|Hex]; [lia|]. by apply IH.
Qed.

(** when the leader has an entry newer than the conflicting term and none
    of that term, a rejection moves the peer's nextIndex to the hint, which
    is strictly below where it was: the retry loop comes closer to a point
    where the logs agree. *)
Theorem leader_retry_backs_off (rf : Raft) (j n : Z) (args : AppendEntriesArgs)
    (reply : AppendEntriesReply) :
  state rf = Leader -> currentTerm rf = ae_Term args -> aer_Term reply <= currentTerm rf ->
  Success reply = false ->
  go_index (nextIndex rf) j = Ret n -> PrevLogIndex args = n - 1 ->
  0 <= PrevLogIndex args -> ConflictIndex reply <= PrevLogIndex args ->
  Forall (fun e => Term e <> ConflictTerm reply) (log rf) ->
  Exists (fun e => ConflictTerm reply < Term e) (log rf) ->
  exists rf' n', appendEntries_reply rf j args reply = Ret (rf', true) /\
    go_index (nextIndex rf') j = Ret n' /\
    n' = Z.max 0 (ConflictIndex reply) /\ 0 <= n' < n /\ log rf' = log rf.
Proof.
  intros Hst Ht Hrt Hs Hn Hprev Hp Hci Hno Hex.
  pose proof (go_index_lt _ _ _ Hn) as Hj.
  unfold appendEntries_reply. rewrite (proj2 (Z.ltb_ge _ _)), decide_False, Hs by (tauto || lia).
  rewrite backoff_no_conflict_term by done.
  rewrite go_store_in by done. cbn [mbind outcome_bind].
  rewrite go_index_insert by done. cbn [mbind outcome_bind].
  destruct (Z.ltb_spec (ConflictIndex reply) 0).
  - rewrite go_store_in by (unfold len in *; rewrite length_insert; lia). cbn [mbind outcome_bind].
    do 2 eexists. split; [reflexivity|]. raft_simpl.
    rewrite go_index_insert by (unfold len in *; rewrite length_insert; lia).
    split_and!; [reflexivity|lia..|done].
  - cbn [mbind outcome_bind]. do 2 eexists. split; [reflexivity|]. raft_simpl.
    rewrite go_index_insert by done. split_and!; [reflexivity|lia..|done].
Qed.

(** The leader's request carries its log after PrevLogIndex. *)
Lemma appendEntries_args_entries L j args :
  appendEntries_args L j = Ret (Some args) ->
  PrevLogIndex args + len (Entries args) = len (log L) - 1 /\ ae_Term args = currentTerm L /\
  Entries args = drop (Z.to_nat (PrevLogIndex args + 1)) (log L).
Proof.
  unfold appendEntries_args. case_decide; [done|]. cbv zeta.
  intros (next & _ & (pt & _ & (es & Hes & [= <-])%bind_Ret)%bind_Ret)%bind_Ret.
  unfold go_slice_from in Hes. case_decide as Hb; [|done]. injection Hes as <-.
  cbn [PrevLogIndex Entries ae_Term]. split_and!; [|done..]. unfold len in *. rewrite length_drop. lia.
Qed.

(** C14: one round of replication.  The request a leader builds for a peer
    carries all of its log after PrevLogIndex; when the peer accepts it and
    its first entry does not conflict, the peer's log afterwards holds the
    leader's entry at every index past PrevLogIndex that the leader's log has,
    and is unchanged up to PrevLogIndex.  Entries of the peer past the end of
    the leader's log are gone if any received entry conflicted; otherwise the
    peer keeps them. *)
Theorem replication_round (L F F' : Raft) (j : Z) (args : AppendEntriesArgs)
    (reply : AppendEntriesReply) :
  appendEntries_args L j = Ret (Some args) ->
  -1 <= lastApplied F ->
  AppendEntries F args = Ret (F', reply) -> Success reply = true ->
  let conflict := first_conflict (drop (Z.to_nat (PrevLogIndex args + 1)) (log F)) (Entries args) in
  conflict <> Some O ->
  (forall k e, PrevLogIndex args < Z.of_nat k -> log L !! k = Some e -> log F' !! k = Some e) /\
  take (Z.to_nat (PrevLogIndex args + 1)) (log F') = take (Z.to_nat (PrevLogIndex args + 1)) (log F) /\
  (conflict <> None -> len (log F') = len (log L)) /\
  (conflict = None -> forall k e, len (log L) <= Z.of_nat k -> log F !! k = Some e -> log F' !! k = Some e) /\
  PrevLogIndex args + len (Entries args) = len (log L) - 1 /\
  ae_Term args = currentTerm L.
Proof.
  intros Ha Hla Hr Hs conflict Hc. apply AppendEntries_inv in Hr; [|done].
  destruct Hr as (_ & _ & _ & _ & _ & _ & _ & Hif). rewrite Hs in Hif.
  destruct Hif as (_ & Hp & _ & Hm & _). rewrite (merge_log_paper _ _ _ _ Hp Hc Hm).
  destruct (appendEntries_args_entries _ _ _ Ha) as (Hlen & Ht & He).
  split_and!; try done.
  - intros k e Hk HL.
    replace k with (Z.to_nat (PrevLogIndex args + 1) + (k - Z.to_nat (PrevLogIndex args + 1)))%nat by lia.
    apply paper_merge_lookup; [done|]. rewrite He, lookup_drop. rewrite <- HL. f_equal. lia.
  - by apply paper_merge_take.
  - intros Hn. rewrite paper_merge_len by done. lia.
  - intros Hn k e Hk Hl. unfold paper_merge. fold conflict. rewrite Hn. unfold overwrite, len in *.
    rewrite app_assoc, lookup_app_r by (rewrite length_app, length_take; lia).
    rewrite lookup_drop, length_app, length_take. rewrite <- Hl. f_equal. lia.
Qed.

End append_properties.

(** ** Witnesses *)

Section witnesses.
#[local] Existing Instance first_types.

(** The follower of the examples has the terms 1, 1, 2. *)
Definition append_args (prev prevTerm : Z) (entries : list LogEntry) (commit : Z) :=
  mkAppendEntriesArgs 3 1 prev prevTerm entries commit.

Definition args_extend := append_args 1 1 [mkLogEntry (IInt 30) 2; mkLogEntry (IInt 40) 3] 2.
Definition args_conflict := append_args 1 1 [mkLogEntry (IInt 41) 3] 1.

Lemma AppendEntries_stores_entries_witness :
  exists rf' reply, AppendEntries raft_example args_extend = Ret (rf', reply) /\
    log rf' = paper_merge (log raft_example) 1 (Entries args_extend).
Proof.
  destruct (AppendEntries raft_example args_extend) as [[rf' reply]|f] eqn:E; [|vm_compute in E; discriminate E].
  exists rf', reply. split; [reflexivity|].
  apply (AppendEntries_stores_entries raft_example rf' args_extend reply).
  - by vm_compute.
  - exact E.
  - vm_compute in E. injection E as _ <-. reflexivity.
  - by vm_compute.
Defined.

Lemma AppendEntries_success_loses_entries_witness :
  exists rf' reply, AppendEntries raft_example args_conflict = Ret (rf', reply) /\
    Success reply = true /\ log rf' = [mkLogEntry (IInt 10) 1].
Proof.
  apply (AppendEntries_success_loses_entries raft_example args_conflict); try by vm_compute.
  right. exists (mkLogEntry (IString "x") 1). by vm_compute.
Defined.

Lemma AppendEntries_panics_iff_witness :
  AppendEntries raft_example (append_args (-1) (-1) [mkLogEntry (IInt 9) 3] 0) = Panic SliceOutOfRange.
Proof.
  apply (AppendEntries_panics_iff raft_example); [by vm_compute|].
  split; [by vm_compute|]. right. by vm_compute.
Defined.

Lemma AppendEntries_rejects_witness :
  exists rf' reply, AppendEntries raft_example (append_args 2 3 [] 0) = Ret (rf', reply) /\
    log rf' = log raft_example.
Proof.
  destruct (AppendEntries raft_example (append_args 2 3 [] 0)) as [[rf' reply]|f] eqn:E;
    [|vm_compute in E; discriminate E].
  exists rf', reply. split; [reflexivity|].
  apply (AppendEntries_rejects raft_example rf' (append_args 2 3 [] 0) reply).
  - by vm_compute.
  - exact E.
  - vm_compute in E. injection E as _ <-. reflexivity.
Defined.

Definition args_commit := append_args 1 1 [mkLogEntry (IInt 30) 2] 7.

Lemma AppendEntries_commits_witness :
  exists rf' reply, AppendEntries raft_example args_commit = Ret (rf', reply) /\
    committedIndex rf' = Z.min (Z.min 7 2) (len (log rf') - 1) /\ committedIndex rf' = 2.
Proof.
  destruct (AppendEntries raft_example args_commit) as [[rf' reply]|f] eqn:E; [|vm_compute in E; discriminate E].
  exists rf', reply. split; [reflexivity|]. split.
  - destruct (AppendEntries_commits raft_example rf' args_commit reply) as (_ & Hc & _); [by vm_compute|exact E| |].
    + vm_compute in E. injection E as _ <-. reflexivity.
    + apply Hc. by vm_compute.
  - vm_compute in E. injection E as <- _. reflexivity.
Defined.

(** A leader of [n] peers in term 2 with the log of terms 1, 1, 2. *)
Definition leader_example (n : nat) : Raft :=
  raft_example <| peers := n |> <| state := Leader |>
    <| nextIndex := replicate n 3 |> <| matchIndex := replicate n (-1) |>.

Definition leader_args : AppendEntriesArgs :=
  mkAppendEntriesArgs 2 0 1 1 [mkLogEntry (IInt 30) 2] 1.

Lemma leader_commits_quorum_witness :
  exists rf' again, appendEntries_reply (leader_example 3) 1 leader_args
      (mkAppendEntriesReply 2 true 0 0) = Ret (rf', again) /\
    committedIndex rf' = 2 /\
    (peers rf' < 2 * length (filter (Z.le (committedIndex rf')) (effective_match rf')))%nat.
Proof.
  destruct (appendEntries_reply (leader_example 3) 1 leader_args (mkAppendEntriesReply 2 true 0 0))
    as [[rf' again]|f] eqn:E; [|vm_compute in E; discriminate E].
  exists rf', again.
  assert (committedIndex rf' = 2) as Hc by (vm_compute in E; injection E as <- _; reflexivity).
  split; [reflexivity|]. split; [exact Hc|].
  destruct (leader_commits_quorum (leader_example 3) rf' 1 leader_args
    (mkAppendEntriesReply 2 true 0 0) again) as [Hx|(_ & _ & _ & Hm)];
    [by vm_compute|by vm_compute|by vm_compute|by vm_compute|by vm_compute
    |by vm_compute|exact E| |].
  - rewrite Hx in Hc. vm_compute in Hc. discriminate Hc.
  - apply Hm. assert (peers rf' = 3%nat) as -> by (vm_compute in E; injection E as <- _; reflexivity).
    by exists 1%nat.
Defined.

Lemma leader_of_two_panics_witness :
  appendEntries_reply (leader_example 2) 1 leader_args (mkAppendEntriesReply 2 true 0 0) =
    Panic IndexOutOfRange.
Proof.
  apply (leader_of_two_panics (leader_example 2)); try by vm_compute.
  by left.
Defined.

(** A leader whose only entry is of term 1, in term 3, and a peer that holds
    an entry of term 2 in its place. *)
Definition stale_leader : Raft :=
  (leader_example 3) <| currentTerm := 3 |> <| log := [mkLogEntry (IInt 10) 1] |>
    <| nextIndex := [1; 1; 1] |>.

Lemma leader_retry_stuck_witness :
  exists args reply rf',
    appendEntries_args stale_leader 1 = Ret (Some args) /\
    appendEntries_reply stale_leader 1 args reply = Ret (rf', true) /\ rf' = stale_leader.
Proof.
  exists (mkAppendEntriesArgs 3 0 0 1 [] 1), (mkAppendEntriesReply 3 false 0 2), stale_leader.
  destruct (leader_retry_stuck stale_leader 1 (mkAppendEntriesArgs 3 0 0 1 [] 1)
    (mkAppendEntriesReply 3 false 0 2)) as (rf' & E & Hrf & _);
    [by vm_compute|by vm_compute|by vm_compute|by vm_compute|repeat constructor; by vm_compute
    |by exists 1|by vm_compute|].
  split_and!; [by vm_compute| |reflexivity]. rewrite Hrf in E. exact E.
Defined.

Lemma leader_retry_backs_off_witness :
  exists rf' n', appendEntries_reply (leader_example 3) 1
      (mkAppendEntriesArgs 2 0 2 2 [] 1) (mkAppendEntriesReply 2 false 0 (-1)) = Ret (rf', true) /\
    go_index (nextIndex rf') 1 = Ret n' /\ n' = 0.
Proof.
  destruct (leader_retry_backs_off (leader_example 3) 1 3 (mkAppendEntriesArgs 2 0 2 2 [] 1)
    (mkAppendEntriesReply 2 false 0 (-1))) as (rf' & n' & E & Hn & Hv & _);
    [by vm_compute|by vm_compute|by vm_compute|by vm_compute|by vm_compute|by vm_compute|by vm_compute
    |by vm_compute|repeat constructor; by vm_compute|constructor; by vm_compute|].
  exists rf', n'. split_and!; [exact E|exact Hn|rewrite Hv; reflexivity].
Defined.

(** A leader that sends a peer all but its first entry, and that peer. *)
Definition leader_behind : Raft := (leader_example 3) <| nextIndex := [1; 1; 1] |>.
Definition short_follower : Raft := raft_example <| log := [mkLogEntry (IInt 10) 1] |>.

Lemma replication_round_witness :
  exists args F' reply,
    appendEntries_args leader_behind 1 = Ret (Some args) /\ length (Entries args) = 2%nat /\
    AppendEntries short_follower args = Ret (F', reply) /\
    log F' !! 1%nat = Some (mkLogEntry (IString "x") 1) /\ log F' !! 2%nat = Some (mkLogEntry (IInt 30) 2).
Proof.
  set (args := mkAppendEntriesArgs 2 0 0 1 [mkLogEntry (IString "x") 1; mkLogEntry (IInt 30) 2] 1).
  destruct (AppendEntries short_follower args) as [[F' reply]|f] eqn:E; [|vm_compute in E; discriminate E].
  assert (appendEntries_args leader_behind 1 = Ret (Some args)) as Ha by by vm_compute.
  exists args, F', reply. split; [exact Ha|]. split; [reflexivity|]. split; [exact E|].
  destruct (replication_round leader_behind short_follower F' 1 args reply) as [Hk _];
    [exact Ha|by vm_compute|exact E|vm_compute in E; injection E as _ <-; reflexivity|by vm_compute|].
  split; apply Hk; by vm_compute.
Defined.

End witnesses.
