(* ===== verification/RaftChain.v ===== *)
(** * Logs as chains of entries

    Properties of a log that relate each entry to its index and to the term
    of the entry before it, and how the handler's log update keeps them.  A
    log, the entries of a request and the birth records of the cluster are
    all chains. *)

From S2P Require Import Prelude Gob PersisterModel RaftState RaftVote RaftAppend.
Open Scope go_scope.

(** [P k e p] for every entry [e], its index [k] and the term [p] before it. *)
Fixpoint chain (P : nat -> LogEntry -> Z -> Prop) (k : nat) (p : Z) (l : list LogEntry) : Prop :=
  match l with
  | [] => True
  | e :: l => P k e p /\ chain P (S k) (Term e) l
  end.

(** The term a chain that starts after term [p] ends with. *)
Definition end_term (p : Z) (l : list LogEntry) : Z :=
  match last l with Some e => Term e | None => p end.

Lemma end_term_nil p : end_term p [] = p.
Proof. done. Qed.

Lemma end_term_cons p e l : end_term p (e :: l) = end_term (Term e) l.
Proof. unfold end_term. rewrite last_cons. by destruct (last l). Qed.

Lemma end_term_app p l1 l2 : end_term p (l1 ++ l2) = end_term (end_term p l1) l2.
Proof.
  revert p. induction l1 as [|e l1 IH]; intros p; cbn [app]; [done|].
  by rewrite !end_term_cons.
Qed.

Lemma end_term_map p l1 l2 : map Term l1 = map Term l2 -> end_term p l1 = end_term p l2.
Proof.
  revert p l2. induction l1 as [|e l1 IH]; intros p [|e' l2] Hm; try done.
  injection Hm as He Hm. rewrite !end_term_cons, He. by apply IH.
Qed.

Lemma chain_app P k p l1 l2 :
  chain P k p (l1 ++ l2) <-> chain P k p l1 /\ chain P (k + length l1) (end_term p l1) l2.
Proof.
  revert k p. induction l1 as [|e l1 IH]; intros k p; cbn [app chain length].
  { rewrite Nat.add_0_r, end_term_nil. tauto. }
  rewrite IH, end_term_cons, Nat.add_succ_r. cbn. tauto.
Qed.

Lemma chain_snoc P k p l e :
  chain P k p (l ++ [e]) <-> chain P k p l /\ P (k + length l)%nat e (end_term p l).
Proof. rewrite chain_app. cbn. tauto. Qed.

Lemma chain_impl (P Q : nat -> LogEntry -> Z -> Prop) k p l :
  (forall k e p, P k e p -> Q k e p) -> chain P k p l -> chain Q k p l.
Proof.
  intros HPQ. revert k p. induction l as [|e l IH]; intros k p; cbn; [done|].
  intros [??]. auto.
Qed.

Lemma chain_take P k p l n : chain P k p l -> chain P k p (take n l).
Proof. rewrite <- (take_drop n l) at 1. rewrite chain_app. tauto. Qed.

Lemma chain_drop P k p l n :
  (n <= length l)%nat -> chain P k p l -> chain P (k + n) (end_term p (take n l)) (drop n l).
Proof.
  intros Hn. rewrite <- (take_drop n l) at 1. rewrite chain_app, length_take, Nat.min_l by lia.
  tauto.
Qed.

Lemma chain_lookup P k p l i e :
  chain P k p l -> l !! i = Some e -> P (k + i)%nat e (end_term p (take i l)).
Proof.
  intros Hc Hi. pose proof (lookup_lt_Some _ _ _ Hi).
  pose proof (chain_drop P k p l i ltac:(lia) Hc) as Hd.
  rewrite (drop_S l e) in Hd by done. apply Hd.
Qed.

(** ** The handler's log update keeps chains *)

(** The entry before the received ones is where the sender says it is. *)
Lemma prev_matches_end l prev term :
  prev_matches l prev term -> (prev = -1 -> term = -1) ->
  end_term (-1) (take (Z.to_nat (prev + 1)) l) = term.
Proof.
  intros [->|(e & Hp & He & <-)] Hm; [symmetry; by apply Hm|].
  replace (Z.to_nat (prev + 1)) with (S (Z.to_nat prev)) by lia.
  rewrite (take_S_r _ _ _ He), end_term_app. done.
Qed.

Lemma first_conflict_None old entries :
  first_conflict old entries = None -> (length entries <= length old)%nat ->
  map Term (take (length entries) old) = map Term entries.
Proof.
  revert entries. induction old as [|x old IH]; intros [|e entries]; cbn; try done; try lia.
  case_decide as Hx; [|done]. rewrite fmap_None. intros Hc Hl. rewrite Hx. f_equal.
  apply IH; [done|lia].
Qed.

Lemma merge_log_chain P l prev term entries l' :
  -1 <= prev < len l -> prev_matches l prev term -> (prev = -1 -> term = -1) ->
  chain P 0 (-1) l -> chain P (Z.to_nat (prev + 1)) term entries ->
  merge_log l prev entries = Ret l' -> chain P 0 (-1) l'.
Proof.
  intros Hp Hm Ht Hl He. rewrite merge_log_spec by done.
  pose proof (prev_matches_end _ _ _ Hm Ht) as Hend.
  assert (length (take (Z.to_nat (prev + 1)) l) = Z.to_nat (prev + 1)) as Hlen.
  { rewrite length_take. unfold len in Hp. lia. }
  assert (chain P 0 (-1) (take (Z.to_nat (prev + 1)) l ++ entries)) as Hte.
  { rewrite chain_app, Hlen, Hend. split; [by apply chain_take|done]. }
  destruct (first_conflict _ _) as [[|k]|] eqn:Hc.
  - case_match; intros; simplify_eq. by apply chain_take.
  - by intros [= <-].
  - intros [= <-]. unfold overwrite. rewrite app_assoc, chain_app. split; [done|].
    destruct (decide (Z.to_nat (prev + 1) + length entries <= length l)%nat) as [Hle|Hgt].
    2:{ by rewrite drop_ge by lia. }
    apply first_conflict_None in Hc; [|rewrite length_drop; lia].
    pose proof (chain_drop P 0 (-1) l _ Hle Hl) as Hd.
    rewrite length_app, Hlen, end_term_app, <- (end_term_map _ _ _ Hc), <- end_term_app.
    by rewrite take_take_drop.
Qed.

(** Every entry of the updated log is an old or a received one. *)
Lemma merge_log_elem l prev entries l' e :
  -1 <= prev < len l -> merge_log l prev entries = Ret l' -> e ∈ l' -> e ∈ l \/ e ∈ entries.
Proof.
  intros Hp. rewrite merge_log_spec by done. unfold overwrite.
  intros Hr He. case_match; [case_match; [case_match|]|]; simplify_eq;
    repeat match goal with H : e ∈ _ ++ _ |- _ => apply elem_of_app in H as [H|H] end;
    auto; left; revert He; apply subseteq_take || apply subseteq_drop.
Qed.
