(* ===== verification/RaftNode.v ===== *)
(** * raft/raft.go: the goroutines of one peer

    [heartBeat] is the peer's main loop.  It is a state machine here: [HbPc]
    is the point the loop is at, [hb_step] one step of it.  The steps are the
    critical sections and the channel operations of the source and, where the
    loop calls [persist] without the mutex (raft.go:732), each read of a field
    and the save, so that other goroutines of the peer (RPC handlers, the
    notification goroutines, the goroutines that send RPCs) run in between. *)

From S2P Require Import Prelude Gob PersisterModel RaftState RaftVote RaftAppend.
Open Scope go_scope.

(** Where the main loop is. *)
Inductive HbPc : Type :=
| HbTop                      (* the head of the loop *)
| HbPersist (st : ServerState) (at_ : PersistAt) (w : list Z)
                             (* in [rf.persist()], called without the mutex *)
| HbTimer (st : ServerState)   (* the timer reset is next *)
| HbSwitch (st : ServerState)  (* the switch on [state] is next *)
| HbLeaderLoop               (* the head of the loop of startAppendEntries *)
| HbCandidateWait            (* the select of a candidate *)
| HbCandidateBeat            (* a candidate received from heartBeatCh *)
| HbCandidateTimeout         (* a candidate's timer ticked *)
| HbFollowerWait             (* the second select of a follower *)
| HbFollowerTimeout          (* a follower's timer ticked *)
| HbExit.                    (* returned: the peer was killed *)

(** The channel a select receives from. *)
Inductive Choice : Type := ChNone | ChGrantVote | ChHeartBeat | ChLeader | ChTimer.

(** A goroutine that was started and has not run yet. *)
Inductive Task : Type :=
| TStartRequestVote
| TAppendEntries (j : Z). (* the head of the loop for peer j *)

Record Node := mkNode {
  raft : Raft;
  pc : HbPc;
  tasks : list Task;
  rounds : list Z; (* nLeader of each run of startRequestVote *)
  incarnation : nat; (* how often the peer was restarted *)
}.

#[export] Instance Node_eta : Eta Node := fun n =>
  mkNode (raft n) (pc n) (tasks n) (rounds n) (incarnation n).

Definition ch_receive (ch : NotifyCh) : option NotifyCh :=
  match sending ch with
  | O => None
  | S k => Some (mkNotifyCh (starting ch) k)
  end.

Definition timer_receive (t : Timer) : option Timer :=
  if ticked t then Some (mkTimer (armed t) false) else None.

(** The first part of a notification goroutine: a receive that does not
    block.  It takes the value of a goroutine at the send ([drain]) or finds
    none; a goroutine counted in [sending] may not have reached its send. *)
Definition ch_notify (ch : NotifyCh) (drain : bool) : option NotifyCh :=
  match starting ch with
  | O => None
  | S k =>
      if drain then
        match sending ch with O => None | S m => Some (mkNotifyCh k (S m)) end
      else Some (mkNotifyCh k (S (sending ch)))
  end.

(** The timer goes off: a tick is sent unless one already waits. *)
Definition timer_fire (t : Timer) : option Timer :=
  if armed t then Some (mkTimer false true) else None.

Section node.
Context {GT : GobTypes}.

Definition other_peers (rf : Raft) : list Z :=
  filter (fun j => j <> me rf) (seqZ 0 (Z.of_nat (peers rf))).

(** One step of the goroutine that runs [heartBeat]; [None] when it cannot
    take the step. *)
Definition hb_step (n : Node) (c : Choice) : option Node :=
  let rf := raft n in
  match pc n, c with
  | HbTop, ChNone =>
      if killed rf then Some (n <| pc := HbExit |>)
      else Some (n <| pc := HbPersist (state rf) PeTerm [] |>)
  | HbPersist st at_ w, ChNone =>
      let '(rf, next) := persist_step at_ w rf in
      let pc' := match next with
                 | Some (at_, w) => HbPersist st at_ w
                 | None => HbTimer st
                 end in
      Some (n <| raft := rf |> <| pc := pc' |>)
  | HbTimer st, ChNone =>
      let rf := if decide (state rf <> Candidate) then rf <| timer := timer_Reset (timer rf) |>
                else rf in
      Some (n <| raft := rf |> <| pc := HbSwitch st |>)
  | HbSwitch Leader, ChNone => Some (n <| pc := HbLeaderLoop |>)
  | HbSwitch Candidate, ChNone =>
      Some (n <| tasks := tasks n ++ [TStartRequestVote] |> <| pc := HbCandidateWait |>)
  | HbSwitch Follower, ChNone =>
      let t := default (timer rf) (timer_receive (timer rf)) in
      Some (n <| raft := rf <| timer := t |> |> <| pc := HbFollowerWait |>)
  | HbLeaderLoop, ChNone =>
      if killed rf then Some (n <| pc := HbTop |>)
      else if decide (state rf <> Leader) then Some (n <| pc := HbTop |>)
      else Some (n <| tasks := tasks n ++ map TAppendEntries (other_peers rf) |>)
  | HbCandidateWait, ChHeartBeat =>
      ch ← ch_receive (heartBeatCh rf);
      Some (n <| raft := rf <| heartBeatCh := ch |> |> <| pc := HbCandidateBeat |>)
  | HbCandidateWait, ChLeader =>
      ch ← ch_receive (leaderCh rf);
      Some (n <| raft := rf <| leaderCh := ch |> |> <| pc := HbTop |>)
  | HbCandidateWait, ChTimer =>
      t ← timer_receive (timer rf);
      Some (n <| raft := rf <| timer := t |> |> <| pc := HbCandidateTimeout |>)
  | HbCandidateBeat, ChNone =>
      Some (n <| raft := convertToFollower rf (currentTerm rf) (-1) |> <| pc := HbTop |>)
  | HbCandidateTimeout, ChNone =>
      if decide (state rf = Follower) then Some (n <| pc := HbTop |>)
      else
        let rf := if voteNotGranted rf *! 2 <? Z.of_nat (peers rf) then convertToCandidate rf
                  else convertToFollower rf (currentTerm rf) (-1) in
        Some (n <| raft := rf |> <| pc := HbTop |>)
  | HbFollowerWait, ChGrantVote =>
      ch ← ch_receive (grantVoteCh rf);
      Some (n <| raft := rf <| grantVoteCh := ch |> |> <| pc := HbTop |>)
  | HbFollowerWait, ChHeartBeat =>
      ch ← ch_receive (heartBeatCh rf);
      Some (n <| raft := rf <| heartBeatCh := ch |> |> <| pc := HbTop |>)
  | HbFollowerWait, ChTimer =>
      t ← timer_receive (timer rf);
      Some (n <| raft := rf <| timer := t |> |> <| pc := HbFollowerTimeout |>)
  | HbFollowerTimeout, ChNone =>
      Some (n <| raft := convertToCandidate rf |> <| pc := HbTop |>)
  | _, _ => None
  end.

(** The timer and the notification goroutines. *)
Definition timer_step (n : Node) : option Node :=
  t ← timer_fire (timer (raft n));
  Some (n <| raft := (raft n) <| timer := t |> |>).

Definition notify_step (n : Node) (c : Choice) (drain : bool) : option Node :=
  let rf := raft n in
  match c with
  | ChGrantVote =>
      ch ← ch_notify (grantVoteCh rf) drain; Some (n <| raft := rf <| grantVoteCh := ch |> |>)
  | ChHeartBeat =>
      ch ← ch_notify (heartBeatCh rf) drain; Some (n <| raft := rf <| heartBeatCh := ch |> |>)
  | ChLeader =>
      ch ← ch_notify (leaderCh rf) drain; Some (n <| raft := rf <| leaderCh := ch |> |>)
  | _ => None
  end.

Definition make_node (peers : nat) (me : Z) (ps : Persister) (inc : nat) : Node :=
  mkNode (Make peers me ps) HbTop [] [] inc.

End node.
