(* ===== verification/RaftInv.v ===== *)
(** * Invariants of one peer

    The invariants every operation of a peer keeps, and the relation [quiet]
    that every operation other than appending to the log, winning an election
    and restarting satisfies. *)

From S2P Require Import Prelude Gob PersisterModel RaftState RaftVote RaftAppend RaftChain RaftNode.
Open Scope go_scope.

Section inv.
Context {GT : GobTypes}.

(** The buffer of a [persist] that runs without the mutex.  Every field is one
    the peer had when it was read; fields read at different moments need not
    have been current together.  [L] is what holds of every log of the peer. *)
Inductive buffered (L : list LogEntry -> Prop) : PersistAt -> list Z -> Prop :=
| bu_nothing : buffered L PeTerm []
| bu_term w t : buffered L PeTerm w -> 0 <= t -> is_int t ->
    buffered L PeVotedFor (w ++ gob_encode_int t)
| bu_vote w v : buffered L PeVotedFor w -> is_int v -> buffered L PeLog (w ++ gob_encode_int v)
| bu_log w l : buffered L PeLog w -> L l -> Forall entry_ok l ->
    message_fits log_type_id (0 :: enc_log l) -> buffered L PeGranted (w ++ gob_encode_log l)
| bu_granted w g : buffered L PeGranted w -> is_int g -> buffered L PeNotGranted (w ++ gob_encode_int g)
| bu_notGranted w g : buffered L PeNotGranted w -> is_int g -> buffered L PeSave (w ++ gob_encode_int g).

(** What the persister holds: nothing yet, the peer's current persistent
    state, or a buffer that an unlocked [persist] collected. *)
Definition saved_ok (L : list LogEntry -> Prop) (rf : Raft) : Prop :=
  let data := raftstate (persister rf) in
  data = [] \/ data = persist_data rf \/ buffered L PeSave data.

(** The operation either ends with the current state saved, or changes
    neither what is saved nor what there is to save. *)
Definition saves (rf rf' : Raft) : Prop :=
  raftstate (persister rf') = persist_data rf' \/
  raftstate (persister rf') = raftstate (persister rf) /\ persist_data rf' = persist_data rf.

(** The service has received the entries up to lastApplied, each once and in
    order. *)
Definition applied_ok (rf : Raft) : Prop :=
  len (applyCh rf) = lastApplied rf + 1 /\
  forall k m, applyCh rf !! k = Some m -> CommandValid m = true /\ CommandIndex m = Z.of_nat k.

Definition term_ok (rf : Raft) : Prop :=
  0 <= currentTerm rf /\ (state rf <> Follower -> 1 <= currentTerm rf).

Record raft_ok (rf : Raft) : Prop := {
  ro_applied : applied_ok rf;
  ro_term : term_ok rf;
}.

(** [m] delivers an entry of the log [l]. *)
Definition from_log (l : list LogEntry) (m : ApplyMsg) : Prop :=
  exists k e, l !! k = Some e /\ m = mkApplyMsg true (Command e) (Z.of_nat k).

(** The peer moved on without touching its log: terms only grow, and no new
    leader appears. *)
Record quiet (rf rf' : Raft) : Prop := {
  q_peers : peers rf' = peers rf;
  q_me : me rf' = me rf;
  q_log : log rf' = log rf;
  q_term : currentTerm rf <= currentTerm rf';
  q_leader : state rf' = Leader -> state rf = Leader /\ currentTerm rf' = currentTerm rf;
  q_ok : raft_ok rf -> raft_ok rf';
  q_applied : forall m, m ∈ applyCh rf' -> m ∈ applyCh rf \/ from_log (log rf') m;
}.

Lemma saves_refl rf : saves rf rf.
Proof. by right. Qed.

Lemma saves_trans rf1 rf2 rf3 : saves rf1 rf2 -> saves rf2 rf3 -> saves rf1 rf3.
Proof.
  unfold saves. intros H12 [H|[Hp Hd]]; [by left|].
  destruct H12 as [H|[Hp' Hd']]; [left|right]; rewrite Hp, Hd; done.
Qed.

Lemma saves_ok L rf rf' : saves rf rf' -> saved_ok L rf -> saved_ok L rf'.
Proof.
  unfold saved_ok. cbv zeta. intros [->|[-> ->]]; [|done]. intros _. right. by left.
Qed.

Lemma buffered_mono (L L' : list LogEntry -> Prop) at_ w :
  (forall l, L l -> L' l) -> buffered L at_ w -> buffered L' at_ w.
Proof. intros HL. induction 1; econstructor; eauto. Qed.

Lemma saved_ok_mono (L L' : list LogEntry -> Prop) rf :
  (forall l, L l -> L' l) -> saved_ok L rf -> saved_ok L' rf.
Proof.
  unfold saved_ok. cbv zeta. intros HL [H|[H|H]]; [by left|right; by left|right; right].
  by eapply buffered_mono.
Qed.

(** A full buffer is the state of some peer. *)
Lemma buffered_image L w (rf : Raft) :
  buffered L PeSave w ->
  exists im, w = persist_data im /\ persistable im /\ 0 <= currentTerm im /\ L (log im).
Proof.
  intros Hw. inversion Hw as [| | | | |w1 g' H1 Hg']; subst.
  inversion H1 as [| | | |w2 g H2 Hg|]; subst. inversion H2 as [| | |w3 l H3 Hl He Hf| |]; subst.
  inversion H3 as [| |w4 v H4 Hv| | |]; subst. inversion H4 as [|w5 t H5 Ht0 Ht| | | |]; subst.
  inversion H5; subst.
  exists (rf <| currentTerm := t |> <| votedFor := v |> <| log := l |> <| voteGranted := g |>
             <| voteNotGranted := g' |>).
  split; [|split; [by split|done]]. unfold persist_data. raft_simpl. by rewrite !app_assoc.
Qed.

(** One step of an unlocked [persist]. *)
Lemma persist_step_buffered L at_ w rf rf' next :
  persistable rf -> 0 <= currentTerm rf -> L (log rf) ->
  buffered L at_ w -> persist_step at_ w rf = (rf', next) ->
  match next with
  | Some (at', w') => rf' = rf /\ buffered L at' w'
  | None => rf' = rf <| persister := SaveRaftState (persister rf) w |> /\ saved_ok L rf'
  end.
Proof.
  intros [] Ht HL Hw Hs. destruct at_; cbn [persist_step] in Hs; injection Hs as <- <-;
    (split; [done|]); try (by econstructor). right. by right.
Qed.

Lemma quiet_refl rf : quiet rf rf.
Proof. split; auto with lia. Qed.

Lemma applied_nonneg rf : applied_ok rf -> -1 <= lastApplied rf.
Proof. intros [Hl _]. pose proof (len_nonneg (applyCh rf)). lia. Qed.

(** Only fields that neither the invariants nor [persist] look at changed. *)
Record same_core (rf rf' : Raft) : Prop := {
  sc_peers : peers rf' = peers rf;
  sc_me : me rf' = me rf;
  sc_persister : persister rf' = persister rf;
  sc_term : currentTerm rf' = currentTerm rf;
  sc_voted : votedFor rf' = votedFor rf;
  sc_log : log rf' = log rf;
  sc_applied : lastApplied rf' = lastApplied rf;
  sc_state : state rf' = state rf;
  sc_applyCh : applyCh rf' = applyCh rf;
  sc_granted : voteGranted rf' = voteGranted rf;
  sc_notGranted : voteNotGranted rf' = voteNotGranted rf;
}.

Lemma persist_data_eq rf rf' :
  currentTerm rf' = currentTerm rf -> votedFor rf' = votedFor rf -> log rf' = log rf ->
  voteGranted rf' = voteGranted rf -> voteNotGranted rf' = voteNotGranted rf ->
  persist_data rf' = persist_data rf.
Proof. unfold persist_data. by intros -> -> -> -> ->. Qed.

Lemma saves_same rf rf' :
  persister rf' = persister rf ->
  currentTerm rf' = currentTerm rf -> votedFor rf' = votedFor rf -> log rf' = log rf ->
  voteGranted rf' = voteGranted rf -> voteNotGranted rf' = voteNotGranted rf -> saves rf rf'.
Proof. intros Hp **. right. split; [by rewrite Hp|]. by apply persist_data_eq. Qed.

Lemma saves_persist rf rf' : raftstate (persister rf') = persist_data rf' -> saves rf rf'.
Proof. by left. Qed.

Lemma same_core_quiet rf rf' : same_core rf rf' -> quiet rf rf'.
Proof.
  intros []. split; try done; [lia|by rewrite sc_state0| |rewrite sc_applyCh0; by left].
  intros [Ha Ht]. split.
  - unfold applied_ok. by rewrite sc_applyCh0, sc_applied0.
  - unfold term_ok. by rewrite sc_term0, sc_state0.
Qed.

Lemma same_core_saves rf rf' : same_core rf rf' -> saves rf rf'.
Proof. intros []. by apply saves_same. Qed.

(** A peer with the applied entries of before. *)
Lemma quiet_applied rf rf' :
  peers rf' = peers rf -> me rf' = me rf -> log rf' = log rf ->
  lastApplied rf' = lastApplied rf -> applyCh rf' = applyCh rf ->
  currentTerm rf <= currentTerm rf' ->
  (state rf' = Leader -> state rf = Leader /\ currentTerm rf' = currentTerm rf) ->
  (term_ok rf -> term_ok rf') ->
  quiet rf rf'.
Proof.
  intros Hpe Hme Hl Hla Hch Ht Hst Hto. split; try done; [|rewrite Hch; by left].
  intros [Ha Hk]. split; [|auto].
  unfold applied_ok. by rewrite Hch, Hla.
Qed.

Lemma persist_quiet rf ps : quiet rf (rf <| persister := ps |>).
Proof. apply quiet_applied; done. Qed.

Lemma convertToFollower_quiet rf t v :
  currentTerm rf <= t -> quiet rf (convertToFollower rf t v).
Proof.
  intros Ht. apply quiet_applied; try done.
  unfold term_ok, convertToFollower, persist. raft_simpl. intros [? _]. split; [lia|done].
Qed.

Lemma convertToCandidate_term rf :
  0 <= currentTerm rf < int_max -> currentTerm (convertToCandidate rf) = currentTerm rf + 1.
Proof.
  intros Ht. unfold convertToCandidate, persist. raft_simpl.
  apply wrap_int_small. unfold is_int, int_min, int_max in *. lia.
Qed.

Lemma convertToCandidate_quiet rf :
  0 <= currentTerm rf < int_max -> quiet rf (convertToCandidate rf).
Proof.
  intros Ht. pose proof (convertToCandidate_term rf Ht) as Hc.
  apply quiet_applied; try done; [lia|].
  unfold term_ok. rewrite Hc. lia.
Qed.

Lemma RequestVote_quiet rf args rf' reply :
  RequestVote rf args = Ret (rf', reply) -> quiet rf rf'.
Proof.
  unfold RequestVote. intros Hr.
  match type of Hr with mbind _ ?m = _ => destruct m as [newer|]; [|done] end.
  cbn [mbind outcome_bind] in Hr.
  destruct (Z.ltb_spec (currentTerm rf) (rv_Term args)) as [Hlt|Hge]; revert Hr; raft_simpl.
  - rewrite (proj2 (Z.ltb_ge (rv_Term args) (currentTerm rf))) by lia.
    rewrite (proj2 (Z.ltb_lt (currentTerm rf) (rv_Term args))) by lia.
    case_decide as Hs; intros [= <- <-]; case_match; unfold convertToFollower, persist, term_ok;
      apply quiet_applied; unfold term_ok; raft_simpl; try done; try lia;
      try (intros [? _]; split; lia);
      by rewrite Hs.
  - rewrite (proj2 (Z.ltb_ge (currentTerm rf) (rv_Term args))) by lia.
    destruct (rv_Term args <? currentTerm rf); intros [= <- <-]; [|case_match];
      apply quiet_applied; unfold persist, term_ok; raft_simpl; try done; lia.
Qed.

(** A reply to RequestVote: either nothing that matters happens, or the peer
    wins its election. *)
Lemma startRequestVote_reply_cases rf args reply nLeader rf' nLeader' :
  startRequestVote_reply rf args reply nLeader = (rf', nLeader') ->
  quiet rf rf' \/
  (state rf = Candidate /\ state rf' = Leader /\ currentTerm rf = rv_Term args /\
   VoteGranted reply = true /\ nLeader = 0 /\
   Z.of_nat (peers rf) < (voteGranted rf +! 1) *! 2 /\
   peers rf' = peers rf /\ me rf' = me rf /\ log rf' = log rf /\
   currentTerm rf' = currentTerm rf /\ votedFor rf' = votedFor rf /\
   voteGranted rf' = voteGranted rf +! 1 /\
   nextIndex rf' = replicate (peers rf) (len (log rf)) /\
   matchIndex rf' = replicate (peers rf) (-1) /\ applyCh rf' = applyCh rf /\
   (raft_ok rf -> raft_ok rf')).
Proof.
  unfold startRequestVote_reply. intros Hr.
  destruct (Z.ltb_spec (currentTerm rf) (rvr_Term reply)) as [Hlt|Hge].
  { simplify_eq. left. apply convertToFollower_quiet. lia. }
  case_decide as Hd; [simplify_eq; left; apply quiet_refl|].
  assert (currentTerm rf = rv_Term args /\ state rf = Candidate) as [Ht Hs].
  { split; apply dec_stable; tauto. }
  destruct (VoteGranted reply) eqn:Hg.
  2:{ simplify_eq. left. apply quiet_applied; try done. }
  revert Hr. raft_simpl. destruct (_ && _) eqn:Hw.
  2:{ intros [= <- <-]. left. apply quiet_applied; try done. }
  intros [= <- <-]. right.
  bool_hyps. destruct Hw as [[Hn Hm] _].
  unfold convertToLeader, persist. raft_simpl. split_and!; try done.
  intros [Ha Hk]. split; [done|].
  unfold term_ok in *. raft_simpl. rewrite Hs in Hk. split; [apply Hk|by intros; apply Hk].
Qed.

Lemma apply_msgs_from_log l from to :
  0 <= from -> Forall (from_log l) (apply_msgs l from to).
Proof.
  intros Hf. apply Forall_lookup. intros k m Hm.
  apply apply_msgs_lookup in Hm as (Hv & Hi & _ & e & He & Hc); [|done].
  exists (Z.to_nat (from + Z.of_nat k)), e. split; [done|].
  destruct m as [v c i]. cbn in *. subst. f_equal. lia.
Qed.

Lemma applied_from_log (ch ch' : list ApplyMsg) l from to :
  0 <= from -> ch' = ch ++ apply_msgs l from to ->
  forall m, m ∈ ch' -> m ∈ ch \/ from_log l m.
Proof.
  intros Hf -> m [Hm|Hm]%elem_of_app; [by left|right].
  pose proof (apply_msgs_from_log l from to Hf) as Hall. rewrite Forall_forall in Hall. auto.
Qed.

(** Applying the entries of a log [l] up to a commit index [ci]. *)
Lemma applied_ok_extend rf rf' l ci :
  lastApplied rf' = Z.max (lastApplied rf) (Z.min ci (len l - 1)) ->
  applyCh rf' = applyCh rf ++ apply_msgs l (lastApplied rf + 1) (lastApplied rf' + 1) ->
  applied_ok rf -> applied_ok rf'.
Proof.
  unfold applied_ok. intros Hla Hch Ha. rewrite Hch. clear Hch.
  pose proof (applied_nonneg rf Ha) as Hnn. destruct Ha as [Hlen Hm].
  assert (lastApplied rf <= lastApplied rf') as Hle by lia.
  assert (lastApplied rf' + 1 <= len l \/ lastApplied rf' = lastApplied rf) as Hl by lia.
  split.
  - rewrite len_app, Hlen. unfold apply_msgs, len. rewrite length_imap, length_drop, length_take.
    unfold len in Hl. lia.
  - intros k m. rewrite lookup_app. destruct (applyCh rf !! k) as [m'|] eqn:Hk.
    { intros [= <-]. by apply Hm. }
    apply lookup_ge_None in Hk. intros Hx. apply apply_msgs_lookup in Hx; [|lia].
    destruct Hx as (? & -> & _). split; [done|]. unfold len in Hlen. lia.
Qed.

Lemma appendEntries_reply_quiet rf j args reply rf' again :
  -1 <= lastApplied rf ->
  appendEntries_reply rf j args reply = Ret (rf', again) -> quiet rf rf'.
Proof.
  intros Hla Hr.
  destruct (decide (currentTerm rf < aer_Term reply)) as [Hlt|Hge].
  { unfold appendEntries_reply in Hr. rewrite (proj2 (Z.ltb_lt _ _)) in Hr by done.
    simplify_eq. apply convertToFollower_quiet. lia. }
  destruct (decide (currentTerm rf <> ae_Term args \/ state rf <> Leader)) as [Hd|Hd].
  { unfold appendEntries_reply in Hr. rewrite (proj2 (Z.ltb_ge _ _)), decide_True in Hr by (done || lia).
    simplify_eq. apply quiet_refl. }
  assert (currentTerm rf = ae_Term args /\ state rf = Leader) as [Ht Hs].
  { split; apply dec_stable; tauto. }
  destruct (Success reply) eqn:Hsu.
  - apply appendEntries_reply_success in Hr as [_ Hspec]; try done; [|lia].
    destruct Hspec as ((Hpe & Hme & Hps & Hct & Hv & Hl & Hst & Hg & Hn) & _ & _ & _ & Hap & Hch).
    split; try done; [lia| |rewrite Hl; eapply applied_from_log; [|done]; lia].
    intros [Ha Hk]. split.
    + by eapply applied_ok_extend.
    + unfold term_ok in *. by rewrite Hct, Hst.
  - unfold appendEntries_reply in Hr.
    rewrite (proj2 (Z.ltb_ge _ _)), decide_False, Hsu in Hr by (tauto || lia).
    apply same_core_quiet.
    match type of Hr with mbind _ ?m = _ => destruct m; [|done] end. cbn [mbind outcome_bind] in Hr.
    match type of Hr with mbind _ ?m = _ => destruct m; [|done] end. cbn [mbind outcome_bind] in Hr.
    match type of Hr with mbind _ ?m = _ => destruct m; [|done] end. cbn [mbind outcome_bind] in Hr.
    injection Hr as <- <-. by split.
Qed.

(** Steps that only move ticks and notifications. *)
Ltac core_only := apply same_core_quiet; split; done.

Lemma Kill_quiet rf : quiet rf (Kill rf).
Proof. core_only. Qed.

(** A receive that succeeded left the peer's other fields alone. *)
Ltac received Hs :=
  match type of Hs with
  | mbind _ ?m = Some _ => destruct m; [|discriminate Hs]
  end;
  cbn [mbind option_bind] in Hs; injection Hs as <-; split; [core_only|reflexivity].

Ltac moved Hs := injection Hs as <-; split; [apply quiet_refl|reflexivity].

Lemma hb_step_quiet n c n' :
  0 <= currentTerm (raft n) < int_max ->
  hb_step n c = Some n' ->
  quiet (raft n) (raft n') /\ incarnation n' = incarnation n.
Proof.
  intros Ht. unfold hb_step. cbv zeta. intros Hs.
  destruct (pc n) as [|st at_ w|st|st| | | | | | |]; destruct c; try discriminate Hs.
  - destruct (killed (raft n)); moved Hs.
  - destruct at_; injection Hs as <-; (split; [|reflexivity]); [apply quiet_refl..|apply persist_quiet].
  - injection Hs as <-. split; [|reflexivity]. case_decide; [core_only|apply quiet_refl].
  - destruct st; [injection Hs as <-; split; [core_only|reflexivity]|moved Hs|moved Hs].
  - destruct st; discriminate Hs.
  - destruct st; discriminate Hs.
  - destruct st; discriminate Hs.
  - destruct st; discriminate Hs.
  - destruct (killed (raft n)); [moved Hs|]. case_decide; moved Hs.
  - received Hs.
  - received Hs.
  - received Hs.
  - injection Hs as <-. split; [apply convertToFollower_quiet; lia|reflexivity].
  - case_decide; [moved Hs|]. injection Hs as <-. split; [|reflexivity].
    cbn [set_field raft pc]. case_match; [by apply convertToCandidate_quiet|].
    apply convertToFollower_quiet; lia.
  - received Hs.
  - received Hs.
  - received Hs.
  - injection Hs as <-. split; [by apply convertToCandidate_quiet|reflexivity].
Qed.

Lemma timer_step_quiet n n' :
  timer_step n = Some n' -> quiet (raft n) (raft n') /\ incarnation n' = incarnation n.
Proof.
  unfold timer_step. intros Hs. received Hs.
Qed.

Lemma notify_step_quiet n c drain n' :
  notify_step n c drain = Some n' -> quiet (raft n) (raft n') /\ incarnation n' = incarnation n.
Proof.
  unfold notify_step. intros Hs.
  destruct c; try discriminate Hs; received Hs.
Qed.

(** [AppendEntries] keeps the invariants and either leaves the log alone or
    merges the entries of a request that is not from an older term. *)
Lemma AppendEntries_cases rf args rf' reply :
  AppendEntries rf args = Ret (rf', reply) -> raft_ok rf ->
  raft_ok rf' /\ peers rf' = peers rf /\ me rf' = me rf /\
  (forall m, m ∈ applyCh rf' -> m ∈ applyCh rf \/ from_log (log rf') m) /\
  currentTerm rf' = Z.max (currentTerm rf) (ae_Term args) /\
  (state rf' = Leader -> state rf = Leader /\ ae_Term args <= currentTerm rf) /\
  (log rf' = log rf \/
   currentTerm rf <= ae_Term args /\ -1 <= PrevLogIndex args < len (log rf) /\
   prev_matches (log rf) (PrevLogIndex args) (PrevLogTerm args) /\
   merge_log (log rf) (PrevLogIndex args) (Entries args) = Ret (log rf')).
Proof.
  intros Hr [Ha Hk].
  apply AppendEntries_inv in Hr; [|by apply applied_nonneg].
  destruct Hr as (Hpe & Hme & Hct & Hrt & Hv & Hst & Hps & Hif).
  pose proof (applied_nonneg _ Ha) as Hnn.
  assert (applied_ok rf' /\
    (forall m, m ∈ applyCh rf' -> m ∈ applyCh rf \/ from_log (log rf') m) /\
    (log rf' = log rf \/
     currentTerm rf <= ae_Term args /\ -1 <= PrevLogIndex args < len (log rf) /\
     prev_matches (log rf) (PrevLogIndex args) (PrevLogTerm args) /\
     merge_log (log rf) (PrevLogIndex args) (Entries args) = Ret (log rf'))) as (Ha' & Hfrom & Hlog).
  { destruct (Success reply).
    - destruct Hif as (Hge & Hpr & Hpm & Hm & _ & Hla & Hch).
      split_and!; [by eapply applied_ok_extend|eapply applied_from_log; [|done]; lia|by right].
    - destruct Hif as (Hl & _ & Hla & Hch). split_and!; [|rewrite Hch; by left|by left].
      unfold applied_ok. by rewrite Hla, Hch. }
  unfold term_ok in Hk.
  split_and!; try done.
  - split; [done|]. unfold term_ok. rewrite Hst, Hct.
    destruct (Z.ltb_spec (currentTerm rf) (ae_Term args)); split; [lia|done|lia|].
    intros Hf%Hk. lia.
  - rewrite Hst. destruct (Z.ltb_spec (currentTerm rf) (ae_Term args)); [done|].
    intros; split; [done|lia].
Qed.

(** ** What each operation leaves in the persister *)

Lemma apply_loop_saves fuel rf rf' : apply_loop fuel rf = Ret rf' -> saves rf rf'.
Proof.
  revert rf. induction fuel as [|fuel IH]; intros rf; cbn [apply_loop];
    [intros [= <-]; apply saves_refl|].
  case_match; [|intros [= <-]; apply saves_refl]. cbv zeta. intros (e & _ & Hr)%bind_Ret.
  eapply saves_trans; [|by apply (IH _ Hr)]. by apply saves_same.
Qed.

Lemma AppendEntries_saves rf args rf' reply : AppendEntries rf args = Ret (rf', reply) -> saves rf rf'.
Proof.
  unfold AppendEntries. cbv zeta. intros (rp & _ & (rf1 & _ & [= <- _])%bind_Ret)%bind_Ret. by apply saves_persist.
Qed.

Lemma RequestVote_saves rf args rf' reply : RequestVote rf args = Ret (rf', reply) -> saves rf rf'.
Proof.
  unfold RequestVote. cbv zeta. intros (newer & _ & Hr)%bind_Ret. apply saves_persist. revert Hr.
  repeat case_match; intros [= <- _]; done.
Qed.

Lemma startRequestVote_reply_saves rf args reply nl rf' nl' :
  startRequestVote_reply rf args reply nl = (rf', nl') -> saves rf rf'.
Proof.
  unfold startRequestVote_reply.
  destruct (currentTerm rf <? rvr_Term reply); [intros [= <- _]; by apply saves_persist|].
  case_decide; [intros [= <- _]; apply saves_refl|]. cbv zeta.
  repeat case_match; intros; simplify_eq; by apply saves_persist.
Qed.

Lemma appendEntries_reply_saves rf j args reply rf' again :
  appendEntries_reply rf j args reply = Ret (rf', again) -> saves rf rf'.
Proof.
  unfold appendEntries_reply. destruct (currentTerm rf <? aer_Term reply); [intros [= <- _]; by apply saves_persist|].
  case_decide; [intros [= <- _]; by apply saves_same|]. destruct (Success reply); cbv zeta.
  - intros (m' & _ & (m & _ & (n' & _ & (N & _ & (rf1 & H1 & (rf2 & H2 & [= <- _])%bind_Ret)%bind_Ret)%bind_Ret)%bind_Ret)%bind_Ret)%bind_Ret.
    eapply saves_trans; [|by eapply apply_loop_saves].
    destruct (_ <? N); [|injection H1 as <-; by apply saves_same].
    apply bind_Ret in H1 as (e & _ & [= <-]). case_match; by apply saves_same.
  - intros (n' & _ & (n & _ & (n2 & _ & [= <- _])%bind_Ret)%bind_Ret)%bind_Ret. by apply saves_same.
Qed.

(** The main loop: it saves the current state, or takes a step of its
    unlocked [persist]. *)
Definition hb_buffer (L : list LogEntry -> Prop) (p : HbPc) : Prop :=
  match p with HbPersist _ at_ w => buffered L at_ w | _ => True end.

Lemma hb_step_saved L n c n' :
  persistable (raft n) -> 0 <= currentTerm (raft n) -> L (log (raft n)) ->
  hb_step n c = Some n' -> saved_ok L (raft n) -> hb_buffer L (pc n) ->
  saved_ok L (raft n') /\ hb_buffer L (pc n').
Proof.
  intros Hp Ht HL Hs Hok Hb.
  assert (forall rf', saves (raft n) rf' -> saved_ok L rf') as Hk by eauto using saves_ok.
  unfold hb_step in Hs. cbv zeta in Hs.
  destruct (pc n) as [|st at_ w|st|st| | | | | | |] eqn:Hpc; destruct c; try discriminate Hs.
  2:{ destruct (persist_step at_ w (raft n)) as [rf' next] eqn:He. injection Hs as <-.
      pose proof (persist_step_buffered L at_ w _ _ _ Hp Ht HL Hb He) as Hn.
      destruct next as [[at' w']|]; destruct Hn as [-> Hn]; by split. }
  all: try (destruct st; try discriminate Hs);
    repeat match type of Hs with
    | mbind _ ?m = Some _ => destruct m; [cbn [mbind option_bind] in Hs|discriminate Hs]
    | (if ?b then _ else _) = _ => destruct b
    end; injection Hs as <-; (split; [|first [exact I|exact (bu_nothing L)|cbn; by rewrite Hpc]]); apply Hk;
    try (by apply saves_same); try (by apply saves_persist).
  all: case_match; first [by apply saves_same|by apply saves_persist].
Qed.

Lemma timer_step_saves n n' : timer_step n = Some n' -> saves (raft n) (raft n') /\ pc n' = pc n.
Proof.
  unfold timer_step. destruct (timer_fire _); [|done]. intros [= <-]. split; [|done]. by apply saves_same.
Qed.

Lemma notify_step_saves n c d n' :
  notify_step n c d = Some n' -> saves (raft n) (raft n') /\ pc n' = pc n.
Proof.
  unfold notify_step. destruct c; try done; destruct (ch_notify _ _); try done; intros [= <-];
    (split; [|done]); by apply saves_same.
Qed.

(** ** Restart *)

Context {GTok : GobTypesOk}.

(** A peer made from what [rf] has saved: its persistent fields are those of
    some peer [im], a fresh one or one whose fields [rf] had, and everything
    else is as in a fresh peer. *)
Record loads (L : list LogEntry -> Prop) (ps : Persister) (rf' : Raft) : Prop := {
  ld_data : raftstate ps = [] /\ currentTerm rf' = 0 /\ votedFor rf' = -1 /\ log rf' = [] /\
      voteGranted rf' = 0 /\ voteNotGranted rf' = 0 \/
    raftstate ps = persist_data rf';
  ld_persistable : persistable rf';
  ld_term : 0 <= currentTerm rf';
  ld_log : L (log rf');
  ld_dead : dead rf' = 0;
  ld_state : state rf' = Follower;
  ld_commit : committedIndex rf' = -1;
  ld_applied : lastApplied rf' = -1;
  ld_applyCh : applyCh rf' = [];
}.

Lemma Make_loads L rf n i ps :
  saved_ok L rf -> persistable rf -> 0 <= currentTerm rf -> L [] -> L (log rf) ->
  raftstate ps = raftstate (persister rf) ->
  loads L ps (Make n i ps) /\ peers (Make n i ps) = n /\ me (Make n i ps) = i /\
  persister (Make n i ps) = ps.
Proof.
  intros Hok Hp Ht Hnil Hl Hps.
  assert (raftstate ps = [] \/
    exists im, raftstate ps = persist_data im /\ persistable im /\ 0 <= currentTerm im /\ L (log im)) as Hd.
  { rewrite Hps. destruct Hok as [H|[H|H]]; [by left|right; by exists rf|right].
    by apply (buffered_image L _ rf). }
  clear Hok. unfold Make, ReadRaftState. destruct Hd as [Hd|(im & Hd & Hpi & Hti & Hli)].
  - rewrite Hd, readPersist_nil. split_and!; try done. split; try done; [by left|].
    split; try done; [unfold is_int, int_min, int_max; cbn; lia..|].
    pose proof log_type_id_range. pose proof (enc_int_len log_type_id).
    split; [unfold is_int, int_min, int_max; lia|].
    change (len (enc_int log_type_id ++ [0; 0]) < tooBig). rewrite len_app.
    change (len [0; 0]) with 2. unfold tooBig. lia.
  - rewrite Hd, readPersist_persist_data by done. split_and!; try done.
    destruct Hpi. split; try done; by right.
Qed.

Lemma loads_ok L ps rf' : loads L ps rf' -> raft_ok rf'.
Proof.
  intros []. split; [|split; [done|by rewrite ld_state0]].
  unfold applied_ok. by rewrite ld_applied0, ld_applyCh0.
Qed.

Lemma loads_saved L ps rf' : persister rf' = ps -> loads L ps rf' -> saved_ok L rf'.
Proof.
  intros Hps [Hd _ _ _ _ _ _ _ _]. unfold saved_ok. rewrite Hps.
  destruct Hd as [[-> _]| ->]; [by left|right; by left].
Qed.

End inv.
