(* ===== verification/RaftVoteRace.v ===== *)
(** * RequestVote without the mutex

    The RequestVote handler of raft.go runs without the peer's mutex, and
    labrpc runs handlers concurrently.  Here the handler is a sequence of
    steps ([rv_step]): one per condition it evaluates, one per field it
    writes, in [convertToFollower] too, and the six steps of each [persist]
    ([persist_step]).  A transition system interleaves any number of handlers
    with each other, with the critical sections of the rest of the program,
    and with the steps of the main loop, which also runs [persist] without the
    mutex (RaftNode.v).  Alone, the steps compute [RequestVote]; interleavings
    do what no sequence of whole handlers does. *)

From S2P Require Import Prelude Gob PersisterModel RaftState RaftVote RaftAppend RaftNode RaftInv.
Open Scope go_scope.

(** Where a handler is; [granted] is reply.VoteGranted so far. *)
Inductive RvPc : Type :=
| RvStart                                   (* args.Term > rf.currentTerm *)
| RvClear                                   (* rf.votedFor = -1 *)
| RvEmpty                                   (* len(rf.log) == 0 *)
| RvLast                                    (* the last entry's term: smaller? *)
| RvSame                                    (* ... equal? *)
| RvLength                                  (* len(rf.log) <= args.LastLogIndex+1 *)
| RvFree                                    (* newer; rf.votedFor == -1 *)
| RvMine                                    (* rf.votedFor == args.CandidateID *)
| RvVote (granted : bool)                   (* rf.votedFor = votedFor *)
| RvOlder (granted : bool)                  (* args.Term < rf.currentTerm *)
| RvNewer (granted : bool)                  (* args.Term > rf.currentTerm *)
| RvTerm (granted : bool)                   (* rf.currentTerm = args.Term *)
| RvRole (granted : bool)                   (* rf.state != Follower *)
| RvFollow (granted : bool)                 (* the arguments of convertToFollower *)
| RvToTerm (granted : bool) (term : Z)      (* in it: rf.currentTerm = term *)
| RvToFollower (granted : bool)             (* rf.state = Follower *)
| RvToVote (granted : bool)                 (* rf.votedFor = voteFor *)
| RvToGranted (granted : bool)              (* rf.voteGranted = 0 *)
| RvToNotGranted (granted : bool)           (* rf.voteNotGranted = 0 *)
| RvToPersist (granted : bool) (at_ : PersistAt) (w : list Z) (* rf.persist() *)
| RvReply (granted : bool)                  (* reply.Term = rf.currentTerm *)
| RvPersist (reply : RequestVoteReply) (at_ : PersistAt) (w : list Z) (* rf.persist() *)
| RvNotify (reply : RequestVoteReply)       (* go func() ... *)
| RvDone (reply : RequestVoteReply).

Section race.
Context {GT : GobTypes}.

Definition rv_voted (args : RequestVoteArgs) (granted : bool) : Z :=
  if granted then CandidateID args else -1.

Definition rv_step (args : RequestVoteArgs) (p : RvPc) (rf : Raft) : outcome (Raft * RvPc) :=
  match p with
  | RvStart => Ret (rf, if currentTerm rf <? rv_Term args then RvClear else RvEmpty)
  | RvClear => Ret (rf <| votedFor := -1 |>, RvEmpty)
  | RvEmpty => Ret (rf, if len (log rf) =? 0 then RvFree else RvLast)
  | RvLast =>
      e ← go_index (log rf) (len (log rf) - 1);
      Ret (rf, if Term e <? LastLogTerm args then RvFree else RvSame)
  | RvSame =>
      e ← go_index (log rf) (len (log rf) - 1);
      Ret (rf, if LastLogTerm args =? Term e then RvLength else RvVote false)
  | RvLength => Ret (rf, if len (log rf) <=? LastLogIndex args +! 1 then RvFree else RvVote false)
  | RvFree => Ret (rf, if votedFor rf =? -1 then RvVote true else RvMine)
  | RvMine => Ret (rf, RvVote (votedFor rf =? CandidateID args))
  | RvVote g => Ret (rf <| votedFor := rv_voted args g |>, RvOlder g)
  | RvOlder g => Ret (rf, if rv_Term args <? currentTerm rf then RvReply false else RvNewer g)
  | RvNewer g => Ret (rf, if currentTerm rf <? rv_Term args then RvTerm g else RvReply g)
  | RvTerm g => Ret (rf <| currentTerm := rv_Term args |>, RvRole g)
  | RvRole g => Ret (rf, if decide (state rf <> Follower) then RvFollow g else RvReply g)
  | RvFollow g => Ret (rf, RvToTerm g (currentTerm rf))
  | RvToTerm g term => Ret (rf <| currentTerm := term |>, RvToFollower g)
  | RvToFollower g => Ret (rf <| state := Follower |>, RvToVote g)
  | RvToVote g => Ret (rf <| votedFor := rv_voted args g |>, RvToGranted g)
  | RvToGranted g => Ret (rf <| voteGranted := 0 |>, RvToNotGranted g)
  | RvToNotGranted g => Ret (rf <| voteNotGranted := 0 |>, RvToPersist g PeTerm [])
  | RvToPersist g at_ w =>
      let '(rf, next) := persist_step at_ w rf in
      Ret (rf, match next with Some (at_, w) => RvToPersist g at_ w | None => RvReply g end)
  | RvReply g => Ret (rf, RvPersist (mkRequestVoteReply (currentTerm rf) g) PeTerm [])
  | RvPersist reply at_ w =>
      let '(rf, next) := persist_step at_ w rf in
      Ret (rf, match next with Some (at_, w) => RvPersist reply at_ w | None => RvNotify reply end)
  | RvNotify reply =>
      Ret (if VoteGranted reply then rf <| grantVoteCh := spawn_notify (grantVoteCh rf) |> else rf,
           RvDone reply)
  | RvDone reply => Ret (rf, RvDone reply)
  end.

(** [fuel] steps of one handler, nothing else running. *)
Fixpoint rv_run (fuel : nat) (args : RequestVoteArgs) (p : RvPc) (rf : Raft) : outcome (Raft * RvPc) :=
  match fuel with
  | O => Ret (rf, p)
  | S fuel => '(rf, p) ← rv_step args p rf; rv_run fuel args p rf
  end.

(** ** Handlers among the other goroutines of a peer *)

Record Race := mkRace {
  race_node : Node;
  race_handlers : list (RequestVoteArgs * RvPc);
}.

Inductive RaceEvent : Type :=
| RaBegin (args : RequestVoteArgs)                        (* a handler starts *)
| RaStep (k : nat)                                        (* handler k takes a step *)
| RaAppend (args : AppendEntriesArgs)                     (* an AppendEntries handler *)
| RaVoteReply (args : RequestVoteArgs) (reply : RequestVoteReply) (nLeader : Z)
| RaAppendReply (j : Z) (args : AppendEntriesArgs) (reply : AppendEntriesReply)
| RaCommand (command : iface)                             (* Start *)
| RaLoop (c : Choice).                                    (* heartBeat *)

Definition with_raft (r : Race) (rf : Raft) : Race :=
  mkRace ((race_node r) <| raft := rf |>) (race_handlers r).

Definition race_exec (ev : RaceEvent) (r : Race) : option (outcome Race) :=
  let rf := raft (race_node r) in
  match ev with
  | RaBegin args => Some (Ret (mkRace (race_node r) (race_handlers r ++ [(args, RvStart)])))
  | RaStep k =>
      '(args, p) ← race_handlers r !! k;
      Some ('(rf, p) ← rv_step args p rf;
            Ret (mkRace ((race_node r) <| raft := rf |>) (<[k := (args, p)]> (race_handlers r))))
  | RaAppend args => Some ('(rf, _) ← AppendEntries rf args; Ret (with_raft r rf))
  | RaVoteReply args reply nLeader =>
      Some (Ret (with_raft r (startRequestVote_reply rf args reply nLeader).1))
  | RaAppendReply j args reply =>
      Some ('(rf, _) ← appendEntries_reply rf j args reply; Ret (with_raft r rf))
  | RaCommand command => Some (Ret (with_raft r (Start rf command).1))
  | RaLoop c => n ← hb_step (race_node r) c; Some (Ret (mkRace n (race_handlers r)))
  end.

Fixpoint race_run (evs : list RaceEvent) (r : Race) : option (outcome Race) :=
  match evs with
  | [] => Some (Ret r)
  | ev :: evs =>
      o ← race_exec ev r;
      match o with
      | Ret r => race_run evs r
      | Panic f => Some (Panic f)
      end
  end.

(** ** One handler alone *)

Lemma rv_run_done fuel args reply rf : rv_run fuel args (RvDone reply) rf = Ret (rf, RvDone reply).
Proof. by induction fuel. Qed.

(** What [RequestVote] does once it has stored its vote. *)
Definition rv_tail (rf : Raft) (args : RequestVoteArgs) (g : bool) : Raft * RequestVoteReply :=
  let '(rf, granted) :=
    if rv_Term args <? currentTerm rf then (rf, false)
    else if currentTerm rf <? rv_Term args then
      let rf := rf <| currentTerm := rv_Term args |> in
      (if decide (state rf <> Follower) then convertToFollower rf (currentTerm rf) (rv_voted args g) else rf, g)
    else (rf, g) in
  let reply := mkRequestVoteReply (currentTerm rf) granted in
  let rf := persist rf in
  (if granted : bool then rf <| grantVoteCh := spawn_notify (grantVoteCh rf) |> else rf, reply).

(** Six steps of [persist] with nothing in between save the current state. *)
Lemma run_persist n args reply rf :
  rv_run (6 + n) args (RvPersist reply PeTerm []) rf = rv_run n args (RvNotify reply) (persist rf).
Proof.
  cbn [Nat.add rv_run rv_step persist_step mbind outcome_bind]. do 2 f_equal. unfold persist, persist_data.
  by rewrite app_nil_l, <- !app_assoc.
Qed.

Lemma run_to_persist n args g rf :
  rv_run (6 + n) args (RvToPersist g PeTerm []) rf = rv_run n args (RvReply g) (persist rf).
Proof.
  cbn [Nat.add rv_run rv_step persist_step mbind outcome_bind]. do 2 f_equal. unfold persist, persist_data.
  by rewrite app_nil_l, <- !app_assoc.
Qed.

Lemma run_follow n args g rf :
  rv_run (12 + n) args (RvFollow g) rf =
  rv_run n args (RvReply g) (convertToFollower rf (currentTerm rf) (rv_voted args g)).
Proof.
  change (12 + n)%nat with (S (S (S (S (S (S (6 + n))))))). cbn [rv_run rv_step mbind outcome_bind].
  apply run_to_persist.
Qed.

Lemma run_reply n args g rf :
  rv_run (8 + n) args (RvReply g) rf =
  Ret (if g then (persist rf) <| grantVoteCh := spawn_notify (grantVoteCh rf) |> else persist rf,
       RvDone (mkRequestVoteReply (currentTerm rf) g)).
Proof.
  change (8 + n)%nat with (S (6 + S n)). cbn [rv_run rv_step mbind outcome_bind].
  rewrite run_persist. cbn [rv_run rv_step mbind outcome_bind VoteGranted]. rewrite rv_run_done.
  by destruct g.
Qed.

Lemma run_older n args g rf :
  rv_run (24 + n) args (RvOlder g) rf =
  Ret ((rv_tail rf args g).1, RvDone (rv_tail rf args g).2).
Proof.
  unfold rv_tail. change (24 + n)%nat with (S (23 + n)). cbn [rv_run rv_step mbind outcome_bind].
  destruct (rv_Term args <? currentTerm rf); [exact (run_reply (15 + n) args false rf)|].
  change (23 + n)%nat with (S (22 + n)). cbn [rv_run rv_step mbind outcome_bind].
  destruct (currentTerm rf <? rv_Term args); [|change (22 + n)%nat with (8 + (14 + n))%nat; rewrite run_reply; by destruct g].
  change (22 + n)%nat with (S (S (12 + (8 + n)))). cbn [rv_run rv_step mbind outcome_bind].
  set (rf1 := rf <| currentTerm := rv_Term args |>).
  case_decide; [rewrite run_follow, run_reply; by destruct g|].
  change (12 + (8 + n))%nat with (8 + (12 + n))%nat. rewrite run_reply. by destruct g.
Qed.

Lemma run_vote n args g rf :
  rv_run (25 + n) args (RvVote g) rf =
  let x := rv_tail (rf <| votedFor := rv_voted args g |>) args g in Ret (x.1, RvDone x.2).
Proof. change (25 + n)%nat with (S (24 + n)). cbn [rv_run rv_step mbind outcome_bind]. apply run_older. Qed.

Lemma run_free n args rf :
  rv_run (27 + n) args RvFree rf =
  let g := (votedFor rf =? -1) || (votedFor rf =? CandidateID args) in
  let x := rv_tail (rf <| votedFor := rv_voted args g |>) args g in Ret (x.1, RvDone x.2).
Proof.
  change (27 + n)%nat with (S (26 + n)). cbn [rv_run rv_step mbind outcome_bind].
  destruct (votedFor rf =? -1); cbn [orb]; [exact (run_vote (S n) args true rf)|].
  change (26 + n)%nat with (S (25 + n)). cbn [rv_run rv_step mbind outcome_bind]. apply run_vote.
Qed.

Lemma run_empty n args rf :
  rv_run (31 + n) args RvEmpty rf =
  newer ← RequestVote_newer (log rf) args;
  let g := newer && ((votedFor rf =? -1) || (votedFor rf =? CandidateID args)) in
  let x := rv_tail (rf <| votedFor := rv_voted args g |>) args g in Ret (x.1, RvDone x.2).
Proof.
  change (31 + n)%nat with (S (30 + n)). cbn [rv_run rv_step mbind outcome_bind]. unfold RequestVote_newer.
  destruct (len (log rf) =? 0); cbn [mbind outcome_bind andb]; [exact (run_free (3 + n) args rf)|].
  change (30 + n)%nat with (S (29 + n)). cbn [rv_run rv_step].
  destruct (go_index (log rf) (len (log rf) - 1)) as [e|f] eqn:He; cbn [mbind outcome_bind]; [|done].
  destruct (Term e <? LastLogTerm args); cbn [mbind outcome_bind andb]; [exact (run_free (2 + n) args rf)|].
  change (29 + n)%nat with (S (28 + n)). cbn [rv_run rv_step]. rewrite He. cbn [mbind outcome_bind].
  destruct (LastLogTerm args =? Term e); cbn [andb mbind outcome_bind]; [|exact (run_vote (3 + n) args false rf)].
  change (28 + n)%nat with (S (27 + n)). cbn [rv_run rv_step mbind outcome_bind].
  destruct (len (log rf) <=? LastLogIndex args +! 1); cbn [andb]; [apply run_free|exact (run_vote (2 + n) args false rf)].
Qed.

(** A RequestVote handler that runs without another goroutine of the peer
    in between, step by step, ends after at most 33 steps and does what the
    atomic [RequestVote] does: the same peer, the same reply, the same fault
    if any.  So the atomic handler of Cluster.v is the code whenever handlers
    do not overlap. *)
Theorem rv_alone_is_atomic (rf : Raft) (args : RequestVoteArgs) :
  rv_run 33 args RvStart rf = ('(rf', reply) ← RequestVote rf args; Ret (rf', RvDone reply)).
Proof.
  assert (forall rf, RequestVote_newer (log rf) args ≫= (fun newer =>
      let g := newer && ((votedFor rf =? -1) || (votedFor rf =? CandidateID args)) in
      let x := rv_tail (rf <| votedFor := rv_voted args g |>) args g in Ret (x.1, RvDone x.2)) =
    '(rf', reply) ← (newer ← RequestVote_newer (log rf) args;
      let g := newer && ((votedFor rf =? -1) || (votedFor rf =? CandidateID args)) in
      Ret (rv_tail (rf <| votedFor := rv_voted args g |>) args g)); Ret (rf', RvDone reply)) as Htail.
  { intros rf1. destruct (RequestVote_newer (log rf1) args) as [newer|f]; [|done]. cbn [mbind outcome_bind].
    cbv zeta. by destruct (rv_tail _ _ _). }
  assert (RequestVote rf args =
    let rf := if currentTerm rf <? rv_Term args then rf <| votedFor := -1 |> else rf in
    newer ← RequestVote_newer (log rf) args;
    let g := newer && ((votedFor rf =? -1) || (votedFor rf =? CandidateID args)) in
    Ret (rv_tail (rf <| votedFor := rv_voted args g |>) args g)) as ->.
  { unfold RequestVote, rv_tail, rv_voted. cbv zeta.
    destruct (RequestVote_newer _ _) as [newer|f]; [|done]. cbn [mbind outcome_bind].
    repeat case_match; by simplify_eq. }
  change 33%nat with (S 32). cbn [rv_run rv_step mbind outcome_bind]. cbv zeta.
  destruct (currentTerm rf <? rv_Term args).
  - change 32%nat with (S 31). cbn [rv_run rv_step mbind outcome_bind]. etransitivity; [apply (run_empty 0)|apply Htail].
  - etransitivity; [apply (run_empty 1)|apply Htail].
Qed.

End race.

(** ** What overlapping handlers can do *)

Section races.
#[local] Existing Instance first_types.

(** Peer 1 of three, as it starts. *)
Definition fresh : Race := mkRace (make_node 3 1 MakePersister 0) [].

(** A candidate with an empty log asks for a vote. *)
Definition ask_vote (term candidate : Z) : RequestVoteArgs := mkRequestVoteArgs term candidate (-1) (-1).

Definition steps (k : nat) (handler : nat) : list RaceEvent := replicate k (RaStep handler).

(** Both handlers decide before either stores its vote. *)
Definition both_decide : list RaceEvent :=
  [RaBegin (ask_vote 1 0); RaBegin (ask_vote 1 2)] ++ steps 4 0 ++ steps 4 1 ++ steps 13 0 ++ steps 13 1.

(** A handler for term 1 has found the peer's term older when one for term 5
    runs; then it goes on. *)
Definition older_term_last : list RaceEvent :=
  [RaBegin (ask_vote 1 0); RaBegin (ask_vote 5 2)] ++ steps 7 0 ++ steps 17 1.

(** The log shrinks to nothing after the handler has found it not empty. *)
Definition entries_of (term : Z) (n : nat) : list LogEntry := replicate n (mkLogEntry (IInt 7) term).
Definition log_vanishes : list RaceEvent :=
  [RaAppend (mkAppendEntriesArgs 1 0 (-1) (-1) (entries_of 1 2) (-1)); RaBegin (ask_vote 2 2)] ++ steps 3 0 ++
  [RaAppend (mkAppendEntriesArgs 2 0 0 1 (entries_of 2 1) (-1))].

(** C26: overlapping RequestVote handlers break what whole handlers keep.
    Two handlers on one fresh peer grant the votes of term 1 to two different
    candidates, without any refused request in between; a handler moves the
    peer's term back, from 5 to 1; and a handler that overlaps with an
    AppendEntries handler indexes an empty log at -1 and panics. *)
Theorem overlapping_handlers :
  (exists r a b ra rb, race_run both_decide fresh = Some (Ret r) /\
    race_handlers r = [(a, RvDone ra); (b, RvDone rb)] /\ CandidateID a <> CandidateID b /\
    ra = mkRequestVoteReply 1 true /\ rb = mkRequestVoteReply 1 true) /\
  (exists r r', race_run older_term_last fresh = Some (Ret r) /\ race_exec (RaStep 0) r = Some (Ret r') /\
    currentTerm (raft (race_node r)) = 5 /\ currentTerm (raft (race_node r')) = 1) /\
  (exists r, race_run log_vanishes fresh = Some (Ret r) /\
    race_exec (RaStep 0) r = Some (Panic IndexOutOfRange)).
Proof.
  split_and!.
  - destruct (race_run both_decide fresh) as [[r|]|] eqn:Hr; vm_compute in Hr; try discriminate Hr.
    injection Hr as <-. do 5 eexists. repeat split; done.
  - destruct (race_run older_term_last fresh) as [[r|]|] eqn:Hr; vm_compute in Hr; try discriminate Hr.
    injection Hr as <-. do 2 eexists. repeat split; vm_compute; reflexivity.
  - destruct (race_run log_vanishes fresh) as [[r|]|] eqn:Hr; vm_compute in Hr; try discriminate Hr.
    injection Hr as <-. eexists. repeat split; vm_compute; reflexivity.
Qed.

End races.
