(* ===== verification/LeaderIndexes.v ===== *)
(** * The indexes a leader keeps for its peers

    [nextIndex] and [matchIndex] stay within the leader's log, and while they
    do no critical section of the leader's side faults; which operations of a
    peer touch them. *)

From S2P Require Import Prelude Gob PersisterModel RaftState RaftVote RaftAppend RaftChain RaftNode RaftInv.
Open Scope go_scope.

Section indexes.
Context {GT : GobTypes}.
Implicit Types (rf : Raft) (n : Node).

Record leader_idx rf : Prop := {
  li_next_len : length (nextIndex rf) = peers rf;
  li_match_len : length (matchIndex rf) = peers rf;
  li_next : Forall (fun x => 0 <= x <= len (log rf)) (nextIndex rf);
  li_match : Forall (fun x => x < len (log rf)) (matchIndex rf);
}.

Record idx_ok rf : Prop := {
  ix_commit : -1 <= committedIndex rf;
  ix_leader : state rf = Leader -> leader_idx rf;
}.

(** What operations other than the leader's own do to them: nothing, unless
    the peer leaves its role; the log of a leader only grows. *)
Record index_frame rf rf' : Prop := {
  if_commit : -1 <= committedIndex rf -> -1 <= committedIndex rf';
  if_leader : state rf' = Leader ->
    state rf = Leader /\ peers rf' = peers rf /\ currentTerm rf' = currentTerm rf /\
    nextIndex rf' = nextIndex rf /\ matchIndex rf' = matchIndex rf /\
    len (log rf) <= len (log rf');
}.

Lemma index_frame_refl rf : index_frame rf rf.
Proof. split; [done|]. intros Hl. split_and!; done || lia. Qed.

Lemma index_frame_same rf rf' :
  committedIndex rf' = committedIndex rf -> state rf' = state rf -> peers rf' = peers rf ->
  currentTerm rf' = currentTerm rf -> nextIndex rf' = nextIndex rf -> matchIndex rf' = matchIndex rf ->
  log rf' = log rf -> index_frame rf rf'.
Proof. intros Hc Hs Hp Ht Hn Hm Hl. split; [by rewrite Hc|]. rewrite Hs, Hl. intros Hlead. split_and!; done || lia. Qed.

Lemma index_frame_not_leader rf rf' :
  committedIndex rf' = committedIndex rf -> state rf' <> Leader -> index_frame rf rf'.
Proof. intros Hc Hs. split; [by rewrite Hc|done]. Qed.

Lemma idx_ok_frame rf rf' : index_frame rf rf' -> idx_ok rf -> idx_ok rf'.
Proof.
  intros [Fc Fl] [Ic Il]. split; [auto|]. intros (Hl & Hp & _ & Hn & Hm & Hg)%Fl.
  destruct (Il Hl) as [L1 L2 L3 L4]. split; rewrite ?Hp, ?Hn, ?Hm; try done.
  - eapply Forall_impl; [exact L3|]. cbn. lia.
  - eapply Forall_impl; [exact L4|]. cbn. lia.
Qed.

(** ** The operations *)

Lemma hb_step_frame n c n' : hb_step n c = Some n' -> index_frame (raft n) (raft n').
Proof.
  unfold hb_step. cbv zeta. intros Hs.
  destruct (pc n) as [|st at_ w|st|st| | | | | | |]; destruct c; try discriminate Hs;
    try (destruct at_); try (destruct st; try discriminate Hs);
    repeat match type of Hs with
    | mbind _ ?m = Some _ => destruct m; [cbn [mbind option_bind] in Hs|discriminate Hs]
    | (if ?b then _ else _) = _ => destruct b
    end; injection Hs as <-; repeat case_match;
    first [by apply index_frame_same|by apply index_frame_not_leader].
Qed.
Lemma timer_step_frame n n' : timer_step n = Some n' -> index_frame (raft n) (raft n').
Proof.
  unfold timer_step. destruct (timer_fire _); [|done]. intros [= <-]. by apply index_frame_same.
Qed.

Lemma notify_step_frame n c d n' : notify_step n c d = Some n' -> index_frame (raft n) (raft n').
Proof.
  unfold notify_step. destruct c; try done; destruct (ch_notify _ _); try done; intros [= <-];
    by apply index_frame_same.
Qed.

Lemma RequestVote_frame rf args rf' reply :
  RequestVote rf args = Ret (rf', reply) -> index_frame rf rf'.
Proof.
  unfold RequestVote. intros Hr.
  match type of Hr with mbind _ ?m = _ => destruct m as [newer|]; [|done] end.
  cbn [mbind outcome_bind] in Hr.
  destruct (Z.ltb_spec (currentTerm rf) (rv_Term args)) as [Hlt|Hge]; revert Hr; raft_simpl.
  - rewrite (proj2 (Z.ltb_ge (rv_Term args) (currentTerm rf))) by lia.
    rewrite (proj2 (Z.ltb_lt (currentTerm rf) (rv_Term args))) by lia.
    case_decide as Hs; intros [= <- <-]; case_match; apply index_frame_not_leader; try done;
      unfold persist; raft_simpl; congruence.
  - rewrite (proj2 (Z.ltb_ge (currentTerm rf) (rv_Term args))) by lia.
    destruct (rv_Term args <? currentTerm rf); intros [= <- <-]; repeat case_match; by apply index_frame_same.
Qed.

Lemma Start_frame rf command : index_frame rf (Start rf command).1.
Proof.
  unfold Start. cbv zeta. destruct (bool_decide _); cbn [fst]; [|apply index_frame_refl].
  split; [done|]. unfold persist. raft_simpl. intros Hl. rewrite len_snoc. split_and!; done || lia.
Qed.

Lemma AppendEntries_frame rf args rf' reply :
  -1 <= lastApplied rf -> AppendEntries rf args = Ret (rf', reply) ->
  (state rf = Leader -> ae_Term args <> currentTerm rf) -> index_frame rf rf'.
Proof.
  intros Hla Hr Hne. pose proof (AppendEntries_inv _ _ _ _ Hla Hr) as Hs.
  destruct Hs as (Hpe & Hme & Hct & _ & _ & Hst & _ & Hif). split.
  - intros Hc. destruct (Success reply); [|destruct Hif as (_ & -> & _); done].
    destruct Hif as (_ & Hpr & _ & _ & -> & _). unfold advanced. raft_simpl.
    pose proof (len_nonneg (Entries args)). pose proof (len_nonneg (log rf')).
    destruct (Z.ltb_spec (committedIndex rf) (LeaderCommit args)); lia.
  - rewrite Hst. destruct (Z.ltb_spec (currentTerm rf) (ae_Term args)) as [|Hge]; [done|]. intros Hl.
    specialize (Hne Hl). rewrite Hct.
    assert (Success reply = false) as Hf.
    { destruct (Success reply); [|done]. destruct Hif. lia. }
    rewrite Hf in Hif. destruct Hif as (-> & _).
    assert (nextIndex rf' = nextIndex rf /\ matchIndex rf' = matchIndex rf) as [-> ->];
      [|split_and!; done || lia].
    unfold AppendEntries in Hr. rewrite (proj2 (Z.ltb_ge _ _)) in Hr by lia.
    invert_bind. rewrite Hf in *. by simplify_eq.
Qed.

Lemma startRequestVote_reply_frame rf args reply nl rf' nl' :
  startRequestVote_reply rf args reply nl = (rf', nl') ->
  index_frame rf rf' \/
  committedIndex rf' = committedIndex rf /\ state rf = Candidate /\ state rf' = Leader /\ leader_idx rf'.
Proof.
  unfold startRequestVote_reply. intros Hr.
  destruct (currentTerm rf <? rvr_Term reply); [simplify_eq; left; by apply index_frame_not_leader|].
  case_decide as Hd; [simplify_eq; left; apply index_frame_refl|].
  assert (state rf = Candidate) as Hs by (apply dec_stable; tauto).
  destruct (VoteGranted reply); [|simplify_eq; left; by apply index_frame_same].
  revert Hr. raft_simpl. destruct (_ && _); intros [= <- <-]; [right|left; by apply index_frame_same].
  unfold convertToLeader, persist. split_and!; try done. pose proof (len_nonneg (log rf)).
  split; raft_simpl; try (apply length_replicate); apply Forall_replicate; raft_simpl; lia.
Qed.

(** ** The leader's own operations *)

(** A request of the leader [rf] for its current term lies within its log. *)
Record in_log rf (args : AppendEntriesArgs) : Prop := {
  il_prev : -1 <= PrevLogIndex args;
  il_last : PrevLogIndex args + len (Entries args) < len (log rf);
}.

Lemma appendEntries_args_in_log rf j :
  idx_ok rf -> 0 <= j < Z.of_nat (peers rf) ->
  exists o, appendEntries_args rf j = Ret o /\
    forall args, o = Some args -> state rf = Leader /\ ae_Term args = currentTerm rf /\ in_log rf args.
Proof.
  intros [_ Hi] Hj. unfold appendEntries_args. case_decide as Hs; [by exists None|].
  assert (state rf = Leader) as Hl by (destruct (decide (state rf = Leader)); tauto).
  destruct (Hi Hl) as [L1 _ L3 _].
  destruct (go_index_in (nextIndex rf) j) as [next Hnext]; [unfold len; lia|].
  rewrite Hnext. cbn [mbind outcome_bind]. apply go_index_Ret in Hnext as [_ Hnext].
  pose proof (Forall_lookup_1 _ _ _ _ L3 Hnext) as Hb. cbn in Hb.
  assert (exists t, (if 0 <=? next - 1 then e ← go_index (log rf) (next - 1); Ret (Term e) else Ret (-1)) = Ret t)
    as [t ->].
  { destruct (Z.leb_spec 0 (next - 1)); [|by eexists].
    destruct (go_index_in (log rf) (next - 1)) as [e ->]; [lia|by eexists]. }
  cbn [mbind outcome_bind]. rewrite go_slice_from_in by lia. cbn [mbind outcome_bind].
  eexists. split; [reflexivity|]. intros args [= <-]. split_and!; [done|done|].
  split; cbn; [lia|]. unfold len in *. rewrite length_drop. lia.
Qed.

Lemma filter_ge_insert (l : list Z) (k : nat) (x N : Z) :
  Forall (fun y => y < N) l -> (length (filter (Z.le N) (<[k := x]> l)) <= 1)%nat.
Proof.
  assert (forall l, Forall (fun y => y < N) l -> filter (Z.le N) l = []) as Hnil.
  { induction 1 as [|y l' Hy Hl IH]; [done|]. by rewrite filter_cons, decide_False by lia. }
  intros Hf. destruct (decide (k < length l)%nat) as [Hk|Hk].
  - rewrite insert_take_drop by done. rewrite filter_app, filter_cons.
    rewrite Hnil by by apply Forall_take. rewrite (Hnil (drop _ _)) by by apply Forall_drop.
    case_decide; cbn; lia.
  - rewrite list_insert_ge by lia. rewrite Hnil by done. cbn. lia.
Qed.

(** How many peers hold the entry at [x], as far as the leader knows; it
    counts itself up to the length of its log. *)
Definition holders rf (x : Z) : nat := length (filter (Z.le x) (effective_match rf)).

(** C19: the commit rule, which sorts the match indexes and takes the middle
    one, computes what counting gives: for any number of peers it returns the
    largest index that at least the upper half of them hold.  Every index up
    to it is held by so many peers, and no index past it. *)
Theorem commit_index_by_counting rf :
  length (matchIndex rf) = peers rf -> 0 <= me rf < Z.of_nat (peers rf) ->
  exists N, commit_index rf = Ret N /\
    forall x, (peers rf <= holders rf x + peers rf / 2)%nat <-> x <= N.
Proof.
  intros Hl Hme. unfold commit_index, holders, effective_match. cbv zeta.
  rewrite go_copy_same by (rewrite length_replicate; lia).
  rewrite go_store_in by (unfold len; lia). cbn [mbind outcome_bind].
  set (l := <[Z.to_nat (me rf) := len (log rf)]> (matchIndex rf)).
  assert (length l = peers rf) as Hlen by (unfold l; by rewrite length_insert).
  assert (Z.of_nat (peers rf) / 2 = Z.of_nat (peers rf / 2)) as -> by (by rewrite Nat2Z.inj_div).
  assert (peers rf / 2 < peers rf)%nat as Hhalf by (apply Nat.div_lt; lia).
  destruct (go_index_in (sort_Ints l) (Z.of_nat (peers rf / 2))) as [N HN].
  { unfold len. rewrite (Permutation_length (sort_Ints_Permutation l)). lia. }
  exists N. split; [done|]. intros x. apply go_index_Ret in HN as [_ HN]. rewrite Nat2Z.id in HN.
  rewrite <- (sort_Ints_count l _ N x HN). lia.
Qed.

(** With three peers or more the commit rule never reaches past the log. *)
Lemma commit_index_in_log rf :
  (3 <= peers rf)%nat -> 0 <= me rf < Z.of_nat (peers rf) -> leader_idx rf ->
  exists N, commit_index rf = Ret N /\ N < len (log rf).
Proof.
  intros Hp Hme [_ L2 _ L4].
  assert (exists N, commit_index rf = Ret N) as [N HN].
  { unfold commit_index. cbv zeta. rewrite go_copy_same by (rewrite length_replicate; lia).
    rewrite go_store_in by (unfold len; lia). cbn [mbind outcome_bind].
    apply go_index_in. unfold len. rewrite (Permutation_length (sort_Ints_Permutation _)).
    rewrite length_insert, L2. split; [apply Z.div_pos; lia|]. apply Z.div_lt; lia. }
  exists N. split; [done|]. pose proof (commit_index_count rf N L2 HN) as Hc.
  destruct (Z.lt_ge_cases N (len (log rf))) as [|Hge]; [done|exfalso].
  assert (length (filter (Z.le N) (effective_match rf)) <= 1)%nat as H1.
  { apply filter_ge_insert. eapply Forall_impl; [exact L4|]. cbn. lia. }
  pose proof (Nat.div_mod (peers rf) 2 ltac:(lia)).
  pose proof (Nat.mod_upper_bound (peers rf) 2 ltac:(lia)). lia.
Qed.

Lemma Forall_store (P : Z -> Prop) (l : list Z) (k : nat) (x : Z) :
  P x -> Forall P l -> Forall P (<[k := x]> l).
Proof.
  intros Hx Hl. apply Forall_lookup_2. intros i y [(_ & <- & _)|[_ Hy]]%list_lookup_insert_Some; [done|].
  by eapply Forall_lookup_1.
Qed.

(** The leader takes a successful reply. *)
Lemma reply_success_total rf j args reply :
  raft_ok rf -> idx_ok rf -> (3 <= peers rf)%nat -> 0 <= me rf < Z.of_nat (peers rf) ->
  0 <= j < Z.of_nat (peers rf) -> state rf = Leader -> currentTerm rf = ae_Term args ->
  aer_Term reply <= currentTerm rf -> Success reply = true -> in_log rf args ->
  exists rf' again, appendEntries_reply rf j args reply = Ret (rf', again) /\ idx_ok rf'.
Proof.
  intros Hok Hix Hp Hme Hj Hl Ht Hrt Hs [Hprev Hlast].
  pose proof (applied_nonneg _ (ro_applied _ Hok)) as Hla.
  pose proof (ix_leader _ Hix Hl) as Hli. destruct Hli as [L1 L2 L3 L4].
  pose proof (len_nonneg (Entries args)).
  set (last := PrevLogIndex args + len (Entries args)) in *.
  set (rf1 := rf <| matchIndex := <[Z.to_nat j := last]> (matchIndex rf) |>
                 <| nextIndex := <[Z.to_nat j := last + 1]> (nextIndex rf) |>).
  assert (leader_idx rf1) as Hli1.
  { split; unfold rf1; raft_simpl; rewrite ?length_insert; try done; apply Forall_store; try done; lia. }
  destruct (commit_index_in_log rf1 Hp Hme Hli1) as (N & HN & HNlt).
  assert (exists rf' again, appendEntries_reply rf j args reply = Ret (rf', again)) as (rf' & again & Hr).
  { unfold appendEntries_reply. rewrite (proj2 (Z.ltb_ge _ _)), decide_False, Hs by (tauto || lia).
    fold last. rewrite go_store_in by (unfold len; lia). cbn [mbind outcome_bind]. raft_simpl.
    rewrite go_index_insert by (unfold len; lia). cbn [mbind outcome_bind].
    rewrite go_store_in by (unfold len; lia). cbn [mbind outcome_bind].
    match goal with |- context [commit_index ?r] => change r with rf1 end. rewrite HN.
    cbn [mbind outcome_bind]. pose proof (ix_commit _ Hix).
    destruct (Z.ltb_spec (committedIndex rf) N) as [Hlt|Hge].
    - destruct (go_index_in (log rf) N) as [e ->]; [unfold rf1 in *; raft_simpl_in HNlt; lia|].
      cbn [mbind outcome_bind]. rewrite startApplyLogs_spec by by case_match. by do 2 eexists.
    - cbn [mbind outcome_bind]. rewrite startApplyLogs_spec by done. by do 2 eexists. }
  exists rf', again. split; [done|].
  destruct (appendEntries_reply_success _ _ _ _ _ _ Hla Hrt Ht Hl Hs Hr) as [_ Hspec].
  destruct Hspec as ((Hpe & _ & _ & _ & _ & Hlog & _) & Hm & Hn & Hc & _). split.
  - pose proof (ix_commit _ Hix). destruct Hc as [->|[? _]]; lia.
  - intros _. destruct Hli1 as [M1 M2 M3 M4]. unfold rf1 in *. raft_simpl_in M1. raft_simpl_in M2.
    raft_simpl_in M3. raft_simpl_in M4. split; rewrite ?Hpe, ?Hm, ?Hn, ?Hlog; done.
Qed.

(** The leader takes a refusal. *)
Lemma reply_failure_total rf j args reply :
  idx_ok rf -> 0 <= j < Z.of_nat (peers rf) -> state rf = Leader -> currentTerm rf = ae_Term args ->
  aer_Term reply <= currentTerm rf -> Success reply = false ->
  ConflictIndex reply <= len (log rf) ->
  exists rf' again, appendEntries_reply rf j args reply = Ret (rf', again) /\ idx_ok rf'.
Proof.
  intros [Ic Il] Hj Hl Ht Hrt Hs Hci. destruct (Il Hl) as [L1 L2 L3 L4].
  pose proof (len_nonneg (log rf)).
  unfold appendEntries_reply. rewrite (proj2 (Z.ltb_ge _ _)), decide_False, Hs by (tauto || lia).
  assert (exists next, (match backoff (log rf) reply false 0 with
    | Some n => go_store (nextIndex rf) j n | None => Ret (nextIndex rf) end) = Ret next /\
    length next = peers rf /\ Forall (fun x => x <= len (log rf)) next /\
    forall k x, k <> Z.to_nat j -> next !! k = Some x -> 0 <= x) as (next & -> & Hlen & Hle & Hge).
  { assert (Forall (fun x => x <= len (log rf)) (nextIndex rf)) as Hle.
    { eapply Forall_impl; [exact L3|]. cbn. lia. }
    assert (forall k x, nextIndex rf !! k = Some x -> 0 <= x) as Hge.
    { intros k x Hk. pose proof (Forall_lookup_1 _ _ _ _ L3 Hk). cbn in *. lia. }
    destruct (backoff _ _ _ _) as [x|] eqn:Hb; [|exists (nextIndex rf); split_and!; eauto].
    rewrite go_store_in by (unfold len; lia). eexists. split; [done|].
    split; [by rewrite length_insert|]. split.
    - apply Forall_store; [|done]. apply backoff_Some in Hb as (k & e & Hk & _ & _ & Hx).
      apply lookup_lt_Some in Hk. unfold len in *. lia.
    - intros k y Hk. rewrite list_lookup_insert_ne by done. apply Hge. }
  cbn [mbind outcome_bind].
  destruct (go_index_in next j) as [x Hx]; [unfold len; lia|]. rewrite Hx. cbn [mbind outcome_bind].
  apply go_index_Ret in Hx as [_ Hx].
  assert (exists next', (if x <? 0 then go_store next j 0 else Ret next) = Ret next' /\
    length next' = peers rf /\ Forall (fun x => 0 <= x <= len (log rf)) next') as (next' & -> & Hlen' & Hf).
  { destruct (Z.ltb_spec x 0) as [Hneg|Hpos].
    - rewrite go_store_in by (unfold len; lia). eexists. split; [done|].
      split; [by rewrite length_insert|]. apply Forall_lookup_2. intros k y.
      intros [(_ & <- & _)|[Hk Hy]]%list_lookup_insert_Some; [lia|].
      pose proof (Forall_lookup_1 _ _ _ _ Hle Hy). specialize (Hge k y ltac:(congruence) Hy). cbn in *. lia.
    - eexists. split; [done|]. split; [done|]. apply Forall_lookup_2. intros k y Hy.
      pose proof (Forall_lookup_1 _ _ _ _ Hle Hy) as Hy'. cbn in Hy'.
      destruct (decide (k = Z.to_nat j)) as [->|Hk]; [|specialize (Hge k y Hk Hy); lia].
      assert (y = x) as -> by congruence. lia. }
  cbn [mbind outcome_bind]. do 2 eexists. split; [reflexivity|]. split; [done|]. intros _. by split.
Qed.

(** A reply to [args] that the leader can use. *)
Definition reply_fits rf (args : AppendEntriesArgs) (reply : AppendEntriesReply) : Prop :=
  state rf = Leader -> currentTerm rf = ae_Term args ->
  in_log rf args /\ (Success reply = false -> ConflictIndex reply <= len (log rf)).

Lemma appendEntries_reply_total rf j args reply :
  raft_ok rf -> idx_ok rf -> (3 <= peers rf)%nat -> 0 <= me rf < Z.of_nat (peers rf) ->
  0 <= j < Z.of_nat (peers rf) -> reply_fits rf args reply ->
  exists rf' again, appendEntries_reply rf j args reply = Ret (rf', again) /\ idx_ok rf'.
Proof.
  intros Hok Hix Hp Hme Hj Hfit.
  destruct (Z.ltb_spec (currentTerm rf) (aer_Term reply)) as [Hlt|Hge].
  { unfold appendEntries_reply. rewrite (proj2 (Z.ltb_lt _ _)) by done. do 2 eexists.
    split; [reflexivity|]. split; [apply Hix|done]. }
  destruct (decide (state rf = Leader /\ currentTerm rf = ae_Term args)) as [[Hl Ht]|Hn].
  - destruct (Hfit Hl Ht) as [Hin Hci]. destruct (Success reply) eqn:Hs.
    + by apply reply_success_total.
    + apply reply_failure_total; auto.
  - unfold appendEntries_reply. rewrite (proj2 (Z.ltb_ge _ _)) by lia.
    rewrite decide_True by (destruct (decide (state rf = Leader)); tauto). by do 2 eexists.
Qed.

(** What AppendEntries answers: the conflict index is not past PrevLogIndex. *)
Lemma AppendEntries_conflict_index rf args rf' reply :
  -1 <= PrevLogIndex args -> AppendEntries rf args = Ret (rf', reply) ->
  ConflictIndex reply <= Z.max 0 (PrevLogIndex args).
Proof.
  intros Hp. unfold AppendEntries. cbv zeta. intros Hr.
  apply bind_Ret in Hr as (r & Hc & (rf1 & _ & [= _ <-])%bind_Ret). revert Hc.
  generalize (if currentTerm rf <? ae_Term args then
    if decide (state (rf <| currentTerm := ae_Term args |>) <> Follower)
    then convertToFollower (rf <| currentTerm := ae_Term args |>) (currentTerm (rf <| currentTerm := ae_Term args |>))
           (votedFor (rf <| currentTerm := ae_Term args |>))
    else rf <| currentTerm := ae_Term args |> else rf).
  clear rf rf' rf1. intros rf. unfold check_prev. cbv zeta.
  destruct (ae_Term args <? currentTerm rf); [intros [= <-]; cbn; lia|].
  destruct (Z.leb_spec (len (log rf)) (PrevLogIndex args)); [intros [= <-]; cbn; lia|].
  destruct (PrevLogIndex args =? -1); [intros [= <-]; cbn; lia|].
  intros (e & He & Hr)%bind_Ret. case_decide; [|injection Hr as <-; cbn; lia].
  apply bind_Ret in Hr as (t & Ht & Hr). case_decide; injection Hr as <-; cbn; [|lia].
  destruct (Z.leb_spec 0 (PrevLogIndex args)).
  - rewrite He in Ht. injection Ht as <-. apply go_index_Ret in He as [_ He].
    destruct (first_index_of_spec (log rf) (Term e) 0 _ _ He eq_refl) as (k & x & Hk). lia.
  - exfalso. pose proof (go_index_lt _ _ _ He). lia.
Qed.

End indexes.

(** ** Witnesses *)

Section witnesses.
#[local] Existing Instance first_types.

(** Five peers; the leader has three entries, two peers hold all of them, one
    holds one and one none. *)
Definition leader_of_five : Raft := (leader_example 5) <| matchIndex := [-1; 2; 0; 2; -1] |>.

Lemma commit_index_by_counting_witness :
  exists N, commit_index leader_of_five = Ret N /\ N = 2 /\ (5 <= holders leader_of_five 2 + 2)%nat.
Proof.
  destruct (commit_index_by_counting leader_of_five) as (N & HN & Hx);
    [vm_compute; reflexivity|vm_compute; split; congruence|].
  assert (N = 2) as -> by (vm_compute in HN; injection HN; done).
  exists 2. split; [exact HN|]. split; [done|]. apply (Hx 2). lia.
Defined.

End witnesses.
