(* ===== verification/Cluster.v ===== *)
(** * A cluster of peers and the network between them

    The peers of raft.go connected by the RPCs of labrpc.go, as a transition
    system: [exec] runs one event.  An RPC is a message that waits in [net];
    any waiting message may be delivered next or lost, so requests and
    replies are reordered, delayed and dropped at will, and a handler runs at
    most once per call.  [exec] returns [None] for an event that is not
    enabled and [Some (Panic f)] for one that takes the process down. *)

From S2P Require Import Prelude Gob PersisterModel RaftState RaftVote RaftAppend RaftNode.
Open Scope go_scope.

Inductive Body : Type :=
| VoteReq (round : nat) (args : RequestVoteArgs)
| VoteRep (round : nat) (args : RequestVoteArgs) (reply : RequestVoteReply)
| AppendReq (args : AppendEntriesArgs)
| AppendRep (args : AppendEntriesArgs) (reply : AppendEntriesReply).

(** An RPC in progress: the calling peer and its incarnation, the called
    peer, and the request or the reply. *)
Record Msg := mkMsg {
  m_src : nat;
  m_inc : nat;
  m_dst : nat;
  m_body : Body;
}.

(** An entry was appended by a leader: its index, the entry, and the term of
    the entry before it ([-1] for the first). *)
Record Birth := mkBirth {
  b_index : nat;
  b_entry : LogEntry;
  b_prev : Z;
}.

(** [elections] and [created] are history: every (term, peer) that became
    leader and every entry a leader appended, in order. *)
Record Cluster := mkCluster {
  nodes : list Node;
  net : list Msg;
  elections : list (Z * nat);
  created : list Birth;
}.

#[export] Instance Cluster_eta : Eta Cluster := fun s =>
  mkCluster (nodes s) (net s) (elections s) (created s).

Inductive Event : Type :=
| EvHeartBeat (i : nat) (c : Choice)  (* a step of peer i's main loop *)
| EvTimer (i : nat)                   (* peer i's timer goes off *)
| EvNotify (i : nat) (c : Choice) (drain : bool)
| EvTask (i k : nat)                  (* peer i's k-th goroutine runs *)
| EvDeliver (k : nat)                 (* the k-th message is delivered *)
| EvLose (k : nat)                    (* the k-th message is lost *)
| EvStart (i : nat) (command : iface) (* the service calls Start on peer i *)
| EvKill (i : nat)
| EvRestart (i : nat).                (* peer i crashes and starts again *)

Section cluster.
Context {GT : GobTypes}.

Definition set_node (s : Cluster) (i : nat) (n : Node) : Cluster :=
  s <| nodes := <[i := n]> (nodes s) |>.

Definition set_raft (s : Cluster) (i : nat) (n : Node) (rf : Raft) : Cluster :=
  set_node s i (n <| raft := rf |>).

(** The requests of one round of [startRequestVote]. *)
Definition vote_requests (n : Node) (i round : nat) (args : RequestVoteArgs) : list Msg :=
  map (fun j => mkMsg i (incarnation n) (Z.to_nat j) (VoteReq round args)) (other_peers (raft n)).

(** [startRequestVote] up to the sends: a new round with its own nLeader. *)
Definition send_vote_requests (s : Cluster) (i : nat) (n : Node) : outcome Cluster :=
  o ← startRequestVote_args (raft n);
  match o with
  | None => Ret (set_node s i n)
  | Some args =>
      let round := length (rounds n) in
      let s := set_node s i (n <| rounds := rounds n ++ [0] |>) in
      Ret (s <| net := net s ++ vote_requests n i round args |>)
  end.

(** One round of the loop of [startAppendEntries] for peer [j], up to the
    send. *)
Definition send_append_request (s : Cluster) (i : nat) (n : Node) (j : Z) : outcome Cluster :=
  o ← appendEntries_args (raft n) j;
  let s := set_node s i n in
  match o with
  | None => Ret s
  | Some args =>
      Ret (s <| net := net s ++ [mkMsg i (incarnation n) (Z.to_nat j) (AppendReq args)] |>)
  end.

Definition run_task (s : Cluster) (i : nat) (n : Node) (t : Task) : outcome Cluster :=
  match t with
  | TStartRequestVote => send_vote_requests s i n
  | TAppendEntries j => send_append_request s i n j
  end.

(** Peer [i] handles the reply of round [round]; becoming leader is recorded. *)
Definition handle_vote_reply (s : Cluster) (i : nat) (n : Node) (round : nat)
    (args : RequestVoteArgs) (reply : RequestVoteReply) : option Cluster :=
  nLeader ← rounds n !! round;
  let '(rf, nLeader) := startRequestVote_reply (raft n) args reply nLeader in
  let won := bool_decide (state (raft n) <> Leader /\ state rf = Leader) in
  let s := set_node s i (n <| raft := rf |> <| rounds := <[round := nLeader]> (rounds n) |>) in
  Some (if won then s <| elections := elections s ++ [(currentTerm rf, i)] |> else s).

(** Peer [i] handles a reply of peer [j] to AppendEntries; the goroutine may
    go round its loop again. *)
Definition handle_append_reply (s : Cluster) (i : nat) (n : Node) (j : Z)
    (args : AppendEntriesArgs) (reply : AppendEntriesReply) : outcome Cluster :=
  '(rf, again) ← appendEntries_reply (raft n) j args reply;
  let n := n <| raft := rf |> in
  let n := if again : bool then n <| tasks := tasks n ++ [TAppendEntries j] |> else n in
  Ret (set_node s i n).

(** Peer [n], number [m_dst m], runs the handler of a request; the reply
    takes the place of the request in the network. *)
Definition serve_vote (s : Cluster) (m : Msg) (n : Node) (round : nat) (args : RequestVoteArgs) :
    outcome Cluster :=
  '(rf, reply) ← RequestVote (raft n) args;
  let s := set_raft s (m_dst m) n rf in
  Ret (s <| net := net s ++ [mkMsg (m_src m) (m_inc m) (m_dst m) (VoteRep round args reply)] |>).

Definition serve_append (s : Cluster) (m : Msg) (n : Node) (args : AppendEntriesArgs) :
    outcome Cluster :=
  '(rf, reply) ← AppendEntries (raft n) args;
  let s := set_raft s (m_dst m) n rf in
  Ret (s <| net := net s ++ [mkMsg (m_src m) (m_inc m) (m_dst m) (AppendRep args reply)] |>).

(** [s] is the cluster with the message [m] taken out of the network.  A
    reply to an earlier incarnation of the caller reaches nobody. *)
Definition deliver (s : Cluster) (m : Msg) : option (outcome Cluster) :=
  match m_body m with
  | VoteReq round args => n ← nodes s !! m_dst m; Some (serve_vote s m n round args)
  | AppendReq args => n ← nodes s !! m_dst m; Some (serve_append s m n args)
  | VoteRep round args reply =>
      n ← nodes s !! m_src m;
      if decide (incarnation n <> m_inc m) then Some (Ret s)
      else s ← handle_vote_reply s (m_src m) n round args reply; Some (Ret s)
  | AppendRep args reply =>
      n ← nodes s !! m_src m;
      if decide (incarnation n <> m_inc m) then Some (Ret s)
      else Some (handle_append_reply s (m_src m) n (Z.of_nat (m_dst m)) args reply)
  end.

(** What a restarted peer finds: the Raft state of the old persister. *)
Definition restart_persister (ps : Persister) : Persister :=
  Copy (SaveRaftState MakePersister (ReadRaftState (Copy ps))).

Definition exec (ev : Event) (s : Cluster) : option (outcome Cluster) :=
  match ev with
  | EvHeartBeat i c =>
      n ← nodes s !! i; n' ← hb_step n c; Some (Ret (set_node s i n'))
  | EvTimer i =>
      n ← nodes s !! i; n' ← timer_step n; Some (Ret (set_node s i n'))
  | EvNotify i c drain =>
      n ← nodes s !! i; n' ← notify_step n c drain; Some (Ret (set_node s i n'))
  | EvTask i k =>
      n ← nodes s !! i;
      t ← tasks n !! k;
      Some (run_task s i (n <| tasks := delete k (tasks n) |>) t)
  | EvDeliver k =>
      m ← net s !! k;
      deliver (s <| net := delete k (net s) |>) m
  | EvLose k =>
      _ ← net s !! k;
      Some (Ret (s <| net := delete k (net s) |>))
  | EvStart i command =>
      n ← nodes s !! i;
      let '(rf, (_, _, isLeader)) := Start (raft n) command in
      let s := set_raft s i n rf in
      Some (Ret (if isLeader : bool then
                   let l := log (raft n) in
                   let b := mkBirth (length l) (mkLogEntry command (currentTerm (raft n)))
                              (last_term l) in
                   s <| created := created s ++ [b] |>
                 else s))
  | EvKill i =>
      n ← nodes s !! i; Some (Ret (set_raft s i n (Kill (raft n))))
  | EvRestart i =>
      n ← nodes s !! i;
      let rf := raft n in
      Some (Ret (set_node s i
        (make_node (peers rf) (me rf) (restart_persister (persister rf)) (S (incarnation n)))))
  end.

Fixpoint run (evs : list Event) (s : Cluster) : option (outcome Cluster) :=
  match evs with
  | [] => Some (Ret s)
  | ev :: evs =>
      o ← exec ev s;
      match o with
      | Ret s => run evs s
      | Panic f => Some (Panic f)
      end
  end.

(** A cluster of [n] peers that all start with an empty persister. *)
Definition init (n : nat) : Cluster :=
  mkCluster (map (fun i => make_node n (Z.of_nat i) MakePersister 0) (seq 0 n)) [] [] [].

(** Every integer of a peer is a Go int, its term is not the last one, and
    its log fits in one gob message. *)
Definition bounded (s : Cluster) : Prop :=
  Forall (fun n => persistable (raft n) /\ currentTerm (raft n) < int_max) (nodes s).

Inductive reachable : Cluster -> Prop :=
| reachable_init n : reachable (init n)
| reachable_step s ev s' :
    reachable s -> bounded s -> exec ev s = Some (Ret s') -> reachable s'.

End cluster.
