(* ===== verification/ClusterInv.v ===== *)
(** * Invariants of the cluster

    The inductive invariant of the transition system of Cluster.v.  Its base
    part holds in every reachable state.  The second part, that an index and
    a term determine an entry, holds as long as no term has had two leaders;
    the code does not ensure that (Findings.v), so it is conditional on the
    history of elections. *)

From S2P Require Import Prelude Gob PersisterModel RaftState RaftVote RaftAppend RaftChain.
From S2P Require Import RaftNode RaftInv Cluster.
Open Scope go_scope.

Section inv.
Context {GT : GobTypes}.
Implicit Types (els : list (Z * nat)) (cr : list Birth) (s : Cluster).

Definition born cr (k : nat) (e : LogEntry) (p : Z) : Prop := mkBirth k e p ∈ cr.

(** The service received an entry some leader appended, at its index. *)
Definition delivered cr (m : ApplyMsg) : Prop :=
  exists b, b ∈ cr /\ m = mkApplyMsg true (Command (b_entry b)) (Z.of_nat (b_index b)).

Definition task_ok (i : nat) (t : Task) : Prop :=
  match t with
  | TStartRequestVote => True
  | TAppendEntries j => 0 <= j /\ Z.to_nat j <> i
  end.

(** Every entry of the log was appended by a leader, after the one before it. *)
Definition log_of cr (l : list LogEntry) : Prop := chain (born cr) 0 (-1) l.

Record node_ok (N : nat) els cr (i : nat) (n : Node) : Prop := {
  no_peers : peers (raft n) = N;
  no_me : me (raft n) = Z.of_nat i;
  no_raft : raft_ok (raft n);
  no_chain : log_of cr (log (raft n));
  no_saved : saved_ok (log_of cr) (raft n);
  no_buffer : hb_buffer (log_of cr) (pc n);
  no_leader : state (raft n) = Leader -> (currentTerm (raft n), i) ∈ els;
  no_tasks : Forall (task_ok i) (tasks n);
  no_applied : Forall (delivered cr) (applyCh (raft n));
}.

Record append_ok els cr (src dst : nat) (args : AppendEntriesArgs) : Prop := {
  ao_other : src <> dst;
  ao_leader : (ae_Term args, src) ∈ els;
  ao_prev : -1 <= PrevLogIndex args;
  ao_first : PrevLogIndex args = -1 -> PrevLogTerm args = -1;
  ao_chain : chain (born cr) (Z.to_nat (PrevLogIndex args + 1)) (PrevLogTerm args) (Entries args);
}.

Definition msg_ok els cr (m : Msg) : Prop :=
  match m_body m with
  | AppendReq args => append_ok els cr (m_src m) (m_dst m) args
  | AppendRep _ _ => m_src m <> m_dst m
  | _ => True
  end.

Definition birth_ok els (b : Birth) : Prop :=
  1 <= Term (b_entry b) /\ exists i, (Term (b_entry b), i) ∈ els.

Record base_inv s : Prop := {
  bi_nodes : forall i n, nodes s !! i = Some n ->
    node_ok (length (nodes s)) (elections s) (created s) i n;
  bi_net : Forall (msg_ok (elections s) (created s)) (net s);
  bi_births : Forall (birth_ok (elections s)) (created s);
}.

Record match_inv s : Prop := {
  mi_unique : forall b b', b ∈ created s -> b' ∈ created s ->
    b_index b = b_index b' -> Term (b_entry b) = Term (b_entry b') -> b = b';
  mi_top : forall i n b, nodes s !! i = Some n -> state (raft n) = Leader -> b ∈ created s ->
    Term (b_entry b) = currentTerm (raft n) -> (b_index b < length (log (raft n)))%nat;
}.

(** No term has had two leaders. *)
Definition one_leader_per_term s : Prop := NoDup ((elections s).*1).

Definition inv s : Prop := base_inv s /\ (one_leader_per_term s -> match_inv s).

Lemma chain_delivered cr l m : chain (born cr) 0 (-1) l -> from_log l m -> delivered cr m.
Proof.
  intros Hc (k & e & He & ->). pose proof (chain_lookup _ _ _ _ _ _ Hc He) as Hb.
  eexists. split; [exact Hb|]. done.
Qed.

(** What a peer has delivered after a step, from what it had delivered. *)
Lemma delivered_step cr l ch ch' :
  Forall (delivered cr) ch -> chain (born cr) 0 (-1) l ->
  (forall m, m ∈ ch' -> m ∈ ch \/ from_log l m) -> Forall (delivered cr) ch'.
Proof.
  rewrite !Forall_forall. intros Hf Hc Hm m [Hx|Hx]%Hm; [auto|].
  by eapply chain_delivered.
Qed.

Lemma delivered_mono cr cr' ch : cr ⊆ cr' -> Forall (delivered cr) ch -> Forall (delivered cr') ch.
Proof.
  intros Hs Hf. eapply Forall_impl; [exact Hf|]. intros m (b & Hb & ->). exists b. auto.
Qed.

(** ** Monotonicity in the history *)

Lemma log_of_mono cr cr' l : cr ⊆ cr' -> log_of cr l -> log_of cr' l.
Proof. intros Hc. apply chain_impl. intros k e p. apply Hc. Qed.

Lemma hb_buffer_mono cr cr' p : cr ⊆ cr' -> hb_buffer (log_of cr) p -> hb_buffer (log_of cr') p.
Proof. intros Hc. destruct p; try done. apply buffered_mono. intros l. by apply log_of_mono. Qed.

Lemma node_ok_mono N els els' cr cr' i n :
  els ⊆ els' -> cr ⊆ cr' -> node_ok N els cr i n -> node_ok N els' cr' i n.
Proof.
  intros He Hc []. split; try done; [by eapply log_of_mono| |by eapply hb_buffer_mono|auto|by eapply delivered_mono].
  eapply saved_ok_mono; [|done]. intros l. by apply log_of_mono.
Qed.

Lemma msg_ok_mono els els' cr cr' m :
  els ⊆ els' -> cr ⊆ cr' -> msg_ok els cr m -> msg_ok els' cr' m.
Proof.
  intros He Hc. unfold msg_ok. destruct (m_body m); try done. intros []. split; auto.
  eapply chain_impl; [|done]. intros k e p. apply Hc.
Qed.

Lemma birth_ok_mono els els' b : els ⊆ els' -> birth_ok els b -> birth_ok els' b.
Proof. intros He (? & i & ?). split; [done|]. exists i. auto. Qed.

(** ** One peer changes *)

Lemma base_inv_update s s' i n n' :
  base_inv s -> nodes s !! i = Some n ->
  nodes s' = <[i := n']> (nodes s) ->
  elections s ⊆ elections s' -> created s ⊆ created s' ->
  node_ok (length (nodes s)) (elections s') (created s') i n' ->
  Forall (msg_ok (elections s') (created s')) (net s') ->
  Forall (birth_ok (elections s')) (created s') ->
  base_inv s'.
Proof.
  intros [Hn Hm Hb] Hi Hns He Hc Hn' Hm' Hb'. split; try done.
  rewrite Hns, length_insert. intros j x Hj.
  apply list_lookup_insert_Some in Hj as [(-> & -> & _)|[_ Hj]]; [done|].
  eapply node_ok_mono; eauto.
Qed.

Lemma match_inv_update s s' i n n' :
  match_inv s -> nodes s !! i = Some n ->
  nodes s' = <[i := n']> (nodes s) -> created s' = created s ->
  (state (raft n') = Leader -> forall b, b ∈ created s ->
     Term (b_entry b) = currentTerm (raft n') -> (b_index b < length (log (raft n')))%nat) ->
  match_inv s'.
Proof.
  intros [Hu Ht] Hi Hns Hc Hl. split; rewrite Hc; [done|].
  intros j x b. rewrite Hns. intros Hj.
  apply list_lookup_insert_Some in Hj as [(-> & -> & _)|[_ Hj]]; eauto.
Qed.

Lemma node_ok_quiet N els cr i n n' :
  node_ok N els cr i n -> quiet (raft n) (raft n') -> Forall (task_ok i) (tasks n') ->
  saved_ok (log_of cr) (raft n') -> hb_buffer (log_of cr) (pc n') -> node_ok N els cr i n'.
Proof.
  intros [] [Qp Qm Ql Qt Qs Qo Qa] Htasks Hsv Hbf. split; rewrite ?Qp, ?Qm, ?Ql; auto.
  - intros Hl. destruct (Qs Hl) as [Hl' ->]. auto.
  - rewrite Ql in Qa. by eapply delivered_step.
Qed.

Lemma inv_quiet_saved s s' i n n' :
  inv s -> nodes s !! i = Some n -> quiet (raft n) (raft n') ->
  saved_ok (log_of (created s)) (raft n') -> hb_buffer (log_of (created s)) (pc n') ->
  Forall (task_ok i) (tasks n') ->
  nodes s' = <[i := n']> (nodes s) -> elections s' = elections s -> created s' = created s ->
  Forall (msg_ok (elections s) (created s)) (net s') ->
  inv s'.
Proof.
  intros [Hb Hm] Hi Hq Hsv Hbf Ht Hns He Hc Hnet. split.
  - eapply base_inv_update; eauto; rewrite ?He, ?Hc; try done; [|apply Hb].
    eapply node_ok_quiet; eauto. by apply Hb.
  - unfold one_leader_per_term. rewrite He. intros Hone.
    eapply match_inv_update; eauto. intros Hl b Hbc Hbt.
    destruct (q_leader _ _ Hq Hl) as [Hl' Htm]. rewrite Htm in Hbt.
    rewrite (q_log _ _ Hq). by eapply (mi_top s (Hm Hone)).
Qed.

(** The main loop stays where it is. *)
Lemma inv_quiet s s' i n n' :
  inv s -> nodes s !! i = Some n -> quiet (raft n) (raft n') -> saves (raft n) (raft n') ->
  pc n' = pc n -> Forall (task_ok i) (tasks n') ->
  nodes s' = <[i := n']> (nodes s) -> elections s' = elections s -> created s' = created s ->
  Forall (msg_ok (elections s) (created s)) (net s') ->
  inv s'.
Proof.
  intros Hinv Hi Hq Hsv Hpc. destruct (bi_nodes s (proj1 Hinv) i n Hi).
  eapply inv_quiet_saved; eauto; [by eapply saves_ok|by rewrite Hpc].
Qed.

(** Messages only leave the network. *)
Lemma net_delete els cr ms k : Forall (msg_ok els cr) ms -> Forall (msg_ok els cr) (delete k ms).
Proof. rewrite delete_take_drop. intros Hf. apply Forall_app; auto using Forall_take, Forall_drop. Qed.

Lemma tasks_delete i ts k : Forall (task_ok i) ts -> Forall (task_ok i) (delete k ts).
Proof. rewrite delete_take_drop. intros Hf. apply Forall_app; auto using Forall_take, Forall_drop. Qed.

Lemma inv_net s ms :
  inv s -> Forall (msg_ok (elections s) (created s)) ms -> inv (s <| net := ms |>).
Proof. intros [[Hn Hm Hb] Hx] Hms. split; [by split|]. intros Hone. destruct (Hx Hone). by split. Qed.


(** ** The peer's own goroutines *)

Lemma other_peers_ok rf i :
  me rf = Z.of_nat i -> Forall (fun j => 0 <= j /\ Z.to_nat j <> i) (other_peers rf).
Proof.
  intros Hme. apply Forall_forall. intros j. unfold other_peers.
  rewrite list_elem_of_filter, elem_of_seqZ. lia.
Qed.

Lemma hb_step_tasks_cases n c n' :
  hb_step n c = Some n' ->
  tasks n' = tasks n \/ tasks n' = tasks n ++ [TStartRequestVote] \/
  tasks n' = tasks n ++ map TAppendEntries (other_peers (raft n)).
Proof.
  unfold hb_step. cbv zeta. intros Hs.
  destruct (pc n) as [|st at_ w|st|st| | | | | | |]; destruct c; try discriminate Hs;
    try (destruct at_); try (destruct st; try discriminate Hs);
    repeat match type of Hs with
    | mbind _ ?m = Some _ => destruct m; [cbn [mbind option_bind] in Hs|discriminate Hs]
    | (if ?b then _ else _) = _ => destruct b
    end; injection Hs as <-; auto.
Qed.

Lemma hb_step_tasks n c n' i :
  hb_step n c = Some n' -> me (raft n) = Z.of_nat i ->
  Forall (task_ok i) (tasks n) -> Forall (task_ok i) (tasks n').
Proof.
  intros Hs Hme Hts.
  destruct (hb_step_tasks_cases n c n' Hs) as [->|[->| ->]]; [done|by apply Forall_app; repeat constructor|].
  apply Forall_app. split; [done|]. apply Forall_map. by apply other_peers_ok.
Qed.

Lemma timer_step_tasks n n' : timer_step n = Some n' -> tasks n' = tasks n.
Proof. unfold timer_step. destruct (timer_fire _); [by intros [= <-]|done]. Qed.

Lemma notify_step_tasks n c d n' : notify_step n c d = Some n' -> tasks n' = tasks n.
Proof.
  unfold notify_step. destruct c; try done; destruct (ch_notify _ _); try done; by intros [= <-].
Qed.

(** A leader's request describes its log. *)
Lemma appendEntries_args_ok N els cr i n j args :
  node_ok N els cr i n -> 0 <= j -> Z.to_nat j <> i ->
  appendEntries_args (raft n) j = Ret (Some args) ->
  append_ok els cr i (Z.to_nat j) args.
Proof.
  intros [_ _ _ Hc _ _ Hl _ _] Hj Hne. unfold log_of in Hc. unfold appendEntries_args.
  case_decide as Hs; [done|].
  destruct (go_index (nextIndex (raft n)) j) as [next|]; [|done]. cbn [mbind outcome_bind].
  set (l := log (raft n)) in *. set (prev := next - 1).
  destruct (Z.leb_spec 0 prev) as [Hp|Hp]; intros Hr.
  - destruct (go_index l prev) as [e|] eqn:He; [|done]. cbn [mbind outcome_bind] in Hr.
    pose proof (go_index_lt _ _ _ He). apply go_index_Ret in He as [_ He].
    rewrite go_slice_from_in in Hr by lia. cbn [mbind outcome_bind] in Hr. simplify_eq.
    split; cbn [PrevLogIndex PrevLogTerm Entries ae_Term]; auto; try lia.
    pose proof (chain_drop _ _ _ l (Z.to_nat (prev + 1)) ltac:(unfold len in *; lia) Hc) as Hd.
    rewrite Nat.add_0_l in Hd. erewrite prev_matches_end in Hd; [done| |lia].
    right. exists e. done.
  - cbn [mbind outcome_bind] in Hr. unfold go_slice_from in Hr.
    case_decide; [|done]. cbn [mbind outcome_bind] in Hr. simplify_eq.
    split; cbn [PrevLogIndex PrevLogTerm Entries ae_Term]; auto; try lia.
    by replace (prev + 1) with 0 by lia.
Qed.

Lemma vote_requests_ok els cr n i r args : Forall (msg_ok els cr) (vote_requests n i r args).
Proof. unfold vote_requests. apply Forall_map, Forall_true. done. Qed.

Lemma run_task_inv s i n k t s' :
  inv s -> nodes s !! i = Some n -> tasks n !! k = Some t ->
  run_task s i (n <| tasks := delete k (tasks n) |>) t = Ret s' -> inv s'.
Proof.
  intros Hinv Hi Ht Hr. pose proof (bi_nodes s (proj1 Hinv) i n Hi) as Hn.
  pose proof (bi_net s (proj1 Hinv)) as Hnet.
  pose proof (tasks_delete i (tasks n) k (no_tasks _ _ _ _ _ Hn)) as Htasks.
  pose proof (Forall_lookup_1 _ _ _ _ (no_tasks _ _ _ _ _ Hn) Ht) as Hok.
  destruct t as [|j]; unfold run_task, send_vote_requests, send_append_request in Hr; cbn [set_field raft tasks] in Hr.
  - destruct (startRequestVote_args (raft n)) as [[args|]|]; [| |done];
      cbn [mbind outcome_bind] in Hr; injection Hr as <-.
    + eapply inv_quiet; [exact Hinv|exact Hi|..|reflexivity|reflexivity|reflexivity|].
      * apply quiet_refl.
      * apply saves_refl.
      * done.
      * done.
      * apply Forall_app. split; [done|apply vote_requests_ok].
    + eapply inv_quiet; [exact Hinv|exact Hi|..|reflexivity|reflexivity|reflexivity|];
        [apply quiet_refl|apply saves_refl|done..].
  - destruct (appendEntries_args (raft n) j) as [[args|]|] eqn:Ha; [| |done];
      cbn [mbind outcome_bind] in Hr; injection Hr as <-.
    + eapply inv_quiet; [exact Hinv|exact Hi|..|reflexivity|reflexivity|reflexivity|].
      * apply quiet_refl.
      * apply saves_refl.
      * done.
      * done.
      * apply Forall_app. split; [done|]. apply Forall_singleton.
        destruct Hok. eapply appendEntries_args_ok; eauto.
    + eapply inv_quiet; [exact Hinv|exact Hi|..|reflexivity|reflexivity|reflexivity|];
        [apply quiet_refl|apply saves_refl|done..].
Qed.


(** ** Deliveries *)

Lemma one_leader_eq els t a b :
  NoDup (els.*1) -> (t, a) ∈ els -> (t, b) ∈ els -> a = b.
Proof.
  intros Hnd [x Ha]%list_elem_of_lookup [y Hb]%list_elem_of_lookup.
  assert (x = y) as ->; [|by simplify_eq].
  eapply (NoDup_lookup (els.*1)); [done|..]; rewrite list_lookup_fmap.
  - by rewrite Ha.
  - by rewrite Hb.
Qed.

Lemma deliver_append_inv s src dst n args rf reply ms :
  inv s -> nodes s !! dst = Some n -> append_ok (elections s) (created s) src dst args ->
  AppendEntries (raft n) args = Ret (rf, reply) ->
  Forall (msg_ok (elections s) (created s)) ms ->
  inv ((set_raft s dst n rf) <| net := ms |>).
Proof.
  intros [Hb Hm] Hi Hargs Hr Hms.
  pose proof (bi_nodes s Hb dst n Hi) as Hn.
  destruct (AppendEntries_cases _ _ _ _ Hr (no_raft _ _ _ _ _ Hn))
    as (Hok & Hpe & Hme & Hfrom & Hct & Hst & Hlog).
  split.
  - eapply base_inv_update; [done|exact Hi|reflexivity|done|done| |done|apply Hb].
    destruct Hn as [Np Nm No Nc Nsv Nbf Nl Nk Nd]. destruct Hargs as [_ _ _ Af Ac].
    assert (log_of (created s) (log rf)) as Hchain.
    { destruct Hlog as [->|(Hge & Hpr & Hpm & Hmg)]; [done|]. by eapply merge_log_chain. }
    split; cbn [set_field raft tasks pc]; try done; try congruence.
    + eapply saves_ok; [by eapply AppendEntries_saves|done].
    + intros Hl. destruct (Hst Hl) as [Hl' Hle]. rewrite Hct, Z.max_l by lia. auto.
    + by eapply delivered_step.
  - intros Hone. eapply match_inv_update; [by apply Hm|exact Hi|reflexivity|done|].
    cbn [set_field raft]. intros Hl b Hbc Hbt. destruct (Hst Hl) as [Hl' Hle].
    rewrite Hct, Z.max_l in Hbt by lia.
    destruct Hlog as [->|(Hge & _)]; [by eapply (mi_top s (Hm Hone))|].
    destruct Hargs as [Hne Hld _ _ _]. exfalso. apply Hne.
    assert (ae_Term args = currentTerm (raft n)) as Heq by lia. rewrite Heq in Hld.
    eapply one_leader_eq; [exact Hone|exact Hld|]. by apply Hn.
Qed.

(** Peer [i] wins the election of its term. *)
Lemma inv_elected s i n n' :
  inv s -> nodes s !! i = Some n ->
  peers (raft n') = peers (raft n) -> me (raft n') = me (raft n) ->
  log (raft n') = log (raft n) -> currentTerm (raft n') = currentTerm (raft n) ->
  raft_ok (raft n') -> saves (raft n) (raft n') -> pc n' = pc n ->
  tasks n' = tasks n -> applyCh (raft n') = applyCh (raft n) ->
  inv ((set_node s i n') <| elections := elections s ++ [(currentTerm (raft n'), i)] |>).
Proof.
  intros [Hb Hm] Hi Hpe Hme Hl Ht Hok Hsv Hpc Hts Hch. pose proof (bi_nodes s Hb i n Hi) as Hn.
  set (els' := elections s ++ [(currentTerm (raft n'), i)]).
  assert (elections s ⊆ els') as Hsub by set_solver.
  split.
  - eapply base_inv_update; [done|exact Hi|reflexivity|done|done|..];
      cbn [set_field set_node nodes net elections created].
    + destruct Hn. split; rewrite ?Hpe, ?Hme, ?Hl, ?Hts, ?Hch, ?Hpc; try done.
      * by eapply saves_ok.
      * intros _. set_solver.
    + eapply Forall_impl; [apply Hb|]. intros m. by apply msg_ok_mono.
    + eapply Forall_impl; [apply Hb|]. intros b. by apply birth_ok_mono.
  - unfold one_leader_per_term. cbn [set_field set_node elections].
    subst els'. rewrite fmap_app, NoDup_app. intros (Hone & Hnew & _).
    eapply match_inv_update; [by apply Hm|exact Hi|reflexivity|done|].
    intros _ b Hbc Hbt.
    destruct (Forall_forall (birth_ok (elections s)) (created s)) as [Hf _].
    destruct (Hf (bi_births s Hb) b Hbc) as (_ & x & Hx).
    rewrite Hbt in Hx. exfalso. apply (Hnew (currentTerm (raft n'))).
    + apply list_elem_of_fmap. by exists (currentTerm (raft n'), x).
    + by apply list_elem_of_singleton.
Qed.

Lemma handle_vote_reply_inv s i n round args reply s' :
  inv s -> nodes s !! i = Some n ->
  handle_vote_reply s i n round args reply = Some s' -> inv s'.
Proof.
  intros Hinv Hi. unfold handle_vote_reply.
  destruct (rounds n !! round) as [nl|]; [|done]. cbn [mbind option_bind].
  destruct (startRequestVote_reply _ _ _ _) as [rf nl'] eqn:Hr.
  pose proof (bi_nodes s (proj1 Hinv) i n Hi) as Hn.
  pose proof (bi_net s (proj1 Hinv)) as Hnet. pose proof (startRequestVote_reply_saves _ _ _ _ _ _ Hr) as Hsv.
  apply startRequestVote_reply_cases in Hr as [Hq|Hwon].
  - rewrite bool_decide_eq_false_2.
    2:{ intros [Hnl Hl]. apply Hnl, (q_leader _ _ Hq Hl). }
    intros [= <-].
    eapply inv_quiet; [exact Hinv|exact Hi|..|reflexivity|reflexivity|reflexivity|];
      [exact Hq|exact Hsv|done|apply Hn|done].
  - destruct Hwon as (Hc & Hl & _ & _ & _ & _ & Hpe & Hme & Hlog & Ht & _ & _ & _ & _ & Hch & Hok).
    rewrite bool_decide_eq_true_2 by (rewrite Hc; done). intros [= <-].
    apply (inv_elected s i n (mkNode rf (pc n) (tasks n) (<[round := nl']> (rounds n))
      (incarnation n))); try done. by apply Hok, Hn.
Qed.

Lemma deliver_inv s m s' :
  inv s -> msg_ok (elections s) (created s) m -> deliver s m = Some (Ret s') -> inv s'.
Proof.
  intros Hinv Hm. unfold deliver, serve_vote, serve_append, handle_append_reply, msg_ok in *.
  pose proof (bi_net s (proj1 Hinv)) as Hnet.
  destruct (m_body m) as [round args|round args reply|args|args reply].
  - destruct (nodes s !! m_dst m) as [n|] eqn:Hi; [|done]. cbn [mbind option_bind].
    destruct (RequestVote (raft n) args) as [[rf reply]|] eqn:Hr; [|done].
    cbn [mbind outcome_bind]. intros [= <-].
    eapply inv_quiet; [exact Hinv|exact Hi|..|reflexivity|reflexivity|reflexivity|].
    + by eapply RequestVote_quiet.
    + by eapply RequestVote_saves.
    + done.
    + apply (bi_nodes s (proj1 Hinv) _ n Hi).
    + apply Forall_app. split; [done|]. by apply Forall_singleton.
  - destruct (nodes s !! m_src m) as [n|] eqn:Hi; [|done]. cbn [mbind option_bind].
    case_decide; [by intros [= <-]|].
    destruct (handle_vote_reply _ _ _ _ _ _) as [s2|] eqn:Hh; [|done].
    cbn [mbind option_bind]. intros [= <-]. by eapply handle_vote_reply_inv.
  - destruct (nodes s !! m_dst m) as [n|] eqn:Hi; [|done]. cbn [mbind option_bind].
    destruct (AppendEntries (raft n) args) as [[rf reply]|] eqn:Hr; [|done].
    cbn [mbind outcome_bind]. intros [= <-].
    eapply deliver_append_inv; eauto.
    apply Forall_app. split; [done|]. apply Forall_singleton. apply Hm.
  - destruct (nodes s !! m_src m) as [n|] eqn:Hi; [|done]. cbn [mbind option_bind].
    case_decide; [by intros [= <-]|].
    destruct (appendEntries_reply _ _ _ _) as [[rf again]|] eqn:Hr; [|done].
    cbn [mbind outcome_bind]. intros [= <-].
    pose proof (bi_nodes s (proj1 Hinv) _ n Hi) as Hn.
    pose proof (appendEntries_reply_saves _ _ _ _ _ _ Hr) as Hsv.
    apply appendEntries_reply_quiet in Hr; [|apply applied_nonneg, Hn].
    eapply inv_quiet; [exact Hinv|exact Hi|..|reflexivity|reflexivity|reflexivity|done].
    + by destruct again.
    + by destruct again.
    + by destruct again.
    + destruct again; [|apply Hn]. apply Forall_app. split; [apply Hn|].
      apply Forall_singleton. cbn. lia.
Qed.


(** ** The service and the harness *)

(** The entry a leader appends, and where. *)
Definition next_birth (rf : Raft) (command : iface) : Birth :=
  mkBirth (length (log rf)) (mkLogEntry command (currentTerm rf)) (last_term (log rf)).

Lemma next_birth_ok s i n command :
  base_inv s -> nodes s !! i = Some n -> state (raft n) = Leader -> birth_ok (elections s) (next_birth (raft n) command).
Proof.
  intros Hb Hi Hl. pose proof (bi_nodes s Hb i n Hi) as Hn.
  destruct (ro_term _ (no_raft _ _ _ _ _ Hn)) as [_ Nt]. split; [apply Nt; by rewrite Hl|].
  exists i. by apply Hn.
Qed.

(** No entry of the leader's term was appended at or after its end. *)
Lemma start_match s i n command :
  base_inv s -> match_inv s -> nodes s !! i = Some n -> state (raft n) = Leader -> one_leader_per_term s ->
  let rf := persist ((raft n) <| log := log (raft n) ++ [mkLogEntry command (currentTerm (raft n))] |>) in
  match_inv ((set_raft s i n rf) <| created := created s ++ [next_birth (raft n) command] |>).
Proof.
  intros Hb [Hu Ht] Hi Hl Hone rf. pose proof (no_leader _ _ _ _ _ (bi_nodes s Hb i n Hi) Hl) as Hin.
  assert (forall b', b' ∈ created s -> Term (b_entry b') = currentTerm (raft n) ->
    (b_index b' < length (log (raft n)))%nat) as Hold by eauto.
  split; cbn [set_field set_raft set_node nodes created].
  - intros b1 b2 H1 H2 Hix Htm.
    apply elem_of_app in H1 as [H1|H1%list_elem_of_singleton];
      apply elem_of_app in H2 as [H2|H2%list_elem_of_singleton]; [eauto|..]; subst; [..|done].
    + apply Hold in H1; [|done]. cbn in Hix. lia.
    + apply Hold in H2; [|done]. cbn in Hix. lia.
  - intros j x b' Hj Hlx Hb' Htm. apply list_lookup_insert_Some in Hj as [(<- & <- & _)|[Hne Hj]].
    + cbn [set_field raft] in *. unfold rf, persist in *. raft_simpl. revert Htm. raft_simpl. intros Htm.
      rewrite length_app. cbn. apply elem_of_app in Hb' as [Hb'|Hb'%list_elem_of_singleton].
      * apply Hold in Hb'; [|done]. lia.
      * subst b'. cbn. lia.
    + apply elem_of_app in Hb' as [Hb'|Hb'%list_elem_of_singleton]; [eauto|].
      subst b'. exfalso. apply Hne.
      apply (one_leader_eq (elections s) (currentTerm (raft n))); [done|done|].
      cbn in Htm. rewrite Htm. by apply (bi_nodes s Hb j x Hj).
Qed.

Lemma start_leader_inv s i n command :
  inv s -> nodes s !! i = Some n -> state (raft n) = Leader ->
  let l := log (raft n) in
  let e := mkLogEntry command (currentTerm (raft n)) in
  inv ((set_raft s i n (persist ((raft n) <| log := l ++ [e] |>)))
        <| created := created s ++ [mkBirth (length l) e (last_term l)] |>).
Proof.
  intros [Hb Hm] Hi Hl l e. pose proof (bi_nodes s Hb i n Hi) as Hn.
  assert (created s ⊆ created s ++ [next_birth (raft n) command]) as Hsub by set_solver.
  destruct Hn as [Np Nm [Na Nto] Nc Nsv Nbf Nl Nk Nd].
  split; [|intros Hone; by apply start_match; [..|apply Hm|done|done|done]].
  eapply base_inv_update; [done|exact Hi|reflexivity|done|done|..];
    cbn [set_field set_raft set_node nodes net elections created].
  - split; cbn [set_field raft tasks]; unfold persist; raft_simpl; try done.
    + apply chain_snoc. split; [by eapply log_of_mono|].
      cbn. unfold born. apply elem_of_app. right. by apply list_elem_of_singleton.
    + right. by left.
    + by eapply hb_buffer_mono.
    + by eapply delivered_mono.
  - eapply Forall_impl; [apply Hb|]. intros m. by apply msg_ok_mono.
  - apply Forall_app. split; [apply Hb|]. apply Forall_singleton. by eapply next_birth_ok.
Qed.

Context {GTok : GobTypesOk}.

(** What a restarted peer is. *)
Lemma restart_loads N els cr i n :
  node_ok N els cr i n -> persistable (raft n) ->
  let rf := raft n in let rf' := Make (peers rf) (me rf) (restart_persister (persister rf)) in
  loads (log_of cr) (restart_persister (persister rf)) rf' /\ peers rf' = peers rf /\ me rf' = me rf /\
  persister rf' = restart_persister (persister rf).
Proof. intros [] Hp. apply (Make_loads _ (raft n)); try done. apply no_raft0. Qed.

Lemma restart_inv s i n :
  inv s -> nodes s !! i = Some n -> persistable (raft n) ->
  inv (set_node s i (make_node (peers (raft n)) (me (raft n))
    (restart_persister (persister (raft n))) (S (incarnation n)))).
Proof.
  intros [Hb Hm] Hi Hp. pose proof (bi_nodes s Hb i n Hi) as Hn.
  destruct (restart_loads _ _ _ _ _ Hn Hp) as (Hld & Hpe & Hme & Hps). split.
  - eapply base_inv_update; [done|exact Hi|reflexivity|done|done| |apply Hb|apply Hb].
    pose proof (loads_ok _ _ _ Hld) as Hok. pose proof (loads_saved _ _ _ Hps Hld) as Hsv.
    pose proof (ld_state _ _ _ Hld) as Hst. pose proof (ld_applyCh _ _ _ Hld) as Hch.
    pose proof (ld_log _ _ _ Hld) as Hl. destruct Hn.
    split; cbn [make_node raft tasks pc]; try done; try congruence. by rewrite Hch.
  - intros Hone. eapply match_inv_update; [by apply Hm|exact Hi|reflexivity|done|].
    cbn [make_node raft]. by rewrite (ld_state _ _ _ Hld).
Qed.

Lemma exec_inv ev s s' :
  inv s -> bounded s -> exec ev s = Some (Ret s') -> inv s'.
Proof.
  intros Hinv Hbd. pose proof (bi_net s (proj1 Hinv)) as Hnet.
  assert (forall i n, nodes s !! i = Some n ->
    node_ok (length (nodes s)) (elections s) (created s) i n /\
    persistable (raft n) /\ 0 <= currentTerm (raft n) < int_max) as Hnode.
  { intros i n Hi. pose proof (bi_nodes s (proj1 Hinv) i n Hi) as Hn.
    destruct (Forall_lookup_1 _ _ _ _ Hbd Hi) as [Hp Ht].
    split_and!; try done. apply Hn. }
  destruct ev as [i c|i|i c d|i k|k|k|i command|i|i]; cbn [exec].
  4:{ destruct (nodes s !! i) as [n|] eqn:Hi; [|done]. cbn [mbind option_bind].
      destruct (tasks n !! k) as [t|] eqn:Ht; [|done]. cbn [mbind option_bind].
      intros [= Hr]. by eapply run_task_inv. }
  4:{ destruct (net s !! k) as [m|] eqn:Hk; [|done]. cbn [mbind option_bind].
      apply deliver_inv; [by apply inv_net; [|apply net_delete]|].
      by eapply Forall_lookup_1 in Hk. }
  4:{ destruct (net s !! k) as [m|] eqn:Hk; [|done]. cbn [mbind option_bind].
      intros [= <-]. by apply inv_net; [|apply net_delete]. }
  all: destruct (nodes s !! i) as [n|] eqn:Hi; [|done]; cbn [mbind option_bind];
    destruct (Hnode i n Hi) as (Hn & Hp & Ht).
  - destruct (hb_step n c) as [n'|] eqn:Hs; [|done]. cbn [mbind option_bind]. intros [= <-].
    destruct (hb_step_saved (log_of (created s)) n c n' Hp (proj1 Ht) (no_chain _ _ _ _ _ Hn) Hs
      (no_saved _ _ _ _ _ Hn) (no_buffer _ _ _ _ _ Hn)) as [Hsv Hbf].
    eapply inv_quiet_saved; [exact Hinv|exact Hi|..|reflexivity|reflexivity|reflexivity|done].
    + by eapply hb_step_quiet.
    + done.
    + done.
    + eapply hb_step_tasks; [done|apply Hn..].
  - destruct (timer_step n) as [n'|] eqn:Hs; [|done]. cbn [mbind option_bind]. intros [= <-].
    eapply inv_quiet; [exact Hinv|exact Hi|..|reflexivity|reflexivity|reflexivity|done].
    + by eapply timer_step_quiet.
    + by apply timer_step_saves.
    + by apply timer_step_saves.
    + rewrite (timer_step_tasks _ _ Hs). apply Hn.
  - destruct (notify_step n c d) as [n'|] eqn:Hs; [|done]. cbn [mbind option_bind]. intros [= <-].
    eapply inv_quiet; [exact Hinv|exact Hi|..|reflexivity|reflexivity|reflexivity|done].
    + by eapply notify_step_quiet.
    + by eapply notify_step_saves.
    + by eapply notify_step_saves.
    + rewrite (notify_step_tasks _ _ _ _ Hs). apply Hn.
  - unfold Start. destruct (decide (state (raft n) = Leader)) as [Hl|Hl].
    + rewrite bool_decide_eq_true_2 by done. intros [= <-]. by apply start_leader_inv.
    + rewrite bool_decide_eq_false_2 by done. intros [= <-].
      eapply inv_quiet; [exact Hinv|exact Hi|..|reflexivity|reflexivity|reflexivity|done];
        [apply quiet_refl|apply saves_refl|done|apply Hn].
  - intros [= <-].
    eapply inv_quiet; [exact Hinv|exact Hi|..|reflexivity|reflexivity|reflexivity|done];
      [apply Kill_quiet|by apply saves_same|done|apply Hn].
  - intros [= <-]. by apply restart_inv.
Qed.

Lemma init_node n i x :
  nodes (init n) !! i = Some x -> (i < n)%nat /\ x = make_node n (Z.of_nat i) MakePersister 0.
Proof.
  unfold init. cbn [nodes]. rewrite list_lookup_fmap, fmap_Some.
  intros (j & Hj & ->). apply lookup_seq in Hj as [-> Hlt]. done.
Qed.

Lemma init_inv n : inv (init n).
Proof.
  split; [split|split]; try done.
  - intros i x [Hi ->]%init_node. split; try done.
    + unfold init. cbn [nodes]. by rewrite length_map, length_seq.
    + by left.
  - cbn. intros b b' Hb. by apply not_elem_of_nil in Hb.
  - intros i x b _ _ Hb. by apply not_elem_of_nil in Hb.
Qed.

Lemma reachable_inv s : reachable s -> inv s.
Proof.
  induction 1 as [n|s ev s' _ IH Hb Hex]; [apply init_inv|]. by eapply exec_inv.
Qed.

End inv.
