(* ===== verification/Runs.v ===== *)
(** * Concrete runs of a cluster

    Schedules that make a cluster elect a leader and replicate commands, and
    the executable check that a run stays within the bounds of Go's integers,
    from which reachability of its last state follows. *)

From S2P Require Import Prelude Gob PersisterModel RaftState RaftVote RaftAppend RaftNode.
From S2P Require Import RaftInv Cluster.
Open Scope go_scope.

(** ** Deciding the bounds *)

#[export] Instance is_int_dec z : Decision (is_int z).
Proof. unfold is_int. apply _. Defined.

#[export] Instance iface_ok_dec v : Decision (iface_ok v).
Proof. destruct v; unfold iface_ok; apply _. Defined.

#[export] Instance entry_ok_dec e : Decision (entry_ok e).
Proof. unfold entry_ok. apply _. Defined.

#[export] Instance message_fits_dec id body : Decision (message_fits id body).
Proof. unfold message_fits. apply _. Defined.

Section runs.
Context {GT : GobTypes}.

#[export] Instance persistable_dec rf : Decision (persistable rf).
Proof.
  refine (cast_if (decide (is_int (currentTerm rf) /\ is_int (votedFor rf) /\
    is_int (voteGranted rf) /\ is_int (voteNotGranted rf) /\ Forall entry_ok (log rf) /\
    message_fits log_type_id (0 :: enc_log (log rf)))));
    [destruct_and!; by split|intros []; tauto].
Defined.

#[export] Instance bounded_dec s : Decision (bounded s).
Proof. unfold bounded. apply _. Defined.

(** Run [evs] and check the bounds before every event. *)
Fixpoint run_in_bounds (evs : list Event) (s : Cluster) : option Cluster :=
  match evs with
  | [] => Some s
  | ev :: evs =>
      if decide (bounded s) then
        match exec ev s with
        | Some (Ret s) => run_in_bounds evs s
        | _ => None
        end
      else None
  end.

Lemma run_in_bounds_reachable evs s s' :
  reachable s -> run_in_bounds evs s = Some s' -> reachable s'.
Proof.
  revert s. induction evs as [|ev evs IH]; intros s Hs; cbn [run_in_bounds].
  { by intros [= <-]. }
  case_decide as Hb; [|done]. destruct (exec ev s) as [[s1|]|] eqn:Hex; try done.
  apply IH. by eapply reachable_step.
Qed.

(** ** Schedules *)

(** The main loop of peer [i] from its head through the switch: the head, the
    six steps of [persist], the timer and the switch. *)
Definition pass (i : nat) : list Event := replicate 9 (EvHeartBeat i ChNone).

(** Peer [i], at the top of its loop as a follower, times out, becomes a
    candidate and sends its requests for votes. *)
Definition campaign (i : nat) : list Event :=
  pass i ++ [EvTimer i; EvHeartBeat i ChTimer; EvHeartBeat i ChNone] ++ pass i ++ [EvTask i 0].

(** The first message of the network is delivered, and its reply, which is
    the last of [k] messages, next. *)
Definition call (k : nat) : list Event := [EvDeliver 0; EvDeliver (k - 1)].

(** A new leader finds out that it is one and enters its sending loop. *)
Definition lead (i : nat) : list Event :=
  [EvNotify i ChLeader false; EvHeartBeat i ChLeader] ++ pass i ++ [EvHeartBeat i ChNone].

(** In a cluster of three, peer 0 is elected; it sends its log to the others
    and handles their replies; it goes round its sending loop. *)
Definition elect3 : list Event := campaign 0 ++ call 2 ++ call 1 ++ lead 0.
Definition send3 : list Event := [EvTask 0 0; EvTask 0 0] ++ call 2 ++ call 1.
Definition beat3 : list Event := EvHeartBeat 0 ChNone :: send3.

(** Two commands are replicated, committed and delivered everywhere. *)
Definition replicate3 : list Event :=
  elect3 ++ [EvStart 0 (IInt 7); EvStart 0 (IString "b")] ++ send3 ++ beat3.

(** The state after a run from [n] fresh peers; the initial state when the
    run is not possible. *)
Definition state_after (n : nat) (evs : list Event) : Cluster :=
  default (init n) (run_in_bounds evs (init n)).

Lemma state_after_reachable n evs : reachable (state_after n evs).
Proof.
  unfold state_after. destruct (run_in_bounds evs (init n)) as [s|] eqn:Hr; cbn.
  - by eapply run_in_bounds_reachable; [constructor|].
  - constructor.
Qed.

End runs.
