(* ===== verification/ClusterProps.v ===== *)
(** * What every run of a cluster satisfies

    Theorems about every reachable state, or every step out of one, of the
    transition system of Cluster.v: log matching, where the entries of a log
    come from, that only submitted commands are delivered, that deliveries are
    in order, what a restarted peer loads, and that a leader only appends to
    its log. *)

From S2P Require Import Prelude Gob PersisterModel RaftState RaftVote RaftAppend RaftChain.
From S2P Require Import RaftNode RaftInv Cluster ClusterInv Runs.
Open Scope go_scope.

Section cluster_properties.
Context {GT : GobTypes} {GTok : GobTypesOk}.
Implicit Types (s : Cluster).

(** ** How one step changes one peer *)

Inductive node_move s (i : nat) (rf rf' : Raft) : Prop :=
| move_quiet : quiet rf rf' -> node_move s i rf rf'
| move_append src args reply :
    append_ok (elections s) (created s) src i args ->
    AppendEntries rf args = Ret (rf', reply) -> node_move s i rf rf'
| move_elected :
    state rf = Candidate -> state rf' = Leader -> log rf' = log rf ->
    currentTerm rf' = currentTerm rf -> node_move s i rf rf'
| move_start e :
    state rf = Leader -> log rf' = log rf ++ [e] -> currentTerm rf' = currentTerm rf ->
    node_move s i rf rf'
| move_restart : state rf' = Follower -> node_move s i rf rf'.

(** Only peer [j] changed. *)
Lemma move_one s s' j x y i n n' :
  nodes s !! i = Some n -> nodes s' !! i = Some n' ->
  nodes s' = <[j := y]> (nodes s) -> nodes s !! j = Some x ->
  node_move s j (raft x) (raft y) -> node_move s i (raft n) (raft n').
Proof.
  intros Hi Hi' Hs Hj Hm. rewrite Hs in Hi'. apply list_lookup_insert_Some in Hi' as [(-> & -> & _)|[_ Hi']].
  - by simplify_eq.
  - simplify_eq. apply move_quiet, quiet_refl.
Qed.

Lemma run_task_nodes s i n t s' :
  run_task s i n t = Ret s' ->
  exists n', nodes s' = <[i := n']> (nodes s) /\ raft n' = raft n.
Proof.
  destruct t as [|j]; unfold run_task, send_vote_requests, send_append_request; intros Hr.
  - destruct (startRequestVote_args (raft n)) as [[args|]|]; [| |done];
      cbn [mbind outcome_bind] in Hr; injection Hr as <-; by eexists.
  - destruct (appendEntries_args (raft n) j) as [[args|]|]; [| |done];
      cbn [mbind outcome_bind] in Hr; injection Hr as <-; by eexists.
Qed.

Lemma handle_vote_reply_move s i n round args reply s' :
  handle_vote_reply s i n round args reply = Some s' ->
  exists n', nodes s' = <[i := n']> (nodes s) /\ node_move s i (raft n) (raft n').
Proof.
  unfold handle_vote_reply. destruct (rounds n !! round) as [nl|]; [|done]. cbn [mbind option_bind].
  destruct (startRequestVote_reply _ _ _ _) as [rf nl'] eqn:Hr. intros [= <-].
  exists (n <| raft := rf |> <| rounds := <[round := nl']> (rounds n) |>).
  split; [by case_match|]. apply startRequestVote_reply_cases in Hr as [Hq|Hwon].
  - by apply move_quiet.
  - destruct Hwon as (Hc & Hl & _ & _ & _ & _ & _ & _ & Hlog & Ht & _). by apply move_elected.
Qed.

Lemma deliver_move s m s' :
  inv s -> msg_ok (elections s) (created s) m -> deliver s m = Some (Ret s') ->
  nodes s' = nodes s \/
  exists j x y, nodes s !! j = Some x /\ nodes s' = <[j := y]> (nodes s) /\
    node_move s j (raft x) (raft y).
Proof.
  intros Hinv Hm. unfold deliver, serve_vote, serve_append, handle_append_reply, msg_ok in *.
  destruct (m_body m) as [round args|round args reply|args|args reply].
  - destruct (nodes s !! m_dst m) as [n|] eqn:Hi; [|done]. cbn [mbind option_bind].
    destruct (RequestVote (raft n) args) as [[rf reply]|] eqn:Hr; [|done].
    cbn [mbind outcome_bind]. intros [= <-]. right. eexists _, n, _. split; [done|].
    split; [reflexivity|]. apply move_quiet. by eapply RequestVote_quiet.
  - destruct (nodes s !! m_src m) as [n|] eqn:Hi; [|done]. cbn [mbind option_bind].
    case_decide; [intros [= <-]; by left|].
    destruct (handle_vote_reply _ _ _ _ _ _) as [s2|] eqn:Hh; [|done].
    cbn [mbind option_bind]. intros [= <-]. right.
    apply handle_vote_reply_move in Hh as (y & Hy & Hmv). by exists (m_src m), n, y.
  - destruct (nodes s !! m_dst m) as [n|] eqn:Hi; [|done]. cbn [mbind option_bind].
    destruct (AppendEntries (raft n) args) as [[rf reply]|] eqn:Hr; [|done].
    cbn [mbind outcome_bind]. intros [= <-]. right. eexists _, n, _. split; [done|].
    split; [reflexivity|]. by eapply move_append.
  - destruct (nodes s !! m_src m) as [n|] eqn:Hi; [|done]. cbn [mbind option_bind].
    case_decide; [intros [= <-]; by left|].
    destruct (appendEntries_reply _ _ _ _) as [[rf again]|] eqn:Hr; [|done].
    cbn [mbind outcome_bind]. intros [= <-]. right. eexists _, n, _. split; [done|].
    split; [reflexivity|]. apply move_quiet.
    apply appendEntries_reply_quiet in Hr; [by destruct again|].
    apply applied_nonneg, (bi_nodes s (proj1 Hinv) _ n Hi).
Qed.

Lemma exec_move ev s s' i n n' :
  inv s -> bounded s -> exec ev s = Some (Ret s') ->
  nodes s !! i = Some n -> nodes s' !! i = Some n' -> node_move s i (raft n) (raft n').
Proof.
  intros Hinv Hbd Hex Hi Hi'. revert Hex.
  destruct ev as [j c|j|j c d|j k|k|k|j command|j|j]; cbn [exec].
  4:{ destruct (nodes s !! j) as [x|] eqn:Hj; [|done]. cbn [mbind option_bind].
      destruct (tasks x !! k) as [t|]; [|done]. cbn [mbind option_bind]. intros [= Hr].
      apply run_task_nodes in Hr as (y & Hy & Hraft).
      eapply (move_one s s' j x y); [done..|]. rewrite Hraft. apply move_quiet, quiet_refl. }
  4:{ destruct (net s !! k) as [m|] eqn:Hk; [|done]. cbn [mbind option_bind]. intros Hd.
      pose proof (Forall_lookup_1 _ _ _ _ (bi_net s (proj1 Hinv)) Hk) as Hm.
      apply deliver_move in Hd as [Hn|(j & x & y & Hj & Hn & Hmv)]; [..|done].
      - cbn in Hn. rewrite Hn in Hi'. simplify_eq. apply move_quiet, quiet_refl.
      - eapply (move_one s s' j x y); [done|done|exact Hn|exact Hj|].
        destruct Hmv; [by apply move_quiet|by eapply move_append|by apply move_elected|by eapply move_start|by apply move_restart].
      - apply inv_net; [done|]. apply net_delete, (bi_net s (proj1 Hinv)). }
  4:{ destruct (net s !! k) as [m|]; [|done]. cbn [mbind option_bind]. intros [= <-].
      cbn in Hi'. simplify_eq. apply move_quiet, quiet_refl. }
  all: destruct (nodes s !! j) as [x|] eqn:Hj; [|done]; cbn [mbind option_bind];
    pose proof (bi_nodes s (proj1 Hinv) j x Hj) as Hx;
    destruct (Forall_lookup_1 _ _ _ _ Hbd Hj) as [Hp Ht].
  - destruct (hb_step x c) as [y|] eqn:Hs; [|done]. cbn [mbind option_bind]. intros [= <-].
    eapply (move_one s _ j x y i n n' Hi Hi'); [reflexivity|done|]. apply move_quiet.
    eapply hb_step_quiet; [|done]. split; [apply Hx|done].
  - destruct (timer_step x) as [y|] eqn:Hs; [|done]. cbn [mbind option_bind]. intros [= <-].
    eapply (move_one s _ j x y i n n' Hi Hi'); [reflexivity|done|]. by apply move_quiet, timer_step_quiet.
  - destruct (notify_step x c d) as [y|] eqn:Hs; [|done]. cbn [mbind option_bind]. intros [= <-].
    eapply (move_one s _ j x y i n n' Hi Hi'); [reflexivity|done|]. by eapply move_quiet, notify_step_quiet.
  - unfold Start. destruct (decide (state (raft x) = Leader)) as [Hl|Hl].
    + rewrite bool_decide_eq_true_2 by done. intros [= <-].
      eapply (move_one s _ j x _ i n n' Hi Hi'); [reflexivity|done|]. by eapply move_start.
    + rewrite bool_decide_eq_false_2 by done. intros [= <-].
      eapply (move_one s _ j x _ i n n' Hi Hi'); [reflexivity|done|]. apply move_quiet, quiet_refl.
  - intros [= <-]. eapply (move_one s _ j x _ i n n' Hi Hi'); [reflexivity|done|].
    apply move_quiet, Kill_quiet.
  - intros [= <-]. eapply (move_one s _ j x _ i n n' Hi Hi'); [reflexivity|done|].
    apply move_restart. by destruct (restart_loads _ _ _ _ _ Hx Hp) as [[] _].
Qed.

(** ** Logs *)

Lemma born_lookup s i n k e :
  inv s -> nodes s !! i = Some n -> log (raft n) !! k = Some e ->
  mkBirth k e (end_term (-1) (take k (log (raft n)))) ∈ created s.
Proof.
  intros Hinv Hi Hk.
  exact (chain_lookup _ _ _ _ _ _ (no_chain _ _ _ _ _ (bi_nodes s (proj1 Hinv) i n Hi)) Hk).
Qed.


Lemma end_term_take_S p l k f :
  l !! k = Some f -> end_term p (take (S k) l) = Term f.
Proof. intros Hf. rewrite (take_S_r _ _ _ Hf), end_term_app. done. Qed.

Lemma matching_prefix s i j n m k e e' :
  inv s -> match_inv s -> nodes s !! i = Some n -> nodes s !! j = Some m ->
  log (raft n) !! k = Some e -> log (raft m) !! k = Some e' -> Term e = Term e' ->
  take (S k) (log (raft n)) = take (S k) (log (raft m)).
Proof.
  intros Hinv Hm Hi Hj. revert e e'. induction k as [|k IH]; intros e e' He He' Ht;
    pose proof (born_lookup s i n _ _ Hinv Hi He) as Hb;
    pose proof (born_lookup s j m _ _ Hinv Hj He') as Hb';
    pose proof (mi_unique s Hm _ _ Hb Hb' eq_refl Ht) as Heq;
    pose proof (f_equal b_entry Heq) as Hee; pose proof (f_equal b_prev Heq) as Hp;
    cbn [b_entry b_prev] in Hee, Hp; subst e';
    rewrite (take_S_r _ _ _ He), (take_S_r _ _ _ He'); [done|].
  destruct (lookup_lt_is_Some_2 (log (raft n)) k) as [f Hf];
    [apply lookup_lt_Some in He; lia|].
  destruct (lookup_lt_is_Some_2 (log (raft m)) k) as [f' Hf'];
    [apply lookup_lt_Some in He'; lia|].
  rewrite (end_term_take_S _ _ _ _ Hf), (end_term_take_S _ _ _ _ Hf') in Hp.
  by rewrite (IH f f').
Qed.

(** C1: log matching.  In every reachable state in whose history no term had
    two leaders, two logs that hold an entry of the same term at the same
    index are equal up to and including that index. *)
Theorem log_matching s (i j : nat) (n m : Node) (k : nat) (e e' : LogEntry) :
  reachable s -> one_leader_per_term s ->
  nodes s !! i = Some n -> nodes s !! j = Some m ->
  log (raft n) !! k = Some e -> log (raft m) !! k = Some e' -> Term e = Term e' ->
  take (S k) (log (raft n)) = take (S k) (log (raft m)).
Proof.
  intros Hr%reachable_inv Hone. apply matching_prefix; [done|by apply Hr].
Qed.


(** ** Deliveries and crashes *)

(** C8: in every reachable state the service of a peer has received its
    messages in index order from 0 without a gap, as many as the peer counts
    in lastApplied, and each is a command that a leader appended at exactly
    that index. *)
Theorem deliveries_in_order s (i : nat) (n : Node) :
  reachable s -> nodes s !! i = Some n ->
  len (applyCh (raft n)) = lastApplied (raft n) + 1 /\
  forall k m, applyCh (raft n) !! k = Some m ->
    CommandValid m = true /\ CommandIndex m = Z.of_nat k /\
    exists b, b ∈ created s /\ b_index b = k /\ Command (b_entry b) = msg_Command m.
Proof.
  intros Hr%reachable_inv Hi. pose proof (bi_nodes s (proj1 Hr) i n Hi) as Hn.
  destruct (ro_applied _ (no_raft _ _ _ _ _ Hn)) as [Hlen Hk]. split; [done|].
  intros k m Hm. destruct (Hk k m Hm) as [Hv Hidx]. split_and!; try done.
  destruct (Forall_lookup_1 _ _ _ _ (no_applied _ _ _ _ _ Hn) Hm) as (b & Hb & ->).
  exists b. cbn in *. split_and!; [done|lia|done].
Qed.

(** C7: at every point of every run a peer may crash and start again from its
    persister, and what it loads is a whole save: its term, vote, log and vote
    counts are exactly the five values whose encoding the persister holds, or
    those of a fresh peer when nothing was saved; its term is not negative,
    every entry of its log was appended by a leader at its index, and it
    starts as a live follower that has delivered nothing.  (The five values
    need not be current, nor have been current together: see
    [stale_save_loses_entry].) *)
Theorem restart_loads_a_save s (i : nat) (n : Node) :
  reachable s -> bounded s -> nodes s !! i = Some n ->
  exists s' n', exec (EvRestart i) s = Some (Ret s') /\ nodes s' !! i = Some n' /\
    (raftstate (persister (raft n)) = persist_data (raft n') \/
     raftstate (persister (raft n)) = [] /\ currentTerm (raft n') = 0 /\ votedFor (raft n') = -1 /\
       log (raft n') = [] /\ voteGranted (raft n') = 0 /\ voteNotGranted (raft n') = 0) /\
    0 <= currentTerm (raft n') /\
    (forall k e, log (raft n') !! k = Some e -> exists b, b ∈ created s /\ b_index b = k /\ b_entry b = e) /\
    me (raft n') = me (raft n) /\ peers (raft n') = peers (raft n) /\ state (raft n') = Follower /\
    killed (raft n') = false /\ applyCh (raft n') = [] /\ tasks n' = [] /\ pc n' = HbTop.
Proof.
  intros Hr%reachable_inv Hbd Hi. pose proof (bi_nodes s (proj1 Hr) i n Hi) as Hn.
  destruct (Forall_lookup_1 _ _ _ _ Hbd Hi) as [Hp _].
  destruct (restart_loads _ _ _ _ _ Hn Hp) as ([Hd _ Ht Hl Hdead Hst _ _ Hch] & Hpe & Hme & _).
  do 2 eexists. cbn [exec]. rewrite Hi. cbn [mbind option_bind]. split; [reflexivity|].
  cbn [set_node set_field nodes]. rewrite list_lookup_insert_eq by by eapply lookup_lt_Some.
  split; [reflexivity|]. cbn [make_node raft tasks pc]. split_and!; try done.
  - destruct Hd as [Hd|Hd]; [by right|by left].
  - intros k e He. eexists. split; [exact (chain_lookup _ _ _ _ _ _ Hl He)|done].
  - unfold killed. by rewrite Hdead.
Qed.

(** ** Steps *)

(** C9: leader append-only.  In a state in whose history no term had two
    leaders, whatever happens next, a peer that stays leader of its term
    neither drops nor changes an entry of its log. *)
Theorem leader_append_only s s' (ev : Event) (i : nat) (n n' : Node) :
  reachable s -> bounded s -> one_leader_per_term s -> exec ev s = Some (Ret s') ->
  nodes s !! i = Some n -> nodes s' !! i = Some n' ->
  state (raft n) = Leader -> state (raft n') = Leader ->
  log (raft n) `prefix_of` log (raft n') /\ currentTerm (raft n') = currentTerm (raft n).
Proof.
  intros Hr%reachable_inv Hbd Hone Hex Hi Hi' Hl Hl'.
  pose proof (bi_nodes s (proj1 Hr) i n Hi) as Hn.
  destruct (exec_move ev s s' i n n' Hr Hbd Hex Hi Hi')
    as [[_ _ Hlog _ Hlead _ _]|src args reply Hargs Ha|Hc|e _ Hlog Ht|Hf].
  - rewrite Hlog. split; [done|by apply Hlead].
  - apply AppendEntries_cases in Ha as (_ & _ & _ & _ & Ht & Hst & Hlog); [|apply Hn].
    destruct (Hst Hl') as [_ Hle]. split; [|lia].
    destruct Hlog as [->|(Hge & _)]; [done|]. destruct Hargs as [Hne Hld _ _ _].
    exfalso. apply Hne. assert (ae_Term args = currentTerm (raft n)) as Heq by lia.
    rewrite Heq in Hld. eapply one_leader_eq; [exact Hone|exact Hld|]. by apply Hn.
  - by rewrite Hl in Hc.
  - rewrite Hlog. split; [by eexists|done].
  - by rewrite Hl' in Hf.
Qed.

End cluster_properties.

(** ** Witnesses *)

Section witnesses.
#[local] Existing Instance first_types.
#[local] Existing Instance first_types_ok.

(** Three peers after two commands were replicated. *)
Definition s3 : Cluster := state_after 3 replicate3.
Definition node_at (s : Cluster) (i : nat) : Node :=
  default (make_node 0 0 MakePersister 0) (nodes s !! i).

Lemma s3_reachable : reachable s3.
Proof. apply state_after_reachable. Qed.

Lemma s3_one_leader : one_leader_per_term s3.
Proof. apply (bool_decide_unpack _). by vm_compute. Qed.

Lemma s3_bounded : bounded s3.
Proof. apply (bool_decide_unpack _). by vm_compute. Qed.

Lemma s3_node i : (i < 3)%nat -> nodes s3 !! i = Some (node_at s3 i).
Proof. intros Hi. destruct i as [|[|[|i]]]; [vm_compute; reflexivity..|lia]. Qed.

Lemma log_matching_witness :
  take 2 (log (raft (node_at s3 1))) = take 2 (log (raft (node_at s3 2))) /\
  length (log (raft (node_at s3 1))) = 2%nat.
Proof.
  split; [|by vm_compute].
  apply (log_matching s3 1 2 (node_at s3 1) (node_at s3 2) 1
    (mkLogEntry (IString "b") 1) (mkLogEntry (IString "b") 1) s3_reachable s3_one_leader);
    [apply s3_node; lia|apply s3_node; lia|by vm_compute|by vm_compute|reflexivity].
Defined.


Lemma deliveries_in_order_witness :
  len (applyCh (raft (node_at s3 1))) = lastApplied (raft (node_at s3 1)) + 1 /\
  lastApplied (raft (node_at s3 1)) = 1.
Proof.
  split; [|by vm_compute].
  destruct (deliveries_in_order s3 1 (node_at s3 1) s3_reachable) as [Hd _];
    [apply s3_node; lia|exact Hd].
Defined.

Lemma restart_loads_a_save_witness :
  exists s' n', exec (EvRestart 0) s3 = Some (Ret s') /\ nodes s' !! 0%nat = Some n' /\
    raftstate (persister (raft (node_at s3 0))) = persist_data (raft n').
Proof.
  destruct (restart_loads_a_save s3 0 (node_at s3 0) s3_reachable s3_bounded)
    as (s' & n' & Hex & Hn' & [Hd|[Hd _]] & _); [apply s3_node; lia| |vm_compute in Hd; discriminate Hd].
  exists s', n'. split; [exact Hex|]. split; [exact Hn'|exact Hd].
Defined.

(** The leader's next command. *)
Definition s3_start : Cluster := state_after 3 (replicate3 ++ [EvStart 0 (IInt 9)]).

Lemma leader_append_only_witness :
  exec (EvStart 0 (IInt 9)) s3 = Some (Ret s3_start) /\
  log (raft (node_at s3 0)) `prefix_of` log (raft (node_at s3_start 0)) /\
  length (log (raft (node_at s3_start 0))) = 3%nat.
Proof.
  assert (exec (EvStart 0 (IInt 9)) s3 = Some (Ret s3_start)) as Hex by (vm_compute; reflexivity).
  split; [exact Hex|]. split; [|by vm_compute].
  destruct (leader_append_only s3 s3_start (EvStart 0 (IInt 9)) 0 (node_at s3 0) (node_at s3_start 0)
    s3_reachable s3_bounded s3_one_leader Hex) as [Hp _];
    [apply s3_node; lia|vm_compute; reflexivity|vm_compute; reflexivity|vm_compute; reflexivity
    |exact Hp].
Defined.

End witnesses.
