(* ===== verification/Findings.v ===== *)
(** * Runs in which the code breaks a promise of the protocol

    Concrete schedules of Cluster.v, evaluated by the kernel, whose last
    states break election safety, the majority behind a leader, agreement
    between the services, the survival of what a peer acknowledged, and the
    survival of the processes. *)

From S2P Require Import Prelude Gob PersisterModel RaftState RaftVote RaftAppend RaftChain.
From S2P Require Import RaftNode RaftInv Cluster ClusterInv Runs.
Open Scope go_scope.

Section findings.
#[local] Existing Instance first_types.

(** Nothing is lost, killed or restarted. *)
Definition undisturbed (ev : Event) : bool :=
  match ev with EvLose _ | EvKill _ | EvRestart _ => false | _ => true end.

(** Evaluate every part of a conjunction about a concrete run. *)
Ltac by_running :=
  repeat match goal with |- _ /\ _ => split; [vm_compute; reflexivity|] end; vm_compute; reflexivity.

(** ** Two leaders in one term *)

(** Three of five peers campaign in term 1.  Peers 3 and 4 vote for peer 0;
    a request of peer 1, which they refuse, clears their votes; then they
    vote for peer 2. *)
Definition split_vote : list Event :=
  campaign 0 ++ campaign 1 ++ campaign 2 ++
  [EvDeliver 2; EvDeliver 2; EvDeliver 10; EvDeliver 10; EvDeliver 4; EvDeliver 4;
   EvDeliver 6; EvDeliver 6; EvDeliver 8; EvDeliver 8].

(** C24: election safety fails: there is a run of five fresh peers, in which no
    peer crashes or is killed and no message is lost, that ends with two peers
    that are leaders of term 1 at the same time. *)
Theorem two_leaders_in_one_term :
  exists evs s n m, forallb undisturbed evs = true /\ run_in_bounds evs (init 5) = Some s /\
    nodes s !! 0%nat = Some n /\ nodes s !! 2%nat = Some m /\
    state (raft n) = Leader /\ state (raft m) = Leader /\
    currentTerm (raft n) = 1 /\ currentTerm (raft m) = 1 /\ elections s = [(1, 0%nat); (1, 2%nat)].
Proof.
  exists split_vote, (state_after 5 split_vote). do 2 eexists.
  by_running.
Qed.

(** ** A vote that counts twice *)

(** A candidate goes round its loop and sends its requests. *)
Definition ask (i : nat) : list Event := pass i ++ [EvTask i 0].

(** Peer 0 wins term 1 with the votes of peers 1 and 2, but its timer ticks
    before its loop hears of it: it becomes a candidate again, of term 2, and
    asks for votes.  Then the news of the first election reaches the loop,
    which goes round and asks for votes in term 2 a second time.  Peer 1
    grants both requests. *)
Definition asked_twice : list Event :=
  campaign 0 ++ call 4 ++ call 3 ++
  [EvTimer 0; EvHeartBeat 0 ChTimer; EvHeartBeat 0 ChNone] ++ ask 0 ++
  [EvNotify 0 ChLeader false; EvHeartBeat 0 ChLeader] ++ ask 0 ++
  [EvDeliver 2; EvDeliver 9; EvDeliver 5; EvDeliver 8].

(** C25: a candidate can win with the votes of a minority: there is a run of
    five fresh peers, in which no peer crashes or is killed and no message is
    lost, that ends with peer 0 the leader of term 2 with three votes counted,
    although peers 2, 3 and 4 have never reached term 2. *)
Theorem vote_counted_twice :
  exists evs s n0 n1 n2 n3 n4, forallb undisturbed evs = true /\
    run_in_bounds evs (init 5) = Some s /\ one_leader_per_term s /\ nodes s = [n0; n1; n2; n3; n4] /\
    state (raft n0) = Leader /\ currentTerm (raft n0) = 2 /\ voteGranted (raft n0) = 3 /\
    currentTerm (raft n2) = 1 /\ currentTerm (raft n3) = 0 /\ currentTerm (raft n4) = 0.
Proof.
  exists asked_twice, (state_after 5 asked_twice). do 5 eexists.
  split; [vm_compute; reflexivity|]. split; [vm_compute; reflexivity|].
  split; [apply (bool_decide_unpack _); vm_compute; exact I|]. by_running.
Qed.

(** ** A follower that crashes its process *)

(** Peer 0 is elected and appends a command that reaches nobody; peer 1 is
    elected by peer 2 in term 2 and sends its first command to peer 0. *)
Definition conflict_at_zero : list Event :=
  elect3 ++ [EvStart 0 (IString "a")] ++ campaign 1 ++ [EvLose 0] ++ call 1 ++ lead 1 ++
  [EvStart 1 (IString "b"); EvTask 1 0].

(** A cluster of three peers with one leader per term reaches a state in
    which the delivery of an AppendEntries request takes the receiver's
    process down: the first entries of the two logs conflict and the handler
    slices its log at -1 (raft.go:377). *)
Theorem conflicting_first_entry_panics :
  exists s, reachable s /\ bounded s /\ one_leader_per_term s /\
    exec (EvDeliver 0) s = Some (Panic SliceOutOfRange).
Proof.
  exists (state_after 3 conflict_at_zero). split; [apply state_after_reachable|].
  split; [apply (bool_decide_unpack _); vm_compute; exact I|].
  split; [apply (bool_decide_unpack _); vm_compute; exact I|]. vm_compute. reflexivity.
Qed.

(** ** Committed entries that are lost *)

(** All three peers hold and have delivered "a"; leader 0 appends "b", which
    reaches nobody.  Peer 1 is elected in term 2, appends "c" and sends it to
    peer 0, which drops its whole log and reports success. *)
Definition lost_entry : list Event :=
  elect3 ++ [EvStart 0 (IString "a")] ++ send3 ++ beat3 ++ [EvStart 0 (IString "b")] ++
  campaign 1 ++ [EvLose 0] ++ call 1 ++ lead 1 ++ [EvStart 1 (IString "c"); EvTask 1 0] ++ call 1.


(** An entry can be committed and delivered by a leader although no
    other peer holds it, and a peer can lose an entry it has delivered: in a
    run with one leader per term, peer 1 delivers the entry at index 1, no
    other log reaches index 1, and the log of peer 0 is empty although it has
    delivered an entry. *)
Theorem commit_without_replication :
  exists s n0 n1 n2, reachable s /\ one_leader_per_term s /\ nodes s = [n0; n1; n2] /\
    lastApplied (raft n1) = 1 /\ length (log (raft n2)) = 1%nat /\
    log (raft n0) = [] /\ lastApplied (raft n0) = 0.
Proof.
  set (s := state_after 3 lost_entry).
  destruct (nodes s) as [|n0 [|n1 [|n2 [|]]]] eqn:Hn; try (vm_compute in Hn; discriminate Hn).
  exists s, n0, n1, n2. split; [apply state_after_reachable|].
  split; [apply (bool_decide_unpack _); vm_compute; exact I|]. split; [exact Hn|].
  vm_compute in Hn. injection Hn as <- <- <-. repeat split; vm_compute; reflexivity.
Qed.


(** ** A save that is out of date *)

(** Peer 0 is elected.  The main loop of peer 1 enters [persist], which reads
    its fields without the mutex; before it saves them, peer 1 stores the
    leader's first entry, persists and acknowledges it, and the leader commits
    and delivers it.  Then the loop saves what it had read. *)
Definition stale_save : list Event :=
  elect3 ++ replicate 6 (EvHeartBeat 1 ChNone) ++ [EvStart 0 (IString "a"); EvTask 0 0] ++ call 1 ++
  [EvHeartBeat 1 ChNone].

(** Peer 1 crashes and restarts, is elected by peer 2 in term 2 and replicates
    its own first entry to it. *)
Definition after_stale_save : list Event :=
  EvRestart 1 :: campaign 1 ++ [EvDeliver 1; EvDeliver 1] ++ lead 1 ++
  [EvStart 1 (IString "b"); EvTask 1 1; EvDeliver 1; EvDeliver 1].

(** C13: a persist that runs without the mutex loses committed entries.  In a
    run of three peers in which nothing is lost and nobody is killed, peer 1
    stores and acknowledges the entry "a", the leader delivers it to its
    service, and then the main loop of peer 1 saves the state it had read
    before; one restart of peer 1 later its log is empty, and the run goes on
    to a state, still with one leader per term, in which the services of
    peers 0 and 1 have received different commands at index 0. *)
Theorem stale_save_loses_entry :
  exists s s' s'' n0 n1 n1' m0 m1 k,
    forallb undisturbed stale_save = true /\
    run_in_bounds stale_save (init 3) = Some s /\ exec (EvRestart 1) s = Some (Ret s') /\
    forallb undisturbed k = true /\ run_in_bounds k s' = Some s'' /\ one_leader_per_term s'' /\
    nodes s !! 0%nat = Some n0 /\ nodes s !! 1%nat = Some n1 /\ nodes s' !! 1%nat = Some n1' /\
    nodes s'' !! 0%nat = Some m0 /\ nodes s'' !! 1%nat = Some m1 /\
    matchIndex (raft n0) !! 1%nat = Some 0 /\ log (raft n1) = [mkLogEntry (IString "a") 1] /\
    applyCh (raft n0) = [mkApplyMsg true (IString "a") 0] /\ log (raft n1') = [] /\
    applyCh (raft m0) = [mkApplyMsg true (IString "a") 0] /\
    applyCh (raft m1) = [mkApplyMsg true (IString "b") 0].
Proof.
  exists (state_after 3 stale_save), (state_after 3 (stale_save ++ [EvRestart 1])),
    (state_after 3 (stale_save ++ after_stale_save)). do 5 eexists. exists (tail after_stale_save).
  split; [vm_compute; reflexivity|]. split; [vm_compute; reflexivity|].
  split; [vm_compute; reflexivity|]. split; [vm_compute; reflexivity|].
  split; [vm_compute; reflexivity|]. split; [apply (bool_decide_unpack _); vm_compute; exact I|]. by_running.
Qed.

End findings.
