(* ===== verification/ClusterBounds.v ===== *)
(** * Indexes in range over all runs, and the steps that panic

    As long as no term had two leaders, the indexes every leader keeps and
    the requests it sent for its term lie within its log; in a cluster of
    three or more peers one kind of step takes a process down. *)

From S2P Require Import Prelude Gob PersisterModel RaftState RaftVote RaftAppend RaftChain.
From S2P Require Import RaftNode RaftInv LeaderIndexes Cluster ClusterInv Runs ClusterProps Findings.
Open Scope go_scope.

Section bounds.
Context {GT : GobTypes}.
Implicit Types (s : Cluster) (n : Node) (els : list (Z * nat)).

Definition task_in (N : nat) (t : Task) : Prop :=
  match t with
  | TStartRequestVote => True
  | TAppendEntries j => 0 <= j < Z.of_nat N
  end.

Record idx_node (N : nat) n : Prop := {
  in_idx : idx_ok (raft n);
  in_tasks : Forall (task_in N) (tasks n);
}.

(** A request of peer [src] to peer [dst]: it was sent as a leader, and while
    [src] still leads that term it lies within the log of [src]. *)
Record request_idx s (src dst : nat) (args : AppendEntriesArgs) : Prop := {
  rq_dst : (dst < length (nodes s))%nat;
  rq_leader : (ae_Term args, src) ∈ elections s;
  rq_prev : -1 <= PrevLogIndex args;
  rq_in_log : forall n, nodes s !! src = Some n -> state (raft n) = Leader ->
    currentTerm (raft n) = ae_Term args -> in_log (raft n) args;
}.

Definition idx_msg s (m : Msg) : Prop :=
  match m_body m with
  | AppendReq args => request_idx s (m_src m) (m_dst m) args
  | AppendRep args reply =>
      request_idx s (m_src m) (m_dst m) args /\ ConflictIndex reply <= Z.max 0 (PrevLogIndex args)
  | _ => True
  end.

Record index_inv s : Prop := {
  xi_nodes : forall i n, nodes s !! i = Some n -> idx_node (length (nodes s)) n;
  xi_net : forall m, m ∈ net s -> idx_msg s m;
}.

(** ** One peer changes *)

(** The peer keeps its log while it leads, or it leads a term nobody led. *)
Definition log_kept els (rf rf' : Raft) : Prop :=
  state rf' = Leader ->
  state rf = Leader /\ currentTerm rf' = currentTerm rf /\ len (log rf) <= len (log rf') \/
  forall a, (currentTerm rf', a) ∉ els.

Lemma index_frame_kept els rf rf' : index_frame rf rf' -> log_kept els rf rf'.
Proof. intros [_ Hf] Hl. left. destruct (Hf Hl) as (? & _ & ? & _ & _ & ?). done. Qed.

Lemma request_idx_step s s' i n n' src dst args :
  nodes s !! i = Some n -> nodes s' = <[i := n']> (nodes s) -> elections s ⊆ elections s' ->
  log_kept (elections s) (raft n) (raft n') ->
  request_idx s src dst args -> request_idx s' src dst args.
Proof.
  intros Hi Hs He Hk [R1 R2 R3 R4]. split; [by rewrite Hs, length_insert|auto|done|].
  intros x. rewrite Hs. intros [(<- & <- & _)|[_ Hx]]%list_lookup_insert_Some Hl Ht; [|by eapply R4].
  destruct (Hk Hl) as [(Hl' & Ht' & Hlen)|Hno].
  - destruct (R4 n Hi Hl') as [I1 I2]; [congruence|]. split; [done|lia].
  - rewrite Ht in Hno. by destruct (Hno i).
Qed.

Lemma index_update s s' i n n' :
  index_inv s -> nodes s !! i = Some n -> nodes s' = <[i := n']> (nodes s) ->
  elections s ⊆ elections s' -> idx_node (length (nodes s)) n' ->
  log_kept (elections s) (raft n) (raft n') ->
  (forall m, m ∈ net s' -> m ∈ net s \/ idx_msg s' m) ->
  index_inv s'.
Proof.
  intros [X1 X2] Hi Hs He Hn' Hk Hm. split.
  - rewrite Hs, length_insert. intros x y [(<- & <- & _)|[_ Hx]]%list_lookup_insert_Some; [done|by eapply X1].
  - intros m [Hold|Hnew]%Hm; [|done]. specialize (X2 m Hold). unfold idx_msg in *.
    destruct (m_body m); try done; [|destruct X2 as [X2 ?]; split; [|done]];
      by eapply request_idx_step.
Qed.

(** The other fields of the node or the messages changed too. *)
Lemma index_update_frame s s' i n n' :
  index_inv s -> nodes s !! i = Some n -> nodes s' = <[i := n']> (nodes s) ->
  elections s' = elections s -> index_frame (raft n) (raft n') ->
  Forall (task_in (length (nodes s))) (tasks n') ->
  (forall m, m ∈ net s' -> m ∈ net s \/ idx_msg s' m) -> index_inv s'.
Proof.
  intros Hx Hi Hs He Hf Ht Hm. eapply index_update; [done|done|done|by rewrite He| |by apply index_frame_kept|done].
  split; [|done]. eapply idx_ok_frame; [done|]. by apply (xi_nodes s Hx i n Hi).
Qed.

Lemma index_net s ms : index_inv s -> ms ⊆ net s -> index_inv (s <| net := ms |>).
Proof.
  intros [X1 X2] Hms. split; [done|]. intros m Hm. specialize (X2 m (Hms m Hm)). unfold idx_msg in *.
  destruct (m_body m) as [| |a|a r]; try done; [destruct X2|destruct X2 as [[] ?]; split; [|done]]; by split.
Qed.

Lemma other_peers_in rf : Forall (fun j => 0 <= j < Z.of_nat (peers rf)) (other_peers rf).
Proof.
  apply Forall_forall. intros j. unfold other_peers. rewrite list_elem_of_filter, elem_of_seqZ. lia.
Qed.

Lemma hb_step_tasks_in N n c n' :
  hb_step n c = Some n' -> peers (raft n) = N -> Forall (task_in N) (tasks n) -> Forall (task_in N) (tasks n').
Proof.
  intros Hs <- Ht. destruct (hb_step_tasks_cases n c n' Hs) as [->|[->| ->]]; [done|..];
    apply Forall_app; (split; [done|]); [by repeat constructor|]. apply Forall_map, other_peers_in.
Qed.

Lemma tasks_in_delete N (ts : list Task) k : Forall (task_in N) ts -> Forall (task_in N) (delete k ts).
Proof. rewrite delete_take_drop. intros Hf. apply Forall_app; auto using Forall_take, Forall_drop. Qed.

(** ** The goroutines that send *)

Lemma startRequestVote_args_total rf : exists o, startRequestVote_args rf = Ret o.
Proof.
  unfold startRequestVote_args. case_decide; [by eexists|]. cbv zeta.
  destruct (Z.leb_spec 0 (len (log rf) - 1)); [|by eexists].
  destruct (go_index_in (log rf) (len (log rf) - 1)) as [e ->]; [lia|by eexists].
Qed.

Lemma vote_requests_idx s n i r args m : m ∈ vote_requests n i r args -> idx_msg s m.
Proof. unfold vote_requests. by intros (j & -> & _)%list_elem_of_fmap. Qed.

Lemma run_task_index s i n k t :
  inv s -> index_inv s -> nodes s !! i = Some n -> tasks n !! k = Some t ->
  exists s', run_task s i (n <| tasks := delete k (tasks n) |>) t = Ret s' /\ index_inv s'.
Proof.
  intros Hinv Hx Hi Ht. pose proof (bi_nodes s (proj1 Hinv) i n Hi) as Hn.
  destruct (xi_nodes s Hx i n Hi) as [Hix Htasks].
  pose proof (tasks_in_delete _ _ k Htasks) as Hdel.
  pose proof (Forall_lookup_1 _ _ _ _ Htasks Ht) as Hin.
  destruct t as [|j]; unfold run_task, send_vote_requests, send_append_request; cbn [set_field raft tasks].
  - destruct (startRequestVote_args_total (raft n)) as [[args|] ->]; cbn [mbind outcome_bind];
      (eexists; split; [reflexivity|]);
      (eapply index_update_frame; [exact Hx|exact Hi|reflexivity|reflexivity|apply index_frame_refl|exact Hdel|]).
    + intros m [Hm|Hm]%elem_of_app; [by left|right]. by eapply vote_requests_idx.
    + by left.
  - cbn in Hin. rewrite <- (no_peers _ _ _ _ _ Hn) in Hin.
    destruct (appendEntries_args_in_log (raft n) j Hix Hin) as (o & -> & Ho). cbn [mbind outcome_bind].
    destruct o as [args|]; (eexists; split; [reflexivity|]);
      (eapply index_update_frame; [exact Hx|exact Hi|reflexivity|reflexivity|apply index_frame_refl|exact Hdel|]).
    2:{ by left. }
    intros m [Hm|Hm%list_elem_of_singleton]%elem_of_app; [by left|right]. subst m.
    destruct (Ho args eq_refl) as (Hl & Hterm & Hlog). unfold idx_msg. cbn [m_body m_src m_dst].
    split; cbn [set_field set_node nodes elections].
    + rewrite length_insert, <- (no_peers _ _ _ _ _ Hn). lia.
    + rewrite Hterm. by apply Hn.
    + apply Hlog.
    + intros x [(_ & <- & _)|[? _]]%list_lookup_insert_Some; [|done]. done.
Qed.

(** ** Deliveries *)

Lemma handle_vote_reply_index s i n round args reply s' :
  inv s -> index_inv s -> one_leader_per_term s' -> nodes s !! i = Some n ->
  handle_vote_reply s i n round args reply = Some s' -> index_inv s'.
Proof.
  intros Hinv Hx Hone Hi. unfold handle_vote_reply.
  destruct (rounds n !! round) as [nl|]; [|done]. cbn [mbind option_bind].
  destruct (startRequestVote_reply _ _ _ _) as [rf nl'] eqn:Hr. intros [= Hs].
  destruct (xi_nodes s Hx i n Hi) as [Hix Ht].
  destruct (startRequestVote_reply_frame _ _ _ _ _ _ Hr) as [Hf|(Hc & Hst & Hl & Hli)].
  - eapply (index_update_frame s s' i n); [done|done|by subst s'; case_match| |exact Hf|exact Ht|].
    + subst s'. rewrite bool_decide_eq_false_2; [done|]. intros [Hnl Hl].
      by destruct (if_leader _ _ Hf Hl).
    + subst s'. intros m Hm. left. by case_match.
  - rewrite bool_decide_eq_true_2 in Hs by (by rewrite Hst). subst s'.
    eapply (index_update s _ i n); [done|done|reflexivity|cbn; set_solver| | |by left].
    + split; [|exact Ht]. cbn. split; [|done]. rewrite Hc. apply Hix.
    + intros _. right. intros a Ha. unfold one_leader_per_term in Hone.
      cbn [set_field set_node elections] in Hone. rewrite fmap_app, NoDup_app in Hone.
      destruct Hone as (_ & Hnew & _). apply (Hnew (currentTerm rf)).
      * apply list_elem_of_fmap. by exists (currentTerm rf, a).
      * by apply list_elem_of_singleton.
Qed.

Lemma serve_append_index s m n args s' :
  inv s -> index_inv s -> one_leader_per_term s -> nodes s !! m_dst m = Some n ->
  append_ok (elections s) (created s) (m_src m) (m_dst m) args -> request_idx s (m_src m) (m_dst m) args ->
  serve_append s m n args = Ret s' -> index_inv s'.
Proof.
  intros Hinv Hx Hone Hi Hok Hrq. unfold serve_append.
  destruct (AppendEntries (raft n) args) as [[rf reply]|] eqn:Hr; [|done].
  cbn [mbind outcome_bind]. intros [= <-].
  pose proof (bi_nodes s (proj1 Hinv) _ n Hi) as Hn.
  assert (index_frame (raft n) rf) as Hf.
  { eapply AppendEntries_frame; [apply applied_nonneg, Hn|exact Hr|]. intros Hl Ht.
    apply (ao_other _ _ _ _ _ Hok). eapply one_leader_eq; [exact Hone|apply Hrq|]. rewrite Ht. by apply Hn. }
  eapply index_update_frame; [exact Hx|exact Hi|reflexivity|reflexivity|exact Hf|apply (xi_nodes s Hx _ _ Hi)|].
  intros x [Hm|Hm%list_elem_of_singleton]%elem_of_app; [by left|right]. subst x.
  unfold idx_msg. cbn [m_body m_src m_dst]. split; [|by eapply AppendEntries_conflict_index; [apply Hrq|]].
  eapply request_idx_step; [exact Hi|reflexivity|done|by apply index_frame_kept|done].
Qed.

Lemma handle_append_reply_index s i n (j : nat) args reply :
  inv s -> index_inv s -> (3 <= length (nodes s))%nat -> nodes s !! i = Some n ->
  request_idx s i j args -> ConflictIndex reply <= Z.max 0 (PrevLogIndex args) ->
  exists s', handle_append_reply s i n (Z.of_nat j) args reply = Ret s' /\ index_inv s'.
Proof.
  intros Hinv Hx H3 Hi Hrq Hci. pose proof (bi_nodes s (proj1 Hinv) i n Hi) as Hn.
  destruct (xi_nodes s Hx i n Hi) as [Hix Ht].
  pose proof (no_peers _ _ _ _ _ Hn) as Hp. pose proof (lookup_lt_Some _ _ _ Hi) as Hlt.
  destruct (appendEntries_reply_total (raft n) (Z.of_nat j) args reply) as (rf & again & Hr & Hix').
  - apply Hn.
  - done.
  - by rewrite Hp.
  - rewrite Hp, (no_me _ _ _ _ _ Hn). lia.
  - rewrite Hp. pose proof (rq_dst _ _ _ _ Hrq). lia.
  - intros Hl Hterm. pose proof (rq_in_log _ _ _ _ Hrq n Hi Hl Hterm) as Hin. split; [done|].
    intros _. destruct Hin as [I1 I2]. pose proof (len_nonneg (Entries args)). pose proof (len_nonneg (log (raft n))). lia.
  - unfold handle_append_reply. rewrite Hr. cbn [mbind outcome_bind]. eexists. split; [reflexivity|].
    pose proof (appendEntries_reply_quiet _ _ _ _ _ _ (applied_nonneg _ (ro_applied _ (no_raft _ _ _ _ _ Hn))) Hr) as Hq.
    eapply (index_update s _ i n); [exact Hx|exact Hi|reflexivity|done| | |by left].
    + split; [by destruct again|]. destruct again; [|exact Ht]. apply Forall_app. split; [exact Ht|].
      apply Forall_singleton. cbn. pose proof (rq_dst _ _ _ _ Hrq). lia.
    + intros Hl. left. assert (state rf = Leader) as Hl' by (by destruct again).
      destruct (q_leader _ _ Hq Hl') as [? ?]. pose proof (q_log _ _ Hq) as Hlog.
      destruct again; cbn [set_field raft]; rewrite Hlog; split_and!; done || lia.
Qed.

(** ** One step *)

(** The history of elections grows and no peer comes or goes. *)
Record grows s s' : Prop := {
  gr_length : length (nodes s') = length (nodes s);
  gr_elections : elections s `prefix_of` elections s';
}.

Lemma grows_set s s' i n :
  nodes s' = <[i := n]> (nodes s) -> elections s `prefix_of` elections s' -> grows s s'.
Proof. intros Hs He. split; [by rewrite Hs, length_insert|done]. Qed.

Lemma run_task_grows s i n t s' : run_task s i n t = Ret s' -> grows s s'.
Proof.
  unfold run_task, send_vote_requests, send_append_request.
  destruct t as [|j]; intros (o & _ & Hs)%bind_Ret; destruct o; injection Hs as <-;
    by eapply grows_set.
Qed.

Lemma deliver_grows s m s' : deliver s m = Some (Ret s') -> grows s s'.
Proof.
  unfold deliver, serve_vote, serve_append, handle_append_reply, handle_vote_reply.
  destruct (m_body m) as [r a|r a rep|a|a rep]; destruct (nodes s !! _) as [n|]; try done;
    cbn [mbind option_bind].
  - intros [= ([rf reply] & _ & [= <-])%bind_Ret]. by eapply grows_set.
  - case_decide; [by intros [= <-]|]. destruct (rounds n !! r) as [nl|]; [|done]. cbn [mbind option_bind].
    destruct (startRequestVote_reply _ _ _ _) as [rf nl']. case_match; intros [= <-];
      (eapply grows_set; [reflexivity|]); [by eexists|done].
  - intros [= ([rf reply] & _ & [= <-])%bind_Ret]. by eapply grows_set.
  - case_decide; [by intros [= <-]|]. intros [= ([rf again] & _ & [= <-])%bind_Ret]. by eapply grows_set.
Qed.

Lemma exec_grows ev s s' : exec ev s = Some (Ret s') -> grows s s'.
Proof.
  destruct ev as [i c|i|i c d|i k|k|k|i command|i|i]; cbn [exec].
  4:{ destruct (nodes s !! i) as [n|]; [|done]. cbn [mbind option_bind].
      destruct (tasks n !! k); [|done]. intros [= Hr]. by eapply run_task_grows. }
  4:{ destruct (net s !! k) as [m|]; [|done]. cbn [mbind option_bind]. intros [G1 G2]%deliver_grows. by split. }
  4:{ destruct (net s !! k); [|done]. by intros [= <-]. }
  all: destruct (nodes s !! i) as [n|]; [|done]; cbn [mbind option_bind].
  - destruct (hb_step n c); [|done]. intros [= <-]. by eapply grows_set.
  - destruct (timer_step n); [|done]. intros [= <-]. by eapply grows_set.
  - destruct (notify_step n c d); [|done]. intros [= <-]. by eapply grows_set.
  - destruct (Start (raft n) command) as [rf [[x t] l]]. intros [= <-].
    destruct l; by eapply grows_set.
  - intros [= <-]. by eapply grows_set.
  - intros [= <-]. by eapply grows_set.
Qed.

Lemma grows_one_leader s s' : grows s s' -> one_leader_per_term s' -> one_leader_per_term s.
Proof.
  intros [_ [l Hl]]. unfold one_leader_per_term. rewrite Hl, fmap_app, NoDup_app. tauto.
Qed.

(** The request that takes its receiver down. *)
Definition fatal_request s (m : Msg) : Prop :=
  exists args n, m_body m = AppendReq args /\ nodes s !! m_dst m = Some n /\
    currentTerm (raft n) <= ae_Term args /\ PrevLogIndex args = -1 /\
    first_conflict (log (raft n)) (Entries args) = Some O.

Lemma serve_append_panics s m n args f :
  raft_ok (raft n) -> -1 <= PrevLogIndex args ->
  serve_append s m n args = Panic f <->
  f = SliceOutOfRange /\ currentTerm (raft n) <= ae_Term args /\ PrevLogIndex args = -1 /\
  first_conflict (log (raft n)) (Entries args) = Some O.
Proof.
  intros Hok Hp.
  pose proof (AppendEntries_panics (raft n) args f (applied_nonneg _ (ro_applied _ Hok))) as Hiff.
  unfold serve_append. destruct (AppendEntries (raft n) args) as [[rf reply]|g]; cbn [mbind outcome_bind].
  - split; [done|]. intros (-> & H1 & H2 & H3). assert (Ret (rf, reply) = Panic SliceOutOfRange) as [=].
    apply Hiff. split; [done|]. by right.
  - assert (Panic g = Panic f :> outcome Cluster <-> Panic g = Panic f :> outcome (Raft * AppendEntriesReply)) as ->.
    { split; intros [= ->]; done. }
    rewrite Hiff. intuition lia.
Qed.

Lemma deliver_index s m o :
  inv s -> index_inv s -> one_leader_per_term s -> (3 <= length (nodes s))%nat ->
  msg_ok (elections s) (created s) m -> idx_msg s m -> deliver s m = Some o ->
  match o with
  | Ret s' => one_leader_per_term s' -> index_inv s'
  | Panic f => f = SliceOutOfRange /\ fatal_request s m
  end.
Proof.
  intros Hinv Hx Hone H3 Hm Hi. unfold deliver, msg_ok, idx_msg, fatal_request in *.
  destruct (m_body m) as [r a|r a rep|a|a rep]; destruct (nodes s !! _) as [n|] eqn:Hn; try done;
    cbn [mbind option_bind].
  - intros [= <-]. unfold serve_vote. destruct (RequestVote (raft n) a) as [[rf reply]|g] eqn:Hr.
    + cbn [mbind outcome_bind]. intros _.
      eapply index_update_frame; [exact Hx|exact Hn|reflexivity|reflexivity|by eapply RequestVote_frame
        |apply (xi_nodes s Hx _ _ Hn)|].
      intros x [Hold|Hnew%list_elem_of_singleton]%elem_of_app; [by left|right]. by subst x.
    + exfalso. revert Hr. unfold RequestVote. cbv zeta.
      match goal with |- context [RequestVote_newer ?l a] => destruct (RequestVote_newer_returns l a) as [b ->] end.
      cbn [mbind outcome_bind]. by repeat case_match.
  - case_decide; [by intros [= <-]|].
    destruct (handle_vote_reply _ _ _ _ _ _) as [s2|] eqn:Hh; [|done].
    cbn [mbind option_bind]. intros [= <-] Hone'. by eapply handle_vote_reply_index.
  - intros [= <-]. pose proof (bi_nodes s (proj1 Hinv) _ n Hn) as Hnode.
    destruct (serve_append s m n a) as [s'|f] eqn:Hs.
    + intros _. by eapply serve_append_index.
    + apply serve_append_panics in Hs as (-> & ? & ? & ?); [|apply Hnode|apply Hi].
      split; [done|]. by exists a, n.
  - case_decide; [by intros [= <-]|]. intros [= <-]. destruct Hi as [Hrq Hci].
    destruct (handle_append_reply_index s _ n _ a rep Hinv Hx H3 Hn Hrq Hci) as (s' & -> & ?). done.
Qed.

Lemma readPersist_index rf data :
  committedIndex (readPersist rf data) = committedIndex rf /\ state (readPersist rf data) = state rf.
Proof.
  unfold readPersist. destruct (gob_decode_int data) as [v1 d1].
  destruct (gob_decode_int d1) as [v2 d2]. destruct (gob_decode_log d2) as [v3 d3].
  destruct (gob_decode_int d3) as [v4 d4]. by destruct (gob_decode_int d4) as [v5 d5].
Qed.

Lemma restart_index_frame rf : index_frame rf (Make (peers rf) (me rf) (restart_persister (persister rf))).
Proof.
  unfold Make. set (rf0 := {| peers := _ |}).
  destruct (readPersist_index rf0 (ReadRaftState (restart_persister (persister rf)))) as [Hc Hs].
  split; [by rewrite Hc|by rewrite Hs].
Qed.

Lemma elem_of_delete {A} (l : list A) k x : x ∈ delete k l -> x ∈ l.
Proof.
  rewrite delete_take_drop. rewrite <- (take_drop k l) at 3.
  rewrite !elem_of_app. intros [?|Hx]; [by left|right].
  apply list_elem_of_lookup in Hx as [j Hj]. rewrite lookup_drop in Hj.
  apply list_elem_of_lookup. exists (S j). rewrite lookup_drop. by rewrite <- Hj, Nat.add_succ_r.
Qed.

Lemma exec_index ev s o :
  inv s -> index_inv s -> one_leader_per_term s -> (3 <= length (nodes s))%nat -> exec ev s = Some o ->
  match o with
  | Ret s' => one_leader_per_term s' -> index_inv s'
  | Panic f => f = SliceOutOfRange /\
      exists k m, ev = EvDeliver k /\ net s !! k = Some m /\ fatal_request s m
  end.
Proof.
  intros Hinv Hx Hone H3.
  destruct ev as [i c|i|i c d|i k|k|k|i command|i|i]; cbn [exec].
  4:{ destruct (nodes s !! i) as [n|] eqn:Hi; [|done]. cbn [mbind option_bind].
      destruct (tasks n !! k) as [t|] eqn:Ht; [|done]. intros [= Ho].
      destruct (run_task_index s i n k t Hinv Hx Hi Ht) as (s' & Hr & Hx').
      assert (o = Ret s') as -> by (rewrite <- Ho; exact Hr). done. }
  4:{ destruct (net s !! k) as [m|] eqn:Hk; [|done]. cbn [mbind option_bind]. intros Hd.
      pose proof (Forall_lookup_1 _ _ _ _ (bi_net s (proj1 Hinv)) Hk) as Hm.
      pose proof (xi_net s Hx m (list_elem_of_lookup_2 _ _ _ Hk)) as Hmi.
      apply deliver_index in Hd; [| |apply index_net; [done|]| | |exact Hm|].
      - destruct o; [done|]. destruct Hd as [-> Hf]. split; [done|]. by exists k, m.
      - apply inv_net; [done|]. apply net_delete, (bi_net s (proj1 Hinv)).
      - intros x. apply elem_of_delete.
      - done.
      - done.
      - unfold idx_msg in *. destruct (m_body m) as [| |a|a r]; try done;
          [destruct Hmi|destruct Hmi as [[] ?]; split; [|done]]; by split. }
  4:{ destruct (net s !! k) as [m|] eqn:Hk; [|done]. cbn [mbind option_bind]. intros [= <-] _.
      apply index_net; [done|]. intros x. apply elem_of_delete. }
  all: destruct (nodes s !! i) as [n|] eqn:Hi; [|done]; cbn [mbind option_bind];
    pose proof (bi_nodes s (proj1 Hinv) i n Hi) as Hn; destruct (xi_nodes s Hx i n Hi) as [Hix Ht].
  - destruct (hb_step n c) as [n'|] eqn:Hs; [|done]. intros [= <-] _.
    eapply index_update_frame; [exact Hx|exact Hi|reflexivity|reflexivity|by eapply hb_step_frame| |by left].
    eapply hb_step_tasks_in; [exact Hs|apply Hn|done].
  - destruct (timer_step n) as [n'|] eqn:Hs; [|done]. intros [= <-] _.
    eapply index_update_frame; [exact Hx|exact Hi|reflexivity|reflexivity|by eapply timer_step_frame| |by left].
    by rewrite (timer_step_tasks _ _ Hs).
  - destruct (notify_step n c d) as [n'|] eqn:Hs; [|done]. intros [= <-] _.
    eapply index_update_frame; [exact Hx|exact Hi|reflexivity|reflexivity|by eapply notify_step_frame| |by left].
    by rewrite (notify_step_tasks _ _ _ _ Hs).
  - pose proof (Start_frame (raft n) command) as Hf.
    destruct (Start (raft n) command) as [rf [[x t] l]]. intros [= <-] _.
    destruct l; (eapply index_update_frame; [exact Hx|exact Hi|reflexivity|reflexivity|exact Hf|exact Ht|by left]).
  - intros [= <-] _.
    eapply index_update_frame; [exact Hx|exact Hi|reflexivity|reflexivity|by apply index_frame_same|exact Ht|by left].
  - intros [= <-] _.
    eapply index_update_frame; [exact Hx|exact Hi|reflexivity|reflexivity|apply restart_index_frame| |by left].
    constructor.
Qed.

Lemma init_index N : index_inv (init N).
Proof.
  split; [|intros m Hm; by apply not_elem_of_nil in Hm].
  intros i n [_ ->]%init_node. split; [|constructor]. split; done.
Qed.

Context {GTok : GobTypesOk}.

Lemma reachable_index s :
  reachable s -> one_leader_per_term s -> (3 <= length (nodes s))%nat -> index_inv s.
Proof.
  induction 1 as [N|s ev s' Hr IH Hb Hex]; intros Hone H3; [apply init_index|].
  pose proof (exec_grows _ _ _ Hex) as Hg. pose proof (grows_one_leader _ _ Hg Hone) as Hone'.
  rewrite (gr_length _ _ Hg) in H3.
  exact (exec_index ev s (Ret s') (reachable_inv _ Hr) (IH Hone' H3) Hone' H3 Hex Hone).
Qed.

(** C2: which steps take a process down, as long as no RequestVote handler
    overlaps with another goroutine of its peer (each delivery of a
    RequestVote is one event here; the handler takes no mutex, and what
    overlapping handlers do, an index out of range included, is in
    RaftVoteRace.v).  In a reachable state of three or more peers in whose
    history no term had two leaders, an event panics exactly when it delivers
    an AppendEntries request of a current term that starts at the beginning
    of the log and whose first entry conflicts with the receiver's first one;
    in such runs no other index or slice expression of any handler or
    goroutine is ever out of range. *)
Theorem only_fatal_requests_panic s (ev : Event) (f : fault) :
  reachable s -> one_leader_per_term s -> (3 <= length (nodes s))%nat ->
  exec ev s = Some (Panic f) <->
  f = SliceOutOfRange /\ exists k m, ev = EvDeliver k /\ net s !! k = Some m /\ fatal_request s m.
Proof.
  intros Hr Hone H3. pose proof (reachable_inv _ Hr) as Hinv. pose proof (reachable_index s Hr Hone H3) as Hx.
  split.
  - intros Hex. exact (exec_index ev s (Panic f) Hinv Hx Hone H3 Hex).
  - intros (-> & k & m & -> & Hk & args & n & Hb & Hn & Hfatal). cbn [exec]. rewrite Hk.
    cbn [mbind option_bind]. unfold deliver. rewrite Hb. change (nodes (s <| net := _ |>)) with (nodes s).
    rewrite Hn. cbn [mbind option_bind]. f_equal. apply serve_append_panics; [|lia|done].
    apply (bi_nodes s (proj1 Hinv) _ n Hn).
Qed.

(** C10: the arrays of a leader.  In a reachable state of three or more peers
    in whose history no term had two leaders, every leader has one nextIndex
    and one matchIndex for each peer, every nextIndex is between 0 and the
    length of its log, and every matchIndex is an index of its log or -1 or
    less. *)
Theorem leader_indexes_in_range s (i : nat) n :
  reachable s -> one_leader_per_term s -> (3 <= length (nodes s))%nat -> nodes s !! i = Some n ->
  state (raft n) = Leader ->
  length (nextIndex (raft n)) = length (nodes s) /\ length (matchIndex (raft n)) = length (nodes s) /\
  Forall (fun x => 0 <= x <= len (log (raft n))) (nextIndex (raft n)) /\
  Forall (fun x => x < len (log (raft n))) (matchIndex (raft n)).
Proof.
  intros Hr Hone H3 Hi Hl.
  destruct (xi_nodes s (reachable_index s Hr Hone H3) i n Hi) as [[_ Hli] _].
  destruct (Hli Hl) as [L1 L2 L3 L4].
  rewrite <- (no_peers _ _ _ _ _ (bi_nodes s (proj1 (reachable_inv _ Hr)) i n Hi)). done.
Qed.

End bounds.

(** ** Witnesses *)

Section witnesses.
#[local] Existing Instance first_types.
#[local] Existing Instance first_types_ok.

(** The state in which peer 1, leader of term 2, has sent its first entry to
    peer 0, which holds another one (Findings.v). *)
Definition s_fatal : Cluster := state_after 3 conflict_at_zero.

Lemma s_fatal_one_leader : one_leader_per_term s_fatal.
Proof. apply (bool_decide_unpack _). by vm_compute. Qed.

Lemma only_fatal_requests_panic_witness :
  exec (EvDeliver 0) s_fatal = Some (Panic SliceOutOfRange) /\
  exists m, net s_fatal !! 0%nat = Some m /\ fatal_request s_fatal m.
Proof.
  assert (exec (EvDeliver 0) s_fatal = Some (Panic SliceOutOfRange)) as Hex by (vm_compute; reflexivity).
  split; [exact Hex|].
  destruct (proj1 (only_fatal_requests_panic s_fatal (EvDeliver 0) SliceOutOfRange
    (state_after_reachable 3 conflict_at_zero) s_fatal_one_leader ltac:(vm_compute; lia)) Hex)
    as (_ & k & m & [= <-] & Hk & Hf).
  exists m. split; [exact Hk|exact Hf].
Defined.

Lemma leader_indexes_in_range_witness :
  state (raft (node_at s3 0)) = Leader /\
  Forall (fun x => 0 <= x <= len (log (raft (node_at s3 0)))) (nextIndex (raft (node_at s3 0))).
Proof.
  assert (state (raft (node_at s3 0)) = Leader) as Hl by (vm_compute; reflexivity).
  split; [exact Hl|].
  destruct (leader_indexes_in_range s3 0 (node_at s3 0) s3_reachable s3_one_leader) as (_ & _ & Hn & _);
    [vm_compute; lia|apply s3_node; lia|exact Hl|exact Hn].
Defined.

End witnesses.
