(* ===== verification/ClusterAddresses.v ===== *)
(** * Who talks to whom

    In every reachable state of Cluster.v, messages travel between peers of
    the cluster and goroutines address peers of it. *)

From S2P Require Import Prelude Gob PersisterModel RaftState RaftVote RaftAppend RaftNode RaftInv.
From S2P Require Import LeaderIndexes Cluster ClusterInv Runs ClusterBounds.
Open Scope go_scope.

Section addresses.
Context {GT : GobTypes}.
Implicit Types (s : Cluster) (n : Node) (m : Msg) (ms : list Msg).

(** A message travels between two peers of the cluster, and the round of votes it
    belongs to is one its sender began. *)
Definition round_in (nds : list Node) m (round : nat) : Prop :=
  forall n, nds !! m_src m = Some n ->
    (m_inc m <= incarnation n)%nat /\ (m_inc m = incarnation n -> (round < length (rounds n))%nat).

Definition msg_in (nds : list Node) m : Prop :=
  (m_src m < length nds)%nat /\ (m_dst m < length nds)%nat /\ m_src m <> m_dst m /\
  match m_body m with
  | VoteReq round _ | VoteRep round _ _ => round_in nds m round
  | _ => True
  end.

Record addressed s : Prop := {
  ad_tasks : Forall (fun n => Forall (task_in (length (nodes s))) (tasks n)) (nodes s);
  ad_net : Forall (msg_in (nodes s)) (net s);
}.

(** A peer restarts or keeps the rounds it began. *)
Definition rounds_grow n n' : Prop :=
  (incarnation n < incarnation n')%nat \/
  incarnation n' = incarnation n /\ (length (rounds n) <= length (rounds n'))%nat.

Lemma msg_in_update nds i n n' m :
  nds !! i = Some n -> rounds_grow n n' -> msg_in nds m -> msg_in (<[i := n']> nds) m.
Proof.
  intros Hi Hg (M1 & M2 & M0 & M3). unfold msg_in. rewrite length_insert. split_and!; [done..|].
  assert (forall r, round_in nds m r -> round_in (<[i := n']> nds) m r) as Hr.
  { intros r Hin x [(He & <- & _)|[_ Hx]]%list_lookup_insert_Some; [subst i|by apply Hin].
    destruct (Hin n Hi) as [H1 H2]. destruct Hg as [Hg|[Hg Hl]]; split; [lia|lia|lia|].
    intros Heq. specialize (H2 ltac:(lia)). lia. }
  destruct (m_body m); auto.
Qed.

Lemma addressed_update s s' i n n' ms :
  addressed s -> nodes s !! i = Some n -> nodes s' = <[i := n']> (nodes s) -> rounds_grow n n' ->
  Forall (task_in (length (nodes s))) (tasks n') ->
  net s' = net s ++ ms -> Forall (msg_in (nodes s')) ms -> addressed s'.
Proof.
  intros [A1 A2] Hi Hs Hg Ht Hm Hms. split.
  - rewrite Hs, length_insert. by apply Forall_insert.
  - rewrite Hm. apply Forall_app. split; [|done]. eapply Forall_impl; [exact A2|].
    intros m. rewrite Hs. by apply msg_in_update with n.
Qed.

(** No message is sent, and the peer's rounds stay. *)
Lemma addressed_quiet s s' i n n' :
  addressed s -> nodes s !! i = Some n -> nodes s' = <[i := n']> (nodes s) -> net s' = net s ->
  incarnation n' = incarnation n -> length (rounds n') = length (rounds n) ->
  Forall (task_in (length (nodes s))) (tasks n') -> addressed s'.
Proof.
  intros Ha Hi Hs Hm Hinc Hr Ht. eapply (addressed_update s s' i n n' []); try done.
  - right. split; [done|lia].
  - by rewrite app_nil_r.
Qed.

Lemma hb_step_rounds n c n' :
  hb_step n c = Some n' -> incarnation n' = incarnation n /\ rounds n' = rounds n.
Proof.
  unfold hb_step. cbv zeta. intros Hs.
  destruct (pc n) as [|st at_ w|st|st| | | | | | |]; destruct c; try discriminate Hs;
    try (destruct at_); try (destruct st; try discriminate Hs);
    repeat match type of Hs with
    | mbind _ ?m = Some _ => destruct m; [cbn [mbind option_bind] in Hs|discriminate Hs]
    | (if ?b then _ else _) = _ => destruct b
    end; injection Hs as <-; auto.
Qed.

Lemma timer_step_rounds n n' :
  timer_step n = Some n' -> incarnation n' = incarnation n /\ rounds n' = rounds n.
Proof. unfold timer_step. destruct (timer_fire _); [by intros [= <-]|done]. Qed.

Lemma notify_step_rounds n c d n' :
  notify_step n c d = Some n' -> incarnation n' = incarnation n /\ rounds n' = rounds n.
Proof.
  unfold notify_step. destruct c; try done; destruct (ch_notify _ _); try done; by intros [= <-].
Qed.

Lemma run_task_addressed s i n k t s' :
  addressed s -> nodes s !! i = Some n -> node_ok (length (nodes s)) (elections s) (created s) i n ->
  tasks n !! k = Some t ->
  run_task s i (n <| tasks := delete k (tasks n) |>) t = Ret s' -> addressed s'.
Proof.
  intros Ha Hi Hn Ht. pose proof (no_peers _ _ _ _ _ Hn) as Hp. pose proof (lookup_lt_Some _ _ _ Hi) as Hlt.
  pose proof (Forall_lookup_1 _ _ _ _ (ad_tasks s Ha) Hi) as Htasks. cbn in Htasks.
  pose proof (Forall_lookup_1 _ _ _ _ Htasks Ht) as Hin.
  pose proof (tasks_in_delete _ _ k Htasks) as Hdel.
  destruct t as [|j]; unfold run_task, send_vote_requests, send_append_request;
    intros (o & _ & Hs)%bind_Ret; destruct o; injection Hs as <-.
  - eapply addressed_update; [exact Ha|exact Hi|reflexivity| |exact Hdel|reflexivity|].
    { right. split; [done|]. cbn. rewrite length_app. lia. }
    apply Forall_map, Forall_forall. intros j Hj. cbn [set_field raft] in Hj.
    unfold other_peers in Hj. apply list_elem_of_filter in Hj as [Hne Hj%elem_of_seqZ].
    rewrite (no_me _ _ _ _ _ Hn) in Hne. unfold msg_in. cbn. rewrite length_insert.
    split_and!; [done|lia|lia|]. intros x. cbn. rewrite list_lookup_insert_eq by done. intros [= <-]. cbn. rewrite length_app. cbn. lia.
  - by eapply addressed_quiet.
  - eapply addressed_update; [exact Ha|exact Hi|reflexivity|by right|exact Hdel|reflexivity|].
    pose proof (Forall_lookup_1 _ _ _ _ (no_tasks _ _ _ _ _ Hn) Ht) as [_ Hne].
    apply Forall_singleton. cbn in Hin. unfold msg_in. cbn. rewrite length_insert. split_and!; [done|lia|done|done].
  - by eapply addressed_quiet.
Qed.

Lemma deliver_addressed s m s' :
  addressed s -> msg_in (nodes s) m -> deliver s m = Some (Ret s') -> addressed s'.
Proof.
  intros Ha M. unfold deliver, serve_vote, serve_append, handle_append_reply, handle_vote_reply.
  destruct (m_body m) as [r a|r a rep|a|a rep] eqn:Hb; destruct (nodes s !! _) as [n|] eqn:Hi; try done;
    cbn [mbind option_bind]; pose proof (Forall_lookup_1 _ _ _ _ (ad_tasks s Ha) Hi) as Ht; cbn in Ht.
  - intros [= ([rf reply] & _ & [= <-])%bind_Ret].
    eapply addressed_update; [exact Ha|exact Hi|reflexivity|by right|exact Ht|reflexivity|].
    apply Forall_singleton. cbn [nodes set_field set_raft set_node].
    eapply msg_in_update; [done|by right|]. unfold msg_in in *. by rewrite Hb in M.
  - case_decide; [by intros [= <-]|]. destruct (rounds n !! r) as [nl|]; [|done]. cbn [mbind option_bind].
    destruct (startRequestVote_reply _ _ _ _) as [rf nl']. case_match; intros [= <-];
      (eapply addressed_quiet; [exact Ha|exact Hi|reflexivity|reflexivity|reflexivity| |exact Ht]); apply length_insert.
  - intros [= ([rf reply] & _ & [= <-])%bind_Ret].
    eapply addressed_update; [exact Ha|exact Hi|reflexivity|by right|exact Ht|reflexivity|].
    apply Forall_singleton. cbn [nodes set_field set_raft set_node].
    eapply msg_in_update; [done|by right|]. unfold msg_in in *. by rewrite Hb in M.
  - case_decide; [by intros [= <-]|]. intros [= ([rf again] & _ & [= <-])%bind_Ret].
    destruct M as (_ & M2 & _ & _).
    destruct again; (eapply addressed_quiet; [exact Ha|exact Hi|reflexivity..|]); [|exact Ht].
    apply Forall_app. split; [exact Ht|]. apply Forall_singleton. cbn. lia.
Qed.

Lemma addressed_net s ms : addressed s -> Forall (msg_in (nodes s)) ms -> addressed (s <| net := ms |>).
Proof. intros [A1 _] Hms. by split. Qed.

Lemma net_in_delete nds ms k : Forall (msg_in nds) ms -> Forall (msg_in nds) (delete k ms).
Proof. rewrite delete_take_drop. intros Hf. apply Forall_app; auto using Forall_take, Forall_drop. Qed.

Lemma exec_addressed ev s s' : inv s -> addressed s -> exec ev s = Some (Ret s') -> addressed s'.
Proof.
  intros Hinv Ha. destruct ev as [i c|i|i c d|i k|k|k|i command|i|i]; cbn [exec].
  4:{ destruct (nodes s !! i) as [n|] eqn:Hi; [|done]. cbn [mbind option_bind].
      destruct (tasks n !! k) as [t|] eqn:Ht; [|done]. intros [= Hr].
      eapply run_task_addressed; [exact Ha|exact Hi| |exact Ht|exact Hr].
      by apply (bi_nodes s (proj1 Hinv)). }
  4:{ destruct (net s !! k) as [m|] eqn:Hk; [|done]. cbn [mbind option_bind]. intros Hd.
      eapply deliver_addressed; [| |exact Hd]; [apply addressed_net; [done|]|].
      - by apply net_in_delete, Ha.
      - by apply (Forall_lookup_1 _ _ _ _ (ad_net s Ha) Hk). }
  4:{ destruct (net s !! k) as [m|]; [|done]. intros [= <-]. apply addressed_net; [done|].
      by apply net_in_delete, Ha. }
  all: destruct (nodes s !! i) as [n|] eqn:Hi; [|done]; cbn [mbind option_bind];
    pose proof (Forall_lookup_1 _ _ _ _ (ad_tasks s Ha) Hi) as Ht; cbn in Ht.
  - destruct (hb_step n c) as [n'|] eqn:Hs; [|done]. intros [= <-].
    destruct (hb_step_rounds _ _ _ Hs) as [Hinc Hr].
    eapply addressed_quiet; [exact Ha|exact Hi|reflexivity|reflexivity|exact Hinc|by rewrite Hr|].
    eapply hb_step_tasks_in; [exact Hs|apply (bi_nodes s (proj1 Hinv) i n Hi)|done].
  - destruct (timer_step n) as [n'|] eqn:Hs; [|done]. intros [= <-].
    destruct (timer_step_rounds _ _ Hs) as [Hinc Hr].
    eapply addressed_quiet; [exact Ha|exact Hi|reflexivity|reflexivity|exact Hinc|by rewrite Hr|].
    by rewrite (timer_step_tasks _ _ Hs).
  - destruct (notify_step n c d) as [n'|] eqn:Hs; [|done]. intros [= <-].
    destruct (notify_step_rounds _ _ _ _ Hs) as [Hinc Hr].
    eapply addressed_quiet; [exact Ha|exact Hi|reflexivity|reflexivity|exact Hinc|by rewrite Hr|].
    by rewrite (notify_step_tasks _ _ _ _ Hs).
  - destruct (Start (raft n) command) as [rf [[x t] l]]. intros [= <-].
    destruct l; by eapply addressed_quiet.
  - intros [= <-]. by eapply addressed_quiet.
  - intros [= <-]. eapply (addressed_update s _ i n _ []); [exact Ha|exact Hi|reflexivity| | | |constructor].
    + left. cbn. lia.
    + constructor.
    + by rewrite app_nil_r.
Qed.

(** A message that is in the network can be delivered. *)
Lemma deliver_enabled s m : msg_in (nodes s) m -> exists o, deliver s m = Some o.
Proof.
  intros ([n1 H1]%lookup_lt_is_Some_2 & [n2 H2]%lookup_lt_is_Some_2 & _ & M3). unfold deliver.
  destruct (m_body m) as [r a|r a rep|a|a rep]; rewrite ?H1, ?H2; cbn [mbind option_bind]; try by eexists.
  - case_decide as Hinc; [by eexists|]. destruct (M3 n1 H1) as [_ Hr].
    unfold handle_vote_reply. destruct (lookup_lt_is_Some_2 (rounds n1) r) as [nl ->]; [apply Hr; lia|].
    cbn [mbind option_bind]. destruct (startRequestVote_reply _ _ _ _) as [rf nl']. by eexists.
  - case_decide; by eexists.
Qed.

Context {GTok : GobTypesOk}.

Lemma reachable_addressed s : reachable s -> addressed s.
Proof.
  induction 1 as [N|s ev s' Hr IH Hb Hex].
  - split; [|constructor]. apply Forall_forall. intros n Hn. cbn in Hn.
    apply list_elem_of_fmap in Hn as (i & -> & _). constructor.
  - exact (exec_addressed ev s s' (reachable_inv _ Hr) IH Hex).
Qed.

(** C12: every message of a reachable state is well formed: it travels between
    two different peers of the cluster, a request for a vote or its reply
    belongs to a round its sender began in the incarnation that sent it, and
    whatever message it is, it can be delivered (the event is enabled), so no
    RPC is ever stuck for want of a receiver, a caller or a round. *)
Theorem messages_well_formed s (k : nat) m :
  reachable s -> net s !! k = Some m ->
  (m_src m < length (nodes s))%nat /\ (m_dst m < length (nodes s))%nat /\ m_src m <> m_dst m /\
  (forall round args n, nodes s !! m_src m = Some n -> m_inc m = incarnation n ->
    (m_body m = VoteReq round args \/ exists reply, m_body m = VoteRep round args reply) ->
    (round < length (rounds n))%nat) /\
  exists o, exec (EvDeliver k) s = Some o.
Proof.
  intros Hs%reachable_addressed Hk. pose proof (Forall_lookup_1 _ _ _ _ (ad_net s Hs) Hk) as Hm.
  pose proof Hm as (M1 & M2 & M3 & M4). split_and!; [done..| |].
  - intros round args n Hn Hinc [Hb|[reply Hb]]; rewrite Hb in M4; by apply (M4 n Hn).
  - cbn [exec]. rewrite Hk. cbn [mbind option_bind].
    by apply (deliver_enabled (s <| net := delete k (net s) |>)).
Qed.

End addresses.

Section witnesses.
#[local] Existing Instance first_types.
#[local] Existing Instance first_types_ok.

(** Peer 0 of three asks the others for their votes. *)
Definition s_asking : Cluster := state_after 3 (campaign 0).

Lemma messages_well_formed_witness :
  exists o, length (net s_asking) = 2%nat /\ exec (EvDeliver 1) s_asking = Some o.
Proof.
  destruct (net s_asking !! 1%nat) as [m|] eqn:Hm; [|vm_compute in Hm; discriminate Hm].
  destruct (messages_well_formed s_asking 1 m (state_after_reachable 3 (campaign 0)) Hm)
    as (_ & _ & _ & _ & o & Ho).
  exists o. split; [vm_compute; reflexivity|exact Ho].
Defined.

End witnesses.
