(* ===== verification/Labrpc.v ===== *)
(** * labrpc/labrpc.go: the simulated network

    The objects of labrpc.go ([Network], [ClientEnd], [Server], [Service]),
    every operation on them, and the life of an RPC: [Call] at the client,
    the goroutine that runs [processReq], and the goroutine that runs the
    handler, as steps of a transition system ([net_exec]).  Random numbers
    are inputs of the steps; delays are not modelled, a step that is enabled
    may happen at any time. *)

From Stdlib Require Import Ascii.
From S2P Require Import Prelude.
Open Scope go_scope.

(** *** int32 and int64 counters *)

Definition wrap_int32 (z : Z) : Z := (z + 2 ^ 31) mod 2 ^ 32 - 2 ^ 31.

(** *** encoding/gob and reflect

    Types, values and their encoding are those of the Go library.  [Decode]
    reads into a target: it returns what the target holds afterwards and
    whether there was no error. *)

Class Codec (T V : Type) := {
  TypeOf : V -> T;
  New : T -> V; (* the zero value of the type *)
  Encode : V -> list Z;
  Decode : V -> list Z -> V * bool;
}.

(** What gob documents: a value that can be sent arrives unchanged in a zero
    value of its type. *)
Class CodecOk {T V : Type} (C : Codec T V) (sendable : V -> Prop) : Prop :=
  Decode_Encode : forall v, sendable v -> Decode (New (TypeOf v)) (Encode v) = (v, true).

(** *** strings.LastIndex of a dot, and the two halves of a method name *)

Fixpoint last_dot (s : string) (i : Z) : Z :=
  match s with
  | EmptyString => -1
  | String c s =>
      let r := last_dot s (i + 1) in
      if r =? -1 then (if bool_decide (c = "."%char) then i else -1) else r
  end.

Definition str_len (s : string) : Z := Z.of_nat (String.length s).

Definition str_slice_to (s : string) (hi : Z) : outcome string :=
  if decide (0 <= hi <= str_len s) then Ret (String.substring 0 (Z.to_nat hi) s)
  else Panic SliceOutOfRange.

Definition str_slice_from (s : string) (lo : Z) : outcome string :=
  if decide (0 <= lo <= str_len s) then
    Ret (String.substring (Z.to_nat lo) (String.length s - Z.to_nat lo) s)
  else Panic SliceOutOfRange.

(** *** Data *)

Record replyMsg := mkReplyMsg {
  r_ok : bool;
  r_reply : list Z;
}.

Record ClientEnd := mkClientEnd {
  endname : iface; (* the channels are those of the one network *)
}.

(** Servers are pointers: the number of the object among those made. *)
Record Network := mkNetwork {
  reliable : bool;
  longDelays : bool;
  longReordering : bool;
  ends : gmap iface ClientEnd;
  enabled : gmap iface bool;
  servers : gmap iface (option nat);
  connections : gmap iface iface;
  done_closed : bool;
  count : Z;
  bytes : Z;
}.

#[export] Instance Network_eta : Eta Network := fun rn =>
  mkNetwork (reliable rn) (longDelays rn) (longReordering rn) (ends rn) (enabled rn)
    (servers rn) (connections rn) (done_closed rn) (count rn) (bytes rn).

(** *** Operations of the network *)

Definition MakeNetwork : Network := mkNetwork true false false ∅ ∅ ∅ ∅ false 0 0.

Definition Cleanup (rn : Network) : outcome Network :=
  if done_closed rn then Panic CloseOfClosedChannel else Ret (rn <| done_closed := true |>).

Definition Reliable (rn : Network) (yes : bool) : Network := rn <| reliable := yes |>.
Definition LongReordering (rn : Network) (yes : bool) : Network := rn <| longReordering := yes |>.
Definition LongDelays (rn : Network) (yes : bool) : Network := rn <| longDelays := yes |>.

(** A map read yields the zero value for an absent key. *)
Definition is_enabled (rn : Network) (e : iface) : bool := default false (enabled rn !! e).
Definition connection (rn : Network) (e : iface) : iface := default INil (connections rn !! e).
Definition server_of (rn : Network) (n : iface) : option nat := default None (servers rn !! n).

Record Info := mkInfo {
  i_enabled : bool;
  i_servername : iface;
  i_server : option nat;
  i_reliable : bool;
  i_longreordering : bool;
}.

Definition readEndnameInfo (rn : Network) (e : iface) : Info :=
  let servername := connection rn e in
  mkInfo (is_enabled rn e) servername
    (if decide (servername <> INil) then server_of rn servername else None)
    (reliable rn) (longReordering rn).

Definition isServerDead (rn : Network) (e servername : iface) (server : option nat) : bool :=
  negb (is_enabled rn e) || negb (bool_decide (server_of rn servername = server)).

Definition MakeEnd (rn : Network) (e : iface) : outcome (Network * ClientEnd) :=
  match ends rn !! e with
  | Some _ => Panic Fatal
  | None =>
      let c := mkClientEnd e in
      let rn := rn <| ends := <[e := c]> (ends rn) |> in
      let rn := rn <| enabled := <[e := false]> (enabled rn) |> in
      let rn := rn <| connections := <[e := INil]> (connections rn) |> in
      Ret (rn, c)
  end.

Definition AddServer (rn : Network) (n : iface) (rs : nat) : Network :=
  rn <| servers := <[n := Some rs]> (servers rn) |>.
Definition DeleteServer (rn : Network) (n : iface) : Network :=
  rn <| servers := <[n := None]> (servers rn) |>.
Definition Connect (rn : Network) (e n : iface) : Network :=
  rn <| connections := <[e := n]> (connections rn) |>.
Definition Enable (rn : Network) (e : iface) (yes : bool) : Network :=
  rn <| enabled := <[e := yes]> (enabled rn) |>.
Definition GetTotalCount (rn : Network) : Z := count rn.
Definition GetTotalBytes (rn : Network) : Z := bytes rn.

Section labrpc.
(** [W] is the state the receivers of the services share, the peers'. *)
Context {W T V : Type} {C : Codec T V}.

(** *** Services and servers *)

(** A method of a type as reflect shows it. *)
Record Method := mkMethod {
  m_Name : string;
  PkgPath : string;
  NumIn : Z;
  In2_Ptr : bool; (* the third parameter is a pointer *)
  NumOut : Z;
  Func : W -> V -> outcome (W * V); (* the arguments to the final reply *)
}.

Record Service := mkService {
  name : string;
  methods : gmap string Method;
}.

Record Server := mkServer {
  services : gmap string Service;
  srv_count : Z;
}.

Definition suitable (m : Method) : bool :=
  negb (bool_decide (PkgPath m <> EmptyString) || negb (NumIn m =? 3) || negb (In2_Ptr m) ||
        negb (NumOut m =? 0)).

Definition MakeService (typeName : string) (ms : list Method) : Service :=
  mkService typeName
    (fold_left (fun acc m => if suitable m then <[m_Name m := m]> acc else acc) ms ∅).

Definition MakeServer : Server := mkServer ∅ 0.

Definition AddService (rs : Server) (svc : Service) : Server :=
  mkServer (<[name svc := svc]> (services rs)) (srv_count rs).

Definition GetCount (heap : list Server) (rn : Network) (n : iface) : outcome Z :=
  match server_of rn n with
  | None => Panic NilDereference
  | Some sid =>
      match heap !! sid with
      | Some rs => Ret (srv_count rs)
      | None => Panic NilDereference
      end
  end.

Record reqMsg := mkReqMsg {
  req_endname : iface;
  svcMeth : string;
  argsType : T;
  req_args : list Z;
}.

Definition Service_dispatch (svc : Service) (methname : string) (req : reqMsg) (w : W) :
    outcome (W * replyMsg) :=
  match methods svc !! methname with
  | None => Panic Fatal
  | Some method =>
      let args := (Decode (New (argsType req)) (req_args req)).1 in
      '(w, replyv) ← Func method w args;
      Ret (w, mkReplyMsg true (Encode replyv))
  end.

Definition Server_dispatch (rs : Server) (req : reqMsg) (w : W) :
    outcome (Server * W * replyMsg) :=
  let rs := mkServer (services rs) (srv_count rs +! 1) in
  let dot := last_dot (svcMeth req) 0 in
  serviceName ← str_slice_to (svcMeth req) dot;
  methodName ← str_slice_from (svcMeth req) (dot + 1);
  match services rs !! serviceName with
  | None => Panic Fatal
  | Some service =>
      '(w, r) ← Service_dispatch service methodName req w;
      Ret (rs, w, r)
  end.

End labrpc.
Arguments Method : clear implicits.
Arguments Service : clear implicits.
Arguments Server : clear implicits.
Arguments reqMsg : clear implicits.

(** ** Ends *)

Lemma is_enabled_Enable rn e yes x :
  is_enabled (Enable rn e yes) x = if decide (x = e) then yes else is_enabled rn x.
Proof.
  unfold is_enabled, Enable. cbn. case_decide as Hx.
  - by rewrite Hx, lookup_insert_eq.
  - by rewrite lookup_insert_ne.
Qed.
