(* ===== verification/NetCalls.v ===== *)
(** * labrpc/labrpc.go: the life of an RPC

    [Call] at the client, the network goroutine that receives requests, the
    goroutine that runs [processReq] and the one that runs the handler, as a
    transition system over any number of calls in progress. *)

From Stdlib Require Import Ascii.
From S2P Require Import Prelude Labrpc.
Open Scope go_scope.

(** The goroutine that executes the request; [HTaken] when its result was
    received. *)
Inductive HandlerPc : Type :=
| HNone
| HRunning (sid : nat)
| HDone (r : replyMsg)
| HTaken.

(** Where a call is. *)
Inductive CallPc (V : Type) : Type :=
| CSending                                  (* Call: the first select *)
| PStart                                    (* processReq starts *)
| PDrop (i : Info)                          (* the request may be dropped *)
| PWait (i : Info)                          (* the loop that waits for the handler *)
| PFinal (i : Info) (r : option replyMsg)   (* the last check *)
| PSend (r : replyMsg) (late : bool)        (* the send on replyCh *)
| CReturned (ok : bool) (reply : V).        (* Call returned *)
Arguments CSending {V}.
Arguments PStart {V}.
Arguments PDrop {V} i.
Arguments PWait {V} i.
Arguments PFinal {V} i r.
Arguments PSend {V} r late.
Arguments CReturned {V} ok reply.

(** One execution of a handler: the server object, the state of the
    receivers before and after, and the reply. *)
Record Exec (W : Type) := mkExec {
  x_sid : nat;
  x_before : W;
  x_after : W;
  x_reply : replyMsg;
}.
Arguments mkExec {W} _ _ _ _.
Arguments x_sid {W} _.
Arguments x_before {W} _.
Arguments x_after {W} _.
Arguments x_reply {W} _.

(** A call: its request, the reply variable of the caller, and the two
    goroutines.  [c_args], [c_received] and [c_log] are history: the
    arguments, whether the network received the request, and the executions
    of the handler. *)
Record Call (W T V : Type) := mkCall {
  c_req : reqMsg T;
  c_reply0 : V;
  c_pc : CallPc V;
  c_handler : HandlerPc;
  c_args : V;
  c_received : bool;
  c_log : list (Exec W);
}.
Arguments mkCall {W T V} _ _ _ _ _ _ _.
Arguments c_req {W T V} _.
Arguments c_reply0 {W T V} _.
Arguments c_pc {W T V} _.
Arguments c_handler {W T V} _.
Arguments c_args {W T V} _.
Arguments c_received {W T V} _.
Arguments c_log {W T V} _.

#[export] Instance Call_eta W T V : Eta (Call W T V) := fun c =>
  mkCall (c_req c) (c_reply0 c) (c_pc c) (c_handler c) (c_args c) (c_received c) (c_log c).

(** The network, the server objects made so far, what the handlers work on,
    and every call ever made. *)
Record Sys (W T V : Type) := mkSys {
  net : Network;
  heap : list (Server W V);
  world : W;
  calls : list (Call W T V);
}.
Arguments mkSys {W T V} _ _ _ _.
Arguments net {W T V} _.
Arguments heap {W T V} _.
Arguments world {W T V} _.
Arguments calls {W T V} _.

#[export] Instance Sys_eta W T V : Eta (Sys W T V) := fun s =>
  mkSys (net s) (heap s) (world s) (calls s).

Inductive NetEvent (W V : Type) : Type :=
| NCall (e : iface) (meth : string) (args reply0 : V)
| NSend (k : nat)
| NAbort (k : nat)
| NStart (k : nat)
| NDrop (k : nat) (rnd : Z)
| NHandler (k : nat)
| NRecv (k : nat)
| NTick (k : nat)
| NFinal (k : nat) (rnd1 rnd2 : Z)
| NReply (k : nat)
| NNewServer (svcs : list (Service W V))
| NMakeEnd (e : iface)
| NAddServer (n : iface) (sid : nat)
| NDeleteServer (n : iface)
| NConnect (e n : iface)
| NEnable (e : iface) (yes : bool)
| NReliable (yes : bool)
| NLongReordering (yes : bool)
| NLongDelays (yes : bool)
| NCleanup.
Arguments NCall {W V}.
Arguments NSend {W V}.
Arguments NAbort {W V}.
Arguments NStart {W V}.
Arguments NDrop {W V}.
Arguments NHandler {W V}.
Arguments NRecv {W V}.
Arguments NTick {W V}.
Arguments NFinal {W V}.
Arguments NReply {W V}.
Arguments NNewServer {W V}.
Arguments NMakeEnd {W V}.
Arguments NAddServer {W V}.
Arguments NDeleteServer {W V}.
Arguments NConnect {W V}.
Arguments NEnable {W V}.
Arguments NReliable {W V}.
Arguments NLongReordering {W V}.
Arguments NLongDelays {W V}.
Arguments NCleanup {W V}.

Section calls.
Context {W T V : Type} {C : Codec T V}.
#[local] Notation Call := (Call W T V).
#[local] Notation Sys := (Sys W T V).
#[local] Notation NetEvent := (NetEvent W V).
#[local] Notation Server := (Server W V).

Definition no_reply : replyMsg := mkReplyMsg false [].

(** ** The client: [Call] *)

(** Up to the first select. *)
Definition Call_begin (ce : ClientEnd) (meth : string) (args reply0 : V) : Call :=
  mkCall (mkReqMsg (endname ce) meth (TypeOf args) (Encode args)) reply0 CSending HNone
    args false [].

(** From the receive on replyCh to the return. *)
Definition Call_finish (c : Call) (rep : replyMsg) : outcome Call :=
  if r_ok rep then
    let '(v, ok) := Decode (c_reply0 c) (r_reply rep) in
    if ok : bool then Ret (c <| c_pc := CReturned true v |>) else Panic Fatal
  else Ret (c <| c_pc := CReturned false (c_reply0 c) |>).

(** ** The network's goroutine *)

(** One round of its loop: a request is received and counted. *)
Definition receive (rn : Network) (c : Call) : Network * Call :=
  let rn := rn <| count := wrap_int32 (count rn + 1) |> in
  let rn := rn <| bytes := bytes rn +! len (req_args (c_req c)) |> in
  (rn, c <| c_pc := PStart |> <| c_received := true |>).

(** ** [processReq] *)

Definition start_handler (c : Call) (i : Info) : Call :=
  match i_server i with
  | Some sid => c <| c_handler := HRunning sid |> <| c_pc := PWait i |>
  | None => c
  end.

Definition processReq_start (rn : Network) (c : Call) : Call :=
  let i := readEndnameInfo rn (req_endname (c_req c)) in
  if i_enabled i && bool_decide (i_servername i <> INil) && bool_decide (i_server i <> None) then
    if i_reliable i then start_handler c i else c <| c_pc := PDrop i |>
  else c <| c_pc := PSend no_reply false |>.

Definition processReq_drop (c : Call) (i : Info) (rnd : Z) : Call :=
  if negb (i_reliable i) && (rnd mod 1000 <? 100) then c <| c_pc := PSend no_reply false |>
  else start_handler c i.

(** The handler's goroutine: [server.dispatch(req)]. *)
Definition handler_run (rs : Server) (w : W) (c : Call) (sid : nat) :
    outcome (Server * W * Call) :=
  '(rs, w', r) ← Server_dispatch rs (c_req c) w;
  Ret (rs, w', c <| c_handler := HDone r |> <| c_log := c_log c ++ [mkExec sid w w' r] |>).

(** The two cases of the select in the loop. *)
Definition processReq_receive (c : Call) (i : Info) : option Call :=
  match c_handler c with
  | HDone r => Some (c <| c_handler := HTaken |> <| c_pc := PFinal i (Some r) |>)
  | _ => None
  end.

Definition processReq_tick (rn : Network) (c : Call) (i : Info) : Call :=
  if isServerDead rn (req_endname (c_req c)) (i_servername i) (i_server i) then
    c <| c_pc := PFinal i None |>
  else c.

Definition processReq_final (rn : Network) (c : Call) (i : Info) (reply : option replyMsg)
    (rnd1 rnd2 : Z) : Network * Call :=
  let serverDead := isServerDead rn (req_endname (c_req c)) (i_servername i) (i_server i) in
  match reply with
  | None => (rn, c <| c_pc := PSend no_reply false |>)
  | Some r =>
      if serverDead then (rn, c <| c_pc := PSend no_reply false |>)
      else if negb (i_reliable i) && (rnd1 mod 1000 <? 100) then
        (rn, c <| c_pc := PSend no_reply false |>)
      else if i_longreordering i && (rnd2 mod 900 <? 600) then (rn, c <| c_pc := PSend r true |>)
      else (rn <| bytes := bytes rn +! len (r_reply r) |>, c <| c_pc := PSend r false |>)
  end.

(** The send on replyCh, in a timer's goroutine when [late], meets the
    receive in [Call]. *)
Definition processReq_reply (rn : Network) (c : Call) (r : replyMsg) (late : bool) :
    outcome (Network * Call) :=
  let rn := if late then rn <| bytes := bytes rn +! len (r_reply r) |> else rn in
  c ← Call_finish c r;
  Ret (rn, c).

(** ** The transition system *)

Definition set_call (s : Sys) (k : nat) (c : Call) : Sys := s <| calls := <[k := c]> (calls s) |>.

Definition call_exec (s : Sys) (k : nat) (c : Call) (ev : NetEvent) : option (outcome Sys) :=
  match ev, c_pc c with
  | NSend _, CSending =>
      let '(rn, c) := receive (net s) c in Some (Ret (set_call (s <| net := rn |>) k c))
  | NAbort _, CSending =>
      if done_closed (net s) then Some (Ret (set_call s k (c <| c_pc := CReturned false (c_reply0 c) |>)))
      else None
  | NStart _, PStart => Some (Ret (set_call s k (processReq_start (net s) c)))
  | NDrop _ rnd, PDrop i => Some (Ret (set_call s k (processReq_drop c i rnd)))
  | NRecv _, PWait i => c ← processReq_receive c i; Some (Ret (set_call s k c))
  | NTick _, PWait i => Some (Ret (set_call s k (processReq_tick (net s) c i)))
  | NFinal _ rnd1 rnd2, PFinal i r =>
      let '(rn, c) := processReq_final (net s) c i r rnd1 rnd2 in
      Some (Ret (set_call (s <| net := rn |>) k c))
  | NReply _, PSend r late =>
      Some ('(rn, c) ← processReq_reply (net s) c r late; Ret (set_call (s <| net := rn |>) k c))
  | _, _ => None
  end.

Definition handler_exec (s : Sys) (k : nat) (c : Call) : option (outcome Sys) :=
  match c_handler c with
  | HRunning sid =>
      rs ← heap s !! sid;
      Some ('(rs, w, c) ← handler_run rs (world s) c sid;
            Ret (set_call (s <| heap := <[sid := rs]> (heap s) |> <| world := w |>) k c))
  | _ => None
  end.

Definition api (s : Sys) (rn : Network) : option (outcome Sys) := Some (Ret (s <| net := rn |>)).

Definition net_exec (ev : NetEvent) (s : Sys) : option (outcome Sys) :=
  match ev with
  | NCall e meth args reply0 =>
      ce ← ends (net s) !! e;
      Some (Ret (s <| calls := calls s ++ [Call_begin ce meth args reply0] |>))
  | NSend k | NAbort k | NStart k | NDrop k _ | NRecv k | NTick k | NFinal k _ _ | NReply k =>
      c ← calls s !! k; call_exec s k c ev
  | NHandler k => c ← calls s !! k; handler_exec s k c
  | NNewServer svcs =>
      Some (Ret (s <| heap := heap s ++ [fold_left AddService svcs MakeServer] |>))
  | NMakeEnd e => Some ('(rn, _) ← MakeEnd (net s) e; Ret (s <| net := rn |>))
  | NAddServer n sid =>
      if decide (sid < length (heap s))%nat then api s (AddServer (net s) n sid) else None
  | NDeleteServer n => api s (DeleteServer (net s) n)
  | NConnect e n => api s (Connect (net s) e n)
  | NEnable e yes => api s (Enable (net s) e yes)
  | NReliable yes => api s (Reliable (net s) yes)
  | NLongReordering yes => api s (LongReordering (net s) yes)
  | NLongDelays yes => api s (LongDelays (net s) yes)
  | NCleanup => Some (rn ← Cleanup (net s); Ret (s <| net := rn |>))
  end.

Fixpoint net_run (evs : list NetEvent) (s : Sys) : option (outcome Sys) :=
  match evs with
  | [] => Some (Ret s)
  | ev :: evs =>
      o ← net_exec ev s;
      match o with
      | Ret s => net_run evs s
      | Panic f => Some (Panic f)
      end
  end.

Definition net_init (w : W) : Sys := mkSys MakeNetwork [] w [].

Inductive net_reachable : Sys -> Prop :=
| net_reachable_init w : net_reachable (net_init w)
| net_reachable_step s ev s' :
    net_reachable s -> net_exec ev s = Some (Ret s') -> net_reachable s'.

End calls.
