(* ===== verification/NetProps.v ===== *)
(** * What labrpc guarantees to its callers

    The invariant of the calls in progress (NetCalls.v): a handler runs at
    most once per call, a call that returns true returns what its handler
    replied, and the network's counters follow what the calls did.  The
    theorems are in NetTheorems.v. *)

From S2P Require Import Prelude Labrpc NetCalls.
Open Scope go_scope.

(** ** Arithmetic of the counters *)

Lemma wrap_int32_add a b : wrap_int32 (wrap_int32 a + b) = wrap_int32 (a + b).
Proof.
  unfold wrap_int32.
  replace ((a + 2 ^ 31) mod 2 ^ 32 - 2 ^ 31 + b + 2 ^ 31) with ((a + 2 ^ 31) mod 2 ^ 32 + b) by lia.
  rewrite Z.add_mod_idemp_l by done. do 2 f_equal. lia.
Qed.

(** A counter that follows an exact total modulo its width. *)
Definition follows (wrap : Z -> Z) (a b delta : Z) : Prop :=
  b = wrap (a + delta) \/ b = a /\ delta = 0.

Lemma follows_total (wrap : Z -> Z) a b t delta :
  (forall x y, wrap (wrap x + y) = wrap (x + y)) ->
  a = wrap t -> follows wrap a b delta -> b = wrap (t + delta).
Proof. intros Hw -> [->|[-> ->]]; [apply Hw|f_equal; lia]. Qed.

(** ** What a step of a call's goroutines leaves alone *)

(** [rn'] is [rn] but for its two counters. *)
Definition counted (rn rn' : Network) : Prop := exists c b, rn' = rn <| count := c |> <| bytes := b |>.

Lemma counted_refl rn : counted rn rn.
Proof. exists (count rn), (bytes rn). by destruct rn. Qed.

Lemma counted_bytes rn b : counted rn (rn <| bytes := b |>).
Proof. exists (count rn), b. by destruct rn. Qed.

Section props.
Context {W T V : Type} {C : Codec T V}.
#[local] Notation Call := (Call W T V).
#[local] Notation Sys := (Sys W T V).
#[local] Notation NetEvent := (NetEvent W V).
#[local] Notation Server := (Server W V).
Implicit Types (s : Sys) (c : Call).

(** The request, the caller's variables and the history of a call. *)
Definition same_request c c' : Prop :=
  c_req c' = c_req c /\ c_reply0 c' = c_reply0 c /\ c_args c' = c_args c /\ c_log c' = c_log c.

Lemma start_handler_keeps c i : same_request c (start_handler c i).
Proof. unfold start_handler. by destruct (i_server i). Qed.

Lemma call_exec_keeps s s' k c ev :
  call_exec s k c ev = Some (Ret s') ->
  counted (net s) (net s') /\ heap s' = heap s /\ world s' = world s /\
  exists c', calls s' = <[k := c']> (calls s) /\ same_request c c'.
Proof.
  assert (forall c', same_request c c' -> counted (net s) (net (set_call s k c')) /\
    heap (set_call s k c') = heap s /\ world (set_call s k c') = world s /\
    exists c1, calls (set_call s k c') = <[k := c1]> (calls s) /\ same_request c c1) as Hset.
  { intros c' Hc'. split_and!; [apply counted_refl|done|done|]. by exists c'. }
  unfold call_exec. destruct ev, (c_pc c); try done.
  - intros [= <-]. split_and!; [by do 2 eexists|done|done|]. eexists. by split.
  - case_match; [|done]. intros [= <-]. by apply Hset.
  - intros [= <-]. apply Hset. unfold processReq_start.
    repeat case_match; try done; apply start_handler_keeps.
  - intros [= <-]. apply Hset. unfold processReq_drop. case_match; [done|apply start_handler_keeps].
  - unfold processReq_receive. destruct (c_handler c); try done. cbn [mbind option_bind].
    intros [= <-]. by apply Hset.
  - intros [= <-]. apply Hset. unfold processReq_tick. by case_match.
  - unfold processReq_final. repeat case_match; intros [= <-]; simplify_eq;
      (split_and!; [apply counted_refl || apply counted_bytes|done|done|eexists; by split]).
  - unfold processReq_reply. destruct (Call_finish c r) as [c1|] eqn:Hf; [|done].
    cbn [mbind outcome_bind]. intros [= <-]. split_and!; [|done|done|exists c1; split; [done|]].
    + cbn. case_match; [apply counted_bytes|apply counted_refl].
    + unfold Call_finish in Hf. destruct (r_ok r); [destruct (Decode _ _) as [v []]; [|done]|];
        by injection Hf as <-.
Qed.

(** A handler execution appends one entry, the dispatch of the call's request
    by the server object, whose services stay. *)
Lemma handler_exec_keeps s s' k c :
  handler_exec s k c = Some (Ret s') ->
  exists sid rs rs' r, c_handler c = HRunning sid /\ heap s !! sid = Some rs /\
    Server_dispatch rs (c_req c) (world s) = Ret (rs', world s', r) /\ net s' = net s /\
    heap s' = <[sid := rs']> (heap s) /\
    calls s' = <[k := c <| c_handler := HDone r |>
                        <| c_log := c_log c ++ [mkExec sid (world s) (world s') r] |>]> (calls s).
Proof.
  unfold handler_exec, handler_run. destruct (c_handler c) as [|sid| |]; try done.
  destruct (heap s !! sid) as [rs|] eqn:Hrs; [|done]. cbn [mbind option_bind].
  destruct (Server_dispatch _ _ _) as [[[rs' w'] r]|] eqn:Hd; [|done]. cbn [mbind outcome_bind].
  intros [= <-]. by exists sid, rs, rs', r.
Qed.

(** ** The invariant of one call *)

(** The handler ran exactly once and replied [r]; its goroutine is done. *)
Definition replied c (r : replyMsg) : Prop :=
  c_handler c = HTaken /\ exists x, c_log c = [x] /\ x_reply x = r.

Definition handler_ok c : Prop :=
  match c_handler c with
  | HNone | HRunning _ => c_log c = []
  | HDone r => exists x, c_log c = [x] /\ x_reply x = r
  | HTaken => exists x, c_log c = [x]
  end.

Definition pc_ok c : Prop :=
  match c_pc c with
  | CSending => c_handler c = HNone /\ c_received c = false
  | PStart | PDrop _ => c_handler c = HNone
  | PFinal _ (Some r) => replied c r
  | PSend r late => r = no_reply \/ replied c r
  | CReturned true v =>
      exists r, replied c r /\ r_ok r = true /\ Decode (c_reply0 c) (r_reply r) = (v, true)
  | _ => True
  end.

(** Every execution was the dispatch of this call's request. *)
Definition exec_ok (req : reqMsg T) (x : Exec W) : Prop :=
  exists rs rs' : Server, Server_dispatch rs req (x_before x) = Ret (rs', x_after x, x_reply x).

Record call_ok c : Prop := {
  co_type : argsType (c_req c) = TypeOf (c_args c);
  co_args : req_args (c_req c) = Encode (c_args c);
  co_handler : handler_ok c;
  co_pc : pc_ok c;
  co_log : Forall (exec_ok (c_req c)) (c_log c);
}.

Definition calls_ok s : Prop := Forall call_ok (calls s).

(** ** What each call adds to the statistics *)

Definition call_count c : Z := if c_received c then 1 else 0.

Definition call_bytes c : Z :=
  (if c_received c then len (req_args (c_req c)) else 0) +
  match c_pc c with
  | PSend r false => len (r_reply r)
  | CReturned true _ => match c_log c with x :: _ => len (r_reply (x_reply x)) | [] => 0 end
  | _ => 0
  end.

Definition stats_ok s : Prop :=
  count (net s) = wrap_int32 (zsum call_count (calls s)) /\
  bytes (net s) = wrap_int (zsum call_bytes (calls s)).

(** A step of call [c] to [c'] keeps its invariant and is counted exactly. *)
Definition call_move s s' (k : nat) c c' : Prop :=
  calls s' = <[k := c']> (calls s) /\ call_ok c' /\
  follows wrap_int32 (count (net s)) (count (net s')) (call_count c' - call_count c) /\
  follows wrap_int (bytes (net s)) (bytes (net s')) (call_bytes c' - call_bytes c).

Lemma follows_refl wrap a d : d = 0 -> follows wrap a a d.
Proof. by right. Qed.

(** Steps that only move [c] on: its request, history and byte count stay. *)
Lemma move_plain s k c c' :
  call_ok c' -> call_count c' = call_count c -> call_bytes c' = call_bytes c ->
  call_move s (set_call s k c') k c c'.
Proof. intros Hok Hc Hb. split_and!; [done|done|apply follows_refl; lia|apply follows_refl; lia]. Qed.

Lemma move_ok s s' k c c' :
  calls_ok s -> stats_ok s -> calls s !! k = Some c -> call_move s s' k c c' ->
  calls_ok s' /\ stats_ok s'.
Proof.
  intros Hs [Hc Hb] Hk (Hcs & Hok & Fc & Fb). split.
  - unfold calls_ok. rewrite Hcs. by apply Forall_insert.
  - unfold stats_ok. rewrite Hcs, !(zsum_insert _ _ _ _ _ Hk).
    split; [eapply follows_total; [apply wrap_int32_add|done|done]
           |eapply follows_total; [apply wrap_int_add|done|done]].
Qed.

(** Becoming [CReturned false] or failing is always sound. *)
Lemma call_ok_pc c p : call_ok c -> pc_ok (c <| c_pc := p |>) -> call_ok (c <| c_pc := p |>).
Proof. intros [] Hp. by split. Qed.

Lemma Server_dispatch_ok (rs rs' : Server) req w w' r :
  Server_dispatch rs req w = Ret (rs', w', r) -> r_ok r = true.
Proof.
  unfold Server_dispatch, Service_dispatch. intros Hd.
  destruct (str_slice_to _ _) as [sn|]; [cbn [mbind outcome_bind] in Hd|done].
  destruct (str_slice_from _ _) as [mn|]; [cbn [mbind outcome_bind] in Hd|done].
  cbn [services] in Hd. destruct (services rs !! sn) as [svc|]; [|done].
  destruct (methods svc !! mn) as [m|]; [|done].
  destruct (Func m w _) as [[w1 v]|]; [|done]. cbn in Hd. by simplify_eq.
Qed.

(** Reduce a call with known fields. *)
Ltac open_call c :=
  destruct c as [req reply0 pc h args rcv lg];
  cbn [c_req c_reply0 c_pc c_handler c_args c_received c_log] in *; subst.

Lemma start_handler_ok c i :
  call_ok c -> c_handler c = HNone ->
  call_ok (start_handler c i) /\ call_count (start_handler c i) = call_count c /\
  (call_bytes c = call_bytes (c <| c_pc := PWait i |>) ->
   call_bytes (start_handler c i) = call_bytes c).
Proof.
  intros [H1 H2 H3 H4 H5] Hh. unfold start_handler. open_call c.
  unfold handler_ok in H3. cbn in H3. subst.
  destruct (i_server i); split_and!; try done; by intros <-.
Qed.

Lemma processReq_start_ok s k c :
  call_ok c -> c_pc c = PStart ->
  call_move s (set_call s k (processReq_start (net s) c)) k c (processReq_start (net s) c).
Proof.
  intros Hok Hpc. pose proof (co_pc c Hok) as Hh. unfold pc_ok in Hh. rewrite Hpc in Hh.
  unfold processReq_start. generalize (readEndnameInfo (net s) (req_endname (c_req c))). intros i.
  destruct (start_handler_ok c i Hok Hh) as (Hs & Hc & Hb).
  destruct (_ && _); [destruct (i_reliable i)|]; apply move_plain; try done.
  - apply Hb. unfold call_bytes. by rewrite Hpc.
  - by apply call_ok_pc.
  - unfold call_bytes. by rewrite Hpc.
  - apply call_ok_pc; [done|]. by left.
  - unfold call_bytes. by rewrite Hpc.
Qed.

Lemma processReq_drop_ok s k c i rnd :
  call_ok c -> c_pc c = PDrop i ->
  call_move s (set_call s k (processReq_drop c i rnd)) k c (processReq_drop c i rnd).
Proof.
  intros Hok Hpc. pose proof (co_pc c Hok) as Hh. unfold pc_ok in Hh. rewrite Hpc in Hh.
  unfold processReq_drop. destruct (start_handler_ok c i Hok Hh) as (Hs & Hc & Hb).
  destruct (_ && _); apply move_plain; try done.
  - apply call_ok_pc; [done|]. by left.
  - unfold call_bytes. by rewrite Hpc.
  - apply Hb. unfold call_bytes. by rewrite Hpc.
Qed.

Lemma processReq_receive_ok s k c c' i :
  call_ok c -> c_pc c = PWait i -> processReq_receive c i = Some c' ->
  call_move s (set_call s k c') k c c'.
Proof.
  intros [H1 H2 H3 H4 H5] Hpc. unfold processReq_receive, handler_ok in *.
  destruct (c_handler c) as [| |r|] eqn:Hh; try done. intros [= <-].
  apply move_plain; [|done|unfold call_bytes; by rewrite Hpc].
  destruct H3 as (x & Hx & Hr). split; try done; cbn; [by exists x|].
  split; [done|]. by exists x.
Qed.

Lemma processReq_tick_ok s k c i :
  call_ok c -> c_pc c = PWait i ->
  call_move s (set_call s k (processReq_tick (net s) c i)) k c (processReq_tick (net s) c i).
Proof.
  intros Hok Hpc. unfold processReq_tick. case_match; apply move_plain; try done.
  - by apply call_ok_pc.
  - unfold call_bytes. by rewrite Hpc.
Qed.

Lemma processReq_final_ok s k c c' i r rnd1 rnd2 rn :
  call_ok c -> c_pc c = PFinal i r -> processReq_final (net s) c i r rnd1 rnd2 = (rn, c') ->
  call_move s (set_call (s <| net := rn |>) k c') k c c'.
Proof.
  intros Hok Hpc. pose proof (co_pc c Hok) as Hp. unfold pc_ok in Hp. rewrite Hpc in Hp.
  assert (call_bytes c = if c_received c then len (req_args (c_req c)) else 0) as Hb0.
  { unfold call_bytes. rewrite Hpc. lia. }
  assert (forall q late, (q = no_reply \/ replied c q) ->
    call_ok (c <| c_pc := PSend q late |>)) as Hsend.
  { intros q late Hq. by apply call_ok_pc. }
  assert (forall q late, q = no_reply \/ late = true /\ replied c q ->
    call_move s (set_call (s <| net := net s |>) k (c <| c_pc := PSend q late |>)) k c
      (c <| c_pc := PSend q late |>)) as Hplain.
  { intros q late Hq. split_and!; [done|apply Hsend; tauto|right; split; [done|apply Z.sub_diag]|].
    right. split; [done|]. rewrite Hb0. unfold call_bytes, len. cbn.
    destruct (c_received c), Hq as [->|[-> _]]; try destruct late; cbn; lia. }
  unfold processReq_final. destruct r as [r|]; [|intros [= <- <-]; apply Hplain; by left].
  destruct (isServerDead _ _ _ _); [intros [= <- <-]; apply Hplain; by left|].
  destruct (negb (i_reliable i) && _); [intros [= <- <-]; apply Hplain; by left|].
  destruct (i_longreordering i && _); [intros [= <- <-]; apply Hplain; by right|].
  intros [= <- <-]. split_and!; [done|apply Hsend; by right|right; split; [done|apply Z.sub_diag]|].
  left. cbn [net set_call set_field bytes]. f_equal. rewrite Hb0. unfold call_bytes. cbn. destruct (c_received c); lia.
Qed.

Lemma processReq_reply_ok s k c c' r late rn :
  call_ok c -> c_pc c = PSend r late -> processReq_reply (net s) c r late = Ret (rn, c') ->
  call_move s (set_call (s <| net := rn |>) k c') k c c'.
Proof.
  intros Hok Hpc. pose proof (co_pc c Hok) as Hp. unfold pc_ok in Hp. rewrite Hpc in Hp.
  unfold processReq_reply, Call_finish.
  destruct (r_ok r) eqn:Hr.
  - destruct (Decode (c_reply0 c) (r_reply r)) as [v ok] eqn:Hd. destruct ok; [|done].
    cbn [mbind outcome_bind]. intros [= <- <-].
    destruct Hp as [->|Hrep]; [done|]. pose proof Hrep as (_ & x & Hx & Hxr).
    split_and!; [done|apply call_ok_pc; [done|]; by exists r|right; split; [by destruct late|apply Z.sub_diag]|].
    match goal with |- follows _ _ _ ?d =>
      assert (d = if late then len (r_reply r) else 0) as -> end.
    { unfold call_bytes. rewrite Hpc. cbn. rewrite Hx, Hxr. destruct (c_received c), late; lia. }
    destruct late; [by left|by right].
  - cbn [mbind outcome_bind]. intros [= <- <-].
    destruct Hp as [->|(_ & x & Hx & Hxr)].
    + split_and!; [done|by apply call_ok_pc|right; split; [by destruct late|apply Z.sub_diag]|].
      match goal with |- follows _ _ _ ?d => assert (d = 0) as -> end.
      { unfold call_bytes, len. rewrite Hpc. cbn. destruct (c_received c), late; cbn; lia. }
      destruct late; [|by right]. left. cbn. f_equal.
    + pose proof (co_log c Hok) as Hl. rewrite Hx, Forall_singleton, <- Hxr in *.
      destruct Hl as (rs & rs' & Hd). apply Server_dispatch_ok in Hd. congruence.
Qed.

Lemma receive_ok s k c c' rn :
  call_ok c -> c_pc c = CSending -> receive (net s) c = (rn, c') ->
  call_move s (set_call (s <| net := rn |>) k c') k c c'.
Proof.
  intros Hok Hpc. pose proof (co_pc c Hok) as Hp. unfold pc_ok in Hp. rewrite Hpc in Hp.
  destruct Hp as [Hh Hr]. intros [= <- <-].
  assert (call_count c = 0 /\ call_bytes c = 0) as [Hc Hb].
  { unfold call_count, call_bytes. by rewrite Hr, Hpc. }
  destruct Hok. split_and!; [done|by split|left; by rewrite Hc|].
  left. rewrite Hb. cbn [net set_call set_field bytes]. f_equal. unfold call_bytes. cbn. lia.
Qed.

Lemma handler_run_ok s k c c' sid rs rs' w' :
  call_ok c -> c_handler c = HRunning sid -> handler_run rs (world s) c sid = Ret (rs', w', c') ->
  call_move s (set_call (s <| heap := <[sid := rs']> (heap s) |> <| world := w' |>) k c') k c c' /\
  srv_count rs' = srv_count rs +! 1 /\ services rs' = services rs /\
  exists x, c_log c' = c_log c ++ [x] /\ x_sid x = sid /\ x_before x = world s /\ x_after x = w'.
Proof.
  intros Hok Hh. pose proof (co_handler c Hok) as Hl. unfold handler_ok in Hl. rewrite Hh in Hl.
  unfold handler_run. destruct (Server_dispatch rs (c_req c) (world s)) as [[[rs1 w1] r]|] eqn:Hd;
    [|done].
  cbn [mbind outcome_bind]. intros [= <- <- <-]. split.
  - destruct Hok as [H1 H2 H3 H4 H5]. unfold pc_ok, replied in H4. rewrite Hh in H4.
    open_call c. cbn [set_field c_log c_handler c_req c_reply0 c_pc c_args c_received].
    split_and!; [done|split; cbn|by right; split; [|apply Z.sub_diag]|].
    + done.
    + done.
    + unfold handler_ok. cbn. by eexists.
    + unfold pc_ok, replied. cbn. destruct pc as [| | | |i [q|]|q late|[|] v]; try naive_solver.
    + apply Forall_singleton. by exists rs, rs1.
    + right. split; [done|]. unfold call_bytes. cbn.
      destruct pc as [| | | |i [q|]|q late|[|] v]; try apply Z.sub_diag. naive_solver.
  - unfold Server_dispatch in Hd.
    destruct (str_slice_to _ _) as [sn|]; [cbn [mbind outcome_bind] in Hd|done].
    destruct (str_slice_from _ _) as [mn|]; [cbn [mbind outcome_bind] in Hd|done].
    cbn [services] in Hd. destruct (services rs !! sn) as [svc|]; [|done].
    destruct (Service_dispatch _ _ _ _) as [[w2 r2]|]; [|done]. cbn in Hd. simplify_eq.
    split_and!; [done|done|]. eexists. split; [done|]. done.
Qed.

(** ** The invariant of the system *)

(** Every server's counter is the number of executions on it. *)
Definition executions (sid : nat) c : Z :=
  len (filter (fun x => x_sid x = sid) (c_log c)).

Definition servers_ok s : Prop :=
  forall sid rs, heap s !! sid = Some rs -> srv_count rs = wrap_int (zsum (executions sid) (calls s)).

Lemma start_handler_log c i : c_log (start_handler c i) = c_log c.
Proof. unfold start_handler. by destruct (i_server i). Qed.

Lemma call_exec_move s s' k c ev :
  call_ok c -> call_exec s k c ev = Some (Ret s') ->
  exists c', call_move s s' k c c' /\ c_log c' = c_log c /\ heap s' = heap s /\ world s' = world s.
Proof.
  intros Hok. unfold call_exec.
  destruct (c_pc c) as [| |i|i|i r|r late|ok v] eqn:Hpc; destruct ev; try done.
  - destruct (receive (net s) c) as [rn c'] eqn:Hr. intros [= <-]. exists c'.
    split; [by apply receive_ok|]. by injection Hr as _ <-.
  - case_match; [|done]. intros [= <-].
    exists (c <| c_pc := CReturned false (c_reply0 c) |>). split; [|done].
    apply move_plain; [by apply call_ok_pc|done|]. unfold call_bytes. by rewrite Hpc.
  - intros [= <-]. exists (processReq_start (net s) c).
    split; [by apply processReq_start_ok|]. split; [|done].
    unfold processReq_start. repeat case_match; rewrite ?start_handler_log; done.
  - intros [= <-]. exists (processReq_drop c i rnd).
    split; [by apply processReq_drop_ok|]. split; [|done].
    unfold processReq_drop. case_match; rewrite ?start_handler_log; done.
  - destruct (processReq_receive c i) as [c'|] eqn:Hr; [|done]. cbn [mbind option_bind].
    intros [= <-]. exists c'. split; [by eapply processReq_receive_ok|]. split; [|done].
    unfold processReq_receive in Hr. destruct (c_handler c); try done. by injection Hr as <-.
  - intros [= <-]. exists (processReq_tick (net s) c i).
    split; [by apply processReq_tick_ok|]. split; [|done]. unfold processReq_tick. by case_match.
  - destruct (processReq_final _ _ _ _ _ _) as [rn c'] eqn:Hr. intros [= <-]. exists c'.
    split; [by eapply processReq_final_ok|]. split; [|done].
    unfold processReq_final in Hr. repeat case_match; by injection Hr as _ <-.
  - destruct (processReq_reply _ _ _ _) as [[rn c']|] eqn:Hr; [|done]. cbn [mbind outcome_bind].
    intros [= <-]. exists c'. split; [by eapply processReq_reply_ok|]. split; [|done].
    unfold processReq_reply, Call_finish in Hr. destruct (r_ok r).
    + destruct (Decode _ _) as [v ok]. destruct ok; [|done]. cbn in Hr. by injection Hr as _ <-.
    + cbn in Hr. by injection Hr as _ <-.
Qed.

(** What one event does to the calls: nothing, a new call, a step of the
    goroutines of one call, or the execution of one handler. *)
Inductive sys_move s s' : Prop :=
| move_none :
    calls s' = calls s -> world s' = world s ->
    count (net s') = count (net s) -> bytes (net s') = bytes (net s) ->
    (heap s' = heap s \/ exists rs, heap s' = heap s ++ [rs] /\ srv_count rs = 0) -> sys_move s s'
| move_begin ce meth args reply0 :
    calls s' = calls s ++ [Call_begin ce meth args reply0] -> net s' = net s ->
    heap s' = heap s -> world s' = world s -> sys_move s s'
| move_call k c c' :
    calls s !! k = Some c -> (call_ok c -> call_move s s' k c c') -> c_log c' = c_log c ->
    heap s' = heap s -> world s' = world s -> sys_move s s'
| move_handler k c c' sid rs rs' x :
    calls s !! k = Some c -> (call_ok c -> call_move s s' k c c') ->
    heap s !! sid = Some rs -> heap s' = <[sid := rs']> (heap s) ->
    srv_count rs' = srv_count rs +! 1 -> c_log c' = c_log c ++ [x] -> x_sid x = sid ->
    x_before x = world s -> x_after x = world s' -> sys_move s s'.

Lemma fold_AddService_count svcs (rs : Server) :
  srv_count (fold_left AddService svcs rs) = srv_count rs.
Proof. revert rs. induction svcs as [|svc svcs IH]; intros rs; cbn; [done|]. by rewrite IH. Qed.

Lemma net_exec_move ev s s' : calls_ok s -> net_exec ev s = Some (Ret s') -> sys_move s s'.
Proof.
  intros Hcs. 
  assert (forall k, match calls s !! k with Some c => call_exec s k c ev | None => None end
    = Some (Ret s') -> sys_move s s') as Hcall.
  { intros k. destruct (calls s !! k) as [c|] eqn:Hk; [|done]. intros Hc.
    pose proof (Forall_lookup_1 _ _ _ _ Hcs Hk) as Hok.
    destruct (call_exec_move _ _ _ _ _ Hok Hc) as (c' & Hm & Hl & Hh & Hw).
    by eapply (move_call s s' k c c'). }
  destruct ev as [e m a r|k|k|k|k rnd|k|k|k|k r1 r2|k|svcs|e|n sid|n|e n|e b|b|b|b|];
    cbn [net_exec]; try (exact (Hcall k)); unfold api;
    try (intros [= <-]; apply move_none; try done; by left).
  - destruct (ends (net s) !! e) as [ce|]; [|done]. cbn [mbind option_bind]. intros [= <-].
    by eapply move_begin.
  - destruct (calls s !! k) as [c|] eqn:Hk; [|done]. cbn [mbind option_bind]. unfold handler_exec.
    destruct (c_handler c) as [|sid| |] eqn:Hh; try done.
    destruct (heap s !! sid) as [rs|] eqn:Hrs; [|done]. cbn [mbind option_bind].
    destruct (handler_run rs (world s) c sid) as [[[rs' w'] c']|] eqn:Hr; [|done].
    cbn [mbind outcome_bind]. intros [= <-].
    pose proof (Forall_lookup_1 _ _ _ _ Hcs Hk) as Hok.
    destruct (handler_run_ok s k c c' sid rs rs' w' Hok Hh Hr)
      as (Hm & Hc & _ & x & Hx & Hs & Hb & Ha).
    by eapply (move_handler s _ k c c' sid rs rs' x).
  - intros [= <-]. apply move_none; try done. right. eexists. split; [reflexivity|].
    by rewrite fold_AddService_count.
  - unfold MakeEnd. destruct (ends (net s) !! e); [done|]. cbn [mbind outcome_bind].
    intros [= <-]. apply move_none; try done. by left.
  - case_decide; [|done]. intros [= <-]. apply move_none; try done. by left.
  - unfold Cleanup. destruct (done_closed (net s)); [done|]. cbn [mbind outcome_bind].
    intros [= <-]. apply move_none; try done. by left.
Qed.

Definition log_bound s : Prop :=
  Forall (fun c => Forall (fun x => (x_sid x < length (heap s))%nat) (c_log c)) (calls s).

Record net_inv s : Prop := {
  ni_calls : calls_ok s;
  ni_stats : stats_ok s;
  ni_servers : servers_ok s;
  ni_bound : log_bound s;
}.

Lemma executions_none s sid : log_bound s -> (length (heap s) <= sid)%nat ->
  zsum (executions sid) (calls s) = 0.
Proof.
  unfold log_bound. intros Hb Hs. induction Hb as [|c cs Hc _ IH]; [done|].
  change (executions sid c + zsum (executions sid) cs = 0). rewrite IH.
  unfold executions. assert (filter (fun x => x_sid x = sid) (c_log c) = []) as ->; [|done].
  induction Hc as [|x l Hx _ IHl]; [done|]. rewrite filter_cons_False by lia. exact IHl.
Qed.

Lemma executions_log sid c c' : c_log c' = c_log c -> executions sid c' = executions sid c.
Proof. unfold executions. by intros ->. Qed.

Lemma log_bound_grow (l : list Call) (n n' : nat) : (n <= n')%nat ->
  Forall (fun c => Forall (fun x => (x_sid x < n)%nat) (c_log c)) l ->
  Forall (fun c => Forall (fun x => (x_sid x < n')%nat) (c_log c)) l.
Proof.
  intros Hn Hl. eapply Forall_impl; [exact Hl|]. intros c Hc.
  eapply Forall_impl; [exact Hc|]. cbn. lia.
Qed.

Lemma none_inv s s' :
  net_inv s -> calls s' = calls s -> count (net s') = count (net s) ->
  bytes (net s') = bytes (net s) ->
  (heap s' = heap s \/ exists rs, heap s' = heap s ++ [rs] /\ srv_count rs = 0) -> net_inv s'.
Proof.
  intros [Hc Hst Hsv Hb] Hcs Hn Hby Hh. split.
  - unfold calls_ok. by rewrite Hcs.
  - unfold stats_ok. by rewrite Hcs, Hn, Hby.
  - intros sid rs Hs. rewrite Hcs. destruct Hh as [Hh|(rs0 & Hh & H0)]; rewrite Hh in Hs; [by apply Hsv|].
    apply lookup_app_Some in Hs as [Hs|[Hle Hs]]; [by apply Hsv|].
    apply list_lookup_singleton_Some in Hs as [_ <-]. by rewrite H0, executions_none.
  - unfold log_bound. rewrite Hcs. eapply log_bound_grow; [|exact Hb].
    destruct Hh as [->|(rs0 & -> & _)]; [done|]. rewrite length_app. lia.
Qed.

Lemma begin_inv s s' ce meth args reply0 :
  net_inv s -> calls s' = calls s ++ [Call_begin ce meth args reply0] -> net s' = net s ->
  heap s' = heap s -> net_inv s'.
Proof.
  intros [Hc [Hs1 Hs2] Hsv Hb] Hcs Hn Hh. split.
  - unfold calls_ok. rewrite Hcs. apply Forall_app. split; [done|]. by repeat constructor.
  - unfold stats_ok. rewrite Hcs, Hn, !zsum_app. cbn. by rewrite !Z.add_0_r.
  - intros sid rs. rewrite Hh, Hcs, zsum_app. intros Hs. rewrite (Hsv sid rs Hs). cbn.
    by rewrite Z.add_0_r.
  - unfold log_bound. rewrite Hcs, Hh. apply Forall_app. split; [done|]. by repeat constructor.
Qed.

Lemma call_inv s s' k c c' :
  net_inv s -> calls s !! k = Some c -> (call_ok c -> call_move s s' k c c') ->
  c_log c' = c_log c -> heap s' = heap s -> net_inv s'.
Proof.
  intros [Hc Hst Hsv Hb] Hk Hm Hl Hh. pose proof (Forall_lookup_1 _ _ _ _ Hc Hk) as Hok.
  specialize (Hm Hok). pose proof Hm as (Hcs & _).
  destruct (move_ok s s' k c c' Hc Hst Hk Hm) as [Hc' Hst']. split; try done.
  - intros sid rs. rewrite Hh, Hcs, (zsum_insert _ _ _ _ _ Hk), (executions_log _ _ _ Hl).
    rewrite Z.sub_diag, Z.add_0_r. apply Hsv.
  - unfold log_bound. rewrite Hcs, Hh. apply Forall_insert; [done|].
    rewrite Hl. by apply (Forall_lookup_1 _ _ _ _ Hb Hk).
Qed.

Lemma handler_inv s s' k c c' sid rs rs' x :
  net_inv s -> calls s !! k = Some c -> (call_ok c -> call_move s s' k c c') ->
  heap s !! sid = Some rs -> heap s' = <[sid := rs']> (heap s) ->
  srv_count rs' = srv_count rs +! 1 -> c_log c' = c_log c ++ [x] -> x_sid x = sid -> net_inv s'.
Proof.
  intros [Hc Hst Hsv Hb] Hk Hm Hrs Hh Hn Hl Hx.
  pose proof (Forall_lookup_1 _ _ _ _ Hc Hk) as Hok. pose proof (Hm Hok) as Hmv.
  pose proof Hmv as (Hcs & _).
  destruct (move_ok s s' k c c' Hc Hst Hk Hmv) as [Hc' Hst']. split; try done.
  - intros sid1 rs1. rewrite Hh, Hcs, (zsum_insert _ _ _ _ _ Hk).
    assert (executions sid1 c' - executions sid1 c = if decide (sid1 = sid) then 1 else 0) as ->.
    { unfold executions. rewrite Hl, filter_app, len_app. cbn. rewrite Hx.
      case_decide; case_decide; try congruence; unfold len; cbn; lia. }
    intros [(<- & <- & _)|[Hne Hs]]%list_lookup_insert_Some.
    + rewrite decide_True, Hn, (Hsv _ _ Hrs) by done. apply wrap_int_add.
    + rewrite decide_False by done. rewrite Z.add_0_r. by apply Hsv.
  - unfold log_bound. rewrite Hcs, Hh, length_insert. apply Forall_insert; [done|].
    rewrite Hl. apply Forall_app. split; [by apply (Forall_lookup_1 _ _ _ _ Hb Hk)|].
    apply Forall_singleton. rewrite Hx. by eapply lookup_lt_Some.
Qed.

Lemma net_reachable_inv s : net_reachable s -> net_inv s.
Proof.
  induction 1 as [w|s ev s' _ IH Hex].
  - split; [apply Forall_nil_2|done|intros sid rs Hs; discriminate Hs|apply Forall_nil_2].
  - destruct (net_exec_move ev s s' (ni_calls s IH) Hex).
    + by eapply none_inv.
    + by eapply begin_inv.
    + by eapply call_inv.
    + by eapply handler_inv.
Qed.

End props.
