(* ===== verification/NetTheorems.v ===== *)
(** * Theorems about labrpc

    What the simulated network promises to the peers and to the harness: a
    request runs the method its name spells or ends the process, a call runs
    its handler at most once and returns the handler's reply, a call on a
    disabled end fails without running anything, a server that was taken off
    the network answers none of the calls whose last check is still to come,
    the statistics are exact, and a call on a reliable network completes in
    whatever run leaves its link alone. *)

From Stdlib Require Import Ascii.
From S2P Require Import Prelude Labrpc NetCalls NetProps.
Open Scope go_scope.

(** ** Method names *)

Definition is_dot (c : ascii) : bool := bool_decide (c = "."%char).

Fixpoint no_dot (s : string) : bool :=
  match s with
  | EmptyString => true
  | String c s => negb (is_dot c) && no_dot s
  end.

Lemma last_dot_none s i : no_dot s = true -> last_dot s i = -1.
Proof.
  revert i. induction s as [|c s IH]; intros i; cbn; [done|]. intros [Hc Hs]%andb_prop.
  rewrite IH by done. cbn. unfold is_dot in Hc. by destruct (bool_decide _).
Qed.

Lemma last_dot_split svc meth i :
  0 <= i -> no_dot meth = true ->
  last_dot (svc +:+ String "."%char meth) i = i + str_len svc.
Proof.
  intros Hi Hm. revert i Hi. induction svc as [|c svc IH]; intros i Hi.
  - change (EmptyString +:+ ?m) with m. cbn [last_dot]. rewrite last_dot_none by done.
    rewrite Z.eqb_refl, bool_decide_eq_true_2 by done. unfold str_len. cbn. lia.
  - change (String c svc +:+ ?m) with (String c (svc +:+ m)). cbn [last_dot].
    rewrite IH by lia. unfold str_len. cbn [String.length].
    destruct (Z.eqb_spec (i + 1 + Z.of_nat (String.length svc)) (-1)); lia.
Qed.

Lemma substring_prefix a b : String.substring 0 (String.length a) (a +:+ b) = a.
Proof.
  induction a as [|c a IH]; [by destruct b|].
  change (String c (String.substring 0 (String.length a) (a +:+ b)) = String c a). by rewrite IH.
Qed.

Lemma substring_all a : String.substring 0 (String.length a) a = a.
Proof. induction a as [|c a IH]; cbn; [done|]. by rewrite IH. Qed.

Lemma substring_suffix a b :
  String.substring (String.length a) (String.length b) (a +:+ b) = b.
Proof. induction a as [|c a IH]; [apply substring_all|exact IH]. Qed.

Lemma str_length_app a b : String.length (a +:+ b) = (String.length a + String.length b)%nat.
Proof.
  induction a as [|c a IH]; [done|].
  change (S (String.length (a +:+ b)) = S (String.length a + String.length b)). by rewrite IH.
Qed.

Lemma str_append_assoc (a b c : string) : (a +:+ b) +:+ c = a +:+ (b +:+ c).
Proof.
  induction a as [|x a IH]; [done|].
  change (String x ((a +:+ b) +:+ c) = String x (a +:+ (b +:+ c))). by rewrite IH.
Qed.

Lemma str_slices svc meth :
  let s := svc +:+ String "."%char meth in
  str_slice_to s (str_len svc) = Ret svc /\ str_slice_from s (str_len svc + 1) = Ret meth.
Proof.
  cbv zeta. unfold str_slice_to, str_slice_from, str_len. rewrite str_length_app. cbn [String.length].
  rewrite !decide_True by lia. rewrite Nat2Z.id, substring_prefix. split; [done|].
  replace (svc +:+ String "."%char meth) with ((svc +:+ String "."%char EmptyString) +:+ meth)
    by by rewrite str_append_assoc.
  replace (Z.to_nat (Z.of_nat (String.length svc) + 1))
    with (String.length (svc +:+ String "."%char EmptyString)) by (rewrite str_length_app; cbn [String.length]; lia).
  replace (String.length svc + S (String.length meth) -
    String.length (svc +:+ String "."%char EmptyString))%nat with (String.length meth)
    by (rewrite str_length_app; cbn [String.length]; lia).
  by rewrite substring_suffix.
Qed.

(** Every name is without a dot or split at its last one. *)
Lemma dot_cases s :
  no_dot s = true \/ exists svc meth, s = svc +:+ String "."%char meth /\ no_dot meth = true.
Proof.
  induction s as [|c s [IH|(svc & meth & -> & IH)]]; [by left| |].
  - destruct (is_dot c) eqn:Hc.
    + right. exists EmptyString, s. apply bool_decide_eq_true in Hc as ->. done.
    + left. cbn. by rewrite Hc, IH.
  - right. by exists (String c svc), meth.
Qed.

(** ** Services *)

Section services.
Context {W V : Type}.

Lemma fold_methods_lookup (ms : list (Method W V)) (acc : gmap string (Method W V)) (mn : string)
    (m : Method W V) :
  NoDup (map m_Name ms) -> (forall x, x ∈ ms -> acc !! m_Name x = None) ->
  fold_left (fun acc m => if suitable m then <[m_Name m := m]> acc else acc) ms acc !! mn = Some m <->
  acc !! mn = Some m \/ (m ∈ ms /\ suitable m = true /\ m_Name m = mn).
Proof.
  revert acc. induction ms as [|x ms IH]; intros acc Hnd Hacc; cbn [fold_left].
  { set_solver. }
  cbn [map] in Hnd. apply NoDup_cons in Hnd as [Hx Hnd].
  assert (forall y, y ∈ ms -> m_Name y <> m_Name x) as Hne.
  { intros y Hy Heq. apply Hx. rewrite <- Heq. by apply list_elem_of_fmap_2. }
  pose proof (Hacc x ltac:(left)) as Hxacc.
  rewrite IH; [|done|].
  - rewrite elem_of_cons. destruct (suitable x) eqn:Hs.
    + rewrite lookup_insert_Some. split.
      * intros [[[<- <-]|[_ H]]|H]; [right; auto|by left|right; tauto].
      * intros [H|([->|Hin] & Hm & <-)]; [left; right|left; by left|right; done].
        split; [|done]. intros <-. congruence.
    + split; [tauto|]. intros [?|([->|?] & ? & ?)]; [tauto|congruence|tauto].
  - intros y Hy. destruct (suitable x); [|apply Hacc; by right].
    rewrite lookup_insert_ne; [apply Hacc; by right|]. apply not_eq_sym. auto.
Qed.

Lemma suitable_iff (m : Method W V) :
  suitable m = true <-> PkgPath m = EmptyString /\ NumIn m = 3 /\ In2_Ptr m = true /\ NumOut m = 0.
Proof.
  unfold suitable. rewrite negb_true_iff, !orb_false_iff, !negb_false_iff, !Z.eqb_eq.
  rewrite bool_decide_eq_false. destruct (decide (PkgPath m = EmptyString)); tauto.
Qed.

(** MakeService offers exactly the methods of the receiver that look like
    handlers: exported, two parameters of which the second is a pointer, no
    result. *)
Theorem MakeService_offers_handlers (typeName mn : string) (ms : list (Method W V)) (m : Method W V) :
  NoDup (map m_Name ms) ->
  methods (MakeService typeName ms) !! mn = Some m <->
  m ∈ ms /\ m_Name m = mn /\ PkgPath m = EmptyString /\ NumIn m = 3 /\ In2_Ptr m = true /\ NumOut m = 0.
Proof.
  intros Hnd. unfold MakeService. cbn [methods].
  rewrite fold_methods_lookup; [|done|intros; apply lookup_empty].
  rewrite lookup_empty.
  rewrite suitable_iff. split; [|tauto]. intros [?|?]; [done|tauto].
Qed.

End services.

Section theorems.
Context {W T V : Type} {C : Codec T V}.
#[local] Notation Call := (Call W T V).
#[local] Notation Sys := (Sys W T V).
#[local] Notation NetEvent := (NetEvent W V).
#[local] Notation Server := (Server W V).
Implicit Types (s : Sys) (c : Call).

(** ** Dispatch *)

Lemma dispatch_split (rs : Server) (req : reqMsg T) (svc meth : string) (w : W) :
  svcMeth req = svc +:+ String "."%char meth -> no_dot meth = true ->
  Server_dispatch rs req w =
    match services rs !! svc with
    | None => Panic Fatal
    | Some service =>
        '(w, r) ← Service_dispatch service meth req w;
        Ret (mkServer (services rs) (srv_count rs +! 1), w, r)
    end.
Proof.
  intros Hn Hm. unfold Server_dispatch. rewrite Hn, last_dot_split, Z.add_0_l by (done || lia).
  by destruct (str_slices svc meth) as [-> ->].
Qed.

(** A request for a method name without a dot takes the server's process
    down: the name is sliced at -1. *)
Lemma dispatch_without_dot (rs : Server) (req : reqMsg T) (w : W) :
  no_dot (svcMeth req) = true -> Server_dispatch rs req w = Panic SliceOutOfRange.
Proof. intros Hd. unfold Server_dispatch. by rewrite last_dot_none. Qed.

(** C38: what becomes of a request on a server that was given, as its last
    service, the methods [ms] of a receiver of type [typeName].  A name
    without a dot is sliced out of range, which ends the process.  A request
    "typeName.M" where [ms] has a method M that is exported, has two
    parameters of which the second is a pointer, and no result, runs that
    method on the caller's arguments: the server counts the request and
    replies with the encoded result, and a panic of the method is the
    dispatcher's.  Where M is no such method, or there is no service of that
    name, the dispatcher ends the process.  Requests to the services the
    server had before are treated as before. *)
Theorem dispatch_by_name {sendable : V -> Prop} {COk : CodecOk C sendable} (rs0 : Server) (e : iface)
    (typeName : string) (ms : list (Method W V)) (args : V) (w : W) :
  NoDup (map m_Name ms) -> sendable args ->
  let rs := AddService rs0 (MakeService typeName ms) in
  let dispatch rs nm := Server_dispatch rs (mkReqMsg e nm (TypeOf args) (Encode args)) w in
  (forall nm, no_dot nm = true -> dispatch rs nm = Panic SliceOutOfRange) /\
  (forall m, m ∈ ms -> no_dot (m_Name m) = true ->
     PkgPath m = EmptyString /\ NumIn m = 3 /\ In2_Ptr m = true /\ NumOut m = 0 ->
     dispatch rs (typeName +:+ String "."%char (m_Name m)) =
       match Func m w args with
       | Ret (w', reply) =>
           Ret (mkServer (services rs) (srv_count rs0 +! 1), w', mkReplyMsg true (Encode reply))
       | Panic f => Panic f
       end) /\
  (forall mn, no_dot mn = true ->
     ~ (exists m, m ∈ ms /\ m_Name m = mn /\
          PkgPath m = EmptyString /\ NumIn m = 3 /\ In2_Ptr m = true /\ NumOut m = 0) ->
     dispatch rs (typeName +:+ String "."%char mn) = Panic Fatal) /\
  (forall svc mn, no_dot mn = true -> svc <> typeName ->
     (services rs0 !! svc = None -> dispatch rs (svc +:+ String "."%char mn) = Panic Fatal) /\
     dispatch rs (svc +:+ String "."%char mn) =
       match dispatch rs0 (svc +:+ String "."%char mn) with
       | Ret (rs1, w', r) => Ret (mkServer (services rs) (srv_count rs1), w', r)
       | Panic f => Panic f
       end).
Proof.
  intros Hnd Hsend. cbv zeta.
  assert (services (AddService rs0 (MakeService typeName ms)) !! typeName =
    Some (MakeService typeName ms)) as Hsvc by apply lookup_insert_eq.
  split_and!; [intros nm Hd; by apply dispatch_without_dot|intros m Hm Hd Hsu|intros mn Hd Hno|intros svc mn Hd Hne].
  - rewrite (dispatch_split _ _ typeName (m_Name m)), Hsvc by done. unfold Service_dispatch.
    rewrite (proj2 (MakeService_offers_handlers typeName (m_Name m) ms m Hnd)) by done.
    cbn [argsType req_args]. rewrite (Decode_Encode (sendable := sendable)) by done. cbn [fst].
    by destruct (Func m w args) as [[w' reply]|].
  - rewrite (dispatch_split _ _ typeName mn), Hsvc by done. unfold Service_dispatch.
    destruct (methods _ !! mn) as [m|] eqn:Hm; [|done]. exfalso. apply Hno. exists m.
    by apply (MakeService_offers_handlers typeName mn ms m Hnd).
  - rewrite !(dispatch_split _ _ svc mn) by done. cbn [AddService services MakeService name].
    rewrite lookup_insert_ne by done. split; [by intros ->|].
    destruct (services rs0 !! svc) as [service|]; [|done].
    by destruct (Service_dispatch _ _ _ _) as [[w' r]|].
Qed.

(** ** Calls *)

Lemma Server_dispatch_inv (rs rs' : Server) req w w' r :
  Server_dispatch rs req w = Ret (rs', w', r) ->
  services rs' = services rs /\
  exists svc mn service m reply,
    svcMeth req = svc +:+ String "."%char mn /\ no_dot mn = true /\
    services rs !! svc = Some service /\ methods service !! mn = Some m /\
    Func m w (Decode (New (argsType req)) (req_args req)).1 = Ret (w', reply) /\
    r = mkReplyMsg true (Encode reply).
Proof.
  destruct (dot_cases (svcMeth req)) as [Hd|(svc & mn & Hn & Hd)]; [by rewrite dispatch_without_dot|].
  rewrite (dispatch_split _ _ svc mn) by done.
  destruct (services rs !! svc) as [service|] eqn:Hs; [|done]. unfold Service_dispatch.
  destruct (methods service !! mn) as [m|] eqn:Hm; [|done].
  destruct (Func m w _) as [[w1 reply]|] eqn:Hf; [|done]. cbn. intros [= <- <- <-].
  split; [done|]. by exists svc, mn, service, m, reply.
Qed.

(** What a dispatch does depends on the services of the server only. *)
Lemma Server_dispatch_services (rs1 rs2 rs1' : Server) req w w' r :
  services rs1 = services rs2 -> Server_dispatch rs1 req w = Ret (rs1', w', r) ->
  exists rs2', Server_dispatch rs2 req w = Ret (rs2', w', r).
Proof.
  intros Hs. destruct (dot_cases (svcMeth req)) as [Hd|(svc & mn & Hn & Hd)];
    [by rewrite dispatch_without_dot|].
  rewrite !(dispatch_split _ _ svc mn), Hs by done. destruct (services rs2 !! svc); [|done].
  destruct (Service_dispatch _ _ _ _) as [[w1 r1]|]; [|done]. cbn. intros [= _ <- <-]. by eexists.
Qed.

(** Every execution of a handler is the dispatch of its call's request on the
    server object it names. *)
Definition ran_on s c (x : Exec W) : Prop :=
  exists rs rs', heap s !! x_sid x = Some rs /\
    Server_dispatch rs (c_req c) (x_before x) = Ret (rs', x_after x, x_reply x).

Definition runs_ok s : Prop := Forall (fun c => Forall (ran_on s c) (c_log c)) (calls s).

(** Server objects keep their services. *)
Definition heap_grows s s' : Prop :=
  forall sid rs, heap s !! sid = Some rs -> exists rs', heap s' !! sid = Some rs' /\ services rs' = services rs.

Lemma heap_grows_eq s s' : heap s' = heap s -> heap_grows s s'.
Proof. intros Hh sid rs Hs. rewrite Hh. by exists rs. Qed.

Lemma ran_on_grows s s' c c' x :
  heap_grows s s' -> c_req c' = c_req c -> ran_on s c x -> ran_on s' c' x.
Proof.
  intros Hg Hr (rs & rs' & Hs & Hd). destruct (Hg _ _ Hs) as (rs1 & Hs1 & Hsv).
  destruct (Server_dispatch_services rs rs1 rs' _ _ _ _ (eq_sym Hsv) Hd) as (rs2 & Hd2).
  exists rs1, rs2. by rewrite Hr.
Qed.

Lemma log_grows s s' c c' l :
  heap_grows s s' -> c_req c' = c_req c -> Forall (ran_on s c) l -> Forall (ran_on s' c') l.
Proof. intros Hg Hr Hl. eapply Forall_impl; [exact Hl|]. intros x. by apply ran_on_grows. Qed.

Lemma runs_grow s s' :
  heap_grows s s' -> runs_ok s -> Forall (fun c => Forall (ran_on s' c) (c_log c)) (calls s).
Proof. intros Hg Hs. eapply Forall_impl; [exact Hs|]. intros c. by apply log_grows. Qed.

Lemma runs_grows s s' : heap_grows s s' -> calls s' = calls s -> runs_ok s -> runs_ok s'.
Proof. intros Hg Hc Hs. unfold runs_ok. rewrite Hc. by apply (runs_grow s). Qed.

(** What an event does to the server objects and to the history of each
    call. *)
Lemma net_exec_runs ev s s' :
  net_exec ev s = Some (Ret s') -> heap_grows s s' /\ (runs_ok s -> runs_ok s').
Proof.
  assert (forall q, match calls s !! q with Some c => call_exec s q c ev | None => None end
    = Some (Ret s') -> heap_grows s s' /\ (runs_ok s -> runs_ok s')) as Hcall.
  { intros q. destruct (calls s !! q) as [c|] eqn:Hq; [|done]. intros Hx.
    destruct (call_exec_keeps _ _ _ _ _ Hx) as (_ & Hh & _ & c' & Hc & Hr & _ & _ & Hl).
    pose proof (heap_grows_eq s s' Hh) as Hg. split; [done|]. intros Hs. unfold runs_ok. rewrite Hc.
    apply Forall_insert; [by apply (runs_grow s)|]. rewrite Hl.
    by apply (log_grows s s' c), (Forall_lookup_1 _ _ _ _ Hs Hq). }
  assert (heap s' = heap s -> calls s' = calls s -> heap_grows s s' /\ (runs_ok s -> runs_ok s')) as Hplain.
  { intros Hh Hc. pose proof (heap_grows_eq s s' Hh). split; [done|]. by apply runs_grows. }
  destruct ev as [e m a r|q|q|q|q rnd|q|q|q|q r1 r2|q|svcs|e|n sid|n|e n|e b|b|b|b|];
    cbn [net_exec]; try (exact (Hcall q)); unfold api;
    try (intros [= <-]; by apply Hplain).
  - destruct (ends (net s) !! e) as [ce|]; [|done]. cbn [mbind option_bind]. intros [= <-].
    assert (heap_grows s (s <| calls := calls s ++ [Call_begin ce m a r] |>)) as Hg by by apply heap_grows_eq.
    split; [done|]. intros Hs. unfold runs_ok. cbn [set_field calls]. apply Forall_app.
    split; [by apply (runs_grow s)|by repeat constructor].
  - destruct (calls s !! q) as [c|] eqn:Hq; [|done]. cbn [mbind option_bind]. intros Hx.
    destruct (handler_exec_keeps _ _ _ _ Hx) as (sid & rs & rs' & r & _ & Hrs & Hd & _ & Hh & Hc).
    pose proof (Server_dispatch_inv _ _ _ _ _ _ Hd) as [Hsv _].
    assert (heap_grows s s') as Hg.
    { intros sid1 rs1 Hs1. rewrite Hh. destruct (decide (sid1 = sid)) as [->|Hne].
      - exists rs'. rewrite list_lookup_insert_eq by by eapply lookup_lt_Some. split; [done|congruence].
      - exists rs1. by rewrite list_lookup_insert_ne. }
    split; [done|]. intros Hs. unfold runs_ok. rewrite Hc.
    apply Forall_insert; [by apply (runs_grow s)|]. cbn [set_field c_log]. apply Forall_app. split.
    + by apply (log_grows s s' c), (Forall_lookup_1 _ _ _ _ Hs Hq).
    + apply Forall_singleton. apply (ran_on_grows s s' c); [done|done|]. by exists rs, rs'.
  - intros [= <-]. assert (heap_grows s (s <| heap := heap s ++ [fold_left AddService svcs MakeServer] |>)) as Hg.
    { intros sid rs Hs. exists rs. split; [|done]. cbn. by apply lookup_app_l_Some. }
    split; [done|]. by apply runs_grows.
  - unfold MakeEnd. destruct (ends (net s) !! e); [done|]. cbn [mbind outcome_bind]. intros [= <-]. by apply Hplain.
  - case_decide; [|done]. intros [= <-]. by apply Hplain.
  - unfold Cleanup. destruct (done_closed (net s)); [done|]. cbn [mbind outcome_bind]. intros [= <-]. by apply Hplain.
Qed.

Lemma net_reachable_runs s : net_reachable s -> runs_ok s.
Proof.
  induction 1 as [w|s ev s' _ IH Hex]; [by apply Forall_nil_2|].
  destruct (net_exec_runs ev s s' Hex) as [_ Hr]. by apply Hr.
Qed.

(** C28: in every reachable state of the network, whatever was delayed,
    dropped, disconnected or deleted, the handler of a call has run at most
    once.  A call that returned true has run it exactly once: on one server
    object, whose service and method are those the call's method name spells
    around its last dot, on the arguments of the caller; and what the call
    put into the caller's reply variable is the decoding of the encoded
    result of that very execution, the result itself when it can be sent and
    the caller's variable held the zero value of its type. *)
Theorem call_runs_handler_once {sendable : V -> Prop} {COk : CodecOk C sendable} s (k : nat) c :
  net_reachable s -> calls s !! k = Some c -> sendable (c_args c) ->
  (length (c_log c) <= 1)%nat /\
  (forall v, c_pc c = CReturned true v ->
     exists x rs svc mn service (m : Method W V) reply,
       c_log c = [x] /\ heap s !! x_sid x = Some rs /\
       svcMeth (c_req c) = svc +:+ String "."%char mn /\ no_dot mn = true /\
       services rs !! svc = Some service /\ methods service !! mn = Some m /\
       Func m (x_before x) (c_args c) = Ret (x_after x, reply) /\
       Decode (c_reply0 c) (Encode reply) = (v, true) /\
       (sendable reply -> c_reply0 c = New (TypeOf reply) -> v = reply)).
Proof.
  intros Hre Hk Hsend. pose proof (net_reachable_runs s Hre) as Hru. apply net_reachable_inv in Hre as Hr.
  pose proof (Forall_lookup_1 _ _ _ _ (ni_calls s Hr) Hk) as [H1 H2 H3 H4 _]. split.
  - unfold handler_ok in H3. destruct (c_handler c); [rewrite H3; cbn; lia..| |].
    + destruct H3 as (x & -> & _). cbn. lia.
    + destruct H3 as (x & ->). cbn. lia.
  - intros v Hv. unfold pc_ok in H4. rewrite Hv in H4.
    destruct H4 as (r & (_ & x & Hx & Hxr) & Hrok & Hdec).
    pose proof (Forall_lookup_1 _ _ _ _ Hru Hk) as Hrun. cbn beta in Hrun.
    rewrite Hx, Forall_singleton in Hrun. destruct Hrun as (rs & rs' & Hrs & Hd).
    apply Server_dispatch_inv in Hd as (_ & svc & mn & service & m & reply & Hn & Hdot & Hs & Hm & Hf & Hrep).
    rewrite H1, H2, (Decode_Encode (sendable := sendable)) in Hf by done. cbn in Hf.
    rewrite <- Hxr, Hrep in Hdec. cbn [r_reply] in Hdec.
    exists x, rs, svc, mn, service, m, reply. split_and!; try done. intros Hsr H0.
    rewrite H0, (Decode_Encode (sendable := sendable)) in Hdec by done. by injection Hdec.
Qed.

(** A call on an end that is disabled, not connected or connected to no
    server returns false and runs nothing: the receivers' state, the servers
    and the history of the call stay as they are. *)
Theorem unreachable_call_fails s (k : nat) c :
  let e := req_endname (c_req c) in
  calls s !! k = Some c -> c_pc c = PStart ->
  is_enabled (net s) e = false \/ connection (net s) e = INil \/
    server_of (net s) (connection (net s) e) = None ->
  exists s', net_run [NStart k; NReply k] s = Some (Ret s') /\
    calls s' = <[k := c <| c_pc := CReturned false (c_reply0 c) |>]> (calls s) /\
    world s' = world s /\ heap s' = heap s /\ net s' = net s.
Proof.
  cbv zeta. intros Hk Hpc Hdead. cbn [net_run net_exec]. rewrite Hk. cbn [mbind option_bind].
  unfold call_exec. rewrite Hpc. unfold processReq_start.
  assert (i_enabled (readEndnameInfo (net s) (req_endname (c_req c))) &&
    bool_decide (i_servername (readEndnameInfo (net s) (req_endname (c_req c))) <> INil) &&
    bool_decide (i_server (readEndnameInfo (net s) (req_endname (c_req c))) <> None) = false) as ->.
  { unfold readEndnameInfo. cbn. destruct Hdead as [->|[->|Hn]]; [done| |].
    - by rewrite andb_false_r.
    - rewrite Hn. destruct (decide _); by rewrite andb_false_r. }
  cbn [mbind option_bind set_call set_field calls net]. unfold set_call.
  cbn [set_field calls net]. rewrite list_lookup_insert_eq by by eapply lookup_lt_Some.
  cbn [mbind option_bind c_pc]. unfold processReq_reply, Call_finish. cbn.
  eexists. split; [reflexivity|]. cbn. by rewrite list_insert_insert_eq.
Qed.

(** *** A server taken off the network *)

(** The network has received call [c] and either given it to server object
    [sid], registered as [n], or decided that it fails. *)
Definition doomed (n : iface) (sid : nat) c : Prop :=
  match c_pc c with
  | PDrop i | PWait i | PFinal i _ => i_servername i = n /\ i_server i = Some sid
  | PSend r _ => r = no_reply
  | CReturned ok _ => ok = false
  | _ => False
  end.

Lemma start_handler_doomed n sid c i :
  i_servername i = n -> i_server i = Some sid -> doomed n sid (start_handler c i).
Proof. intros Hn Hs. unfold start_handler. by rewrite Hs. Qed.

Lemma call_exec_doomed n sid s s' k c ev :
  server_of (net s) n <> Some sid -> doomed n sid c ->
  calls s !! k = Some c -> call_exec s k c ev = Some (Ret s') ->
  server_of (net s') n = server_of (net s) n /\
  exists c', calls s' = <[k := c']> (calls s) /\ doomed n sid c'.
Proof.
  intros Hs Hd Hk. unfold call_exec. unfold doomed in Hd.
  destruct (c_pc c) as [| |i|i|i r|r late|ok v] eqn:Hpc; destruct ev; try done.
  - intros [= <-]. split; [done|]. eexists. split; [reflexivity|]. unfold processReq_drop.
    destruct Hd. case_match; [done|by apply start_handler_doomed].
  - unfold processReq_receive. destruct (c_handler c); try done. cbn [mbind option_bind].
    intros [= <-]. split; [done|]. by eexists.
  - intros [= <-]. split; [done|]. eexists. split; [reflexivity|]. unfold processReq_tick.
    case_match; [done|]. unfold doomed. by rewrite Hpc.
  - destruct Hd as [Hn Hsid]. unfold processReq_final, isServerDead.
    rewrite Hn, Hsid, (bool_decide_eq_false_2 (server_of (net s) n = Some sid)) by done.
    rewrite orb_true_r. destruct r; intros [= <-]; (split; [done|]); by eexists.
  - subst r. unfold processReq_reply, Call_finish. cbn [r_ok no_reply mbind outcome_bind].
    intros [= <-]. split; [by destruct late|]. by eexists.
Qed.

Lemma handler_exec_doomed n sid s s' k c :
  doomed n sid c -> handler_exec s k c = Some (Ret s') ->
  net s' = net s /\ exists c', calls s' = <[k := c']> (calls s) /\ doomed n sid c'.
Proof.
  intros Hd (x & rs & rs' & r & _ & _ & _ & Hn & _ & Hc)%handler_exec_keeps.
  split; [done|]. eexists. by split.
Qed.

(** A call that is doomed stays so while its server object stays off. *)
Lemma net_exec_doomed n sid s s' k c ev :
  server_of (net s) n <> Some sid -> ev <> NAddServer n sid -> calls s !! k = Some c ->
  doomed n sid c -> net_exec ev s = Some (Ret s') ->
  server_of (net s') n <> Some sid /\ exists c', calls s' !! k = Some c' /\ doomed n sid c'.
Proof.
  intros Hs Hev Hk Hd.
  assert (forall j, match calls s !! j with Some x => call_exec s j x ev | None => None end
    = Some (Ret s') ->
    server_of (net s') n <> Some sid /\ exists c', calls s' !! k = Some c' /\ doomed n sid c') as Hcall.
  { intros j. destruct (calls s !! j) as [x|] eqn:Hj; [|done]. intros Hc.
    destruct (call_exec_keeps _ _ _ _ _ Hc) as ((cn & b & Hn) & _ & _ & x' & Hx' & _).
    rewrite Hn. split; [done|].
    destruct (decide (j = k)) as [->|Hne].
    - simplify_eq. destruct (call_exec_doomed _ _ _ _ _ _ _ Hs Hd Hk Hc) as (_ & c' & Hc' & Hd').
      exists c'. split; [|done]. rewrite Hc'. apply list_lookup_insert_eq. by eapply lookup_lt_Some.
    - exists c. split; [|done]. by rewrite Hx', list_lookup_insert_ne. }
  destruct ev as [e m a r|j|j|j|j rnd|j|j|j|j r1 r2|j|svcs|e|n' sid'|n'|e n'|e b|b|b|b|];
    cbn [net_exec]; try (exact (Hcall j)); unfold api;
    try (intros [= <-]; split; [done|by exists c]).
  - destruct (ends (net s) !! e) as [ce|]; [|done]. cbn [mbind option_bind]. intros [= <-].
    split; [done|]. exists c. split; [|done]. cbn. by apply lookup_app_l_Some.
  - destruct (calls s !! j) as [x|] eqn:Hj; [|done]. cbn [mbind option_bind]. intros Hh.
    destruct (decide (j = k)) as [->|Hne].
    + simplify_eq. destruct (handler_exec_doomed n sid s s' k c Hd Hh) as (Hn & c' & Hc' & Hd').
      rewrite Hn. split; [done|]. exists c'. split; [|done]. rewrite Hc'.
      apply list_lookup_insert_eq. by eapply lookup_lt_Some.
    + unfold handler_exec, handler_run in Hh. destruct (c_handler x) as [|y| |]; try done.
      destruct (heap s !! y) as [rs|]; [|done]. cbn [mbind option_bind] in Hh.
      destruct (Server_dispatch _ _ _) as [[[rs' w'] r]|]; [|done]. cbn [mbind outcome_bind] in Hh.
      injection Hh as <-. split; [done|]. exists c. split; [|done]. cbn.
      by rewrite list_lookup_insert_ne.
  - unfold MakeEnd. destruct (ends (net s) !! e); [done|]. cbn [mbind outcome_bind].
    intros [= <-]. split; [done|by exists c].
  - case_decide; [|done]. intros [= <-]. split; [|by exists c]. cbn. unfold server_of. cbn.
    destruct (decide (n' = n)) as [->|Hne].
    + rewrite lookup_insert_eq. cbn. congruence.
    + by rewrite lookup_insert_ne.
  - intros [= <-]. split; [|by exists c]. cbn. unfold server_of. cbn.
    destruct (decide (n' = n)) as [->|Hne]; [by rewrite lookup_insert_eq|].
    by rewrite lookup_insert_ne.
  - unfold Cleanup. destruct (done_closed (net s)); [done|]. cbn [mbind outcome_bind].
    intros [= <-]. split; [done|by exists c].
Qed.

(** C30: once a server object is no longer the registered one (DeleteServer,
    or AddServer with a new object), a call that was given to it before, and
    for which processReq has not yet made its last check whether the server
    is dead, never returns true, as long as the same object is not registered
    again; what else happens in the network does not matter.  (A call that
    has passed that check before the server is taken off can still return
    true: its reply is already on its way.) *)
Theorem deleted_server_never_replies s s' (evs : list NetEvent) (n : iface) (sid k : nat) c :
  calls s !! k = Some c -> doomed n sid c -> server_of (net s) n <> Some sid ->
  Forall (fun ev => ev <> NAddServer n sid) evs -> net_run evs s = Some (Ret s') ->
  exists c', calls s' !! k = Some c' /\ forall v, c_pc c' <> CReturned true v.
Proof.
  revert s c. induction evs as [|ev evs IH]; intros s c Hk Hd Hs Hf; cbn [net_run].
  - intros [= <-]. exists c. split; [done|]. intros v Hv. unfold doomed in Hd. by rewrite Hv in Hd.
  - apply Forall_cons in Hf as [Hev Hf].
    destruct (net_exec ev s) as [[s1|]|] eqn:Hex; try done. cbn [mbind option_bind].
    destruct (net_exec_doomed n sid s s1 k c ev Hs Hev Hk Hd Hex) as (Hs1 & c1 & Hk1 & Hd1).
    by eapply IH.
Qed.

(** *** Statistics *)

(** C31: in every reachable state GetTotalCount is the number of requests the
    network has received, GetTotalBytes the number of bytes of their
    arguments and of the replies that were sent, and GetCount of a server the
    number of handler executions on it, modulo the counters' widths; GetCount
    of a server that was deleted or never added dereferences nil. *)
Theorem statistics_exact s :
  net_reachable s ->
  GetTotalCount (net s) = wrap_int32 (zsum call_count (calls s)) /\
  GetTotalBytes (net s) = wrap_int (zsum call_bytes (calls s)) /\
  forall n, match server_of (net s) n with
            | None => GetCount (heap s) (net s) n = Panic NilDereference
            | Some sid => forall rs, heap s !! sid = Some rs ->
                GetCount (heap s) (net s) n = Ret (wrap_int (zsum (executions sid) (calls s)))
            end.
Proof.
  intros [_ [Hc Hb] Hsv _]%net_reachable_inv. split_and!; [done|done|].
  intros n. unfold GetCount. destruct (server_of (net s) n) as [sid|]; [|done].
  intros rs Hrs. rewrite Hrs. f_equal. by apply Hsv.
Qed.

(** *** A call on a reliable network *)

(** The network is up and reliable, and its end [e] leads to the server
    object [sid], registered as [n]. *)
Record link (e n : iface) (sid : nat) (rn : Network) : Prop := {
  ln_up : done_closed rn = false;
  ln_reliable : reliable rn = true;
  ln_enabled : is_enabled rn e = true;
  ln_name : connection rn e = n;
  ln_some : n <> INil;
  ln_server : server_of rn n = Some sid;
}.

(** The events that leave such a link as it is: all but those that make the
    network unreliable or shut it down, and those about this end or this
    server name. *)
Definition calm (e n : iface) (ev : NetEvent) : bool :=
  match ev with
  | NMakeEnd d | NConnect d _ => bool_decide (d <> e)
  | NAddServer m _ | NDeleteServer m => bool_decide (m <> n)
  | NEnable d yes => yes || bool_decide (d <> e)
  | NReliable yes => yes
  | NCleanup => false
  | _ => true
  end.

(** The steps of call [k]'s goroutines that move it on (a tick of its timer
    is none). *)
Definition own_step (k : nat) (ev : NetEvent) : bool :=
  match ev with
  | NSend j | NStart j | NHandler j | NRecv j | NFinal j _ _ | NReply j => bool_decide (j = k)
  | _ => false
  end.

(** How many of them are still to come. *)
Definition steps_left c : nat :=
  match c_pc c with
  | CSending => 6
  | PStart => 5
  | PDrop _ => 4
  | PWait _ => match c_handler c with HRunning _ => 4 | _ => 3 end
  | PFinal _ _ => 2
  | PSend _ _ => 1
  | CReturned _ _ => 0
  end.

(** The handler ran once, on server object [sid], and replied [r]. *)
Definition answered (sid : nat) c (r : replyMsg) : Prop :=
  exists x, c_log c = [x] /\ x_sid x = sid /\ x_reply x = r /\ r_ok r = true.

(** The call is on its way over the link. *)
Definition on_way (e n : iface) (sid : nat) c : Prop :=
  req_endname (c_req c) = e /\
  match c_pc c with
  | CSending | PStart => c_log c = [] /\ c_handler c = HNone
  | PWait i =>
      (i_servername i = n /\ i_server i = Some sid /\ i_reliable i = true) /\
      (c_handler c = HRunning sid /\ c_log c = [] \/
       exists r, c_handler c = HDone r /\ answered sid c r)
  | PFinal i (Some r) =>
      (i_servername i = n /\ i_server i = Some sid /\ i_reliable i = true) /\
      c_handler c = HTaken /\ answered sid c r
  | PSend r _ => c_handler c = HTaken /\ answered sid c r
  | CReturned true v =>
      c_handler c = HTaken /\ exists r, answered sid c r /\ Decode (c_reply0 c) (r_reply r) = (v, true)
  | _ => False
  end.

(** Server object [sid] answers the call's request, whatever state the
    receivers are in, with a reply that the caller's variable can take. *)
Definition sid_answers s (sid : nat) c : Prop :=
  exists rs, heap s !! sid = Some rs /\
    forall w, exists rs' w' r v,
      Server_dispatch rs (c_req c) w = Ret (rs', w', r) /\ Decode (c_reply0 c) (r_reply r) = (v, true).

Lemma sid_answers_grows s s' sid c c' :
  heap_grows s s' -> c_req c' = c_req c -> c_reply0 c' = c_reply0 c ->
  sid_answers s sid c -> sid_answers s' sid c'.
Proof.
  intros Hg Hr H0 (rs & Hrs & Hd). destruct (Hg _ _ Hrs) as (rs1 & Hrs1 & Hsv). exists rs1. split; [done|].
  intros w. destruct (Hd w) as (rs' & w' & r & v & Hw & Hv).
  destruct (Server_dispatch_services rs rs1 rs' _ _ _ _ (eq_sym Hsv) Hw) as (rs2 & Hw2).
  exists rs2, w', r, v. by rewrite Hr, H0.
Qed.

Lemma link_counted e n sid rn rn' : counted rn rn' -> link e n sid rn -> link e n sid rn'.
Proof. intros (x & b & ->) []. by split. Qed.

Lemma link_alive e n sid rn i :
  link e n sid rn -> i_servername i = n -> i_server i = Some sid ->
  isServerDead rn e (i_servername i) (i_server i) = false.
Proof.
  intros [_ _ He _ _ Hs] -> ->. unfold isServerDead. by rewrite He, Hs, bool_decide_eq_true_2.
Qed.

Lemma processReq_start_link e n sid rn c :
  link e n sid rn -> req_endname (c_req c) = e -> c_log c = [] ->
  on_way e n sid (processReq_start rn c) /\ steps_left (processReq_start rn c) = 4%nat.
Proof.
  intros [_ Hr He Hc Hn Hs] Hend Hl. unfold processReq_start, start_handler, readEndnameInfo. rewrite Hend.
  cbn. rewrite Hc, decide_True, He, Hr, Hs by done. rewrite !bool_decide_eq_true_2 by done. cbn.
  split; [|done]. split; [done|]. cbn. split; [done|]. by left.
Qed.

Lemma call_exec_on_way e n sid s s' k c ev :
  link e n sid (net s) -> on_way e n sid c -> calls s !! k = Some c -> own_step k ev = true \/ ev = NTick k ->
  call_exec s k c ev = Some (Ret s') ->
  exists c', calls s' !! k = Some c' /\ on_way e n sid c' /\
    (steps_left c' + (if own_step k ev then 1 else 0) = steps_left c)%nat.
Proof.
  intros Hl [He Hw] Hk Hev. apply lookup_lt_Some in Hk as Hlt.
  assert (forall c' rn, calls (set_call (s <| net := rn |>) k c') !! k = Some c') as Hset.
  { intros c' rn. cbn. by rewrite list_lookup_insert_eq. }
  unfold call_exec. destruct (c_pc c) as [| |i|i|i [r|]|r late|[|] v] eqn:Hpc; destruct ev; try done;
    (destruct Hev as [Hev|Hev]; try discriminate Hev); unfold steps_left; rewrite Hpc, ?Hev.
  - intros [= <-]. eexists. split; [apply Hset|]. by split.
  - destruct Hw as [Hlg _]. destruct (processReq_start_link e n sid (net s) c Hl He Hlg) as [H1 H2].
    intros [= <-]. exists (processReq_start (net s) c). split; [apply (Hset _ (net s))|].
    split; [done|]. fold (steps_left (processReq_start (net s) c)). by rewrite H2.
  - unfold processReq_receive. destruct Hw as [Hi [[-> _]|(r & Hh & Ha)]]; [done|]. rewrite Hh.
    cbn [mbind option_bind]. intros [= <-]. eexists. split; [apply (Hset _ (net s))|]. split; [|done]. by split.
  - unfold processReq_tick. pose proof Hw as [(Hi1 & Hi2 & _) _]. rewrite He, (link_alive e n sid) by done.
    intros [= <-]. exists c. split; [apply (Hset _ (net s))|]. rewrite Hpc. unfold on_way. rewrite Hpc.
    split; [done|]. cbn. apply Nat.add_0_r.
  - destruct Hw as ((Hi1 & Hi2 & Hi3) & Hh & Ha). unfold processReq_final.
    rewrite He, (link_alive e n sid), Hi3 by done. cbn [negb andb].
    destruct (i_longreordering i && _); intros [= <-]; (eexists; split; [apply Hset|]; split; [|done]; by split).
  - destruct Hw as (Hh & Ha). pose proof Ha as (x & _ & _ & _ & Hok).
    unfold processReq_reply, Call_finish. rewrite Hok.
    destruct (Decode (c_reply0 c) (r_reply r)) as [v []] eqn:Hd; [|done]. cbn [mbind outcome_bind].
    intros [= <-]. eexists. split; [apply Hset|]. split; [|done]. split; [done|]. cbn. split; [done|].
    by exists r.
Qed.

Lemma handler_exec_on_way e n sid s s' k c j x :
  on_way e n sid c -> calls s !! k = Some c -> calls s !! j = Some x ->
  handler_exec s j x = Some (Ret s') ->
  exists c', calls s' !! k = Some c' /\ on_way e n sid c' /\
    c_req c' = c_req c /\ c_reply0 c' = c_reply0 c /\
    (steps_left c' + (if own_step k (NHandler j) then 1 else 0) = steps_left c)%nat.
Proof.
  intros Hw Hk Hj Hx.
  destruct (handler_exec_keeps _ _ _ _ Hx) as (sid1 & rs & rs' & r & Hh & Hrs & Hd & _ & _ & Hc).
  cbn [own_step]. destruct (decide (j = k)) as [->|Hne].
  - simplify_eq. rewrite Hc, list_lookup_insert_eq by by eapply lookup_lt_Some.
    rewrite bool_decide_eq_true_2 by done. eexists. split; [done|]. destruct Hw as [He Hw].
    assert (exists i, c_pc c = PWait i) as [i Hpc].
    { destruct (c_pc c) as [| |i|i|i [|]|q late|[|] v]; try done; try by eexists.
      - destruct Hw. congruence.
      - destruct Hw. congruence.
      - destruct Hw as (_ & ? & _). congruence.
      - destruct Hw as (? & _). congruence.
      - destruct Hw as (? & _). congruence. }
    unfold on_way, steps_left. rewrite Hpc in Hw. destruct Hw as [Hi [[Hh' Hlg]|(r0 & Hh' & _)]]; [|congruence].
    cbn. rewrite Hpc, Hlg, Hh. split; [|done]. split; [done|]. split; [done|]. right. exists r.
    split; [done|]. eexists. split; [done|]. split; [cbn; congruence|]. split; [done|].
    by eapply Server_dispatch_ok.
  - rewrite Hc, list_lookup_insert_ne by done. rewrite bool_decide_eq_false_2 by done.
    exists c. by rewrite Nat.add_0_r.
Qed.

(** Every event but those about the link keeps it. *)
Lemma net_exec_link e n sid s s' ev :
  link e n sid (net s) -> calm e n ev = true -> net_exec ev s = Some (Ret s') -> link e n sid (net s').
Proof.
  intros Hl Hcalm.
  assert (forall j, match calls s !! j with Some x => call_exec s j x ev | None => None end = Some (Ret s') ->
    link e n sid (net s')) as Hcall.
  { intros j. destruct (calls s !! j) as [x|]; [|done]. intros Hx.
    destruct (call_exec_keeps _ _ _ _ _ Hx) as (Hn & _). by eapply link_counted. }
  destruct ev as [d m a r|j|j|j|j rnd|j|j|j|j r1 r2|j|svcs|d|m x|m|d m|d b|b|b|b|]; cbn [net_exec];
    try (exact (Hcall j)); unfold api; try (intros [= <-]; destruct Hl; by split);
    cbn [calm] in Hcalm; try apply bool_decide_eq_true in Hcalm; try done.
  - destruct (ends (net s) !! d) as [ce|]; [|done]. by intros [= <-].
  - destruct (calls s !! j) as [x|]; [|done]. cbn [mbind option_bind]. intros Hx.
    destruct (handler_exec_keeps _ _ _ _ Hx) as (sid1 & rs & rs' & r & _ & _ & _ & -> & _). done.
  - unfold MakeEnd. destruct (ends (net s) !! d); [done|]. cbn [mbind outcome_bind]. intros [= <-].
    destruct Hl. split; try done; unfold is_enabled, connection; cbn; by rewrite lookup_insert_ne.
  - case_decide; [|done]. intros [= <-]. destruct Hl. split; try done. unfold server_of. cbn.
    by rewrite lookup_insert_ne.
  - intros [= <-]. destruct Hl. split; try done. unfold server_of. cbn. by rewrite lookup_insert_ne.
  - intros [= <-]. destruct Hl. split; try done. unfold connection. cbn. by rewrite lookup_insert_ne.
  - intros [= <-]. destruct Hl. split; try done.
    change (is_enabled (Enable (net s) d b) e = true). rewrite is_enabled_Enable.
    destruct (decide (e = d)) as [<-|Hd]; [|done].
    apply orb_true_iff in Hcalm as [->|Hb]; [done|]. by apply bool_decide_eq_true in Hb.
Qed.

(** Every such event keeps the call on its way, and the call's own steps are
    what it has left to do. *)
Lemma net_exec_on_way e n sid s s' k c ev :
  link e n sid (net s) -> on_way e n sid c -> calls s !! k = Some c -> calm e n ev = true ->
  net_exec ev s = Some (Ret s') ->
  exists c', calls s' !! k = Some c' /\ on_way e n sid c' /\
    c_req c' = c_req c /\ c_reply0 c' = c_reply0 c /\
    (steps_left c' + (if own_step k ev then 1 else 0) = steps_left c)%nat.
Proof.
  intros Hl Hw Hk Hcalm.
  assert (own_step k ev = false -> calls s' !! k = Some c ->
    exists c', calls s' !! k = Some c' /\ on_way e n sid c' /\
      c_req c' = c_req c /\ c_reply0 c' = c_reply0 c /\
      (steps_left c' + (if own_step k ev then 1 else 0) = steps_left c)%nat) as Hplain.
  { intros -> Hk'. exists c. by rewrite Nat.add_0_r. }
  assert (forall j, match calls s !! j with Some x => call_exec s j x ev | None => None end = Some (Ret s') ->
    (j = k -> own_step k ev = true \/ ev = NTick k) -> (j <> k -> own_step k ev = false) ->
    exists c', calls s' !! k = Some c' /\ on_way e n sid c' /\
      c_req c' = c_req c /\ c_reply0 c' = c_reply0 c /\
      (steps_left c' + (if own_step k ev then 1 else 0) = steps_left c)%nat) as Hcall.
  { intros j. destruct (calls s !! j) as [x|] eqn:Hj; [|done]. intros Hx Hown Hother.
    destruct (call_exec_keeps _ _ _ _ _ Hx) as (_ & _ & _ & x' & Hx' & Hr & H0 & _).
    destruct (decide (j = k)) as [->|Hne]; [|apply Hplain; [by apply Hother|by rewrite Hx', list_lookup_insert_ne]].
    simplify_eq. destruct (call_exec_on_way _ _ _ _ _ _ _ _ Hl Hw Hk (Hown eq_refl) Hx) as (c' & Hc' & Hs).
    rewrite Hx', list_lookup_insert_eq in Hc' by by eapply lookup_lt_Some. injection Hc' as <-.
    exists x'. rewrite Hx', list_lookup_insert_eq by by eapply lookup_lt_Some. tauto. }
  destruct ev as [d m a r|j|j|j|j rnd|j|j|j|j r1 r2|j|svcs|d|m x|m|d m|d b|b|b|b|]; cbn [net_exec];
    try (intros Hx; apply (Hcall j Hx); cbn [own_step];
         [intros ->; rewrite bool_decide_eq_true_2 by done; by left|intros; by apply bool_decide_eq_false_2]);
    unfold api; try (intros [= <-]; by apply Hplain).
  - destruct (ends (net s) !! d) as [ce|]; [|done]. cbn [mbind option_bind]. intros [= <-].
    apply Hplain; [done|]. cbn. by apply lookup_app_l_Some.
  - intros Hx. apply (Hcall j Hx); [|done]. intros ->. rewrite Hk in Hx. cbn in Hx. unfold call_exec in Hx.
    by destruct (c_pc c); rewrite ?(ln_up _ _ _ _ Hl) in Hx.
  - intros Hx. apply (Hcall j Hx); [|done]. intros ->. rewrite Hk in Hx. cbn in Hx. destruct Hw as [_ Hw].
    unfold call_exec in Hx. by destruct (c_pc c).
  - destruct (calls s !! j) as [x|] eqn:Hj; [|done]. cbn [mbind option_bind]. intros Hx.
    by apply (handler_exec_on_way e n sid s s' k c j x).
  - intros Hx. apply (Hcall j Hx); [intros ->; by right|done].
  - unfold MakeEnd. destruct (ends (net s) !! d); [done|]. cbn [mbind outcome_bind]. intros [= <-]. by apply Hplain.
  - case_decide; [|done]. intros [= <-]. by apply Hplain.
  - done.
Qed.

Lemma net_run_on_way e n sid evs s s' k c :
  link e n sid (net s) -> on_way e n sid c -> calls s !! k = Some c -> runs_ok s -> sid_answers s sid c ->
  forallb (calm e n) evs = true -> net_run evs s = Some (Ret s') ->
  link e n sid (net s') /\ runs_ok s' /\ exists c', calls s' !! k = Some c' /\ on_way e n sid c' /\
    sid_answers s' sid c' /\ c_reply0 c' = c_reply0 c /\
    (steps_left c' + length (List.filter (own_step k) evs) = steps_left c)%nat.
Proof.
  revert s c. induction evs as [|ev evs IH]; intros s c Hl Hw Hk Hru Hans; cbn [forallb net_run].
  { intros _ [= <-]. split; [done|]. split; [done|]. exists c. by split_and!. }
  intros [Hev Hcalm]%andb_prop. destruct (net_exec ev s) as [[s1|]|] eqn:Hex; try done.
  cbn [mbind option_bind]. intros Hrun.
  destruct (net_exec_runs ev s s1 Hex) as [Hg Hru1].
  pose proof (net_exec_link _ _ _ _ _ _ Hl Hev Hex) as Hl1.
  destruct (net_exec_on_way _ _ _ _ _ _ _ _ Hl Hw Hk Hev Hex) as (c1 & Hk1 & Hw1 & Hr1 & H01 & Hs1).
  destruct (IH s1 c1 Hl1 Hw1 Hk1 (Hru1 Hru)) as (Hl' & Hru' & c' & Hk' & Hw' & Hans' & H0' & Hs'); try done.
  { by apply (sid_answers_grows s s1 sid c). }
  split; [done|]. split; [done|]. exists c'. split_and!; try done; [congruence|]. cbn [List.filter].
  destruct (own_step k ev); cbn [length]; lia.
Qed.

(** A call on its way that has not returned has a step of its own that is
    enabled, and, where its server answers the request, the step returns. *)
Lemma on_way_enabled e n sid s k c :
  link e n sid (net s) -> on_way e n sid c -> calls s !! k = Some c -> sid_answers s sid c ->
  runs_ok s -> steps_left c <> 0%nat ->
  exists ev s', own_step k ev = true /\ calm e n ev = true /\ net_exec ev s = Some (Ret s').
Proof.
  intros Hl [He Hw] Hk Hans Hru Hleft.
  assert (forall rnd1 rnd2, own_step k (NFinal k rnd1 rnd2) = true) as Hown.
  { intros. by apply bool_decide_eq_true_2. }
  unfold steps_left in Hleft. destruct (c_pc c) as [| |i|i|i [r|]|r late|[|] v] eqn:Hpc; try done.
  - exists (NSend k). eexists. split; [exact (Hown 0 0)|]. split; [done|]. cbn [net_exec]. rewrite Hk.
    cbn [mbind option_bind]. unfold call_exec. by rewrite Hpc.
  - exists (NStart k). eexists. split; [exact (Hown 0 0)|]. split; [done|]. cbn [net_exec]. rewrite Hk.
    cbn [mbind option_bind]. unfold call_exec. by rewrite Hpc.
  - destruct Hw as [_ [[Hh _]|(r & Hh & _)]].
    + exists (NHandler k). destruct Hans as (rs & Hrs & Hd).
      destruct (Hd (world s)) as (rs' & w' & r & v & Hd' & _). eexists. split; [exact (Hown 0 0)|].
      split; [done|]. cbn [net_exec]. rewrite Hk. cbn [mbind option_bind]. unfold handler_exec, handler_run.
      rewrite Hh, Hrs. cbn [mbind option_bind]. by rewrite Hd'.
    + exists (NRecv k). eexists. split; [exact (Hown 0 0)|]. split; [done|]. cbn [net_exec]. rewrite Hk.
      cbn [mbind option_bind]. unfold call_exec, processReq_receive. by rewrite Hpc, Hh.
  - exists (NFinal k 0 0). cbn [net_exec]. rewrite Hk. cbn [mbind option_bind]. unfold call_exec. rewrite Hpc.
    destruct (processReq_final _ _ _ _ _ _) as [rn c']. by eexists.
  - exists (NReply k). destruct Hw as (_ & x & Hx & Hsid & Hr & Hok). destruct Hans as (rs & Hrs & Hd).
    destruct (Hd (x_before x)) as (rs' & w' & r1 & v & Hd' & Hv).
    pose proof (Forall_lookup_1 _ _ _ _ Hru Hk) as Hrun. cbn beta in Hrun.
    rewrite Hx, Forall_singleton in Hrun. destruct Hrun as (rs1 & rs1' & Hrs1 & Hd1). rewrite Hsid in Hrs1.
    simplify_eq. rewrite Hd' in Hd1. injection Hd1 as _ _ ->.
    cbn [net_exec]. rewrite Hk. cbn [mbind option_bind]. unfold call_exec. rewrite Hpc.
    unfold processReq_reply, Call_finish. rewrite Hok, Hv. cbn [mbind outcome_bind]. eexists.
    split; [exact (Hown 0 0)|]. by split.
Qed.
(** C29: a call on a reliable network completes.  Take a call that is about to
    be sent on an end that is enabled and connected to a registered server,
    and any run of the network from there, with any other calls, ticks of the
    timers, new servers and ends, in which nobody disconnects or deletes this
    end or server, makes the network unreliable or shuts it down.  Then the
    call never returns false.  It has six steps to do (sent, taken up by
    processReq, handler, reply received, last check, delivered), and the run
    has done exactly those of them that it contains, so that a tick or another
    call's step never sets it back.  While some are left one of them is
    enabled, and returns if the server answers such requests; with none left
    the call has returned true, with the decoding of the reply of the one
    execution of its handler, on that server. *)
Theorem reliable_call_completes s s' evs (k sid : nat) c (n : iface) :
  let e := req_endname (c_req c) in
  net_reachable s -> calls s !! k = Some c -> c_pc c = CSending ->
  link e n sid (net s) -> sid_answers s sid c ->
  forallb (calm e n) evs = true -> net_run evs s = Some (Ret s') ->
  exists c', calls s' !! k = Some c' /\
    (forall v, c_pc c' <> CReturned false v) /\
    (steps_left c' + length (List.filter (own_step k) evs) = 6)%nat /\
    (steps_left c' <> 0%nat ->
       exists ev s'', own_step k ev = true /\ calm e n ev = true /\ net_exec ev s' = Some (Ret s'')) /\
    (steps_left c' = 0%nat ->
       exists v x, c_pc c' = CReturned true v /\ c_log c' = [x] /\ x_sid x = sid /\
         Decode (c_reply0 c) (r_reply (x_reply x)) = (v, true)).
Proof.
  cbv zeta. intros Hre Hk Hpc Hl Hans Hcalm Hrun.
  assert (on_way (req_endname (c_req c)) n sid c) as Hw.
  { pose proof (Forall_lookup_1 _ _ _ _ (ni_calls s (net_reachable_inv s Hre)) Hk) as [_ _ H3 H4 _].
    unfold pc_ok in H4. unfold handler_ok in H3. rewrite Hpc in H4. destruct H4 as [Hh _]. rewrite Hh in H3.
    split; [done|]. by rewrite Hpc. }
  destruct (net_run_on_way _ _ _ evs s s' k c Hl Hw Hk (net_reachable_runs s Hre) Hans Hcalm Hrun)
    as (Hl' & Hru' & c' & Hk' & Hw' & Hans' & H0 & Hleft).
  exists c'. split; [done|]. split.
  { intros v Hv. destruct Hw' as [_ Hw']. by rewrite Hv in Hw'. }
  split; [rewrite Hleft; unfold steps_left; by rewrite Hpc|]. split.
  - intros Hne. by apply (on_way_enabled _ n sid s' k c').
  - intros Hz. destruct Hw' as [_ Hw']. unfold steps_left in Hz.
    destruct (c_pc c') as [| |i|i|i [r|]|r late|[|] v]; try done; [by destruct (c_handler c')|].
    destruct Hw' as (_ & r & (x & Hx & Hsid & Hr & _) & Hd). exists v, x.
    split_and!; try done. by rewrite Hr, <- H0.
Qed.

End theorems.

(** ** Witnesses

    A server whose only handler adds the number of argument bytes to a
    counter and replies with the arguments; values are byte strings. *)

Section witnesses.

#[local] Instance byte_codec : Codec unit (list Z) := {|
  TypeOf := fun _ => tt;
  New := fun _ => [];
  Encode := fun v => v;
  Decode := fun _ b => (b, true);
|}.

#[local] Instance byte_codec_ok : CodecOk byte_codec (fun _ => True).
Proof. done. Qed.

Definition echo : Method Z (list Z) :=
  mkMethod "Echo" EmptyString 3 true 0 (fun w args => Ret (w + len args, args)).
Definition get_state : Method Z (list Z) :=
  mkMethod "GetState" EmptyString 1 false 2 (fun w args => Ret (w, args)).
Definition echo_service : Service Z (list Z) := MakeService "Raft" [echo; get_state].
Definition echo_server : Server Z (list Z) := AddService MakeServer echo_service.

(** End "e" is enabled and connected to server 1, the object 0; a call waits
    to be sent. *)
Definition setup : list (NetEvent Z (list Z)) :=
  [NNewServer [echo_service]; NMakeEnd (IString "e"); NConnect (IString "e") (IInt 1);
   NAddServer (IInt 1) 0; NEnable (IString "e") true; NCall (IString "e") "Raft.Echo" [7; 8; 9] []].

Definition after (evs : list (NetEvent Z (list Z))) : Sys Z unit (list Z) :=
  match net_run evs (net_init 100) with
  | Some (Ret s) => s
  | _ => net_init 100
  end.

Definition call_at (s : Sys Z unit (list Z)) (k : nat) : Call Z unit (list Z) :=
  default (Call_begin (mkClientEnd INil) EmptyString [] []) (calls s !! k).

Lemma net_run_reachable evs (s s' : Sys Z unit (list Z)) :
  net_reachable s -> net_run evs s = Some (Ret s') -> net_reachable s'.
Proof.
  revert s. induction evs as [|ev evs IH]; intros s Hs; cbn [net_run].
  { by intros [= <-]. }
  destruct (net_exec ev s) as [[s1|]|] eqn:Hex; try done. cbn [mbind option_bind].
  apply IH. by eapply net_reachable_step.
Qed.

Lemma after_reachable evs : net_reachable (after evs).
Proof.
  unfold after. destruct (net_run evs (net_init 100)) as [[s|]|] eqn:Hr; try constructor.
  eapply net_run_reachable; [constructor|exact Hr].
Qed.

Definition complete : list (NetEvent Z (list Z)) :=
  [NSend 0; NStart 0; NHandler 0; NRecv 0; NFinal 0 5 5; NReply 0].

Definition dispatch_to (nm : string) : outcome (Server Z (list Z) * Z * replyMsg) :=
  Server_dispatch echo_server (mkReqMsg (IString "e") nm tt [7; 8; 9]) 100.

Lemma dispatch_by_name_witness :
  dispatch_to "Raft.Echo" = Ret (mkServer (services echo_server) 1, 103, mkReplyMsg true [7; 8; 9]) /\
  dispatch_to "Raft.GetState" = Panic Fatal /\ dispatch_to "KV.Echo" = Panic Fatal /\
  dispatch_to "Echo" = Panic SliceOutOfRange.
Proof.
  destruct (dispatch_by_name (sendable := fun _ => True) MakeServer (IString "e") "Raft" [echo; get_state]
    [7; 8; 9] 100) as (Hdot & Hrun & Hno & Hother); [|exact I|].
  { apply (bool_decide_unpack _). vm_compute. exact I. }
  split; [apply (Hrun echo); [left|reflexivity|repeat split; reflexivity]|].
  split; [apply (Hno "GetState"%string); [reflexivity|]|].
  { intros (m & Hm & Hn & _ & H3 & _). apply elem_of_cons in Hm as [->|Hm]; [discriminate Hn|].
    apply list_elem_of_singleton in Hm as ->. discriminate H3. }
  split; [apply (proj1 (Hother "KV"%string "Echo"%string eq_refl ltac:(discriminate))); reflexivity|].
  apply (Hdot "Echo"%string). reflexivity.
Defined.

Lemma call_runs_handler_once_witness :
  c_pc (call_at (after (setup ++ complete)) 0) = CReturned true [7; 8; 9] /\
  exists x, c_log (call_at (after (setup ++ complete)) 0) = [x] /\ x_after x = 103.
Proof.
  split; [vm_compute; reflexivity|].
  destruct (call_runs_handler_once (sendable := fun _ => True) (after (setup ++ complete)) 0
    (call_at (after (setup ++ complete)) 0) (after_reachable _)) as [_ Hret];
    [vm_compute; reflexivity|exact I|].
  destruct (Hret [7; 8; 9]) as (x & rs & svc & mn & service & m & reply & Hx & _); [vm_compute; reflexivity|].
  exists x. split; [exact Hx|]. vm_compute in Hx. injection Hx as <-. reflexivity.
Defined.

Lemma unreachable_call_fails_witness :
  let s := after (setup ++ [NSend 0; NEnable (IString "e") false]) in
  exists s', net_run [NStart 0; NReply 0] s = Some (Ret s') /\ world s' = 100.
Proof.
  cbv zeta.
  destruct (unreachable_call_fails (after (setup ++ [NSend 0; NEnable (IString "e") false])) 0
    (call_at (after (setup ++ [NSend 0; NEnable (IString "e") false])) 0)) as (s' & Hr & _ & Hw & _);
    [vm_compute; reflexivity|vm_compute; reflexivity|left; vm_compute; reflexivity|].
  exists s'. split; [exact Hr|]. rewrite Hw. vm_compute. reflexivity.
Defined.

(** The handler has run, but its server is deleted before the reply. *)
Definition deleted : Sys Z unit (list Z) :=
  after (setup ++ [NSend 0; NStart 0; NHandler 0; NDeleteServer (IInt 1)]).

Lemma deleted_call : calls deleted !! 0%nat = Some (call_at deleted 0).
Proof. vm_compute. reflexivity. Qed.

Lemma deleted_doomed : doomed (IInt 1) 0 (call_at deleted 0).
Proof. vm_compute. split; reflexivity. Qed.

Lemma deleted_server : server_of (net deleted) (IInt 1) <> Some 0%nat.
Proof. vm_compute. discriminate. Qed.

Definition last_steps : list (NetEvent Z (list Z)) := [NRecv 0; NFinal 0 5 5; NReply 0].

Definition replied_late : Sys Z unit (list Z) :=
  after (setup ++ [NSend 0; NStart 0; NHandler 0; NDeleteServer (IInt 1)] ++ last_steps).

Lemma replied_late_run : net_run last_steps deleted = Some (Ret replied_late).
Proof. vm_compute. reflexivity. Qed.

Lemma deleted_server_never_replies_witness :
  net_run last_steps deleted = Some (Ret replied_late) /\
  exists c', calls replied_late !! 0%nat = Some c' /\ forall v, c_pc c' <> CReturned true v.
Proof.
  split; [exact replied_late_run|].
  refine (deleted_server_never_replies deleted replied_late last_steps (IInt 1) 0 0
    (call_at deleted 0) deleted_call deleted_doomed deleted_server _ replied_late_run).
  unfold last_steps. repeat constructor; discriminate.
Defined.

Lemma statistics_exact_witness :
  let s := after (setup ++ complete) in
  GetTotalCount (net s) = 1 /\ GetTotalBytes (net s) = 6 /\ GetCount (heap s) (net s) (IInt 1) = Ret 1.
Proof.
  cbv zeta. destruct (statistics_exact (after (setup ++ complete)) (after_reachable _)) as (Hc & Hb & Hn).
  rewrite Hc, Hb. split; [vm_compute; reflexivity|]. split; [vm_compute; reflexivity|].
  specialize (Hn (IInt 1)). vm_compute. reflexivity.
Defined.

(** The six steps of the call, with ticks of its timer and a change of the
    network's mode in between. *)
Definition with_ticks : list (NetEvent Z (list Z)) :=
  [NSend 0; NStart 0; NTick 0; NHandler 0; NTick 0; NLongReordering true; NRecv 0; NFinal 0 5 5; NReply 0].

Lemma reliable_call_completes_witness :
  net_run with_ticks (after setup) = Some (Ret (after (setup ++ with_ticks))) /\
  exists c' v x, calls (after (setup ++ with_ticks)) !! 0%nat = Some c' /\ c_pc c' = CReturned true v /\
    c_log c' = [x] /\ x_sid x = 0%nat.
Proof.
  split; [vm_compute; reflexivity|].
  destruct (reliable_call_completes (after setup) (after (setup ++ with_ticks)) with_ticks 0 0
    (call_at (after setup) 0) (IInt 1) (after_reachable _)) as (c' & Hk & _ & Hs & _ & Hret);
    [vm_compute; reflexivity|vm_compute; reflexivity| | |vm_compute; reflexivity|vm_compute; reflexivity|].
  - split; [vm_compute; reflexivity..|vm_compute; discriminate|vm_compute; reflexivity].
  - exists echo_server. split; [vm_compute; reflexivity|]. intros w.
    exists (mkServer (services echo_server) 1), (w + 3), (mkReplyMsg true [7; 8; 9]), [7; 8; 9].
    split; reflexivity.
  - destruct Hret as (v & x & Hp & Hx & Hsid & _); [change (length (List.filter (own_step 0) with_ticks)) with 6%nat in Hs; lia|].
    exists c', v, x. repeat (split; [assumption|]). assumption.
Defined.

Lemma MakeService_offers_handlers_witness :
  methods echo_service !! "Echo"%string = Some echo.
Proof.
  apply (MakeService_offers_handlers "Raft" "Echo" [echo; get_state] echo).
  - apply (bool_decide_unpack _). vm_compute. exact I.
  - split; [left|]. repeat split; reflexivity.
Defined.

End witnesses.
