(* ===== verification/Labgob.v ===== *)
(** * labgob/labgob.go: checks around encoding/gob

    labgob forwards to gob and first warns about types with lower-case field
    names ([checkType]) and about decoding into a variable that is not zero
    ([checkDefault]).  Types form a graph, possibly cyclic; a type is a number
    in a table that gives what reflect shows of it. *)

From S2P Require Import Prelude.
Open Scope go_scope.

(** *** Types *)

Inductive Kind : Type :=
| Struct (fields : list (string * nat)) (* names and types, in order *)
| Slice (elem : nat)
| Array (elem : nat)
| Ptr (elem : nat)
| Map (elem key : nat)
| Basic.

Record TypeInfo := mkTypeInfo {
  type_Name : string;
  kind : Kind;
}.

(** What labgob prints. *)
Inductive Warning : Type :=
| LowerCaseField (field type : string)
| NonDefault (what : string).

(** The package's variables, and the output so far. *)
Record Labgob := mkLabgob {
  errorCount : Z;
  checked : gset nat;
  printed : list Warning;
}.

#[export] Instance Labgob_eta : Eta Labgob := fun g =>
  mkLabgob (errorCount g) (checked g) (printed g).

Section types.
(** [types] is the program's type table; [IsUpper] tells whether the first
    rune of a name is an upper-case letter (unicode.IsUpper). *)
Context (types : list TypeInfo) (IsUpper : string -> bool).

Definition check_field (tname fname : string) (g : Labgob) : Labgob :=
  if IsUpper fname then g
  else g <| printed := printed g ++ [LowerCaseField fname tname] |>
         <| errorCount := errorCount g +! 1 |>.

(** The loop over the fields of a struct; [check] is the recursive call. *)
Fixpoint check_fields (check : nat -> Labgob -> option Labgob) (tname : string)
    (fields : list (string * nat)) (g : Labgob) : option Labgob :=
  match fields with
  | [] => Some g
  | (fname, t) :: fields =>
      g ← check t (check_field tname fname g);
      check_fields check tname fields g
  end.

(** [None] when the fuel runs out or a type is not in the table; neither
    happens for a table that is closed and fuel for every type
    ([checkType_total]). *)
Fixpoint checkType (fuel : nat) (t : nat) (g : Labgob) : option Labgob :=
  match fuel with
  | O => None
  | S fuel =>
      info ← types !! t;
      if decide (t ∈ checked g) then Some g
      else
        let g := g <| checked := {[t]} ∪ checked g |> in
        match kind info with
        | Struct fields => check_fields (checkType fuel) (type_Name info) fields g
        | Slice e | Array e | Ptr e => checkType fuel e g
        | Map e k => g ← checkType fuel e g; checkType fuel k g
        | Basic => Some g
        end
  end.

(** [reflect.TypeOf(nil)] is nil and has no kind. *)
Definition checkValue (t : option nat) (g : Labgob) : outcome Labgob :=
  match t with
  | None => Panic NilDereference
  | Some t => Ret (default g (checkType (S (length types)) t g))
  end.

End types.

(** *** Values *)

(** A value as [checkDefault1] sees it; [VZero] tells whether a value of a
    basic type is the zero value.  Slices, maps and interfaces are not looked
    into. *)
Inductive GoValue : Type :=
| VStruct (fields : list (string * GoValue))
| VNilPtr
| VPtr (v : GoValue)
| VBasic (tname : string) (zero : bool)
| VOther.

Definition field_name (name fname : string) : string :=
  if bool_decide (name = EmptyString) then fname else name +:+ "." +:+ fname.

Section values.
(** Whether a field with the given name is exported. *)
Context (IsExported : string -> bool).

(** [ro]: the value was reached through an unexported field, and its
    [Interface] method panics. *)
Fixpoint checkDefault1 (v : GoValue) (depth : Z) (name : string) (ro : bool) (g : Labgob) :
    outcome Labgob :=
  if 3 <? depth then Ret g
  else
    match v with
    | VStruct fields =>
        (fix go (fields : list (string * GoValue)) (g : Labgob) : outcome Labgob :=
           match fields with
           | [] => Ret g
           | (fname, v) :: fields =>
               g ← checkDefault1 v (depth + 1) (field_name name fname)
                     (ro || negb (IsExported fname)) g;
               go fields g
           end) fields g
    | VNilPtr => Ret g
    | VPtr v => checkDefault1 v (depth + 1) name ro g
    | VBasic tname zero =>
        if ro then Panic UnexportedField
        else if zero then Ret g
        else
          let g := if errorCount g <? 1 then
                     let what := if bool_decide (name = EmptyString) then tname else name in
                     g <| printed := printed g ++ [NonDefault what] |>
                   else g in
          Ret (g <| errorCount := errorCount g +! 1 |>)
    | VOther => Ret g
    end.

(** [value == nil] for a nil interface. *)
Definition checkDefault (value : option GoValue) (g : Labgob) : outcome Labgob :=
  match value with
  | None => Ret g
  | Some v => checkDefault1 v 1 EmptyString false g
  end.

End values.

(** *** Encoders and decoders

    [gob_encode] and [gob_decode] are those of encoding/gob, on their own
    state [S]. *)

Section coders.
Context {S E D : Type} (types : list TypeInfo) (IsUpper IsExported : string -> bool).
Context (gob_Encode : S -> E -> S * bool) (gob_Decode : S -> D -> S * bool).
Context (gob_Register : S -> E -> S).

Definition Encode (g : Labgob) (enc : S) (t : option nat) (e : E) : outcome (Labgob * (S * bool)) :=
  g ← checkValue types IsUpper t g;
  Ret (g, gob_Encode enc e).

Definition EncodeValue (g : Labgob) (enc : S) (t : option nat) (value : E) :
    outcome (Labgob * (S * bool)) :=
  g ← checkValue types IsUpper t g;
  Ret (g, gob_Encode enc value).

(** [v] is the variable decoded into, as [checkDefault] sees it. *)
Definition Decode (g : Labgob) (dec : S) (t : option nat) (v : option GoValue) (e : D) :
    outcome (Labgob * (S * bool)) :=
  g ← checkValue types IsUpper t g;
  g ← checkDefault IsExported v g;
  Ret (g, gob_Decode dec e).

(** [Register]; [RegisterName] differs in the name it passes to gob. *)
Definition Register (g : Labgob) (registry : S) (t : option nat) (value : E) : outcome (Labgob * S) :=
  g ← checkValue types IsUpper t g;
  Ret (g, gob_Register registry value).

End coders.

(** ** [checkType]: specification *)

Definition edges (k : Kind) : list nat :=
  match k with
  | Struct fields => fields.*2
  | Slice e | Array e | Ptr e => [e]
  | Map e k => [e; k]
  | Basic => []
  end.

Section spec.
Context (types : list TypeInfo) (IsUpper : string -> bool).

(** Every type a type mentions is in the table. *)
Definition closed_table : Prop :=
  forall t info, types !! t = Some info -> Forall (fun u => (u < length types)%nat) (edges (kind info)).

(** The number of lower-case fields of one type. *)
Definition lower_fields (t : nat) : Z :=
  match types !! t with
  | Some (mkTypeInfo _ (Struct fields)) => len (filter (fun f => IsUpper f.1 = false) fields)
  | _ => 0
  end.

(** The lower-case fields of the types of a set. *)
Definition total_lower (X : gset nat) : Z :=
  zsum (fun t => if decide (t ∈ X) then lower_fields t else 0) (seq 0 (length types)).

(** The number of types left to check. *)
Definition unchecked (X : gset nat) : nat :=
  length (filter (fun t => t ∉ X) (seq 0 (length types))).

Definition mentions (t u : nat) : Prop :=
  exists info, types !! t = Some info /\ u ∈ edges (kind info).

(** [g'] is [g] after checking the types [ts] and all they mention; [extra]
    is what was counted besides. *)
Record checked_step (g g' : Labgob) (ts : list nat) (extra : Z) : Prop := {
  cs_mono : checked g ⊆ checked g';
  cs_in : Forall (fun t => t ∈ checked g') ts;
  cs_edges : forall u w, u ∈ checked g' -> u ∉ checked g -> mentions u w -> w ∈ checked g';
  cs_count : errorCount g' =
    wrap_int (errorCount g + (extra + (total_lower (checked g') - total_lower (checked g))));
}.

Lemma checked_step_refl g ts :
  is_int (errorCount g) -> Forall (fun t => t ∈ checked g) ts -> checked_step g g ts 0.
Proof.
  intros Hi Ht. split; try done. rewrite Z.sub_diag, !Z.add_0_r. symmetry. by apply wrap_int_small.
Qed.

Lemma checked_step_trans g1 g2 g3 ts1 ts2 e1 e2 :
  checked_step g1 g2 ts1 e1 -> checked_step g2 g3 ts2 e2 ->
  checked_step g1 g3 (ts1 ++ ts2) (e1 + e2).
Proof.
  intros [M1 I1 E1 C1] [M2 I2 E2 C2]. split.
  - set_solver.
  - apply Forall_app. split; [|done]. eapply Forall_impl; [exact I1|]. auto.
  - intros u w Hu Hn Hm. destruct (decide (u ∈ checked g2)); [apply M2; eauto|eauto].
  - rewrite C2, C1, wrap_int_add. f_equal. lia.
Qed.

Lemma unchecked_mono (X Y : gset nat) : X ⊆ Y -> (unchecked Y <= unchecked X)%nat.
Proof.
  intros HXY. unfold unchecked. induction (seq 0 (length types)) as [|t l IH]; [done|].
  rewrite !filter_cons. case_decide; case_decide; cbn; try lia. set_solver.
Qed.

Lemma unchecked_add (X : gset nat) t :
  (t < length types)%nat -> t ∉ X -> (unchecked ({[t]} ∪ X) < unchecked X)%nat.
Proof.
  intros Ht HX. unfold unchecked.
  assert (t ∈ seq 0 (length types)) as Hin by (apply elem_of_seq; lia). revert Hin.
  generalize (seq 0 (length types)). intros l Hin. induction l as [|x l IH].
  { by apply not_elem_of_nil in Hin. }
  assert (length (filter (fun t0 => t0 ∉ ({[t]} ∪ X : gset nat)) l) <=
          length (filter (fun t0 => t0 ∉ X) l))%nat as Hle.
  { clear. induction l as [|y l IH]; [done|]. rewrite !filter_cons.
    case_decide; case_decide; cbn; try lia. set_solver. }
  rewrite !filter_cons. apply elem_of_cons in Hin as [->|Hin].
  - rewrite decide_False by set_solver. rewrite decide_True by done. cbn. lia.
  - specialize (IH Hin). case_decide; case_decide; cbn; try lia. set_solver.
Qed.

Lemma total_lower_add (X : gset nat) t :
  (t < length types)%nat -> t ∉ X -> total_lower ({[t]} ∪ X) = total_lower X + lower_fields t.
Proof.
  intros Ht HX. unfold total_lower.
  rewrite (zsum_change _ (fun t => if decide (t ∈ X) then lower_fields t else 0) _ t).
  - rewrite decide_True by set_solver. rewrite decide_False by done. lia.
  - apply NoDup_seq.
  - apply elem_of_seq. lia.
  - intros y Hy. apply decide_ext. set_solver.
Qed.

Lemma checked_step_int g g' ts e : checked_step g g' ts e -> is_int (errorCount g').
Proof. intros []. rewrite cs_count0. apply wrap_int_is_int. Qed.

Lemma check_field_step tname f g :
  is_int (errorCount g) ->
  checked_step g (check_field IsUpper tname f g) [] (if IsUpper f then 0 else 1).
Proof.
  intros Hi. unfold check_field. destruct (IsUpper f); [by apply checked_step_refl|].
  split; cbn; try done. by rewrite Z.sub_diag.
Qed.

Definition count_lower (fields : list (string * nat)) : Z :=
  len (filter (fun f => IsUpper f.1 = false) fields).

Lemma count_lower_cons f t fields :
  count_lower ((f, t) :: fields) = (if IsUpper f then 0 else 1) + count_lower fields.
Proof.
  unfold count_lower, len. rewrite filter_cons. cbn [fst].
  destruct (IsUpper f); case_decide; try done; cbn; lia.
Qed.

(** What [checkType] does at a type, given enough fuel. *)
Definition check_spec (check : nat -> Labgob -> option Labgob) (bound : nat) : Prop :=
  forall t g, (t < length types)%nat -> is_int (errorCount g) -> (unchecked (checked g) < bound)%nat ->
    exists g', check t g = Some g' /\ checked_step g g' [t] 0.

Lemma check_fields_step check bound tname fields g :
  check_spec check bound -> Forall (fun t => (t < length types)%nat) fields.*2 ->
  is_int (errorCount g) -> (unchecked (checked g) < bound)%nat ->
  exists g', check_fields IsUpper check tname fields g = Some g' /\
    checked_step g g' fields.*2 (count_lower fields).
Proof.
  intros Hc. revert g. induction fields as [|[f t] fields IH]; intros g Hf Hi Hb;
    cbn [check_fields].
  { exists g. split; [done|]. by apply checked_step_refl. }
  cbn [fmap list_fmap snd] in Hf. apply Forall_cons in Hf as [Ht Hf].
  pose proof (check_field_step tname f g Hi) as H0.
  destruct (Hc t (check_field IsUpper tname f g)) as (g1 & Hg1 & H1);
    [done|by eapply checked_step_int| |].
  { eapply Nat.le_lt_trans; [apply unchecked_mono, H0|done]. }
  pose proof (checked_step_trans _ _ _ _ _ _ _ H0 H1) as H01.
  destruct (IH g1) as (g2 & Hg2 & H2); [done|by eapply checked_step_int| |].
  { eapply Nat.le_lt_trans; [apply unchecked_mono, H01|done]. }
  exists g2. rewrite Hg1. split; [done|]. rewrite count_lower_cons.
  pose proof (checked_step_trans _ _ _ _ _ _ _ H01 H2) as H. rewrite Z.add_0_r in H. exact H.
Qed.

(** A type that is marked and then has all it mentions checked. *)
Lemma checked_step_mark g g' t info :
  types !! t = Some info -> t ∉ checked g ->
  checked_step (g <| checked := {[t]} ∪ checked g |>) g' (edges (kind info)) (lower_fields t) ->
  checked_step g g' [t] 0.
Proof.
  intros Ht Hn [M I E C]. cbn in M, E, C. split.
  - set_solver.
  - apply Forall_singleton. set_solver.
  - intros u w Hu Hnu Hm. destruct (decide (u = t)) as [->|Hne]; [|apply (E u w); set_solver].
    destruct Hm as (info' & Hi' & Hw). simplify_eq. rewrite Forall_forall in I. auto.
  - rewrite C, total_lower_add; [|by eapply lookup_lt_Some|done]. f_equal. lia.
Qed.

Lemma checkType_spec (fuel : nat) :
  closed_table -> check_spec (checkType types IsUpper fuel) fuel.
Proof.
  intros Hcl. induction fuel as [|fuel IH]; intros t g Ht Hi Hb; [lia|]. cbn [checkType].
  destruct (lookup_lt_is_Some_2 types t Ht) as [info Hinfo]. rewrite Hinfo. cbn [mbind option_bind].
  case_decide as Hin.
  { exists g. split; [done|]. apply checked_step_refl; [done|]. by apply Forall_singleton. }
  set (g1 := g <| checked := {[t]} ∪ checked g |>).
  assert (unchecked (checked g1) < fuel)%nat as Hb1.
  { pose proof (unchecked_add (checked g) t Ht Hin). cbn. lia. }
  pose proof (Hcl t info Hinfo) as Hed.
  assert (lower_fields t = match kind info with Struct fields => count_lower fields | _ => 0 end) as Hlow.
  { unfold lower_fields. rewrite Hinfo. by destruct info as [? []]. }
  enough (exists g', (match kind info with
    | Struct fields => check_fields IsUpper (checkType types IsUpper fuel) (type_Name info) fields g1
    | Slice e | Array e | Ptr e => checkType types IsUpper fuel e g1
    | Map e k => g ← checkType types IsUpper fuel e g1; checkType types IsUpper fuel k g
    | Basic => Some g1 end) = Some g' /\ checked_step g1 g' (edges (kind info)) (lower_fields t))
    as (g' & Hg' & Hst).
  { exists g'. split; [exact Hg'|]. by eapply checked_step_mark. }
  rewrite Hlow. clear Hlow. revert Hed.
  destruct (kind info) as [fields|e|e|e|e k|]; cbn [edges]; intros Hed.
  - by eapply check_fields_step.
  - apply IH; [exact (proj1 (Forall_singleton _ _) Hed)|done|done].
  - apply IH; [exact (proj1 (Forall_singleton _ _) Hed)|done|done].
  - apply IH; [exact (proj1 (Forall_singleton _ _) Hed)|done|done].
  - destruct (proj1 (Forall_cons _ _ _) Hed) as [He Hed2].
    destruct (proj1 (Forall_cons _ _ _) Hed2) as [Hk _].
    destruct (IH e g1 He Hi Hb1) as (g2 & Hg2 & H2). rewrite Hg2. cbn [mbind option_bind].
    destruct (IH k g2) as (g3 & Hg3 & H3); [exact Hk|by eapply checked_step_int| |].
    { eapply Nat.le_lt_trans; [apply unchecked_mono, H2|done]. }
    exists g3. split; [done|]. apply (checked_step_trans _ _ _ _ _ _ _ H2 H3).
  - exists g1. split; [done|]. by apply checked_step_refl.
Qed.

Lemma unchecked_bound X : (unchecked X <= length types)%nat.
Proof.
  unfold unchecked. etrans; [apply length_filter|]. by rewrite length_seq.
Qed.

(** ** Properties *)

(** C39: checkType returns for every type table, cyclic ones included; it
    marks the type and, if all marked types were fully marked before, every
    type reachable from it; it counts every lower-case field of every newly
    marked type exactly once; and a second check of the type changes
    nothing. *)
Theorem checkType_marks_reachable (t : nat) (g : Labgob) :
  closed_table -> (t < length types)%nat -> is_int (errorCount g) ->
  exists g', checkValue types IsUpper (Some t) g = Ret g' /\
    checked g ⊆ checked g' /\
    ((forall u w, u ∈ checked g -> mentions u w -> w ∈ checked g) ->
     forall u, rtc mentions t u -> u ∈ checked g') /\
    errorCount g' =
      wrap_int (errorCount g + (total_lower (checked g') - total_lower (checked g))) /\
    checkValue types IsUpper (Some t) g' = Ret g'.
Proof.
  intros Hcl Ht Hi.
  destruct (checkType_spec (S (length types)) Hcl t g Ht Hi) as (g' & Hg' & [M I E C]).
  { pose proof (unchecked_bound (checked g)). lia. }
  pose proof (proj1 (Forall_singleton _ _) I) as It. exists g'. unfold checkValue. rewrite Hg'. cbn [default].
  split_and!; [done|done| |done|].
  - intros Hold u Hu.
    assert (forall a b, rtc mentions a b -> a ∈ checked g' -> b ∈ checked g') as Hreach; [|eauto].
    induction 1 as [|x y z Hxy _ IH]; [done|]. intros Hx. apply IH.
    destruct (decide (x ∈ checked g)) as [Hin|Hn]; [apply M; eauto|eauto].
  - cbn [checkType]. destruct (lookup_lt_is_Some_2 types t Ht) as [info ->].
    cbn [mbind option_bind]. by rewrite decide_True.
Qed.

End spec.

(** ** [checkDefault]: specification *)

(** The basic values that are not zero, down to depth 3. *)
Fixpoint nondefaults (v : GoValue) (depth : Z) : Z :=
  if 3 <? depth then 0
  else
    match v with
    | VStruct fields =>
        (fix go (fields : list (string * GoValue)) : Z :=
           match fields with
           | [] => 0
           | (_, v) :: fields => nondefaults v (depth + 1) + go fields
           end) fields
    | VPtr v => nondefaults v (depth + 1)
    | VBasic _ zero => if zero then 0 else 1
    | _ => 0
    end.

(** The induction principle for values nested in lists. *)
Section GoValue_nested_ind.
Context (P : GoValue -> Prop).
Context (HStruct : forall fields, Forall (fun f => P f.2) fields -> P (VStruct fields)).
Context (HNilPtr : P VNilPtr) (HPtr : forall v, P v -> P (VPtr v)).
Context (HBasic : forall tname zero, P (VBasic tname zero)) (HOther : P VOther).

Fixpoint GoValue_nested_ind (v : GoValue) : P v :=
  match v with
  | VStruct fields =>
      HStruct fields
        ((fix go (fields : list (string * GoValue)) : Forall (fun f => P f.2) fields :=
            match fields with
            | [] => Forall_nil_2 _
            | f :: fields => Forall_cons_2 _ f fields (GoValue_nested_ind f.2) (go fields)
            end) fields)
  | VNilPtr => HNilPtr
  | VPtr v => HPtr v (GoValue_nested_ind v)
  | VBasic tname zero => HBasic tname zero
  | VOther => HOther
  end.
End GoValue_nested_ind.

(** [g'] is [g] after [n] values that are not zero: a warning is printed for
    the first error of the program only. *)
Record default_step (g g' : Labgob) (n : Z) : Prop := {
  ds_checked : checked g' = checked g;
  ds_count : errorCount g' = errorCount g + n;
  ds_nonneg : 0 <= n;
  ds_printed : printed g' = printed g /\ (n = 0 \/ 1 <= errorCount g) \/
    exists what, printed g' = printed g ++ [NonDefault what] /\ errorCount g = 0 /\ 1 <= n;
}.

Lemma default_step_refl g : default_step g g 0.
Proof. split; try done; [lia|]. left. auto. Qed.

Lemma default_step_trans g1 g2 g3 n1 n2 :
  0 <= errorCount g1 -> default_step g1 g2 n1 -> default_step g2 g3 n2 ->
  default_step g1 g3 (n1 + n2).
Proof.
  intros H0 [K1 C1 N1 P1] [K2 C2 N2 P2]. split; [congruence|lia|lia|].
  destruct P1 as [[Q1 H1]|(w1 & Q1 & E1 & H1)], P2 as [[Q2 H2]|(w2 & Q2 & E2 & H2)];
    rewrite Q2, Q1.
  - left. split; [done|]. lia.
  - right. exists w2. split; [done|]. lia.
  - right. exists w1. split; [done|]. lia.
  - lia.
Qed.

Lemma nondefaults_nonneg v depth : 0 <= nondefaults v depth.
Proof.
  revert depth. induction v as [fields IH| |v IH|tn [|]|] using GoValue_nested_ind; intros depth;
    cbn [nondefaults]; destruct (3 <? depth); try lia; [|apply IH].
  induction IH as [|[fn v] fields Hv _ IHf]; [lia|]. cbn [snd] in Hv. specialize (Hv (depth + 1)). lia.
Qed.

Section default_properties.
Context (IsExported : string -> bool).

(** No basic value down to depth 3 is reached through an unexported field. *)
Fixpoint readable (v : GoValue) (depth : Z) (ro : bool) : bool :=
  if 3 <? depth then true
  else
    match v with
    | VStruct fields =>
        (fix go (fields : list (string * GoValue)) : bool :=
           match fields with
           | [] => true
           | (fname, v) :: fields =>
               readable v (depth + 1) (ro || negb (IsExported fname)) && go fields
           end) fields
    | VPtr v => readable v (depth + 1) ro
    | VBasic _ _ => negb ro
    | _ => true
    end.

Definition default_result (o : outcome Labgob) (g : Labgob) (ok : bool) (n : Z) : Prop :=
  match o with
  | Ret g' => ok = true /\ default_step g g' n
  | Panic f => ok = false /\ f = UnexportedField
  end.

Lemma default_result_refl g : default_result (Ret g) g true 0.
Proof. split; [done|apply default_step_refl]. Qed.

Lemma checkDefault1_result v depth name ro g :
  0 <= errorCount g -> errorCount g + nondefaults v depth <= int_max ->
  default_result (checkDefault1 IsExported v depth name ro g) g (readable v depth ro)
    (nondefaults v depth).
Proof.
  revert depth name ro g. induction v as [fields IH| |v IH|tn zero|] using GoValue_nested_ind;
    intros depth name ro g; cbn [checkDefault1 nondefaults readable]; destruct (3 <? depth);
    try (intros; apply default_result_refl); [|apply IH|].
  - revert g. induction IH as [|[fn v] fields Hv _ IHf]; intros g H0 Hm; [apply default_result_refl|].
    cbn [snd] in Hv.
    match type of Hm with _ + (_ + ?rest) <= _ => assert (0 <= rest) as Hrest end.
    { clear. induction fields as [|[fn v] fields IHf]; [lia|].
      pose proof (nondefaults_nonneg v (depth + 1)). lia. }
    pose proof (nondefaults_nonneg v (depth + 1)) as Hn.
    specialize (Hv (depth + 1) (field_name name fn) (ro || negb (IsExported fn)) g H0 ltac:(lia)).
    destruct (checkDefault1 _ v _ _ _ g) as [g1|f]; cbn [mbind outcome_bind].
    2:{ destruct Hv as [-> ->]. done. }
    destruct Hv as [-> Hstep]. cbn [andb].
    specialize (IHf g1). rewrite (ds_count _ _ _ Hstep) in IHf. specialize (IHf ltac:(lia) ltac:(lia)).
    match type of IHf with default_result ?o _ _ _ => destruct o as [g2|f] end; [|done].
    destruct IHf as [-> H2]. split; [done|]. by eapply default_step_trans.
  - destruct ro; [by intros|]. intros H0 Hm. destruct zero; [apply default_result_refl|].
    split; [done|].
    assert (errorCount g +! 1 = errorCount g + 1) as Hw.
    { apply wrap_int_small. unfold is_int, int_min, int_max in *. lia. }
    destruct (Z.ltb_spec (errorCount g) 1) as [H1|H1]; split; try done; try lia.
    + right. eexists. split; [reflexivity|]. cbn. lia.
    + left. split; [done|lia].
Qed.

(** CheckDefault panics exactly when some basic value down to depth 3 is
    reached through an unexported field; otherwise it counts every value that
    is not zero down to depth 3 once, and prints a warning only when it finds
    the first error of the process. *)
Theorem checkDefault_counts (v : GoValue) (g : Labgob) :
  0 <= errorCount g -> errorCount g + nondefaults v 1 <= int_max ->
  (readable v 1 false = false -> checkDefault IsExported (Some v) g = Panic UnexportedField) /\
  (readable v 1 false = true ->
   exists g', checkDefault IsExported (Some v) g = Ret g' /\
     errorCount g' = errorCount g + nondefaults v 1 /\ checked g' = checked g /\
     (nondefaults v 1 = 0 \/ 1 <= errorCount g -> printed g' = printed g) /\
     (errorCount g = 0 -> 1 <= nondefaults v 1 ->
        exists what, printed g' = printed g ++ [NonDefault what])).
Proof.
  intros H0 Hm. pose proof (checkDefault1_result v 1 EmptyString false g H0 Hm) as Hr.
  unfold checkDefault. destruct (checkDefault1 _ _ _ _ _ _) as [g'|f].
  - destruct Hr as [-> [K Cn N Pr]]. split; [done|]. intros _. exists g'. split_and!; try done.
    + intros Hn. destruct Pr as [[Q _]|(w & _ & ? & ?)]; [exact Q|lia].
    + intros He Hn. destruct Pr as [[_ ?]|(w & Q & _)]; [lia|]. by exists w.
  - destruct Hr as [-> ->]. done.
Qed.

End default_properties.

(** ** Witnesses

    A recursive type: a struct with an upper-case, a lower-case and a
    recursive pointer field. *)

Definition first_upper (name : string) : bool :=
  match name with
  | String c _ => (65 <=? Z.of_nat (Ascii.nat_of_ascii c)) && (Z.of_nat (Ascii.nat_of_ascii c) <=? 90)
  | EmptyString => false
  end.

Definition list_types : list TypeInfo :=
  [mkTypeInfo "int" Basic;
   mkTypeInfo "list" (Struct [("Head", 0%nat); ("count", 0%nat); ("Tail", 2%nat)]);
   mkTypeInfo EmptyString (Ptr 1)].

Definition fresh : Labgob := mkLabgob 0 ∅ [].

Lemma checkType_marks_reachable_witness :
  exists g', checkValue list_types first_upper (Some 2%nat) fresh = Ret g' /\
    1%nat ∈ checked g' /\ errorCount g' = 1.
Proof.
  destruct (checkType_marks_reachable list_types first_upper 2 fresh) as (g' & Hg' & _ & Hr & _);
    [|cbn; lia|vm_compute; split; discriminate|].
  - intros t info Ht. destruct t as [|[|[|t]]]; vm_compute in Ht; try discriminate Ht;
      injection Ht as <-; cbn; repeat constructor.
  - exists g'. split; [exact Hg'|]. split.
    + apply Hr; [intros u w Hu; by apply not_elem_of_empty in Hu|].
      apply rtc_once. eexists. split; [reflexivity|]. left.
    + vm_compute in Hg'. injection Hg' as <-. reflexivity.
Defined.

(** A reply whose Term is already set, and one with a lower-case field. *)
Definition stale_reply : GoValue :=
  VPtr (VStruct [("Term", VBasic "int" false); ("Ok", VBasic "bool" true)]).
Definition lower_reply : GoValue := VPtr (VStruct [("term", VBasic "int" true)]).

Lemma checkDefault_counts_witness :
  (exists g', checkDefault first_upper (Some stale_reply) fresh = Ret g' /\ errorCount g' = 1 /\
     exists what, printed g' = [NonDefault what]) /\
  checkDefault first_upper (Some lower_reply) fresh = Panic UnexportedField.
Proof.
  split.
  - destruct (checkDefault_counts first_upper stale_reply fresh) as [_ Hr];
      [vm_compute; discriminate|vm_compute; discriminate|].
    destruct Hr as (g' & Hg' & He & _ & _ & Hp); [vm_compute; reflexivity|].
    exists g'. split; [exact Hg'|]. split; [exact He|].
    apply Hp; [reflexivity|vm_compute; discriminate].
  - apply (checkDefault_counts first_upper lower_reply fresh);
      [vm_compute; discriminate|vm_compute; discriminate|vm_compute; reflexivity].
Defined.
