(* ===== verification/RandString.v ===== *)
(** * raft/config.go: random names and seeds

    [randstring] draws the names of ends: base64 of random bytes, cut to
    length.  The bytes that crypto/rand yields are an input.  Two names are the
    same exactly when the bytes they encode are. *)

From Stdlib Require Import Ascii.
From S2P Require Import Prelude Labrpc.
Open Scope go_scope.

(** ** base64.URLEncoding *)





(** ** The functions of config.go *)


(** [bigx] is what [crand.Int] draws below [max]. *)
Definition makeSeed (bigx : Z) : Z := wrap_int bigx.

Lemma makeSeed_exact bigx : 0 <= bigx < 2 ^ 62 -> makeSeed bigx = bigx.
Proof. intros Hb. apply wrap_int_small. unfold is_int, int_min, int_max. lia. Qed.

(** ** Groups *)









(** ** Names *)







(** ** A witness *)


