(* ===== verification/Config.v ===== *)
(** * raft/config.go: the test harness

    A [config] runs n peers on a simulated network, connects and disconnects
    them, crashes and restarts them on copies of their persisters, reads what
    they deliver, and checks it.  Instances of Raft and persisters are
    objects: pointers are indexes into the lists of those made so far, since
    which of two instances holds which persister is the point of [crash1]
    and [start1].  Real time, printing and random strings are inputs or left
    out. *)

From S2P Require Import Prelude Gob PersisterModel RaftState Labrpc.
Open Scope go_scope.

(** A Raft object and the persister it was given; the [persister] of
    [in_raft] is a cached copy of that object ([run_instance]). *)
Record Inst := mkInst {
  in_raft : Raft;
  in_ps : nat;
}.

Record config := mkConfig {
  net : Network;
  n : nat;
  rafts : list (option nat);
  applyErr : list string;
  connected : list bool;
  saved : list (option nat);
  endnames : list (option (list string));
  logs : list (gmap Z iface);
  rpcs0 : Z;
  cmds0 : Z;
  bytes0 : Z;
  maxIndex : Z;
  maxIndex0 : Z;
  persisters : list Persister; (* every persister made so far *)
  insts : list Inst;           (* every Raft made so far; server object k serves instance k *)
}.

#[export] Instance config_eta : Eta config := fun c =>
  mkConfig (net c) (n c) (rafts c) (applyErr c) (connected c) (saved c) (endnames c) (logs c)
    (rpcs0 c) (cmds0 c) (bytes0 c) (maxIndex c) (maxIndex0 c) (persisters c) (insts c).

(** Pointers to objects that were made are valid. *)
Definition deref {A} (heap : list A) (p : nat) : outcome A :=
  match heap !! p with
  | Some x => Ret x
  | None => Panic NilDereference
  end.

Definition new_persister (cfg : config) (ps : Persister) : config * nat :=
  (cfg <| persisters := persisters cfg ++ [ps] |>, length (persisters cfg)).

(** ** Connections *)

(** Enable or disable the end with the name in [names[j]]. *)
Definition enable_end (names : list string) (j : Z) (yes : bool) (cfg : config) : outcome config :=
  e ← go_index names j;
  Ret (cfg <| net := Enable (net cfg) (IString e) yes |>).

Definition connect (cfg : config) (i : Z) : outcome config :=
  conn ← go_store (connected cfg) i true;
  let cfg := cfg <| connected := conn |> in
  cfg ← for_range (n cfg) (fun j cfg =>
    c ← go_index (connected cfg) j;
    if c : bool then
      names ← go_index (endnames cfg) i;
      enable_end (default [] names) j true cfg
    else Ret cfg) cfg;
  for_range (n cfg) (fun j cfg =>
    c ← go_index (connected cfg) j;
    if c : bool then
      names ← go_index (endnames cfg) j;
      enable_end (default [] names) i true cfg
    else Ret cfg) cfg.

Definition disconnect (cfg : config) (i : Z) : outcome config :=
  conn ← go_store (connected cfg) i false;
  let cfg := cfg <| connected := conn |> in
  cfg ← for_range (n cfg) (fun j cfg =>
    names ← go_index (endnames cfg) i;
    match names with
    | Some names => enable_end names j false cfg
    | None => Ret cfg
    end) cfg;
  for_range (n cfg) (fun j cfg =>
    names ← go_index (endnames cfg) j;
    match names with
    | Some names => enable_end names i false cfg
    | None => Ret cfg
    end) cfg.

Section config.
Context {GT : GobTypes}.

(** ** Crashes and restarts *)

(** An operation [f] of instance [k]: it reads and writes the persister the
    instance was given. *)
Definition run_instance (cfg : config) (k : nat) (f : Raft -> Raft) : outcome config :=
  inst ← deref (insts cfg) k;
  ps ← deref (persisters cfg) (in_ps inst);
  let rf := f ((in_raft inst) <| persister := ps |>) in
  Ret (cfg <| insts := <[k := mkInst rf (in_ps inst)]> (insts cfg) |>
           <| persisters := <[in_ps inst := persister rf]> (persisters cfg) |>).

(** [cfg.saved[i] = cfg.saved[i].Copy()], when there is one. *)
Definition copy_saved (cfg : config) (i : Z) : outcome config :=
  sv ← go_index (saved cfg) i;
  match sv with
  | None => Ret cfg
  | Some p =>
      ps ← deref (persisters cfg) p;
      let '(cfg, p) := new_persister cfg (Copy ps) in
      sv ← go_store (saved cfg) i (Some p);
      Ret (cfg <| saved := sv |>)
  end.

Definition crash1 (cfg : config) (i : Z) : outcome config :=
  cfg ← disconnect cfg i;
  let cfg := cfg <| net := DeleteServer (net cfg) (IInt i) |> in
  cfg ← copy_saved cfg i;
  rf ← go_index (rafts cfg) i;
  cfg ← match rf with
        | None => Ret cfg
        | Some k =>
            cfg ← run_instance cfg k Kill;
            rs ← go_store (rafts cfg) i None;
            Ret (cfg <| rafts := rs |>)
        end;
  sv ← go_index (saved cfg) i;
  match sv with
  | None => Ret cfg
  | Some p =>
      ps ← deref (persisters cfg) p;
      let raftlog := ReadRaftState ps in
      let '(cfg, p) := new_persister cfg MakePersister in
      ps ← deref (persisters cfg) p;
      let cfg := cfg <| persisters := <[p := SaveRaftState ps raftlog]> (persisters cfg) |> in
      sv ← go_store (saved cfg) i (Some p);
      Ret (cfg <| saved := sv |>)
  end.

(** [rands j] is the string [randstring] yields for peer [j]. *)
Definition start1 (cfg : config) (i : Z) (rands : Z -> string) : outcome config :=
  cfg ← crash1 cfg i;
  let names := map rands (seqZ 0 (Z.of_nat (n cfg))) in
  es ← go_store (endnames cfg) i (Some names);
  let cfg := cfg <| endnames := es |> in
  cfg ← for_range (n cfg) (fun j cfg =>
    e ← go_index names j;
    '(rn, _) ← MakeEnd (net cfg) (IString e);
    Ret (cfg <| net := Connect rn (IString e) (IInt j) |>)) cfg;
  sv ← go_index (saved cfg) i;
  cfg ← match sv with
        | Some _ => copy_saved cfg i
        | None =>
            let '(cfg, p) := new_persister cfg MakePersister in
            sv ← go_store (saved cfg) i (Some p);
            Ret (cfg <| saved := sv |>)
        end;
  sv ← go_index (saved cfg) i;
  match sv with
  | None => Panic NilDereference
  | Some p =>
      ps ← deref (persisters cfg) p;
      let rf := Make (n cfg) i ps in
      let k := length (insts cfg) in
      let cfg := cfg <| insts := insts cfg ++ [mkInst rf p] |> in
      rs ← go_store (rafts cfg) i (Some k);
      let cfg := cfg <| rafts := rs |> in
      Ret (cfg <| net := AddServer (net cfg) (IInt i) k |>)
  end.

(** The harness before its first server; every log is made before it is used. *)
Definition new_config (n : nat) (unreliable : bool) : config :=
  let cfg := mkConfig MakeNetwork n (replicate n None) (replicate n EmptyString)
    (replicate n false) (replicate n None) (replicate n None) (replicate n ∅) 0 0 0 0 0 [] [] in
  let cfg := cfg <| net := Reliable (net cfg) (negb unreliable) |> in
  cfg <| net := LongDelays (net cfg) true |>.

(** [rands i j] is the string drawn for the end from server [i] to [j]. *)
Definition make_config (n : nat) (unreliable : bool) (rands : Z -> Z -> string) : outcome config :=
  cfg ← for_range n (fun i cfg => start1 cfg i (rands i)) (new_config n unreliable);
  for_range n (fun i cfg => connect cfg i) cfg.

Definition kill_all (cfg : config) : outcome config :=
  for_range (length (rafts cfg)) (fun i cfg =>
    rf ← go_index (rafts cfg) i;
    match rf with
    | Some k => run_instance cfg k Kill
    | None => Ret cfg
    end) cfg.

(** [elapsed] is [time.Since(cfg.start)] in nanoseconds, [failed] what
    [cfg.t.Failed()] says. *)
Definition checkTimeout (failed : bool) (elapsed : Z) : outcome unit :=
  if negb failed && (120 * 10 ^ 9 <? elapsed) then Panic TestFailed else Ret tt.

Definition cleanup (cfg : config) (failed : bool) (elapsed : Z) : outcome config :=
  cfg ← kill_all cfg;
  rn ← Cleanup (net cfg);
  let cfg := cfg <| net := rn |> in
  _ ← checkTimeout failed elapsed;
  Ret cfg.

(** ** What the peers deliver *)

(** Some server already committed a different value for this index. *)
Definition disagrees (cfg : config) (m : ApplyMsg) : bool :=
  existsb (fun l => match l !! CommandIndex m with
                    | Some old => negb (bool_decide (old = msg_Command m))
                    | None => false
                    end) (logs cfg).

(** The goroutine of server [i] handles one message of its applyCh. *)
Definition apply_msg (cfg : config) (i : Z) (m : ApplyMsg) : outcome config :=
  if CommandValid m then
    let v := msg_Command m in
    let err := disagrees cfg m in
    l ← go_index (logs cfg) i;
    let prevok := bool_decide (is_Some (l !! (CommandIndex m - 1))) in
    ls ← go_store (logs cfg) i (<[CommandIndex m := v]> l);
    let cfg := cfg <| logs := ls |> in
    let cfg := if maxIndex cfg <? CommandIndex m then cfg <| maxIndex := CommandIndex m |> else cfg in
    let err := err || ((1 <? CommandIndex m) && negb prevok) in
    if err : bool then Panic Fatal else Ret cfg
  else Ret cfg.

(** ** Statistics *)

Definition rpcCount (heap : list (Server unit unit)) (cfg : config) (server : Z) : outcome Z :=
  GetCount heap (net cfg) (IInt server).
Definition rpcTotal (cfg : config) : Z := GetTotalCount (net cfg).
Definition bytesTotal (cfg : config) : Z := GetTotalBytes (net cfg).
Definition setunreliable (cfg : config) (unrel : bool) : config :=
  cfg <| net := Reliable (net cfg) (negb unrel) |>.
Definition setlongreordering (cfg : config) (longrel : bool) : config :=
  cfg <| net := LongReordering (net cfg) longrel |>.

Definition begin (cfg : config) : config :=
  let cfg := cfg <| rpcs0 := rpcTotal cfg |> in
  let cfg := cfg <| bytes0 := bytesTotal cfg |> in
  let cfg := cfg <| cmds0 := 0 |> in
  cfg <| maxIndex0 := maxIndex cfg |>.

(** [end]: the numbers it prints, when the test has not failed: peers, RPCs,
    bytes and agreements. *)
Definition end_test (cfg : config) (failed : bool) (elapsed : Z) :
    outcome (option (nat * Z * Z * Z)) :=
  _ ← checkTimeout failed elapsed;
  if failed then Ret None
  else Ret (Some (n cfg, wrap_int (rpcTotal cfg - rpcs0 cfg), wrap_int (bytesTotal cfg - bytes0 cfg),
                  wrap_int (maxIndex cfg - maxIndex0 cfg))).

(** ** Checks *)

(** [cfg.rafts[i].GetState()] *)
Definition state_of (cfg : config) (i : Z) : outcome (Z * bool) :=
  rf ← go_index (rafts cfg) i;
  match rf with
  | None => Panic NilDereference
  | Some k => inst ← deref (insts cfg) k; Ret (GetState (in_raft inst))
  end.

(** The map from terms to the connected leaders of the term. *)
Definition collect_leaders (cfg : config) : outcome (gmap Z (list Z)) :=
  for_range (n cfg) (fun i leaders =>
    c ← go_index (connected cfg) i;
    if c : bool then
      '(term, leader) ← state_of cfg i;
      Ret (if leader : bool then <[term := default [] (leaders !! term) ++ [i]]> leaders else leaders)
    else Ret leaders) ∅.

Definition last_term_with_leader (leaders : gmap Z (list Z)) : Z :=
  map_fold (fun term _ last => if last <? term then term else last) (-1) leaders.

(** One round of [checkOneLeader]; [None] when it goes round again. *)
Definition one_leader_round (cfg : config) : outcome (option Z) :=
  leaders ← collect_leaders cfg;
  if bool_decide (map_Forall (fun _ ls => (length ls <= 1)%nat) leaders) then
    if bool_decide (leaders = ∅) then Ret None
    else i ← go_index (default [] (leaders !! last_term_with_leader leaders)) 0; Ret (Some i)
  else Panic TestFailed.

(** [looks]: the harness at each of the rounds that are left. *)
Fixpoint one_leader_loop (iters : nat) (looks : nat -> config) : outcome Z :=
  match iters with
  | O => Panic TestFailed
  | S iters =>
      r ← one_leader_round (looks O);
      match r with
      | Some i => Ret i
      | None => one_leader_loop iters (fun r => looks (S r))
      end
  end.

Definition checkOneLeader (looks : nat -> config) : outcome Z := one_leader_loop 10 looks.

Definition checkTerms (cfg : config) : outcome Z :=
  for_range (n cfg) (fun i term =>
    c ← go_index (connected cfg) i;
    if c : bool then
      '(xterm, _) ← state_of cfg i;
      if term =? -1 then Ret xterm
      else if decide (term <> xterm) then Panic TestFailed
      else Ret term
    else Ret term) (-1).

Definition checkNoLeader (cfg : config) : outcome unit :=
  for_range (n cfg) (fun i u =>
    c ← go_index (connected cfg) i;
    if c : bool then
      '(_, is_leader) ← state_of cfg i;
      if is_leader : bool then Panic TestFailed else Ret u
    else Ret u) tt.

Definition nCommitted (cfg : config) (index : Z) : outcome (Z * iface) :=
  for_range (length (rafts cfg)) (fun i acc =>
    let '(count, cmd) := acc in
    err ← go_index (applyErr cfg) i;
    if decide (err <> EmptyString) then Panic TestFailed
    else
      l ← go_index (logs cfg) i;
      match l !! index with
      | None => Ret (count, cmd)
      | Some cmd1 =>
          if (0 <? count) && negb (bool_decide (cmd = cmd1)) then Panic TestFailed
          else Ret (count + 1, cmd1)
      end) (0, INil).

(** [obs k] is the harness when [wait] looks at it for the [k]-th time; it
    returns early when some peer's term is past [startTerm]. *)
Definition moved_on (cfg : config) (startTerm : Z) : outcome bool :=
  for_range (length (rafts cfg)) (fun i found =>
    if found : bool then Ret true
    else '(t, _) ← state_of cfg i; Ret (startTerm <? t)) false.

Fixpoint wait_loop (iters : nat) (obs : nat -> config) (k : nat) (index n startTerm : Z) :
    outcome (option iface * nat) :=
  match iters with
  | O => Ret (None, k)
  | S iters =>
      '(nd, _) ← nCommitted (obs k) index;
      if n <=? nd then Ret (None, S k)
      else if -1 <? startTerm then
        m ← moved_on (obs (S k)) startTerm;
        if m : bool then Ret (Some (IInt (-1)), S (S k))
        else wait_loop iters obs (S (S k)) index n startTerm
      else wait_loop iters obs (S k) index n startTerm
  end.

Definition wait (obs : nat -> config) (index n startTerm : Z) : outcome iface :=
  '(early, k) ← wait_loop 30 obs 0 index n startTerm;
  match early with
  | Some v => Ret v
  | None =>
      '(nd, cmd) ← nCommitted (obs k) index;
      if nd <? n then Panic TestFailed else Ret cmd
  end.

(** ** Submitting a command *)

(** The loop of [one] that looks for a leader: [tries] servers are left to
    try; the index of the command, or [-1]. *)
Fixpoint one_submit (tries : nat) (cfg : config) (starts : Z) (cmd : iface) :
    outcome (config * Z * Z) :=
  match tries with
  | O => Ret (cfg, starts, -1)
  | S tries =>
      let starts := (starts + 1) mod Z.of_nat (n cfg) in
      c ← go_index (connected cfg) starts;
      rf ← (if c : bool then go_index (rafts cfg) starts else Ret None);
      match rf with
      | None => one_submit tries cfg starts cmd
      | Some k =>
          inst ← deref (insts cfg) k;
          let '(_, (index1, _, ok)) := Start (in_raft inst) cmd in
          cfg ← run_instance cfg k (fun rf => (Start rf cmd).1);
          if ok : bool then Ret (cfg, starts, index1)
          else one_submit tries cfg starts cmd
      end
  end.

(** The polling loop of [one]: [looks] are the states of the harness at its
    looks, as many as two seconds allow. *)
Fixpoint one_poll (looks : list config) (index : Z) (cmd : iface) (expectedServers : Z) :
    outcome bool :=
  match looks with
  | [] => Ret false
  | cfg :: looks =>
      '(nd, cmd1) ← nCommitted cfg index;
      if (0 <? nd) && (expectedServers <=? nd) && bool_decide (cmd1 = cmd) then Ret true
      else one_poll looks index cmd expectedServers
  end.

(** The rounds of [one]: in each it submits to the harness at the start of
    the round and then looks at it as time goes on.  As many rounds as ten
    seconds allow. *)
Fixpoint one_rounds (rounds : list (config * list config)) (starts : Z) (cmd : iface)
    (expectedServers : Z) (retry : bool) : outcome Z :=
  match rounds with
  | [] => Panic TestFailed
  | (cfg, looks) :: rounds =>
      '(_, starts, index) ← one_submit (n cfg) cfg starts cmd;
      if decide (index <> -1) then
        reached ← one_poll looks index cmd expectedServers;
        if reached : bool then Ret index
        else if negb retry then Panic TestFailed
        else one_rounds rounds starts cmd expectedServers retry
      else one_rounds rounds starts cmd expectedServers retry
  end.

Definition one (rounds : list (config * list config)) (cmd : iface) (expectedServers : Z)
    (retry : bool) : outcome Z :=
  one_rounds rounds 0 cmd expectedServers retry.

End config.
