(* ===== verification/ConfigProps.v ===== *)
(** * What the harness guarantees and what its checks establish

    The reader of the apply channels accepts a peer's deliveries exactly when
    they agree with what was delivered before; the ends of the network that
    are enabled are exactly those between connected servers; a restarted
    server starts from the last saved state of its predecessor and shares no
    persister with it; a round of checkOneLeader and nCommitted report what
    they claim. *)

From S2P Require Import Prelude Gob PersisterModel RaftState Labrpc.
From S2P Require Import RaftVote RaftAppend RaftChain RaftNode RaftInv Cluster ClusterInv Runs.
From S2P Require Import ClusterProps Config.
Open Scope go_scope.

(** ** Deliveries *)

Section apply.
Context {GT : GobTypes}.
Implicit Types (cfg : config) (m : ApplyMsg) (i k : Z).

Definition apply_all cfg i (ms : list ApplyMsg) : outcome config :=
  for_each ms (fun m cfg => apply_msg cfg i m) cfg.

Definition conflict (v : iface) (o : option iface) : bool :=
  match o with
  | Some old => negb (bool_decide (old = v))
  | None => false
  end.

Lemma disagrees_map cfg m :
  disagrees cfg m = existsb (conflict (msg_Command m)) (map (fun l => l !! CommandIndex m) (logs cfg)).
Proof. unfold disagrees. induction (logs cfg) as [|l ls IH]; [done|]. cbn. by rewrite IH. Qed.

Lemma disagrees_other cfg cfg' j l idx v m :
  logs cfg' = <[j := <[idx := v]> l]> (logs cfg) -> logs cfg !! j = Some l -> CommandIndex m <> idx ->
  disagrees cfg' m = disagrees cfg m.
Proof.
  intros Hl Hj Hne. rewrite !disagrees_map, Hl. f_equal.
  change (map (fun l : gmap Z iface => l !! CommandIndex m)) with (fmap (M := list) (fun l : gmap Z iface => l !! CommandIndex m)).
  rewrite list_fmap_insert, lookup_insert_ne by done.
  apply list_insert_id. by rewrite list_lookup_fmap, Hj.
Qed.

(** [ms] are valid and numbered from [k]. *)
Definition numbered k (ms : list ApplyMsg) : Prop :=
  forall j m, ms !! j = Some m -> CommandValid m = true /\ CommandIndex m = k + Z.of_nat j.

Lemma numbered_cons k m ms :
  numbered k (m :: ms) <-> CommandValid m = true /\ CommandIndex m = k /\ numbered (k + 1) ms.
Proof.
  split.
  - intros Hn. destruct (Hn 0%nat m eq_refl) as [Hv Hi]. split_and!; [done|lia|].
    intros j x Hx. destruct (Hn (S j) x Hx). split; [done|lia].
  - intros (Hv & Hi & Hn) [|j] x Hx; cbn in Hx; [simplify_eq; split; [done|lia]|].
    destruct (Hn j x Hx). split; [done|lia].
Qed.

(** One message whose predecessor was delivered. *)
Lemma apply_msg_step cfg (j : nat) l m :
  logs cfg !! j = Some l -> CommandValid m = true ->
  (1 < CommandIndex m -> is_Some (l !! (CommandIndex m - 1))) ->
  exists cfg', logs cfg' = <[j := <[CommandIndex m := msg_Command m]> l]> (logs cfg) /\
    apply_msg cfg (Z.of_nat j) m = if disagrees cfg m then Panic Fatal else Ret cfg'.
Proof.
  intros Hj Hv Hp. unfold apply_msg. rewrite Hv.
  pose proof (lookup_lt_Some _ _ _ Hj) as Hlt.
  assert (go_index (logs cfg) (Z.of_nat j) = Ret l) as ->.
  { apply go_index_Ret. rewrite Nat2Z.id. split; [lia|done]. }
  cbn [mbind outcome_bind]. rewrite go_store_in by (unfold len; lia).
  cbn [mbind outcome_bind]. rewrite Nat2Z.id.
  assert ((1 <? CommandIndex m) && negb (bool_decide (is_Some (l !! (CommandIndex m - 1)))) = false) as ->.
  { destruct (Z.ltb_spec 1 (CommandIndex m)) as [Hlt1|]; [|done].
    by rewrite bool_decide_eq_true_2 by auto. }
  rewrite orb_false_r. eexists. split; [|destruct (disagrees cfg m); reflexivity]. by case_match.
Qed.

(** The log after the deliveries. *)
Definition add_all (ms : list ApplyMsg) (l : gmap Z iface) : gmap Z iface :=
  foldl (fun l m => <[CommandIndex m := msg_Command m]> l) l ms.

Lemma apply_all_numbered cfg (j : nat) l k ms :
  logs cfg !! j = Some l -> numbered k ms -> (1 < k -> is_Some (l !! (k - 1))) ->
  match apply_all cfg (Z.of_nat j) ms with
  | Ret cfg' => Forall (fun m => disagrees cfg m = false) ms /\
                logs cfg' = <[j := add_all ms l]> (logs cfg)
  | Panic f => f = Fatal /\ Exists (fun m => disagrees cfg m = true) ms
  end.
Proof.
  unfold apply_all. revert cfg l k. induction ms as [|m ms IH]; intros cfg l k Hj Hn Hp; cbn [for_each].
  { split; [by constructor|]. cbn. by rewrite list_insert_id. }
  apply numbered_cons in Hn as (Hv & Hi & Hn).
  destruct (apply_msg_step cfg j l m Hj Hv) as (cfg1 & Hl1 & ->).
  { by rewrite Hi. }
  destruct (disagrees cfg m) eqn:Hd; [by split; [done|left]|]. cbn [mbind outcome_bind].
  pose proof (lookup_lt_Some _ _ _ Hj) as Hlt.
  assert (forall m', m' ∈ ms -> disagrees cfg1 m' = disagrees cfg m') as Hsame.
  { intros m' [x Hx]%list_elem_of_lookup. eapply disagrees_other; [done|done|].
    destruct (Hn x m' Hx). lia. }
  assert (logs cfg1 !! j = Some (<[CommandIndex m := msg_Command m]> l)) as Hj1.
  { rewrite Hl1. by apply list_lookup_insert_eq. }
  specialize (IH cfg1 _ (k + 1) Hj1 Hn). rewrite Hi in IH.
  replace (k + 1 - 1) with k in IH by lia. rewrite lookup_insert_eq in IH.
  specialize (IH ltac:(done)). destruct (for_each ms _ cfg1) as [cfg'|f].
  - destruct IH as [Hf Hl]. split.
    + constructor; [done|]. rewrite Forall_forall in Hf |- *. intros m' Hm'.
      rewrite <- Hsame by done. auto.
    + rewrite Hl, Hl1, list_insert_insert_eq. cbn. by rewrite Hi.
  - destruct IH as [-> Hex]. split; [done|]. right. rewrite Exists_exists in Hex |- *.
    destruct Hex as (m' & Hm' & Hx). exists m'. split; [done|]. by rewrite <- Hsame.
Qed.

Lemma add_all_other ms l k idx :
  numbered k ms -> idx < k \/ k + len ms <= idx -> add_all ms l !! idx = l !! idx.
Proof.
  revert l k. induction ms as [|m ms IH]; intros l k; [done|].
  intros (_ & Hi & Hn)%numbered_cons. rewrite len_cons. intros Hidx.
  pose proof (len_nonneg ms).
  change (add_all ms (<[CommandIndex m := msg_Command m]> l) !! idx = l !! idx).
  rewrite (IH _ (k + 1)) by (done || lia). apply lookup_insert_ne. lia.
Qed.

Lemma add_all_lookup ms l k (x : nat) m :
  numbered k ms -> ms !! x = Some m -> add_all ms l !! (k + Z.of_nat x) = Some (msg_Command m).
Proof.
  revert l k x. induction ms as [|m' ms IH]; intros l k x Hn Hx; [done|].
  apply numbered_cons in Hn as (_ & Hi & Hn).
  change (add_all ms (<[CommandIndex m' := msg_Command m']> l) !! (k + Z.of_nat x) = Some (msg_Command m)).
  destruct x as [|x].
  - injection Hx as ->. rewrite (add_all_other _ _ (k + 1)) by (done || lia).
    rewrite Hi. replace (k + Z.of_nat 0) with k by lia. apply lookup_insert_eq.
  - replace (k + Z.of_nat (S x)) with (k + 1 + Z.of_nat x) by lia. by apply IH.
Qed.

Context {GTok : GobTypesOk}.

(** C32: the harness and the peers together: when the reader of server [j]
    receives what a peer of a reachable cluster has delivered, its check of
    the order of the indexes never fails; the test survives exactly when no
    message differs from what some server delivered at its index before, and
    then the server's log holds every delivered command at its index and the
    other logs are as they were. *)
Theorem harness_accepts_iff_agreement (s : Cluster) (p : nat) (node : Node) cfg (j : nat)
    (l : gmap Z iface) :
  reachable s -> nodes s !! p = Some node -> logs cfg !! j = Some l ->
  match apply_all cfg (Z.of_nat j) (applyCh (raft node)) with
  | Ret cfg' =>
      Forall (fun m => disagrees cfg m = false) (applyCh (raft node)) /\
      exists l', logs cfg' = <[j := l']> (logs cfg) /\
        forall (x : nat) m, applyCh (raft node) !! x = Some m -> l' !! Z.of_nat x = Some (msg_Command m)
  | Panic f => f = Fatal /\ Exists (fun m => disagrees cfg m = true) (applyCh (raft node))
  end.
Proof.
  intros Hr%reachable_inv Hp Hj.
  destruct (ro_applied _ (no_raft _ _ _ _ _ (bi_nodes s (proj1 Hr) p node Hp))) as [_ Hk].
  assert (numbered 0 (applyCh (raft node))) as Hn.
  { intros x m Hx. destruct (Hk x m Hx). split; [done|lia]. }
  pose proof (apply_all_numbered cfg j l 0 (applyCh (raft node)) Hj Hn ltac:(lia)) as Ha.
  destruct (apply_all _ _ _) as [cfg'|f]; [|done]. destruct Ha as [Hf Hl]. split; [done|].
  eexists. split; [exact Hl|]. intros x m Hm. by apply (add_all_lookup _ _ 0 x m).
Qed.

End apply.

(** ** The checks *)

Section checks.
Context {GT : GobTypes}.
Implicit Types (cfg : config).

(** What the servers delivered at [index], in the order of the servers. *)
Definition commands_at cfg (index : Z) : list iface := omap (fun l => l !! index) (logs cfg).

Lemma go_index_nat {A} (l : list A) (j : nat) x : l !! j = Some x -> go_index l (Z.of_nat j) = Ret x.
Proof. intros Hj. apply go_index_Ret. rewrite Nat2Z.id. split; [lia|done]. Qed.

(** A loop over [0 .. n-1] as a loop over the elements of a list. *)
Lemma for_range_list {A T} (l : list A) (f : Z -> T -> outcome T) (g : A -> T -> outcome T) s :
  (forall (j : nat) x s, l !! j = Some x -> f (Z.of_nat j) s = g x s) ->
  for_range (length l) f s = for_each l g s.
Proof.
  unfold for_range. intros Hf.
  assert (forall (k : nat) m s, l = take k l ++ m -> (k <= length l)%nat ->
    for_each (seqZ (Z.of_nat k) (Z.of_nat (length m))) f s = for_each m g s) as Hgen.
  { intros k m. revert k. induction m as [|x m IH]; intros k t Hl Hk; [done|].
    cbn [length]. rewrite seqZ_cons by lia. cbn [for_each].
    assert (l !! k = Some x) as Hx.
    { rewrite Hl. rewrite lookup_app_r, length_take; [|rewrite length_take; lia].
      by replace (k - k `min` length l)%nat with 0%nat by lia. }
    rewrite (Hf k x t Hx). destruct (g x t) as [t'|]; [|done]. cbn [mbind outcome_bind].
    replace (Z.pred (Z.of_nat (S (length m)))) with (Z.of_nat (length m)) by lia.
    replace (Z.succ (Z.of_nat k)) with (Z.of_nat (S k)) by lia.
    apply IH; [|by eapply lookup_lt_Some].
    rewrite (take_S_r _ _ _ Hx), <- app_assoc. exact Hl. }
  apply (Hgen 0%nat l s); [done|lia].
Qed.

Definition same_as (v : iface) (vs : list iface) : bool := forallb (fun x => bool_decide (x = v)) vs.

(** The body of the loop of [nCommitted] on the log of one server. *)
Definition count_step (index : Z) (l : gmap Z iface) (acc : Z * iface) : outcome (Z * iface) :=
  let '(count, cmd) := acc in
  match l !! index with
  | None => Ret (count, cmd)
  | Some cmd1 =>
      if (0 <? count) && negb (bool_decide (cmd = cmd1)) then Panic TestFailed
      else Ret (count + 1, cmd1)
  end.

Lemma count_step_Some index l c v x :
  l !! index = Some x ->
  count_step index l (c, v) =
    if (0 <? c) && negb (bool_decide (v = x)) then Panic TestFailed else Ret (c + 1, x).
Proof. unfold count_step. by intros ->. Qed.

Lemma count_step_None index l c v : l !! index = None -> count_step index l (c, v) = Ret (c, v).
Proof. unfold count_step. by intros ->. Qed.

Lemma count_commands index ls (c : Z) v :
  0 < c ->
  for_each ls (count_step index) (c, v) =
    let seen := omap (fun l => l !! index) ls in
    if same_as v seen then Ret (c + len seen, v) else Panic TestFailed.
Proof.
  cbv zeta. revert c. induction ls as [|l ls IH]; intros c Hc; cbn [for_each omap list_omap].
  { cbn. by rewrite Z.add_0_r. }
  destruct (l !! index) as [x|] eqn:Hx.
  - rewrite (count_step_Some _ _ _ _ _ Hx), (proj2 (Z.ltb_lt 0 c)) by done.
    cbn [andb same_as forallb].
    destruct (decide (x = v)) as [->|Hne].
    + rewrite !bool_decide_eq_true_2 by done. cbn [negb mbind outcome_bind andb].
      rewrite IH by lia. unfold same_as, len. destruct (forallb _ _); [|done].
      f_equal. f_equal. cbn [length]. lia.
    + rewrite (bool_decide_eq_false_2 (v = x)), (bool_decide_eq_false_2 (x = v)) by congruence.
      done.
  - rewrite (count_step_None _ _ _ _ Hx). cbn [mbind outcome_bind]. by rewrite IH.
Qed.

(** The arrays of the harness have one element per server, and no error was
    recorded. *)
Definition shaped cfg : Prop :=
  length (logs cfg) = length (rafts cfg) /\ applyErr cfg = replicate (length (rafts cfg)) EmptyString.

Lemma nCommitted_commands cfg (index : Z) :
  shaped cfg ->
  nCommitted cfg index =
    match commands_at cfg index with
    | [] => Ret (0, INil)
    | v :: vs => if same_as v vs then Ret (len (v :: vs), v) else Panic TestFailed
    end.
Proof.
  intros [Hl He]. unfold nCommitted. rewrite <- Hl.
  rewrite (for_range_list (logs cfg) _ (count_step index)).
  - unfold commands_at. clear Hl He. induction (logs cfg) as [|l ls IH]; [done|].
    cbn [for_each omap list_omap]. destruct (l !! index) as [x|] eqn:Hx.
    2:{ rewrite (count_step_None _ _ _ _ Hx). exact IH. }
    rewrite (count_step_Some _ _ _ _ _ Hx). change (0 <? 0) with false. cbn [andb mbind outcome_bind].
    rewrite count_commands by done. cbv zeta. destruct (same_as _ _); [|done].
    unfold len. cbn [length]. do 2 f_equal. lia.
  - intros j l [count cmd] Hj. pose proof (lookup_lt_Some _ _ _ Hj).
    rewrite He, (go_index_nat _ j EmptyString) by (apply lookup_replicate; split; [done|lia]).
    cbn [mbind outcome_bind]. rewrite decide_False by tauto.
    by rewrite (go_index_nat _ j l).
Qed.

(** NCommitted reports how many servers have delivered something at the
    index, and what, when they all delivered the same, and fails the test
    when two of them delivered different commands. *)
Theorem nCommitted_exact cfg (index : Z) :
  shaped cfg ->
  nCommitted cfg index =
    match commands_at cfg index with
    | [] => Ret (0, INil)
    | v :: vs => if same_as v vs then Ret (len (v :: vs), v) else Panic TestFailed
    end.
Proof. apply nCommitted_commands. Qed.

(** *** one *)

Lemma run_instance_inst cfg k f cfg' k' inst' :
  run_instance cfg k f = Ret cfg' -> insts cfg' !! k' = Some inst' ->
  exists inst ps, insts cfg !! k' = Some inst /\
    in_raft inst' = (if decide (k' = k) then f ((in_raft inst) <| persister := ps |>) else in_raft inst).
Proof.
  intros (inst & Hk & (ps & _ & [= <-])%bind_Ret)%bind_Ret. unfold deref in Hk.
  destruct (insts cfg !! k) as [i0|] eqn:Hk0; [|done]. injection Hk as ->. cbn.
  intros [(-> & <- & _)|[Hne Hi]]%list_lookup_insert_Some.
  - exists inst, ps. rewrite decide_True by done. done.
  - exists inst', MakePersister. rewrite decide_False by done. done.
Qed.

(** Between [cfg] and [cfg'] a connected server that was a leader took the
    command as the last entry of its log, at [index] and in its own term. *)
Definition took_command cfg cfg' (cmd : iface) (index : Z) : Prop :=
  exists (i k : nat) inst inst', connected cfg !! i = Some true /\ rafts cfg !! i = Some (Some k) /\
    insts cfg !! k = Some inst /\ insts cfg' !! k = Some inst' /\
    state (in_raft inst) = Leader /\ index = len (log (in_raft inst)) /\
    log (in_raft inst') = log (in_raft inst) ++ [mkLogEntry cmd (currentTerm (in_raft inst))].

Lemma run_instance_config cfg k f cfg' :
  run_instance cfg k f = Ret cfg' ->
  connected cfg' = connected cfg /\ rafts cfg' = rafts cfg /\ n cfg' = n cfg /\
  exists inst ps, insts cfg !! k = Some inst /\
    insts cfg' !! k = Some (mkInst (f ((in_raft inst) <| persister := ps |>)) (in_ps inst)).
Proof.
  intros (inst & Hk & (ps & _ & [= <-])%bind_Ret)%bind_Ret. unfold deref in Hk.
  destruct (insts cfg !! k) as [i0|] eqn:Hk0; [|done]. injection Hk as ->. split_and!; try done.
  exists inst, ps. split; [done|]. cbn. apply list_lookup_insert_eq. by eapply lookup_lt_Some.
Qed.

Lemma go_index_lookup {A} (l : list A) (i : Z) x :
  go_index l i = Ret x -> exists j, i = Z.of_nat j /\ l !! j = Some x.
Proof. rewrite go_index_Ret. intros [? ?]. exists (Z.to_nat i). split; [lia|done]. Qed.

Lemma one_submit_took tries cfg starts cmd cfg' starts' index :
  one_submit tries cfg starts cmd = Ret (cfg', starts', index) -> index <> -1 ->
  took_command cfg cfg' cmd index.
Proof.
  revert cfg starts. induction tries as [|tries IH]; intros cfg starts; cbn [one_submit]; [by intros [= _ _ <-]|].
  cbv zeta. intros (c & Hc & (rf & Hrf & Hs)%bind_Ret)%bind_Ret Hne.
  destruct rf as [k|]; [|by eapply IH]. destruct c; [|done].
  destruct (go_index_lookup _ _ _ Hc) as (i & Hi & Hci). rewrite Hi in Hrf.
  destruct (go_index_lookup _ _ _ Hrf) as (i' & <-%Nat2Z.inj & Hri).
  apply bind_Ret in Hs as (inst & Hk & Hs). unfold deref in Hk.
  destruct (insts cfg !! k) as [i0|] eqn:Hk0; [|done]. injection Hk as ->.
  destruct (Start (in_raft inst) cmd) as [rf1 [[index1 t] ok]] eqn:Hst.
  apply bind_Ret in Hs as (cfg1 & Hrun & Hs). unfold Start in Hst. cbv zeta in Hst.
  destruct (decide (state (in_raft inst) = Leader)) as [Hlead|Hlead].
  - rewrite bool_decide_eq_true_2 in Hst by done. injection Hst as _ <- _ <-.
    injection Hs as <- _ <-. destruct (run_instance_config _ _ _ _ Hrun) as (_ & _ & _ & i1 & ps & Hi1 & Hi2).
    assert (i1 = inst) as -> by congruence. exists i, k, inst. eexists. split_and!; try done. cbn. unfold Start. cbn.
    by rewrite bool_decide_eq_true_2.
  - rewrite bool_decide_eq_false_2 in Hst by done. injection Hst as _ <- _ <-.
    destruct (IH _ _ Hs Hne) as (i2 & k' & inst1 & inst' & Hc' & Hr' & Hk1 & Hk' & Hl' & Hi' & Hlog).
    destruct (run_instance_config _ _ _ _ Hrun) as (Hcc & Hrr & _). rewrite Hcc in Hc'. rewrite Hrr in Hr'.
    destruct (run_instance_inst _ _ _ _ _ _ Hrun Hk1) as (inst0 & ps & Hk2 & Hrf1).
    rewrite Hrf1 in Hl', Hi', Hlog. destruct (decide (k' = k)) as [->|Hkk].
    + exfalso. assert (inst0 = inst) as -> by congruence.
      unfold Start in Hl'. cbn in Hl'. rewrite bool_decide_eq_false_2 in Hl' by done. by cbn in Hl'.
    + exists i2, k', inst0, inst'. done.
Qed.

Lemma one_poll_reached looks index cmd expectedServers :
  Forall shaped looks -> one_poll looks index cmd expectedServers = Ret true ->
  exists seen, seen ∈ looks /\ commands_at seen index <> [] /\
    expectedServers <= len (commands_at seen index) /\
    Forall (fun v => v = cmd) (commands_at seen index).
Proof.
  induction looks as [|cfg looks IH]; intros Hsh; cbn [one_poll]; [done|].
  apply Forall_cons in Hsh as [Hc Hsh]. intros ([nd cmd1] & Hn & Hp)%bind_Ret.
  destruct ((0 <? nd) && (expectedServers <=? nd) && bool_decide (cmd1 = cmd)) eqn:Hb.
  2:{ destruct (IH Hsh Hp) as (seen & ? & ?). exists seen. split; [by right|done]. }
  apply andb_prop in Hb as [[H0%Z.ltb_lt H1%Z.leb_le]%andb_prop Heq%bool_decide_eq_true]. subst cmd1.
  rewrite (nCommitted_commands cfg index Hc) in Hn. exists cfg. split; [by left|].
  destruct (commands_at cfg index) as [|v vs]; [injection Hn as <- _; lia|].
  destruct (same_as v vs) eqn:Hs; [|done]. injection Hn as <- ->. split_and!; [done|done|].
  constructor; [done|]. unfold same_as in Hs. rewrite Forall_forall. intros x Hx.
  rewrite forallb_forall in Hs. specialize (Hs x). rewrite bool_decide_eq_true in Hs.
  apply Hs. by apply list_elem_of_In.
Qed.

(** C35: when [one] returns an index, then in one of its rounds it found a
    connected server that was a leader, and Start of that server appended
    this command, in the leader's term, to its log at exactly that index; and
    at one of the looks of that round enough servers, and at least one, had
    delivered something at the index, every one of them this command. *)
Theorem one_reaches_agreement rounds cmd expectedServers (retry : bool) index :
  Forall (fun r : config * list config => Forall shaped r.2) rounds ->
  one rounds cmd expectedServers retry = Ret index ->
  exists cfg cfg' looks seen starts starts', (cfg, looks) ∈ rounds /\
    one_submit (n cfg) cfg starts cmd = Ret (cfg', starts', index) /\ took_command cfg cfg' cmd index /\
    seen ∈ looks /\ commands_at seen index <> [] /\ expectedServers <= len (commands_at seen index) /\
    Forall (fun v => v = cmd) (commands_at seen index).
Proof.
  unfold one. generalize 0 as starts.
  induction rounds as [|[cfg looks] rounds IH]; intros starts Hsh; cbn [one_rounds]; [done|].
  apply Forall_cons in Hsh as [Hl Hsh]. intros ([[cfg' starts'] idx] & Hs & Hr)%bind_Ret.
  assert (forall st, one_rounds rounds st cmd expectedServers retry = Ret index ->
    exists cfg0 cfg0' looks0 seen st0 st0', (cfg0, looks0) ∈ (cfg, looks) :: rounds /\
      one_submit (n cfg0) cfg0 st0 cmd = Ret (cfg0', st0', index) /\ took_command cfg0 cfg0' cmd index /\
      seen ∈ looks0 /\ commands_at seen index <> [] /\ expectedServers <= len (commands_at seen index) /\
      Forall (fun v => v = cmd) (commands_at seen index)) as Hnext.
  { intros st H. destruct (IH st Hsh H) as (c & c' & l & seen & st0 & st0' & Hin & Hrest).
    exists c, c', l, seen, st0, st0'. split; [by right|done]. }
  case_decide as Hi; [|exact (Hnext _ Hr)].
  apply bind_Ret in Hr as (reached & Hp & Hr). destruct reached.
  - injection Hr as ->. destruct (one_poll_reached _ _ _ _ Hl Hp) as (seen & ?).
    exists cfg, cfg', looks, seen, starts, starts'. split; [by left|]. split; [done|].
    split; [by eapply one_submit_took|done].
  - destruct retry; [exact (Hnext _ Hr)|done].
Qed.

(** *** checkOneLeader *)

(** The connected servers and what GetState says of them. *)
Definition leader_states cfg (f : nat -> option (Z * bool)) : Prop :=
  length (connected cfg) = n cfg /\
  forall j : nat, (j < n cfg)%nat ->
    match connected cfg !! j with
    | Some true => exists st, state_of cfg (Z.of_nat j) = Ret st /\ f j = Some st
    | _ => f j = None
    end.

(** [j] is a connected leader of [term]. *)
Definition leads (f : nat -> option (Z * bool)) (term : Z) (j : nat) : Prop := f j = Some (term, true).

(** The map after the first [k] servers. *)
Definition leaders_upto (f : nat -> option (Z * bool)) (k : nat) (m : gmap Z (list Z)) : Prop :=
  forall term, default [] (m !! term) =
    map Z.of_nat (filter (fun j => f j = Some (term, true)) (seq 0 k)) /\ m !! term <> Some [].

Lemma collect_leaders_spec cfg f :
  leader_states cfg f -> exists m, collect_leaders cfg = Ret m /\ leaders_upto f (n cfg) m.
Proof.
  intros [Hc Hf]. unfold collect_leaders, for_range.
  match goal with |- context [for_each _ ?g _] => set (body := g) end.
  assert (forall k m (mp : gmap Z (list Z)), (k + m = n cfg)%nat -> leaders_upto f k mp ->
    exists mp', for_each (seqZ (Z.of_nat k) (Z.of_nat m)) body mp = Ret mp' /\
      leaders_upto f (n cfg) mp') as Hgen.
  2:{ apply (Hgen 0%nat (n cfg) ∅); [done|]. intros term. by rewrite lookup_empty. }
  intros k m. revert k. induction m as [|m IH]; intros k mp Hk Hmp.
  { exists mp. split; [done|]. by replace (n cfg) with k by lia. }
  rewrite seqZ_cons by lia. cbn [for_each].
  assert (exists mp1, body (Z.of_nat k) mp = Ret mp1 /\ leaders_upto f (S k) mp1) as (mp1 & -> & H1).
  { unfold body. specialize (Hf k ltac:(lia)).
    destruct (lookup_lt_is_Some_2 (connected cfg) k) as [c Hck]; [lia|]. rewrite Hck in Hf.
    rewrite (go_index_nat _ _ _ Hck). cbn [mbind outcome_bind].
    assert (forall mp', (forall term, mp' !! term <> Some []) ->
      (forall term, default [] (mp' !! term) = default [] (mp !! term) ++
        map Z.of_nat (filter (fun j => f j = Some (term, true)) [k])) -> leaders_upto f (S k) mp') as Hstep.
    { intros mp' Hne Heq term. split; [|done]. rewrite Heq, seq_S, filter_app, map_app.
      by rewrite (proj1 (Hmp term)). }
    destruct c; [destruct Hf as ([t b] & -> & Hk')|].
    - cbn [mbind outcome_bind]. eexists. split; [reflexivity|]. destruct b; apply Hstep.
      + intros term. destruct (decide (t = term)) as [->|Hne]; [rewrite lookup_insert_eq|
          rewrite lookup_insert_ne by done; apply Hmp]. intros [= Hn]. by destruct (default _ _).
      + intros term. rewrite filter_cons. destruct (decide (t = term)) as [->|Hne].
        * rewrite lookup_insert_eq, decide_True by done. done.
        * rewrite lookup_insert_ne by done. rewrite decide_False by congruence. by rewrite app_nil_r.
      + apply Hmp.
      + intros term. rewrite filter_cons, decide_False by congruence. by rewrite app_nil_r.
    - exists mp. split; [done|]. apply Hstep; [apply Hmp|].
      intros term. rewrite filter_cons, decide_False by congruence. by rewrite app_nil_r. }
  cbn [mbind outcome_bind]. replace (Z.pred (Z.of_nat (S m))) with (Z.of_nat m) by lia.
  replace (Z.succ (Z.of_nat k)) with (Z.of_nat (S k)) by lia. apply IH; [lia|done].
Qed.

Lemma last_term_spec (m : gmap Z (list Z)) :
  let r := last_term_with_leader m in
  -1 <= r /\ (forall t ls, m !! t = Some ls -> t <= r) /\ (r = -1 \/ is_Some (m !! r)).
Proof.
  unfold last_term_with_leader.
  apply (map_fold_weak_ind (fun r m => -1 <= r /\ (forall t ls, m !! t = Some ls -> t <= r) /\
    (r = -1 \/ is_Some (m !! r)))).
  { split_and!; [lia|intros t ls; by rewrite lookup_empty|by left]. }
  intros t ls m' r Hn (H1 & H2 & H3). destruct (Z.ltb_spec r t) as [Hlt|Hge]; split_and!; try lia.
  - intros t' ls' [[-> _]|[_ H']]%lookup_insert_Some; [lia|]. specialize (H2 _ _ H'). lia.
  - right. rewrite lookup_insert_eq. by eexists.
  - intros t' ls' [[-> _]|[_ H']]%lookup_insert_Some; [lia|by eapply H2].
  - destruct H3 as [->|[x Hx]]; [by left|right]. destruct (decide (t = r)) as [->|Hne].
    + rewrite lookup_insert_eq. by eexists.
    + rewrite lookup_insert_ne by done. by eexists.
Qed.

(** Server [j] is connected and says it is the leader of [term]. *)
Definition claims_leader cfg (term : Z) (j : nat) : Prop :=
  connected cfg !! j = Some true /\ state_of cfg (Z.of_nat j) = Ret (term, true).

(** A harness whose connected servers run, with their terms not negative. *)
Definition servers_run cfg : Prop :=
  length (connected cfg) = n cfg /\
  forall j : nat, connected cfg !! j = Some true ->
    exists term b, state_of cfg (Z.of_nat j) = Ret (term, b) /\ 0 <= term.

Definition state_at cfg (j : nat) : option (Z * bool) :=
  match connected cfg !! j with
  | Some true => match state_of cfg (Z.of_nat j) with Ret st => Some st | Panic _ => None end
  | _ => None
  end.

Lemma state_at_leads cfg t j : state_at cfg j = Some (t, true) <-> claims_leader cfg t j.
Proof.
  unfold state_at, claims_leader. destruct (connected cfg !! j) as [[|]|]; [|naive_solver..].
  destruct (state_of _ _); naive_solver.
Qed.

Lemma servers_run_states cfg : servers_run cfg -> leader_states cfg (state_at cfg).
Proof.
  intros [Hl Hr]. split; [done|]. intros j Hj. unfold state_at.
  destruct (connected cfg !! j) as [[|]|] eqn:Hc; try done.
  destruct (Hr j Hc) as (t & b & -> & _). by exists (t, b).
Qed.

Lemma leaders_elem cfg m t (j : nat) :
  servers_run cfg -> leaders_upto (state_at cfg) (n cfg) m ->
  Z.of_nat j ∈ default [] (m !! t) <-> claims_leader cfg t j.
Proof.
  intros [Hl _] Hm. rewrite (proj1 (Hm t)), <- state_at_leads, list_elem_of_fmap. split.
  - intros (x & Hx & Hin). apply list_elem_of_filter in Hin as [Hf _].
    by replace j with x by lia.
  - intros Hj. exists j. split; [done|]. apply list_elem_of_filter. split; [done|].
    apply elem_of_seq. unfold state_at in Hj.
    destruct (connected cfg !! j) eqn:Hc; [|done]. apply lookup_lt_Some in Hc. lia.
Qed.

(** The first of the leaders collected for a term claims to lead it. *)
Lemma leaders_head cfg (m : gmap Z (list Z)) t z ls :
  leaders_upto (state_at cfg) (n cfg) m -> m !! t = Some (z :: ls) -> exists x : nat, z = Z.of_nat x /\ claims_leader cfg t x.
Proof.
  intros Hl Ht. pose proof (proj1 (Hl t)) as Hd. rewrite Ht in Hd. change (default [] (Some (z :: ls))) with (z :: ls) in Hd.
  assert (z ∈ map Z.of_nat (filter (fun j => state_at cfg j = Some (t, true)) (seq 0 (n cfg))))
    as (x & -> & Hx)%list_elem_of_fmap by (rewrite <- Hd; left).
  exists x. split; [done|]. apply state_at_leads. by apply list_elem_of_filter in Hx as [? _].
Qed.

(** More than one leader collected for a term: two servers claim to lead it. *)
Lemma leaders_two cfg (m : gmap Z (list Z)) t ls :
  leaders_upto (state_at cfg) (n cfg) m -> m !! t = Some ls -> ~ (length ls <= 1)%nat ->
  exists x y, x <> y /\ claims_leader cfg t x /\ claims_leader cfg t y.
Proof.
  intros Hl Ht Hlen. pose proof (proj1 (Hl t)) as Hdef. rewrite Ht in Hdef. change (default [] (Some ls)) with ls in Hdef.
  destruct (filter _ (seq 0 (n cfg))) as [|x [|y rest]] eqn:Hf; subst ls; cbn in Hlen; try lia.
  exists x, y. rewrite <- !state_at_leads.
  assert (NoDup (x :: y :: rest)) as Hnd by (rewrite <- Hf; apply NoDup_filter, NoDup_seq).
  assert (forall z, z ∈ x :: y :: rest -> state_at cfg z = Some (t, true)) as Hz.
  { intros z. rewrite <- Hf, list_elem_of_filter. tauto. }
  split_and!; [|apply Hz; set_solver|apply Hz; set_solver]. apply NoDup_cons in Hnd as [Hx _]. set_solver.
Qed.

(** One round of checkOneLeader, exactly: it fails the test when two
    connected servers claim to lead the same term, goes round again when none
    claims to lead, and otherwise returns the only leader of the highest term
    that has one. *)
Lemma checkOneLeader_round cfg :
  servers_run cfg ->
  match one_leader_round cfg with
  | Ret (Some i) => exists (j : nat) term, i = Z.of_nat j /\ claims_leader cfg term j /\
      (forall t x, claims_leader cfg t x -> t <= term) /\
      (forall t x y, claims_leader cfg t x -> claims_leader cfg t y -> x = y)
  | Ret None => forall t x, ~ claims_leader cfg t x
  | Panic f => f = TestFailed /\
      exists t x y, x <> y /\ claims_leader cfg t x /\ claims_leader cfg t y
  end.
Proof.
  intros Hrun. destruct (collect_leaders_spec cfg _ (servers_run_states cfg Hrun)) as (m & Hm & Hl).
  unfold one_leader_round. rewrite Hm. cbn [mbind outcome_bind].
  pose proof (fun t j => leaders_elem cfg m t j Hrun Hl) as Hel.
  case_bool_decide as Hone.
  2:{ split; [done|]. apply map_not_Forall in Hone as (t & ls & Ht & Hlen); [|apply _].
      exists t. by apply (leaders_two cfg m t ls). }
  assert (forall t x y, claims_leader cfg t x -> claims_leader cfg t y -> x = y) as Huniq.
  { intros t x y Hx%Hel Hy%Hel. destruct (m !! t) as [ls|] eqn:Ht; [|by apply not_elem_of_nil in Hx].
    specialize (Hone t ls Ht). cbn in Hone, Hx, Hy. destruct ls as [|z [|]]; cbn in Hone; [by apply not_elem_of_nil in Hx| |lia].
    apply list_elem_of_singleton in Hx, Hy. lia. }
  case_bool_decide as Hempty.
  { intros t x Hx%Hel. rewrite Hempty, lookup_empty in Hx. by apply not_elem_of_nil in Hx. }
  destruct (last_term_spec m) as (H1 & H2 & H3). set (r := last_term_with_leader m) in *.
  assert (is_Some (m !! r)) as [[|z ls] Hls]; [|by destruct (proj2 (Hl r))|].
  { destruct H3 as [Hr|]; [|done]. apply map_choose in Hempty as (t & [|z ls] & Ht); [by destruct (proj2 (Hl t))|].
    pose proof (H2 t _ Ht). destruct (leaders_head cfg m t z ls Hl Ht) as (j & _ & Hc & Hst).
    destruct (proj2 Hrun j Hc) as (t' & b & Hst' & Hpos). rewrite Hst in Hst'. simplify_eq. lia. }
  rewrite Hls. change (go_index (default [] (Some (z :: ls))) 0) with (Ret z). cbn [mbind outcome_bind].
  destruct (leaders_head cfg m r z ls Hl Hls) as (x & -> & Hx). exists x, r. split_and!; [done|done| |done].
  intros t y Hy%Hel. destruct (m !! t) as [ls'|] eqn:Ht; [by eapply H2|]. by apply not_elem_of_nil in Hy.
Qed.

End checks.

(** ** Witnesses *)

Section witnesses.
#[local] Existing Instance first_types.
#[local] Existing Instance first_types_ok.

(** The harness around the three peers of [s3], before it reads anything. *)
Definition h3 : config :=
  (new_config 3 false) <| rafts := [Some 0; Some 1; Some 2]%nat |> <| connected := replicate 3 true |>
    <| insts := imap (fun k node => mkInst (raft node) k) (nodes s3) |>
    <| persisters := map (fun node => persister (raft node)) (nodes s3) |>.

(** It has read what peers 0 and 1 delivered. *)
Definition h3_read : config :=
  match (cfg ← apply_all h3 0 (applyCh (raft (node_at s3 0))); apply_all cfg 1 (applyCh (raft (node_at s3 1)))) with
  | Ret cfg => cfg
  | Panic _ => h3
  end.

Lemma harness_accepts_iff_agreement_witness :
  exists cfg' l', apply_all h3 1 (applyCh (raft (node_at s3 1))) = Ret cfg' /\
    logs cfg' = <[1%nat := l']> (logs h3) /\
    l' !! 0 = Some (IInt 7) /\ l' !! 1 = Some (IString "b").
Proof.
  pose proof (harness_accepts_iff_agreement s3 1 (node_at s3 1) h3 1 ∅ s3_reachable) as H.
  specialize (H ltac:(apply s3_node; lia) ltac:(reflexivity)). change (Z.of_nat 1) with 1 in H.
  assert (exists cfg', apply_all h3 1 (applyCh (raft (node_at s3 1))) = Ret cfg') as [cfg' Hr].
  { vm_compute. by eexists. }
  rewrite Hr in H. destruct H as (_ & l' & Hl & Hm). exists cfg', l'. split; [exact Hr|].
  split; [exact Hl|]. split.
  - apply (Hm 0%nat (mkApplyMsg true (IInt 7) 0)). by vm_compute.
  - apply (Hm 1%nat (mkApplyMsg true (IString "b") 1)). by vm_compute.
Defined.

Lemma nCommitted_exact_witness :
  nCommitted h3_read 1 = Ret (2, IString "b") /\ nCommitted h3_read 2 = Ret (0, INil).
Proof.
  split; (rewrite nCommitted_exact by (split; vm_compute; reflexivity)); vm_compute; reflexivity.
Defined.

Lemma h3_servers_run : servers_run h3.
Proof.
  split; [by vm_compute|]. intros [|[|[|j]]] Hj.
  - exists 1, true. split; [by vm_compute|lia].
  - exists 1, false. split; [by vm_compute|lia].
  - exists 1, false. split; [by vm_compute|lia].
  - by vm_compute in Hj.
Qed.

(** [one] asks servers 1 and 2, which refuse, and server 0, which takes the
    command at index 2; a later look shows it delivered by two servers. *)
Definition h3_later : config := h3_read <| logs := [{[2 := IInt 5]}; {[2 := IInt 5]}; ∅] |>.

Lemma one_reaches_agreement_witness :
  one [(h3_read, [h3_read; h3_later])] (IInt 5) 2 true = Ret 2 /\
  exists seen cfg', seen ∈ [h3_read; h3_later] /\ 2 <= len (commands_at seen 2) /\
    took_command h3_read cfg' (IInt 5) 2.
Proof.
  split; [vm_compute; reflexivity|].
  destruct (one_reaches_agreement [(h3_read, [h3_read; h3_later])] (IInt 5) 2 true 2)
    as (cfg & cfg' & looks & seen & st & st' & Hin & _ & Ht & Hseen & _ & He & _).
  - repeat constructor; vm_compute; reflexivity.
  - vm_compute. reflexivity.
  - apply list_elem_of_singleton, pair_equal_spec in Hin as [Hc Hl].
    rewrite Hl in Hseen. rewrite Hc in Ht. exists seen, cfg'.
    split; [exact Hseen|]. split; [exact He|exact Ht].
Defined.

End witnesses.
