(* ===== verification/ConfigChecks.v ===== *)
(** * The harness: what its checks report

    [checkTerms], [checkNoLeader] and [wait] of raft/config.go, on every
    branch, with [checkOneLeader] (ConfigProps.v) as functions of the states
    the connected servers report. *)

From S2P Require Import Prelude Gob PersisterModel RaftState Labrpc Config ConfigProps.
Open Scope go_scope.

Section checks.
Context {GT : GobTypes}.
Implicit Types (cfg : config).

(** Server [j] is connected and reports [term]. *)
Definition in_term cfg (term : Z) (j : nat) : Prop := exists b, state_at cfg j = Some (term, b).

(** What the connected servers report, in order. *)
Definition states cfg : list (Z * bool) := omap (state_at cfg) (seq 0 (n cfg)).

Lemma elem_of_states cfg st :
  servers_run cfg -> st ∈ states cfg <-> exists j, state_at cfg j = Some st.
Proof.
  intros [Hl _]. unfold states. rewrite list_elem_of_omap. split; [naive_solver|].
  intros [j Hj]. exists j. split; [|done]. apply elem_of_seq. unfold state_at in Hj.
  destruct (connected cfg !! j) eqn:Hc; [|done]. apply lookup_lt_Some in Hc. lia.
Qed.

(** A loop over the connected servers is a loop over their states. *)
Lemma for_range_states {S} cfg (g : Z * bool -> S -> outcome S) (s : S) :
  servers_run cfg ->
  for_range (n cfg) (fun i s =>
    c ← go_index (connected cfg) i;
    if c : bool then st ← state_of cfg i; g st s else Ret s) s = for_each (states cfg) g s.
Proof.
  intros Hrun. unfold states. replace (n cfg) with (length (seq 0 (n cfg))) at 1 by apply length_seq.
  rewrite (for_range_list (seq 0 (n cfg)) _
    (fun j s => match state_at cfg j with Some st => g st s | None => Ret s end)).
  - generalize (seq 0 (n cfg)). intros l. revert s. induction l as [|j l IH]; intros s; [done|].
    cbn [for_each omap list_omap]. destruct (state_at cfg j) as [st|]; cbn [for_each mbind outcome_bind]; [|apply IH].
    destruct (g st s); [apply IH|done].
  - intros j x s' [-> Hj]%lookup_seq. cbn [Nat.add]. unfold state_at. destruct Hrun as [Hl Hr].
    destruct (lookup_lt_is_Some_2 (connected cfg) j) as [c Hc]; [lia|]. rewrite (go_index_nat _ _ _ Hc), Hc.
    cbn [mbind outcome_bind]. destruct c; [|done]. by destruct (Hr j Hc) as (t & b & -> & _).
Qed.

(** ** checkTerms *)

Definition terms_step (st : Z * bool) (term : Z) : outcome Z :=
  if term =? -1 then Ret st.1 else if decide (term <> st.1) then Panic TestFailed else Ret term.

Lemma terms_known l term :
  term <> -1 -> for_each l terms_step term =
    if decide (Forall (fun st => st.1 = term) l) then Ret term else Panic TestFailed.
Proof.
  intros Ht. induction l as [|st l IH]; [done|]. cbn [for_each].
  assert (terms_step st term = if decide (term <> st.1) then Panic TestFailed else Ret term) as ->.
  { unfold terms_step. by rewrite (proj2 (Z.eqb_neq _ _) Ht). }
  destruct (decide (term = st.1)) as [He|He].
  - rewrite decide_False by tauto. cbn [mbind outcome_bind]. rewrite IH. apply decide_ext. rewrite Forall_cons. naive_solver.
  - rewrite decide_True by done. cbn [mbind outcome_bind]. rewrite decide_False; [done|]. rewrite Forall_cons.
    intros [? _]. congruence.
Qed.

Lemma checkTerms_exact cfg :
  servers_run cfg ->
  match checkTerms cfg with
  | Ret t => (forall t' j, in_term cfg t' j -> t' = t) /\ (t = -1 \/ exists j, in_term cfg t j)
  | Panic f => f = TestFailed /\ exists t t' x y, t <> t' /\ in_term cfg t x /\ in_term cfg t' y
  end.
Proof.
  intros Hrun. assert (checkTerms cfg = for_each (states cfg) terms_step (-1)) as ->.
  { rewrite <- (for_range_states cfg terms_step) by done. apply for_each_ext. intros i s _.
    destruct (go_index _ _) as [[]|]; try done. cbn [mbind outcome_bind]. by destruct (state_of cfg i) as [[]|]. }
  assert (forall t j, in_term cfg t j -> exists b, (t, b) ∈ states cfg) as Hin.
  { intros t j [b Hb]. exists b. apply elem_of_states; [done|by exists j]. }
  assert (forall t b, (t, b) ∈ states cfg -> exists j, in_term cfg t j /\ 0 <= t) as Hout.
  { intros t b [j Hj]%elem_of_states; [|done]. exists j. split; [by exists b|]. destruct Hrun as [_ Hr].
    unfold state_at in Hj. destruct (connected cfg !! j) as [[|]|] eqn:Hc; try done.
    destruct (Hr j Hc) as (t' & b' & Hst & Hpos). rewrite Hst in Hj. by simplify_eq. }
  destruct (states cfg) as [|[t b] l]; cbn [for_each].
  { split; [|by left]. intros t' j [b Hb]%Hin. by apply not_elem_of_nil in Hb. }
  destruct (Hout t b) as (j & Hj & Ht); [by left|]. cbn [terms_step Z.eqb Pos.eqb fst mbind outcome_bind].
  rewrite terms_known by lia. case_decide as Hall.
  - split; [|right; by exists j]. rewrite Forall_forall in Hall.
    intros t' j' [b' [[= -> _]|Hb]%elem_of_cons]%Hin; [done|]. exact (Hall _ Hb).
  - split; [done|]. apply not_Forall_Exists in Hall; [|apply _]. apply Exists_exists in Hall as ([t' b'] & Hb & Hne).
    destruct (Hout t' b') as (j' & Hj' & _); [by right|]. exists t', t, j', j. by split_and!.
Qed.

(** ** checkNoLeader *)

Lemma no_leader_each l :
  for_each l (fun (st : Z * bool) (u : unit) => if st.2 then Panic TestFailed else Ret u) tt =
    if decide (Forall (fun st => st.2 = false) l) then Ret tt else Panic TestFailed.
Proof.
  induction l as [|[t b] l IH]; [done|]. cbn [for_each snd]. destruct b; cbn [mbind outcome_bind].
  - rewrite decide_False; [done|]. rewrite Forall_cons. by intros [? _].
  - rewrite IH. apply decide_ext. rewrite Forall_cons. cbn. tauto.
Qed.

Lemma checkNoLeader_exact cfg :
  servers_run cfg ->
  match checkNoLeader cfg with
  | Ret _ => forall t j, ~ claims_leader cfg t j
  | Panic f => f = TestFailed /\ exists t j, claims_leader cfg t j
  end.
Proof.
  intros Hrun.
  assert (checkNoLeader cfg = for_each (states cfg) (fun st u => if st.2 then Panic TestFailed else Ret u) tt) as ->.
  { rewrite <- (for_range_states cfg) by done. apply for_each_ext. intros i s _.
    destruct (go_index _ _) as [[]|]; try done. cbn [mbind outcome_bind]. by destruct (state_of cfg i) as [[]|]. }
  rewrite no_leader_each. case_decide as Hall.
  - intros t j Hj%state_at_leads. rewrite Forall_forall in Hall.
    assert ((t, true) ∈ states cfg) as Hin%Hall by (apply elem_of_states; [done|by exists j]). done.
  - split; [done|]. apply not_Forall_Exists in Hall; [|apply _]. apply Exists_exists in Hall as ([t b] & Hb & Hne).
    apply elem_of_states in Hb as [j Hj]; [|done]. exists t, j. apply state_at_leads.
    destruct b; [done|by destruct Hne].
Qed.

(** ** wait *)

(** The first [iters] rounds of [wait] from look [k] on: it stops with the
    value -1 when a term moved on, and otherwise because enough servers have
    the command, or the rounds are over. *)
Lemma wait_loop_result iters obs k index m startTerm :
  match wait_loop iters obs k index m startTerm with
  | Ret (Some v, k') => v = IInt (-1) /\ -1 < startTerm /\ exists j, (k < j < k')%nat /\ moved_on (obs j) startTerm = Ret true
  | Ret (None, k') => (k <= k' <= k + 2 * iters)%nat
  | Panic f => exists j, (k <= j < k + 2 * iters)%nat /\
      (nCommitted (obs j) index = Panic f \/ moved_on (obs j) startTerm = Panic f)
  end.
Proof.
  revert k. induction iters as [|iters IH]; intros k; cbn [wait_loop]; [lia|].
  destruct (nCommitted (obs k) index) as [[nd v]|f] eqn:Hn; cbn [mbind outcome_bind]; [|exists k; split; [lia|by left]].
  destruct (m <=? nd); [lia|]. destruct (Z.ltb_spec (-1) startTerm) as [Hs|Hs].
  - destruct (moved_on (obs (S k)) startTerm) as [[]|f] eqn:Hm; cbn [mbind outcome_bind].
    + split_and!; [done|done|]. exists (S k). split; [lia|done].
    + specialize (IH (S (S k))). destruct (wait_loop _ _ _ _ _ _) as [[[v'|] k']|f].
      * destruct IH as (? & ? & j & ? & ?). split_and!; try done. exists j. split; [lia|done].
      * lia.
      * destruct IH as (j & ? & ?). exists j. split; [lia|done].
    + exists (S k). split; [lia|by right].
  - specialize (IH (S k)). destruct (wait_loop _ _ _ _ _ _) as [[[v'|] k']|f].
    + destruct IH as (? & ? & j & ? & ?). split_and!; try done. exists j. split; [lia|done].
    + lia.
    + destruct IH as (j & ? & ?). exists j. split; [lia|done].
Qed.

(** [wait] returns a command that enough servers committed, or -1 when the
    term moved on; it fails when too few did. *)
Lemma wait_result obs index m startTerm :
  match wait obs index m startTerm with
  | Ret v =>
      (v = IInt (-1) /\ -1 < startTerm /\ exists j, moved_on (obs j) startTerm = Ret true) \/
      (exists j nd, nCommitted (obs j) index = Ret (nd, v) /\ m <= nd)
  | Panic f => exists j, (j <= 60)%nat /\
      (nCommitted (obs j) index = Panic f \/ moved_on (obs j) startTerm = Panic f \/
       f = TestFailed /\ exists nd v, nCommitted (obs j) index = Ret (nd, v) /\ nd < m)
  end.
Proof.
  unfold wait. pose proof (wait_loop_result 30 obs 0 index m startTerm) as Hl.
  destruct (wait_loop 30 obs 0 index m startTerm) as [[[v|] k]|f]; cbn [mbind outcome_bind].
  - left. destruct Hl as (? & ? & j & _ & ?). split_and!; try done. by exists j.
  - destruct (nCommitted (obs k) index) as [[nd v]|f] eqn:Hn; cbn [mbind outcome_bind].
    + destruct (Z.ltb_spec nd m); [|right; by exists k, nd]. exists k. split; [lia|]. right; right. split; [done|].
      by exists nd, v.
    + exists k. split; [lia|]. by left.
  - destruct Hl as (j & ? & [?|?]); exists j; (split; [lia|auto]).
Qed.

(** The loop of checkOneLeader stops at the first round that shows a leader. *)
Lemma one_leader_loop_result iters looks :
  (forall r, (r < iters)%nat -> servers_run (looks r)) ->
  match one_leader_loop iters looks with
  | Ret i => exists r (j : nat) term, (r < iters)%nat /\ i = Z.of_nat j /\
      (forall r' t x, (r' < r)%nat -> ~ claims_leader (looks r') t x) /\
      claims_leader (looks r) term j /\
      (forall t x, claims_leader (looks r) t x -> t <= term) /\
      (forall t x y, claims_leader (looks r) t x -> claims_leader (looks r) t y -> x = y)
  | Panic f => f = TestFailed /\
      ((forall r t x, (r < iters)%nat -> ~ claims_leader (looks r) t x) \/
       exists r t x y, (r < iters)%nat /\ x <> y /\
         (forall r' t x, (r' < r)%nat -> ~ claims_leader (looks r') t x) /\
         claims_leader (looks r) t x /\ claims_leader (looks r) t y)
  end.
Proof.
  revert looks. induction iters as [|iters IH]; intros looks Hrun; cbn [one_leader_loop].
  { split; [done|]. left. lia. }
  pose proof (checkOneLeader_round (looks 0%nat) (Hrun 0%nat ltac:(lia))) as H0.
  destruct (one_leader_round (looks 0%nat)) as [[i|]|f]; cbn [mbind outcome_bind].
  - destruct H0 as (j & term & ? & ? & ?). exists 0%nat, j, term. split_and!; try lia; tauto.
  - specialize (IH (fun r => looks (S r)) ltac:(intros r Hr; apply Hrun; lia)).
    assert (forall r, (forall r' t x, (r' < r)%nat -> ~ claims_leader (looks (S r')) t x) ->
      forall r' t x, (r' < S r)%nat -> ~ claims_leader (looks r') t x) as Hall.
    { intros r Hr [|r'] t x Hlt; [apply H0|apply Hr; lia]. }
    destruct (one_leader_loop _ _) as [i|f].
    + destruct IH as (r & j & term & Hr & Hi & Hb & Hrest). exists (S r), j, term.
      split; [lia|]. split; [done|]. split; [by apply Hall|done].
    + destruct IH as [Hf [Hno|(r & t & x & y & Hr & Hne & Hb & Hrest)]]; (split; [done|]).
      * left. intros r t x Hr. apply (Hall iters); [|done]. intros r' t' x' Hr'. by apply Hno.
      * right. exists (S r), t, x, y. split; [lia|]. split; [done|]. split; [by apply Hall|done].
  - destruct H0 as (Hf & t & x & y & Hne & Hx & Hy). split; [done|]. right. exists 0%nat, t, x, y.
    split_and!; try done; lia.
Qed.

(** C37: checkOneLeader, which looks at the servers ten times at most, returns
    the leader it found at the first look at which a connected server claims
    to lead: at that look no two servers claim the same term, and the one
    returned leads the highest term claimed.  It fails the test exactly in
    two cases: at none of the ten looks does a server claim to lead, or at
    the first look at which one does two claim the same term. *)
Theorem checkOneLeader_exact (looks : nat -> config) :
  (forall r, (r < 10)%nat -> servers_run (looks r)) ->
  match checkOneLeader looks with
  | Ret i => exists r (j : nat) term, (r < 10)%nat /\ i = Z.of_nat j /\
      (forall r' t x, (r' < r)%nat -> ~ claims_leader (looks r') t x) /\
      claims_leader (looks r) term j /\
      (forall t x, claims_leader (looks r) t x -> t <= term) /\
      (forall t x y, claims_leader (looks r) t x -> claims_leader (looks r) t y -> x = y)
  | Panic f => f = TestFailed /\
      ((forall r t x, (r < 10)%nat -> ~ claims_leader (looks r) t x) \/
       exists r t x y, (r < 10)%nat /\ x <> y /\
         (forall r' t x, (r' < r)%nat -> ~ claims_leader (looks r') t x) /\
         claims_leader (looks r) t x /\ claims_leader (looks r) t y)
  end.
Proof. apply one_leader_loop_result. Qed.

(** C36: the checks a test makes of its servers, exactly.  Where the
    connected servers run: a round of checkOneLeader returns the only leader
    of the highest term that has one, goes round again when none claims to
    lead, and fails the test when two claim one term; checkTerms returns the
    term all connected servers report, or -1 when none is connected, and fails
    when two differ; checkNoLeader returns exactly when no connected server
    claims to lead.  And wait, which looks at the servers at most 61 times,
    returns a command that as many servers as asked for committed, or -1 only
    when a server's term moved on, and otherwise fails. *)
Theorem state_checks_exact cfg :
  servers_run cfg ->
  match one_leader_round cfg with
  | Ret (Some i) => exists (j : nat) term, i = Z.of_nat j /\ claims_leader cfg term j /\
      (forall t x, claims_leader cfg t x -> t <= term) /\
      (forall t x y, claims_leader cfg t x -> claims_leader cfg t y -> x = y)
  | Ret None => forall t x, ~ claims_leader cfg t x
  | Panic f => f = TestFailed /\ exists t x y, x <> y /\ claims_leader cfg t x /\ claims_leader cfg t y
  end /\
  match checkTerms cfg with
  | Ret t => (forall t' j, in_term cfg t' j -> t' = t) /\ (t = -1 \/ exists j, in_term cfg t j)
  | Panic f => f = TestFailed /\ exists t t' x y, t <> t' /\ in_term cfg t x /\ in_term cfg t' y
  end /\
  match checkNoLeader cfg with
  | Ret _ => forall t j, ~ claims_leader cfg t j
  | Panic f => f = TestFailed /\ exists t j, claims_leader cfg t j
  end /\
  forall obs index m startTerm,
  match wait obs index m startTerm with
  | Ret v =>
      (v = IInt (-1) /\ -1 < startTerm /\ exists j, moved_on (obs j) startTerm = Ret true) \/
      (exists j nd, nCommitted (obs j) index = Ret (nd, v) /\ m <= nd)
  | Panic f => exists j, (j <= 60)%nat /\
      (nCommitted (obs j) index = Panic f \/ moved_on (obs j) startTerm = Panic f \/
       f = TestFailed /\ exists nd v, nCommitted (obs j) index = Ret (nd, v) /\ nd < m)
  end.
Proof.
  intros Hrun. split_and!; [by apply checkOneLeader_round|by apply checkTerms_exact|by apply checkNoLeader_exact|].
  apply wait_result.
Qed.

End checks.

(** ** A witness *)

Section witnesses.
#[local] Existing Instance first_types.

Lemma state_checks_exact_witness :
  one_leader_round h3 = Ret (Some 0) /\ (forall t x, claims_leader h3 t x -> t <= 1) /\
  checkTerms h3 = Ret 1 /\ (forall t j, in_term h3 t j -> t = 1) /\ checkNoLeader h3 = Panic TestFailed.
Proof.
  pose proof (state_checks_exact h3 h3_servers_run) as (H1 & H2 & _).
  assert (one_leader_round h3 = Ret (Some 0)) as Hr by (vm_compute; reflexivity).
  assert (checkTerms h3 = Ret 1) as Ht by (vm_compute; reflexivity).
  rewrite Hr in H1. rewrite Ht in H2. destruct H2 as [H2 _]. split; [exact Hr|]. split; [|split; [exact Ht|split; [exact H2|]]].
  - destruct H1 as (j & term & _ & Hc & Hmax & _). intros t x Hx. apply (Z.le_trans _ _ _ (Hmax t x Hx)).
    rewrite (H2 term j); [apply Z.le_refl|]. exists true. apply state_at_leads. exact Hc.
  - vm_compute. reflexivity.
Defined.

(** The leader is cut off at the first two looks. *)
Definition h3_looks (r : nat) : config :=
  if (r <? 2)%nat then h3 <| connected := [false; true; true] |> else h3.

Lemma h3_looks_run r : servers_run (h3_looks r).
Proof.
  unfold h3_looks. destruct (r <? 2)%nat; [|exact h3_servers_run].
  split; [by vm_compute|]. intros [|[|[|j]]] Hj; try by vm_compute in Hj.
  - exists 1, false. split; [by vm_compute|lia].
  - exists 1, false. split; [by vm_compute|lia].
Qed.

Lemma checkOneLeader_exact_witness :
  checkOneLeader h3_looks = Ret 0 /\ exists r term, claims_leader (h3_looks r) term 0.
Proof.
  pose proof (checkOneLeader_exact h3_looks (fun r _ => h3_looks_run r)) as H.
  assert (checkOneLeader h3_looks = Ret 0) as Hr by (vm_compute; reflexivity).
  rewrite Hr in H. split; [exact Hr|]. destruct H as (r & j & term & _ & Hj & _ & Hc & _).
  exists r, term. replace 0%nat with j by lia. exact Hc.
Defined.

End witnesses.
