(* ===== verification/ConfigLinks.v ===== *)
(** * The harness: connections, crashes and restarts

    The invariant of the ends of the network over every sequence of harness
    operations, and the isolation of a restarted server from its
    predecessor. *)

From S2P Require Import Prelude Gob PersisterModel RaftState Labrpc Config ConfigProps.
Open Scope go_scope.

(** ** Loops that enable ends *)

Definition enable_all (rn : Network) (es : list string) (yes : bool) : Network :=
  foldl (fun rn e => Enable rn (IString e) yes) rn es.

Lemma is_enabled_all rn es yes x :
  is_enabled (enable_all rn es yes) (IString x) =
    if decide (x ∈ es) then yes else is_enabled rn (IString x).
Proof.
  revert rn. induction es as [|e es IH]; intros rn; [done|].
  change (enable_all rn (e :: es) yes) with (enable_all (Enable rn (IString e) yes) es yes).
  rewrite IH, is_enabled_Enable.
  destruct (decide (x = e)) as [->|Hx].
  - rewrite (decide_True (P := IString e = IString e)), (decide_True (P := e ∈ e :: es)) by (done || by left).
    by case_decide.
  - rewrite (decide_False (P := IString x = IString e)) by congruence.
    destruct (decide (x ∈ es)) as [Hin|Hin]; [by rewrite decide_True by (by right)|].
    by rewrite decide_False by (by intros [->|?]%elem_of_cons).
Qed.

Lemma enable_all_ends rn es yes : ends (enable_all rn es yes) = ends rn.
Proof.
  revert rn. induction es as [|e es IH]; intros rn; [done|].
  change (enable_all rn (e :: es) yes) with (enable_all (Enable rn (IString e) yes) es yes).
  by rewrite IH.
Qed.

Lemma for_each_enable {A} (l : list A) (body : A -> config -> outcome config)
    (t : A -> option string) yes (cfg : config) rn :
  (forall x rn, x ∈ l -> body x (cfg <| net := rn |>) =
     Ret (cfg <| net := match t x with Some e => Enable rn (IString e) yes | None => rn end |>)) ->
  for_each l body (cfg <| net := rn |>) =
    Ret (cfg <| net := enable_all rn (omap t l) yes |>).
Proof.
  revert rn. induction l as [|x l IH]; intros rn Hb; [done|]. cbn [for_each].
  rewrite Hb by (by left). cbn [mbind outcome_bind]. rewrite IH by (intros; apply Hb; by right).
  cbn [omap list_omap]. by destruct (t x).
Qed.

(** The loop over all peers; [t j] is the end the body enables for [j]. *)
Lemma for_range_enable m (body : Z -> config -> outcome config) (t : nat -> option string) yes
    (cfg : config) :
  (forall j rn, (j < m)%nat -> body (Z.of_nat j) (cfg <| net := rn |>) =
     Ret (cfg <| net := match t j with Some e => Enable rn (IString e) yes | None => rn end |>)) ->
  for_range m body cfg = Ret (cfg <| net := enable_all (net cfg) (omap t (seq 0 m)) yes |>).
Proof.
  intros Hb.
  assert (for_range m body cfg = for_range (length (seq 0 m)) body cfg) as -> by by rewrite length_seq.
  rewrite (for_range_list (seq 0 m) body (fun j => body (Z.of_nat j))).
  2:{ intros j x s Hj. apply lookup_seq in Hj as [-> _]. done. }
  rewrite <- (for_each_enable (seq 0 m) (fun j => body (Z.of_nat j)) t yes cfg (net cfg)).
  - f_equal. by destruct cfg.
  - intros x rn Hx. apply elem_of_seq in Hx. apply Hb. lia.
Qed.

(** Some round of a loop that returned. *)
Lemma for_each_at {A T} (I : T -> Prop) (l : list A) (f : A -> T -> outcome T) s s' x :
  (forall x s s', I s -> f x s = Ret s' -> I s') -> I s -> for_each l f s = Ret s' -> x ∈ l ->
  exists t t', I t /\ f x t = Ret t'.
Proof.
  intros Hf. revert s. induction l as [|y l IH]; intros s Hs; cbn [for_each].
  { intros _ Hx. by apply not_elem_of_nil in Hx. }
  intros (s1 & H1 & H2)%bind_Ret [->|Hx]%elem_of_cons; [by exists s, s1|].
  eapply (IH s1); [by eapply Hf|exact H2|exact Hx].
Qed.

(** ** The ends of the servers *)

Section links.
Context {GT : GobTypes}.
Implicit Types (cfg : config).

(** The name of the end from server [a] to server [b]. *)
Definition end_name cfg (a b : nat) : option string :=
  names ← mjoin (endnames cfg !! a); names !! b.

Definition is_connected cfg (a : nat) : bool := bool_decide (connected cfg !! a = Some true).

Record links_ok cfg : Prop := {
  lk_connected : length (connected cfg) = n cfg;
  lk_endnames : length (endnames cfg) = n cfg;
  lk_started : forall a, is_connected cfg a = true ->
    exists names, endnames cfg !! a = Some (Some names);
  lk_names : forall a names, endnames cfg !! a = Some (Some names) -> length names = n cfg;
  lk_distinct : forall a b a' b' e, end_name cfg a b = Some e -> end_name cfg a' b' = Some e ->
    a = a' /\ b = b';
  lk_made : forall a b e, end_name cfg a b = Some e -> is_Some (ends (net cfg) !! IString e);
  lk_link : forall a b e, end_name cfg a b = Some e ->
    is_enabled (net cfg) (IString e) = is_connected cfg a && is_connected cfg b;
}.

Lemma end_name_Some cfg a b e names :
  endnames cfg !! a = Some (Some names) -> end_name cfg a b = Some e <-> names !! b = Some e.
Proof. unfold end_name. by intros ->. Qed.

Lemma end_name_lt cfg a b e : links_ok cfg -> end_name cfg a b = Some e ->
  (a < n cfg)%nat /\ (b < n cfg)%nat.
Proof.
  intros Hl. unfold end_name. destruct (endnames cfg !! a) as [[names|]|] eqn:Ha; try done.
  cbn. intros Hb. pose proof (lookup_lt_Some _ _ _ Ha). pose proof (lookup_lt_Some _ _ _ Hb).
  rewrite (lk_names cfg Hl a names Ha) in *. rewrite (lk_endnames cfg Hl) in *. done.
Qed.

Lemma enable_end_eq names (b : nat) e yes cfg :
  names !! b = Some e ->
  enable_end names (Z.of_nat b) yes cfg = Ret (cfg <| net := Enable (net cfg) (IString e) yes |>).
Proof. intros Hb. unfold enable_end. by rewrite (go_index_nat _ _ _ Hb). Qed.

Lemma elem_of_targets {t : nat -> option string} m e :
  e ∈ omap t (seq 0 m) <-> exists j, (j < m)%nat /\ t j = Some e.
Proof.
  rewrite list_elem_of_omap. split.
  - intros (j & Hj%elem_of_seq & Ht). exists j. split; [lia|done].
  - intros (j & Hj & Ht). exists j. split; [apply elem_of_seq; lia|done].
Qed.

(** *** connect and disconnect *)

(** [rn'] is [rn] with exactly the ends in [P] set to [yes]. *)
Definition sets_ends (rn rn' : Network) (P : string -> Prop) (yes : bool) : Prop :=
  ends rn' = ends rn /\
  (forall x, P x -> is_enabled rn' (IString x) = yes) /\
  (forall x, ~ P x -> is_enabled rn' (IString x) = is_enabled rn (IString x)).

Lemma sets_ends_two rn (t1 t2 : nat -> option string) m yes :
  sets_ends rn (enable_all (enable_all rn (omap t1 (seq 0 m)) yes) (omap t2 (seq 0 m)) yes)
    (fun x => exists j, (j < m)%nat /\ (t1 j = Some x \/ t2 j = Some x)) yes.
Proof.
  split; [by rewrite !enable_all_ends|].
  split; intros x; rewrite !is_enabled_all.
  - intros (j & Hj & [Ht|Ht]).
    + case_decide; [done|]. rewrite decide_True; [done|]. apply elem_of_targets. eauto.
    + rewrite decide_True; [done|]. apply elem_of_targets. eauto.
  - intros Hx. rewrite !decide_False; [done|..]; rewrite elem_of_targets; naive_solver.
Qed.

Lemma go_index_endnames cfg (a : nat) :
  links_ok cfg -> (a < n cfg)%nat ->
  exists o, go_index (endnames cfg) (Z.of_nat a) = Ret o /\ endnames cfg !! a = Some o.
Proof.
  intros Hl Ha. destruct (lookup_lt_is_Some_2 (endnames cfg) a) as [o Ho].
  { by rewrite (lk_endnames cfg Hl). }
  exists o. split; [by apply go_index_nat|done].
Qed.

Lemma end_name_in cfg (a b : nat) names :
  links_ok cfg -> endnames cfg !! a = Some (Some names) -> (b < n cfg)%nat ->
  exists e, names !! b = Some e /\ end_name cfg a b = Some e.
Proof.
  intros Hl Ha Hb. destruct (lookup_lt_is_Some_2 names b) as [e He].
  { by rewrite (lk_names cfg Hl a names Ha). }
  exists e. split; [done|]. by apply (end_name_Some cfg a b e names Ha).
Qed.

(** The network after [disconnect]. *)
Definition disconnected_net cfg (a : nat) : Network :=
  let js := seq 0 (n cfg) in
  enable_all (enable_all (net cfg) (omap (fun j => end_name cfg a j) js) false)
    (omap (fun j => end_name cfg j a) js) false.

Lemma disconnect_eq cfg (a : nat) :
  links_ok cfg -> (a < n cfg)%nat ->
  disconnect cfg (Z.of_nat a) =
    Ret (cfg <| connected := <[a := false]> (connected cfg) |> <| net := disconnected_net cfg a |>).
Proof.
  intros Hl Ha. unfold disconnect.
  rewrite go_store_in by (unfold len; rewrite (lk_connected cfg Hl); lia).
  cbn [mbind outcome_bind]. rewrite Nat2Z.id.
  set (cfg1 := cfg <| connected := <[a := false]> (connected cfg) |>).
  rewrite (for_range_enable (n cfg) _ (fun j => end_name cfg a j) false cfg1).
  2:{ intros j rn Hj. change (endnames (cfg1 <| net := rn |>)) with (endnames cfg).
      destruct (go_index_endnames cfg a Hl Ha) as ([names|] & -> & Hn); cbn [mbind outcome_bind].
      - destruct (end_name_in cfg a j names Hl Hn Hj) as (e & He & ->). by rewrite (enable_end_eq _ _ e).
      - unfold end_name. by rewrite Hn. }
  cbn [mbind outcome_bind].
  rewrite (for_range_enable (n cfg) _ (fun j => end_name cfg j a) false); [reflexivity|].
  intros j rn Hj. change (endnames (_ <| net := rn |>)) with (endnames cfg).
  destruct (go_index_endnames cfg j Hl Hj) as ([names|] & -> & Hn); cbn [mbind outcome_bind].
  - destruct (end_name_in cfg j a names Hl Hn Ha) as (e & He & ->). by rewrite (enable_end_eq _ _ e).
  - unfold end_name. by rewrite Hn.
Qed.

(** Servers [x] and [y] are connected once [a] is, and their end. *)
Definition live_end cfg (conn : list bool) (j x y : nat) : option string :=
  if bool_decide (conn !! j = Some true) then end_name cfg x y else None.

(** The network after [connect], which sets [connected] to [conn]. *)
Definition connected_net cfg (a : nat) (conn : list bool) : Network :=
  let js := seq 0 (n cfg) in
  enable_all (enable_all (net cfg) (omap (fun j => live_end cfg conn j a j) js) true)
    (omap (fun j => live_end cfg conn j j a) js) true.

(** A server that was not started is not connected. *)
Lemma connect_unstarted cfg (a : nat) cfg' :
  links_ok cfg -> (a < n cfg)%nat -> endnames cfg !! a = Some None -> connect cfg (Z.of_nat a) <> Ret cfg'.
Proof.
  intros Hl Ha Hn. unfold connect. rewrite go_store_in by (unfold len; rewrite (lk_connected cfg Hl); lia).
  cbn [mbind outcome_bind]. rewrite Nat2Z.id. set (conn := <[a := true]> (connected cfg)).
  set (cfg1 := cfg <| connected := conn |>). intros (cfg2 & Hloop & _)%bind_Ret.
  assert (conn !! a = Some true) as Hca by (apply list_lookup_insert_eq; by rewrite (lk_connected cfg Hl)).
  eapply (for_each_at (fun t => exists rn, t = cfg1 <| net := rn |>)) with (x := Z.of_nat a)
    in Hloop as (t & t' & (rn & ->) & Hbad).
  - revert Hbad. change (connected (cfg1 <| net := rn |>)) with conn. rewrite (go_index_nat _ _ _ Hca).
    cbn [mbind outcome_bind]. change (endnames (cfg1 <| net := rn |>)) with (endnames cfg).
    rewrite (go_index_nat _ _ _ Hn). cbn [mbind outcome_bind]. unfold enable_end, go_index. cbn.
    case_decide; [by destruct (Z.to_nat _)|done].
  - intros x t t' (rn & ->) (c & _ & Hc)%bind_Ret.
    destruct c; [|injection Hc as <-; by exists rn].
    apply bind_Ret in Hc as (o & _ & (e & _ & [= <-])%bind_Ret). by eexists.
  - exists (net cfg). by destruct cfg.
  - apply elem_of_seqZ. unfold cfg1. cbn. lia.
Qed.

(** One round of a loop of [connect], for the end from [x] to [y]. *)
Lemma connect_round cfg cfg1 conn rn (j x y : nat) names :
  links_ok cfg -> connected cfg1 = conn -> endnames cfg1 = endnames cfg -> length conn = n cfg ->
  (j < n cfg)%nat -> (y < n cfg)%nat -> (conn !! j = Some true -> endnames cfg !! x = Some (Some names)) ->
  (c ← go_index (connected (cfg1 <| net := rn |>)) (Z.of_nat j);
   if c : bool then
     names ← go_index (endnames (cfg1 <| net := rn |>)) (Z.of_nat x);
     enable_end (default [] names) (Z.of_nat y) true (cfg1 <| net := rn |>)
   else Ret (cfg1 <| net := rn |>)) =
  Ret (cfg1 <| net := match live_end cfg conn j x y with Some e => Enable rn (IString e) true | None => rn end |>).
Proof.
  intros Hl Hc He Hlen Hj Hy Hn. change (connected (cfg1 <| net := rn |>)) with (connected cfg1).
  change (endnames (cfg1 <| net := rn |>)) with (endnames cfg1). rewrite Hc, He. unfold live_end.
  destruct (lookup_lt_is_Some_2 conn j) as [[] Hcj]; [by rewrite Hlen|..]; rewrite (go_index_nat _ _ _ Hcj);
    cbn [mbind outcome_bind].
  - rewrite bool_decide_eq_true_2 by done. rewrite (go_index_nat _ _ _ (Hn Hcj)). cbn [mbind outcome_bind].
    destruct (end_name_in cfg x y names Hl (Hn Hcj) Hy) as (e & Hne & ->). by rewrite (enable_end_eq _ _ e).
  - by rewrite bool_decide_eq_false_2 by congruence.
Qed.

(** connect returns only when the server was started. *)
Lemma connect_eq cfg cfg' (i : Z) :
  links_ok cfg -> connect cfg i = Ret cfg' ->
  exists (a : nat) names, i = Z.of_nat a /\ (a < n cfg)%nat /\ endnames cfg !! a = Some (Some names) /\
    let conn := <[a := true]> (connected cfg) in
    cfg' = cfg <| connected := conn |> <| net := connected_net cfg a conn |>.
Proof.
  intros Hl Hcn. assert (0 <= i < Z.of_nat (n cfg)) as Hi.
  { unfold connect, go_store in Hcn. case_decide as Hi; [|done]. unfold len in Hi. by rewrite (lk_connected cfg Hl) in Hi. }
  destruct (Z_of_nat_complete i (proj1 Hi)) as [a ->]. assert (a < n cfg)%nat as Ha by lia.
  destruct (go_index_endnames cfg a Hl Ha) as ([names|] & _ & Hn);
    [|by destruct (connect_unstarted cfg a cfg' Hl Ha Hn)].
  exists a, names. do 3 (split; [done|]). cbv zeta. revert Hcn. unfold connect.
  rewrite go_store_in by (unfold len; rewrite (lk_connected cfg Hl); lia). cbn [mbind outcome_bind]. rewrite Nat2Z.id.
  set (conn := <[a := true]> (connected cfg)). set (cfg1 := cfg <| connected := conn |>).
  assert (length conn = n cfg) as Hlen by (unfold conn; by rewrite length_insert, (lk_connected cfg Hl)).
  rewrite (for_range_enable (n cfg) _ (fun j => live_end cfg conn j a j) true cfg1).
  2:{ intros j rn Hj. by apply (connect_round cfg cfg1 conn rn j a j names). }
  cbn [mbind outcome_bind].
  rewrite (for_range_enable (n cfg) _ (fun j => live_end cfg conn j j a) true); [by intros [= <-]|].
  intros j rn Hj. destruct (go_index_endnames cfg j Hl Hj) as (o & _ & Ho).
  apply (connect_round cfg _ conn rn j j a (default [] o)); try done.
  unfold conn. intros [(<- & _ & _)|[_ Hcj]]%list_lookup_insert_Some; [rewrite Hn in Ho; by injection Ho as <-|].
  destruct (lk_started cfg Hl j) as [names' Hn']; [unfold is_connected; by rewrite bool_decide_eq_true|].
  rewrite Hn' in Ho. by injection Ho as <-.
Qed.

Lemma connect_spec cfg cfg' (i : Z) :
  links_ok cfg -> connect cfg i = Ret cfg' ->
  exists (a : nat) names rn, i = Z.of_nat a /\ (a < n cfg)%nat /\ endnames cfg !! a = Some (Some names) /\
    let conn := <[a := true]> (connected cfg) in
    cfg' = cfg <| connected := conn |> <| net := rn |> /\
    sets_ends (net cfg) rn (fun x => exists j, (j < n cfg)%nat /\
      (live_end cfg conn j a j = Some x \/ live_end cfg conn j j a = Some x)) true.
Proof.
  intros Hl (a & names & -> & Ha & Hn & ->)%connect_eq; [|done].
  exists a, names. eexists. do 3 (split; [done|]). cbv zeta. split; [reflexivity|]. apply sets_ends_two.
Qed.

Lemma is_connected_set cfg (a x : nat) (b : bool) conn rn :
  (a < length (connected cfg))%nat -> conn = <[a := b]> (connected cfg) ->
  is_connected (cfg <| connected := conn |> <| net := rn |>) x =
    if decide (x = a) then b else is_connected cfg x.
Proof.
  intros Ha ->. unfold is_connected. cbn. case_decide as Hx.
  - rewrite Hx, list_lookup_insert_eq by done. by destruct b.
  - by rewrite list_lookup_insert_ne.
Qed.

(** Setting one server's connection and some ends keeps the invariant when
    the ends match. *)
Lemma links_ok_set cfg (a : nat) (b : bool) rn P :
  links_ok cfg -> (a < n cfg)%nat ->
  (b = true -> exists names, endnames cfg !! a = Some (Some names)) ->
  sets_ends (net cfg) rn P b ->
  (forall x y e, end_name cfg x y = Some e ->
     P e <-> (x = a \/ y = a) /\
       (b = true -> (x = a \/ is_connected cfg x = true) /\ (y = a \/ is_connected cfg y = true))) ->
  links_ok (cfg <| connected := <[a := b]> (connected cfg) |> <| net := rn |>).
Proof.
  intros [L1 L2 L3 L4 L5 L6 L7] Ha Hst (He & Hp & Hn) HP.
  assert (forall x, is_connected (cfg <| connected := <[a := b]> (connected cfg) |> <| net := rn |>) x
    = if decide (x = a) then b else is_connected cfg x) as Hc.
  { intros x. apply is_connected_set; [by rewrite L1|done]. }
  split; try done.
  - cbn. by rewrite length_insert.
  - intros x. rewrite Hc. case_decide as Hx; [subst; apply Hst|apply L3].
  - intros x y e Hxy. change (end_name cfg x y = Some e) in Hxy. cbn. rewrite He. by eapply L6.
  - intros x y e Hxy. change (end_name cfg x y = Some e) in Hxy.
    change (is_enabled rn (IString e) = is_connected (cfg <| connected := <[a := b]> (connected cfg) |>
      <| net := rn |>) x && is_connected (cfg <| connected := <[a := b]> (connected cfg) |>
      <| net := rn |>) y).
    rewrite !Hc. specialize (HP x y e Hxy). specialize (Hp e). specialize (Hn e).
    specialize (L7 x y e Hxy).
    assert (P e -> is_enabled rn (IString e) = b) as Hset by exact Hp.
    clear Hp. destruct (decide (x = a)) as [Hx|Hx]; [|destruct (decide (y = a)) as [Hy|Hy]].
    + destruct b; [|rewrite Hset by (apply HP; naive_solver); done].
      case_decide as Hy; [rewrite Hset by (apply HP; naive_solver); done|].
      destruct (is_connected cfg y) eqn:Hcy; [rewrite Hset by (apply HP; naive_solver); done|].
      rewrite Hn by (rewrite HP; intros [_ [_ [?|?]]]; congruence).
      rewrite L7. apply andb_false_r.
    + destruct b; [|rewrite Hset by (apply HP; naive_solver); by destruct (is_connected cfg x)].
      destruct (is_connected cfg x) eqn:Hcx; [rewrite Hset by (apply HP; naive_solver); done|].
      rewrite Hn by (rewrite HP; intros [_ [[?|?] _]]; congruence). done.
    + rewrite Hn by (rewrite HP; intros [[?|?] _]; done). exact L7.
Qed.

Lemma disconnect_links cfg (i : Z) cfg' :
  links_ok cfg -> disconnect cfg i = Ret cfg' ->
  links_ok cfg' /\ exists a : nat, i = Z.of_nat a /\ (a < n cfg)%nat /\
    cfg' = cfg <| connected := <[a := false]> (connected cfg) |> <| net := disconnected_net cfg a |>.
Proof.
  intros Hl Hd. assert (0 <= i < Z.of_nat (n cfg)) as Hi.
  { unfold disconnect, go_store in Hd. case_decide as Hi; [|done].
    unfold len in Hi. by rewrite (lk_connected cfg Hl) in Hi. }
  destruct (Z_of_nat_complete i (proj1 Hi)) as [a ->].
  rewrite (disconnect_eq cfg a Hl ltac:(lia)) in Hd. injection Hd as <-.
  split; [|exists a; split_and!; [done|lia|done]]. eapply links_ok_set; [done|lia|done|apply sets_ends_two|].
  intros x y e Hxy. destruct (end_name_lt cfg x y e Hl Hxy) as [Hx Hy]. split.
  - intros (j & Hj & [He|He]); destruct (lk_distinct cfg Hl _ _ _ _ _ Hxy He) as [-> ->];
      (split; [auto|done]).
  - intros [[-> | ->] _]; [exists y|exists x]; auto.
Qed.

Lemma connect_links cfg (i : Z) cfg' :
  links_ok cfg -> connect cfg i = Ret cfg' -> links_ok cfg'.
Proof.
  intros Hl Hd.
  destruct (connect_spec cfg cfg' i Hl Hd) as (a & names & rn & -> & Ha & Hn & -> & Hs).
  eapply links_ok_set; [done|done|by exists names|exact Hs|].
  assert (forall j, bool_decide (<[a := true]> (connected cfg) !! j = Some true) = true <->
    j = a \/ is_connected cfg j = true) as Hc.
  { intros j. rewrite bool_decide_eq_true. unfold is_connected. rewrite bool_decide_eq_true.
    rewrite list_lookup_insert_Some, (lk_connected cfg Hl).
    destruct (decide (a = j)); naive_solver. }
  intros x y e Hxy. destruct (end_name_lt cfg x y e Hl Hxy) as [Hx Hy]. split.
  - unfold live_end. intros (j & Hj & [He|He]); destruct (bool_decide _) eqn:Hb; try done; apply Hc in Hb;
      destruct (lk_distinct cfg Hl _ _ _ _ _ Hxy He) as [-> ->]; auto 6.
  - intros [Hxa Hcs]. specialize (Hcs eq_refl) as [Hcx%Hc Hcy%Hc].
    unfold live_end. destruct Hxa as [-> | ->]; [exists y; rewrite Hcy|exists x; rewrite Hcx]; auto.
Qed.

(** *** crash1 and start1 *)

(** Nothing the invariant speaks of changed. *)
Record same_links cfg cfg' : Prop := {
  sl_n : n cfg' = n cfg;
  sl_connected : connected cfg' = connected cfg;
  sl_endnames : endnames cfg' = endnames cfg;
  sl_ends : ends (net cfg') = ends (net cfg);
  sl_enabled : enabled (net cfg') = enabled (net cfg);
}.

Lemma same_links_trans c1 c2 c3 : same_links c1 c2 -> same_links c2 c3 -> same_links c1 c3.
Proof. intros [] []. split; congruence. Qed.

Lemma links_ok_same cfg cfg' : same_links cfg cfg' -> links_ok cfg -> links_ok cfg'.
Proof.
  intros [Sn Sc Se Ss Sd] [L1 L2 L3 L4 L5 L6 L7].
  split; unfold end_name, is_connected, is_enabled in *; rewrite ?Sn, ?Sc, ?Se, ?Ss, ?Sd; done.
Qed.

Lemma run_instance_same cfg cfg' k f : run_instance cfg k f = Ret cfg' -> same_links cfg cfg'.
Proof. intros (inst & _ & (ps & _ & [= <-])%bind_Ret)%bind_Ret. done. Qed.

Lemma copy_saved_same cfg cfg' i : copy_saved cfg i = Ret cfg' -> same_links cfg cfg'.
Proof.
  intros (sv & _ & Hs)%bind_Ret. destruct sv as [p|]; [|by injection Hs as <-].
  apply bind_Ret in Hs as (ps & _ & (sv & _ & [= <-])%bind_Ret). done.
Qed.

Lemma crash1_links cfg cfg' i :
  links_ok cfg -> crash1 cfg i = Ret cfg' ->
  links_ok cfg' /\ n cfg' = n cfg /\ exists a : nat, i = Z.of_nat a /\ is_connected cfg' a = false.
Proof.
  intros Hl (cfg1 & Hd & Hc)%bind_Ret.
  destruct (disconnect_links cfg i cfg1 Hl Hd) as (Hl1 & a & Hi & _ & Hcfg1).
  assert (same_links cfg1 cfg') as Hs.
  { cbv zeta in Hc. apply bind_Ret in Hc as (cfg2 & H2%copy_saved_same & Hc).
    apply bind_Ret in Hc as (rf & _ & (cfg3 & H3 & Hc)%bind_Ret).
    assert (same_links cfg2 cfg3) as H23.
    { destruct rf as [k|]; [|by injection H3 as <-].
      apply bind_Ret in H3 as (c & H3%run_instance_same & (rs & _ & [= <-])%bind_Ret).
      by apply (same_links_trans _ c). }
    apply bind_Ret in Hc as (sv & _ & Hc).
    assert (same_links cfg3 cfg') as H3'.
    { destruct sv as [p|]; [|by injection Hc as <-]. cbn [new_persister] in Hc.
      apply bind_Ret in Hc as (ps & _ & (ps' & _ & (sv' & _ & [= <-])%bind_Ret)%bind_Ret). done. }
    apply (same_links_trans _ cfg2); [|by apply (same_links_trans _ cfg3)].
    by apply (same_links_trans _ (cfg1 <| net := DeleteServer (net cfg1) (IInt i) |>)). }
  split; [by eapply links_ok_same|]. split; [by rewrite (sl_n _ _ Hs), Hcfg1|].
  exists a. split; [done|]. unfold is_connected. rewrite (sl_connected _ _ Hs), Hcfg1. cbn.
  rewrite bool_decide_eq_false, list_lookup_insert_Some. naive_solver.
Qed.

End links.
