(* ===== verification/ConfigRuns.v ===== *)
(** * The harness over its runs

    The states a test can bring the harness to, with two claims about all of
    them: which ends of the network are enabled, and that a restarted server
    shares no persister with its predecessors. *)

From S2P Require Import Prelude Gob PersisterModel RaftState Labrpc Config ConfigProps ConfigLinks.
Open Scope go_scope.

Section runs.
Context {GT : GobTypes}.
Implicit Types (cfg : config) (rn : Network).

(** ** start1 and the ends *)

(** What the loop that makes the ends [es] does to the network. *)
Record made_ends rn rn' (es : list string) : Prop := {
  md_distinct : NoDup es;
  md_fresh : forall e, e ∈ es -> ends rn !! IString e = None;
  md_made : forall e, is_Some (ends rn' !! IString e) <-> is_Some (ends rn !! IString e) \/ e ∈ es;
  md_enabled : forall e, is_enabled rn' (IString e) =
    if decide (e ∈ es) then false else is_enabled rn (IString e);
}.

Definition make_end (nm : Z -> string) (j : Z) cfg : outcome config :=
  '(rn, _) ← MakeEnd (net cfg) (IString (nm j));
  Ret (cfg <| net := Connect rn (IString (nm j)) (IInt j) |>).

Lemma make_end_one nm j cfg cfg' :
  make_end nm j cfg = Ret cfg' ->
  exists rn, cfg' = cfg <| net := rn |> /\ made_ends (net cfg) rn [nm j].
Proof.
  unfold make_end, MakeEnd. destruct (ends (net cfg) !! IString (nm j)) as [c|] eqn:He; [done|].
  intros [= <-]. eexists. split; [reflexivity|]. split.
  - apply NoDup_singleton.
  - by intros e ->%list_elem_of_singleton.
  - intros e. cbn. rewrite list_elem_of_singleton, lookup_insert_is_Some.
    destruct (decide (e = nm j)) as [->|Hne]; [naive_solver|]. split; [naive_solver|].
    intros [H|H]; [right; split; [congruence|done]|done].
  - intros e. destruct (decide (e ∈ [nm j])) as [Hx|Hx]; rewrite list_elem_of_singleton in Hx;
      unfold is_enabled; cbn.
    + subst. by rewrite lookup_insert_eq.
    + by rewrite lookup_insert_ne by congruence.
Qed.

Lemma made_ends_cons rn rn1 rn2 e es :
  made_ends rn rn1 [e] -> made_ends rn1 rn2 es -> made_ends rn rn2 (e :: es).
Proof.
  intros [_ F1 M1 E1] [D2 F2 M2 E2].
  assert (e ∉ es) as Hne.
  { intros Hin. specialize (F2 e Hin). destruct (proj2 (M1 e)) as [c Hc]; [right; by left|]. congruence. }
  split.
  - by apply NoDup_cons.
  - intros x [->|Hx]%elem_of_cons; [apply F1; by left|]. apply eq_None_not_Some. intros Hs.
    specialize (F2 x Hx). destruct (proj2 (M1 x)) as [c Hc]; [by left|]. congruence.
  - intros x. rewrite M2, M1. set_solver.
  - intros x. rewrite E2, E1. destruct (decide (x ∈ es)) as [Hx|Hx].
    + by rewrite decide_True by (by right).
    + destruct (decide (x ∈ [e])) as [->%list_elem_of_singleton|Hy].
      * by rewrite decide_True by (by left).
      * rewrite decide_False; [done|]. rewrite list_elem_of_singleton in Hy.
        by intros [->|?]%elem_of_cons.
Qed.

(** The same loop on the network alone. *)
Fixpoint net_made (nm : Z -> string) (l : list Z) (rn : Network) : outcome Network :=
  match l with
  | [] => Ret rn
  | j :: l => '(rn, _) ← MakeEnd rn (IString (nm j)); net_made nm l (Connect rn (IString (nm j)) (IInt j))
  end.

Lemma make_end_all nm (l : list Z) cfg cfg' :
  for_each l (make_end nm) cfg = Ret cfg' ->
  exists rn, cfg' = cfg <| net := rn |> /\ made_ends (net cfg) rn (map nm l) /\ net_made nm l (net cfg) = Ret rn.
Proof.
  revert cfg. induction l as [|j l IH]; intros cfg; cbn [for_each map].
  { intros [= <-]. exists (net cfg). split; [by destruct cfg|]. split; [split; [constructor|..]; set_solver|done]. }
  intros (cfg1 & H1 & (rn2 & -> & H2 & H3)%IH)%bind_Ret. exists rn2. split_and!.
  - by destruct (make_end_one _ _ _ _ H1) as (rn1 & -> & _).
  - destruct (make_end_one _ _ _ _ H1) as (rn1 & -> & Hm). by eapply made_ends_cons.
  - cbn [net_made]. apply bind_Ret in H1 as ([rn1 ce] & -> & [= <-]). exact H3.
Qed.

(** The state after the ends of server [a] are made: it has fresh ones. *)
Lemma links_ok_restart cfg (a : nat) (names : list string) rn :
  links_ok cfg -> (a < n cfg)%nat -> is_connected cfg a = false -> length names = n cfg ->
  made_ends (net cfg) rn names ->
  links_ok (cfg <| endnames := <[a := Some names]> (endnames cfg) |> <| net := rn |>).
Proof.
  intros Hok Ha Hc Hlen [D F M E]. pose proof Hok as [L1 L2 L3 L4 L5 L6 L7].
  set (cfg' := cfg <| endnames := <[a := Some names]> (endnames cfg) |> <| net := rn |>).
  assert (forall x y e, end_name cfg' x y = Some e ->
    x = a /\ names !! y = Some e /\ e ∈ names \/ x <> a /\ end_name cfg x y = Some e /\ e ∉ names) as Hnew.
  { intros x y e. unfold end_name. cbn. destruct (decide (x = a)) as [->|Hx].
    - rewrite list_lookup_insert_eq by (by rewrite L2). cbn. intros Hy. left.
      split_and!; [done|done|]. by eapply list_elem_of_lookup_2.
    - rewrite list_lookup_insert_ne by done. intros Hy. right. split_and!; [done|done|].
      intros Hin%F. destruct (L6 x y e Hy) as [c Hs]. congruence. }
  split; try done.
  - cbn. by rewrite length_insert.
  - intros x Hx. change (is_connected cfg x = true) in Hx. cbn.
    rewrite list_lookup_insert_ne by congruence. by apply L3.
  - intros x ns. cbn. intros [(-> & [= ->] & _)|[_ H]]%list_lookup_insert_Some; [done|by eapply L4].
  - intros x y x' y' e [(-> & H1 & Hi)|(Hx & H1 & Hi)]%Hnew [(-> & H2 & Hi')|(Hx' & H2 & Hi')]%Hnew;
      try done; [|by eapply L5]. split; [done|]. by eapply NoDup_lookup.
  - intros x y e. cbn. rewrite M. intros [(_ & _ & Hi)|(_ & H1 & _)]%Hnew; [by right|].
    left. by eapply L6.
  - intros x y e Hxy%Hnew.
    change (is_enabled rn (IString e) = is_connected cfg x && is_connected cfg y). rewrite E.
    destruct Hxy as [(-> & _ & Hi)|(_ & H1 & Hi)]; case_decide; try done.
    + by rewrite Hc.
    + by apply L7.
Qed.

(** A new persister [ps] becomes the saved one of server [a]. *)
Definition fresh_saved cfg (a : nat) (ps : Persister) : config :=
  cfg <| persisters := persisters cfg ++ [ps] |>
      <| saved := <[a := Some (length (persisters cfg))]> (saved cfg) |>.

(** The persister kept for server [a]. *)
Definition saved_persister cfg (a : nat) : option Persister :=
  p ← mjoin (saved cfg !! a); persisters cfg !! p.

Lemma saved_persister_Some cfg a p :
  saved cfg !! a = Some (Some p) -> saved_persister cfg a = persisters cfg !! p.
Proof. unfold saved_persister. by intros ->. Qed.

Lemma saved_persister_None cfg a : saved cfg !! a = Some None -> saved_persister cfg a = None.
Proof. unfold saved_persister. by intros ->. Qed.

Lemma go_index_nat_inv {A} (l : list A) (a : nat) x :
  go_index l (Z.of_nat a) = Ret x -> l !! a = Some x.
Proof. rewrite go_index_Ret, Nat2Z.id. tauto. Qed.

Lemma go_store_nat_inv {A} (l l' : list A) (a : nat) x :
  go_store l (Z.of_nat a) x = Ret l' -> (a < length l)%nat /\ l' = <[a := x]> l.
Proof.
  unfold go_store, len. case_decide; [|done]. rewrite Nat2Z.id. intros [= <-]. split; [lia|done].
Qed.

Lemma deref_Ret {A} (heap : list A) p x : deref heap p = Ret x <-> heap !! p = Some x.
Proof. unfold deref. destruct (heap !! p); split; congruence. Qed.

Lemma copy_saved_inv cfg (a : nat) cfg' :
  copy_saved cfg (Z.of_nat a) = Ret cfg' ->
  (saved cfg !! a = Some None /\ cfg' = cfg) \/
  exists p ps, saved cfg !! a = Some (Some p) /\ persisters cfg !! p = Some ps /\
    cfg' = fresh_saved cfg a (Copy ps).
Proof.
  intros (sv & Hsv%go_index_nat_inv & Hs)%bind_Ret. destruct sv as [p|]; [right|left].
  - apply bind_Ret in Hs as (ps & Hps%deref_Ret & (sv & [_ ->]%go_store_nat_inv & [= <-])%bind_Ret).
    by exists p, ps.
  - injection Hs as <-. done.
Qed.

Lemma Copy_id ps : Copy ps = ps.
Proof. by destruct ps. Qed.

(** The instance that [start1] makes, after the crash and the new ends. *)
Definition with_instance cfg (a p : nat) (ps : Persister) : config :=
  cfg <| insts := insts cfg ++ [mkInst (Make (n cfg) (Z.of_nat a) ps) p] |>
      <| rafts := <[a := Some (length (insts cfg))]> (rafts cfg) |>
      <| net := AddServer (net cfg) (IInt (Z.of_nat a)) (length (insts cfg)) |>.

(** start1 step by step. *)
Lemma start1_inv cfg cfg' i rands :
  links_ok cfg -> start1 cfg i rands = Ret cfg' ->
  exists (a : nat) cfg1 rn names, i = Z.of_nat a /\ crash1 cfg (Z.of_nat a) = Ret cfg1 /\
    (a < n cfg1)%nat /\ names = map rands (seqZ 0 (Z.of_nat (n cfg1))) /\
    made_ends (net cfg1) rn names /\
    net_made rands (seqZ 0 (Z.of_nat (n cfg1))) (net cfg1) = Ret rn /\
    let cfg2 := cfg1 <| endnames := <[a := Some names]> (endnames cfg1) |> <| net := rn |> in
    (saved cfg2 !! a = Some None \/ is_Some (saved_persister cfg2 a)) /\
    let ps := default MakePersister (saved_persister cfg2 a) in
    cfg' = with_instance (fresh_saved cfg2 a ps) a (length (persisters cfg2)) ps.
Proof.
  intros Hl (cfg1 & H1 & Hs)%bind_Ret. cbv zeta in Hs.
  destruct (crash1_links cfg cfg1 i Hl H1) as (Hl1 & Hn1 & a & -> & Hc).
  apply bind_Ret in Hs as (es & [Ha ->]%go_store_nat_inv & (cfg2 & H2 & Hs)%bind_Ret).
  rewrite (lk_endnames _ Hl1) in Ha.
  set (names := map rands (seqZ 0 (Z.of_nat (n cfg1)))) in *.
  change (n (cfg1 <| endnames := _ |>)) with (n cfg1) in H2.
  assert (exists rn, cfg2 = cfg1 <| endnames := <[a := Some names]> (endnames cfg1) |> <| net := rn |> /\
    made_ends (net cfg1) rn names /\ net_made rands (seqZ 0 (Z.of_nat (n cfg1))) (net cfg1) = Ret rn)
    as (rn & -> & Hm & Hmade).
  { destruct (make_end_all rands (seqZ 0 (Z.of_nat (n cfg1)))
      (cfg1 <| endnames := <[a := Some names]> (endnames cfg1) |>) cfg2) as (rn & -> & Hm & Hmade);
      [|by exists rn].
    rewrite <- H2. symmetry. unfold for_range. apply for_each_ext.
    intros j c [Hj Hj']%elem_of_seqZ. destruct (Z_of_nat_complete j Hj) as [k ->].
    rewrite (go_index_nat names k (rands (Z.of_nat k))); [done|].
    unfold names. rewrite list_lookup_fmap, lookup_seqZ_lt by lia. cbn. do 2 f_equal; lia. }
  exists a, cfg1, rn, names. do 6 (split; [done|]). cbv zeta.
  set (cfg2 := cfg1 <| endnames := _ |> <| net := rn |>) in *.
  apply bind_Ret in Hs as (sv & Hsv%go_index_nat_inv & (cfg3 & H3 & Hs)%bind_Ret).
  assert (exists ps, cfg3 = fresh_saved cfg2 a ps /\ ps = default MakePersister (saved_persister cfg2 a) /\
    (saved cfg2 !! a = Some None \/ is_Some (saved_persister cfg2 a))) as (ps & -> & Hps & Hor).
  { destruct sv as [p|].
    - apply copy_saved_inv in H3 as [[Hx _]|(p' & ps & Hp & Hps & ->)]; [congruence|].
      exists ps. rewrite Copy_id, (saved_persister_Some _ _ _ Hp), Hps.
      split_and!; [done|done|right; by eexists].
    - apply bind_Ret in H3 as (sv & [_ ->]%go_store_nat_inv & [= <-]). exists MakePersister.
      rewrite (saved_persister_None _ _ Hsv). split_and!; [done|done|by left]. }
  rewrite <- Hps. split; [done|].
  apply bind_Ret in Hs as (sv' & Hsv'%go_index_nat_inv & Hs).
  cbn in Hsv'. rewrite list_lookup_insert_eq in Hsv' by (by eapply lookup_lt_Some). injection Hsv' as <-.
  apply bind_Ret in Hs as (ps' & Hps'%deref_Ret & Hs). cbn in Hps'.
  rewrite list_lookup_middle in Hps' by done. injection Hps' as <-.
  apply bind_Ret in Hs as (rs & [_ ->]%go_store_nat_inv & [= <-]). done.
Qed.

Lemma start1_links cfg cfg' i rands :
  links_ok cfg -> start1 cfg i rands = Ret cfg' -> links_ok cfg' /\ n cfg' = n cfg.
Proof.
  intros Hl Hs. destruct (start1_inv _ _ _ _ Hl Hs) as (a & cfg1 & rn & names & -> & H1 & Ha & Hn & Hm & _ & Hr).
  cbv zeta in Hr. destruct Hr as [_ ->].
  destruct (crash1_links cfg cfg1 _ Hl H1) as (Hl1 & Hn1 & a' & Haa & Hc).
  apply Nat2Z.inj in Haa as <-.
  assert (length names = n cfg1) as Hlen by (rewrite Hn, length_map, length_seqZ; lia).
  split; [|done]. eapply links_ok_same; [|by apply (links_ok_restart cfg1 a names rn)]. done.
Qed.
End runs.
