(* ===== verification/ConfigHeap.v ===== *)
(** * The harness: who holds which persister

    An invariant of the harness over all its runs: no two instances of Raft,
    running or left behind by a crash, hold the same persister, and the
    persister the harness keeps for a server is the one its running instance
    writes.  It gives the two claims about [start1] and [connect] over every
    sequence of operations. *)

From S2P Require Import Prelude Gob PersisterModel RaftState Labrpc.
From S2P Require Import Config ConfigProps ConfigLinks ConfigRuns.
Open Scope go_scope.

Section heap.
Context {GT : GobTypes}.
Implicit Types (cfg : config) (x : option nat).

(** [x] is a server between its crash and its start: the harness keeps a
    persister for it that no instance holds. *)
Record heap_ok x cfg : Prop := {
  ho_rafts : length (rafts cfg) = n cfg;
  ho_saved_len : length (saved cfg) = n cfg;
  ho_ps : forall k inst, insts cfg !! k = Some inst -> (in_ps inst < length (persisters cfg))%nat;
  ho_saved : forall a p, saved cfg !! a = Some (Some p) -> (p < length (persisters cfg))%nat;
  ho_distinct : forall k k' inst inst', insts cfg !! k = Some inst -> insts cfg !! k' = Some inst' ->
    in_ps inst = in_ps inst' -> k = k';
  ho_own : forall a b p, saved cfg !! a = Some (Some p) -> saved cfg !! b = Some (Some p) -> a = b;
  ho_running : forall a k, x <> Some a -> rafts cfg !! a = Some (Some k) ->
    exists inst, insts cfg !! k = Some inst /\ saved cfg !! a = Some (Some (in_ps inst));
  ho_held : forall a k inst, insts cfg !! k = Some inst -> saved cfg !! a = Some (Some (in_ps inst)) ->
    x <> Some a /\ rafts cfg !! a = Some (Some k);
}.

(** The instances with their persisters; the state of the instances and the
    content of the persisters may differ. *)
Record same_heap cfg cfg' : Prop := {
  sh_n : n cfg' = n cfg;
  sh_rafts : rafts cfg' = rafts cfg;
  sh_saved : saved cfg' = saved cfg;
  sh_persisters : length (persisters cfg') = length (persisters cfg);
  sh_insts : in_ps <$> insts cfg' = in_ps <$> insts cfg;
}.

Lemma same_heap_lookup cfg cfg' k inst :
  same_heap cfg cfg' -> insts cfg' !! k = Some inst ->
  exists inst0, insts cfg !! k = Some inst0 /\ in_ps inst0 = in_ps inst.
Proof.
  intros Hs Hk. assert ((in_ps <$> insts cfg') !! k = Some (in_ps inst)) as He.
  { by rewrite list_lookup_fmap, Hk. }
  rewrite (sh_insts _ _ Hs), list_lookup_fmap in He.
  destruct (insts cfg !! k) as [inst0|]; [|done]. injection He as He. by exists inst0.
Qed.

Lemma same_heap_sym cfg cfg' : same_heap cfg cfg' -> same_heap cfg' cfg.
Proof. by intros []. Qed.

Lemma same_heap_trans c1 c2 c3 : same_heap c1 c2 -> same_heap c2 c3 -> same_heap c1 c3.
Proof. intros [] []. split; congruence. Qed.

Lemma heap_ok_same x cfg cfg' : same_heap cfg cfg' -> heap_ok x cfg -> heap_ok x cfg'.
Proof.
  intros Hs Hok. pose proof Hok as [H1 H2 H3 H4 H5 H6 H7 H8].
  pose proof (fun k inst => same_heap_lookup _ _ k inst Hs) as Hin.
  pose proof (fun k inst => same_heap_lookup _ _ k inst (same_heap_sym _ _ Hs)) as Hni.
  split; rewrite ?(sh_n _ _ Hs), ?(sh_rafts _ _ Hs), ?(sh_saved _ _ Hs), ?(sh_persisters _ _ Hs); try done.
  - intros k inst (inst0 & Hk & <-)%Hin. by eapply H3.
  - intros k k' inst inst' (i0 & Hk & <-)%Hin (i1 & Hk' & <-)%Hin. by eapply H5.
  - intros a k Hx Ha. destruct (H7 a k Hx Ha) as (i0 & (i1 & Hk & <-)%Hni & Hsv). by exists i1.
  - intros a k inst (i0 & Hk & <-)%Hin. by eapply H8.
Qed.

Lemma run_instance_heap cfg cfg' k f :
  run_instance cfg k f = Ret cfg' ->
  same_heap cfg cfg' /\ exists inst, insts cfg !! k = Some inst /\
    (forall p, p <> in_ps inst -> persisters cfg' !! p = persisters cfg !! p) /\
    (forall k', k' <> k -> insts cfg' !! k' = insts cfg !! k').
Proof.
  intros (inst & Hk%deref_Ret & (ps & Hps & [= <-])%bind_Ret)%bind_Ret. split.
  - split; try done.
    + cbn. apply length_insert.
    + cbn. rewrite list_fmap_insert. apply list_insert_id. by rewrite list_lookup_fmap, Hk.
  - exists inst. split; [done|]. split.
    + intros p Hp. cbn. by apply list_lookup_insert_ne.
    + intros k' Hk'. cbn. by apply list_lookup_insert_ne.
Qed.

Lemma heap_ok_fresh_saved x cfg (a : nat) ps :
  heap_ok x cfg -> x = None \/ x = Some a -> (a < n cfg)%nat ->
  heap_ok (Some a) (fresh_saved cfg a ps).
Proof.
  intros [H1 H2 H3 H4 H5 H6 H7 H8] Hx Ha. split; try done.
  - cbn. by rewrite length_insert.
  - intros k inst Hk%H3. cbn. rewrite length_app. lia.
  - intros b p. cbn. rewrite length_app.
    intros [(_ & [= <-] & _)|[_ Hb%H4]]%list_lookup_insert_Some; cbn; lia.
  - intros b c p. cbn.
    intros [(<- & [= <-] & _)|[Hb Hb']]%list_lookup_insert_Some [(<- & Hp & _)|[Hc Hc']]%list_lookup_insert_Some;
      [done|apply H4 in Hc'; lia| |by eapply H6]. injection Hp as Hp. apply H4 in Hb'. lia.
  - intros b k Hb Hr. cbn. rewrite list_lookup_insert_ne by congruence. apply H7; [|done].
    intros ->. destruct Hx; congruence.
  - intros b k inst Hk. cbn. intros [(_ & [= Hp] & _)|[Hb Hs]]%list_lookup_insert_Some.
    + apply H3 in Hk. lia.
    + split; [congruence|]. by eapply H8.
Qed.

(** Server [a] has no running instance any more. *)
Lemma heap_ok_stopped cfg (a : nat) :
  heap_ok (Some a) cfg -> heap_ok None (cfg <| rafts := <[a := None]> (rafts cfg) |>).
Proof.
  intros [H1 H2 H3 H4 H5 H6 H7 H8]. split; try done.
  - cbn. by rewrite length_insert.
  - intros b k _. cbn. intros [(_ & ? & _)|[Hb Hr]]%list_lookup_insert_Some; [done|].
    apply H7; [congruence|done].
  - intros b k inst Hk Hs. destruct (H8 b k inst Hk Hs) as [Hb Hr]. split; [done|]. cbn.
    rewrite list_lookup_insert_ne by congruence. done.
Qed.

Lemma heap_ok_weaken cfg (a : nat) :
  heap_ok (Some a) cfg -> rafts cfg !! a = Some None -> heap_ok None cfg.
Proof.
  intros [H1 H2 H3 H4 H5 H6 H7 H8] Ha. split; try done.
  - intros b k _ Hb. apply H7; [|done]. congruence.
  - intros b k inst Hk Hs. split; [done|]. by eapply H8.
Qed.

Lemma heap_ok_with_instance cfg (a : nat) ps p :
  heap_ok (Some a) cfg -> (a < n cfg)%nat -> saved cfg !! a = Some (Some p) ->
  heap_ok None (with_instance cfg a p ps).
Proof.
  intros [H1 H2 H3 H4 H5 H6 H7 H8] Ha Hp.
  assert (forall k inst, insts cfg !! k = Some inst -> in_ps inst <> p) as Hfree.
  { intros k inst Hk <-. by destruct (H8 a k inst Hk Hp). }
  split; try done.
  - cbn. by rewrite length_insert.
  - intros k inst. cbn. intros [[_ Hk]|[Hk <-]]%lookup_snoc_Some; [by eapply H3|]. by eapply H4.
  - intros k k' inst inst'. cbn.
    intros [[_ Hk]|[-> <-]]%lookup_snoc_Some [[_ Hk']|[-> <-]]%lookup_snoc_Some;
      [by eapply H5| | |done]; intros He; cbn in He; [by eapply Hfree in Hk|].
    symmetry in He. by eapply Hfree in Hk'.
  - intros b k _. cbn. intros [(<- & [= <-] & _)|[Hb Hr]]%list_lookup_insert_Some.
    + eexists. split; [apply list_lookup_middle; done|done].
    + destruct (H7 b k) as (inst & Hk & Hs); [congruence|done|]. exists inst. split; [|done].
      rewrite lookup_app_l; [done|]. by eapply lookup_lt_Some.
  - intros b k inst. cbn. intros [[_ Hk]|[-> <-]]%lookup_snoc_Some Hs; (split; [done|]).
    + destruct (H8 b k inst Hk Hs). by rewrite list_lookup_insert_ne by congruence.
    + cbn in Hs. rewrite (H6 b a p Hs Hp). apply list_lookup_insert_eq. by rewrite H1.
Qed.
(** *** crash1 *)

(** What [crash1] does to the instance of server [a]. *)
Definition stops cfg (a : nat) cfg' : Prop :=
  rafts cfg !! a = Some None /\ cfg' = cfg \/
  exists k cfg1, rafts cfg !! a = Some (Some k) /\ run_instance cfg k Kill = Ret cfg1 /\
    cfg' = cfg1 <| rafts := <[a := None]> (rafts cfg1) |>.

(** crash1 step by step, after the server is disconnected. *)
Lemma crash1_inv cfg cfg' (a : nat) :
  links_ok cfg -> crash1 cfg (Z.of_nat a) = Ret cfg' ->
  exists cfg2 cfg3, (a < n cfg)%nat /\
    let rn := DeleteServer (disconnected_net cfg a) (IInt (Z.of_nat a)) in
    copy_saved (cfg <| connected := <[a := false]> (connected cfg) |> <| net := rn |>) (Z.of_nat a) = Ret cfg2 /\
    stops cfg2 a cfg3 /\
    (saved cfg3 !! a = Some None /\ cfg' = cfg3 \/
     exists p ps, saved cfg3 !! a = Some (Some p) /\ persisters cfg3 !! p = Some ps /\
       cfg' = fresh_saved cfg3 a (SaveRaftState MakePersister (ReadRaftState ps))).
Proof.
  intros Hl (cfg1 & Hd & Hc)%bind_Ret.
  destruct (disconnect_links cfg _ cfg1 Hl Hd) as (Hl1 & a' & <-%Nat2Z.inj & Ha & ->). cbv zeta in Hc |- *.
  apply bind_Ret in Hc as (cfg2 & H2 & (rf & Hrf%go_index_nat_inv & (cfg3 & H3 & Hc)%bind_Ret)%bind_Ret).
  exists cfg2, cfg3. split; [done|]. split; [exact H2|]. split.
  - destruct rf as [k|]; [right|left; by injection H3 as <-].
    apply bind_Ret in H3 as (cfg2' & Hk & (rs & [_ ->]%go_store_nat_inv & [= <-])%bind_Ret).
    by exists k, cfg2'.
  - apply bind_Ret in Hc as (sv & Hsv%go_index_nat_inv & Hc).
    destruct sv as [p|]; [right|left; by injection Hc as <-].
    apply bind_Ret in Hc as (ps & Hps%deref_Ret & Hc). exists p, ps. split_and!; [done|done|].
    cbn [new_persister] in Hc. cbv zeta in Hc.
    apply bind_Ret in Hc as (ps' & Hps'%deref_Ret & (sv & [_ ->]%go_store_nat_inv & [= <-])%bind_Ret).
    cbn in Hps'. rewrite list_lookup_middle in Hps' by done. injection Hps' as <-.
    unfold fresh_saved. cbn. by rewrite insert_app_r_alt, Nat.sub_diag by done.
Qed.

(** The Raft state kept for server [a]. *)
Definition saved_state cfg (a : nat) : option (list Z) := ReadRaftState <$> saved_persister cfg a.

Lemma saved_persister_fresh cfg a ps :
  (a < length (saved cfg))%nat -> saved_persister (fresh_saved cfg a ps) a = Some ps.
Proof.
  intros Ha. rewrite (saved_persister_Some _ _ (length (persisters cfg))).
  - cbn. by apply list_lookup_middle.
  - cbn. by apply list_lookup_insert_eq.
Qed.

Lemma links_heap x cfg conn rn : heap_ok x cfg -> heap_ok x (cfg <| connected := conn |> <| net := rn |>).
Proof. apply heap_ok_same. done. Qed.

(** [a] has no instance, or is between its crash and its start. *)
Definition stopping cfg (a : nat) : Prop :=
  rafts cfg !! a = Some None /\ heap_ok None cfg \/ heap_ok (Some a) cfg.

Lemma copy_saved_heap cfg (a : nat) cfg' :
  heap_ok None cfg -> (a < n cfg)%nat -> copy_saved cfg (Z.of_nat a) = Ret cfg' ->
  stopping cfg' a /\ n cfg' = n cfg /\ insts cfg' = insts cfg /\ rafts cfg' = rafts cfg /\
  saved_persister cfg' a = saved_persister cfg a.
Proof.
  intros Hok Ha [[Hs ->]|(p & ps & Hp & Hps & ->)]%copy_saved_inv.
  - split_and!; try done. left. split; [|done].
    destruct (lookup_lt_is_Some_2 (rafts cfg) a) as [[k|] Hr]; [by rewrite (ho_rafts _ _ Hok)| |done].
    destruct (ho_running _ _ Hok a k) as (inst & _ & Hsv); [done|done|congruence].
  - split_and!; try done.
    + right. apply (heap_ok_fresh_saved None); [done|by left|done].
    + rewrite saved_persister_fresh by (by eapply lookup_lt_Some). rewrite Copy_id, <- Hps.
      symmetry. exact (saved_persister_Some cfg a p Hp).
Qed.

Lemma stops_heap cfg (a : nat) cfg' :
  stopping cfg a -> (a < n cfg)%nat -> stops cfg a cfg' ->
  heap_ok None cfg' /\ rafts cfg' !! a = Some None /\ n cfg' = n cfg /\
  length (insts cfg') = length (insts cfg) /\ saved_persister cfg' a = saved_persister cfg a.
Proof.
  intros Hok Ha [[Hr ->]|(k & cfg1 & Hr & Hrun & ->)].
  - split_and!; try done. destruct Hok as [[_ ?]|Hok]; [done|]. by apply (heap_ok_weaken _ a).
  - destruct Hok as [[Hr' _]|Hok]; [congruence|].
    destruct (run_instance_heap _ _ _ _ Hrun) as (Hsame & inst & Hk & Hps & _).
    pose proof Hsame as [S1 S2 S3 S4 S5]. split_and!; cbn.
    + apply heap_ok_stopped. by apply (heap_ok_same _ cfg).
    + apply list_lookup_insert_eq. by rewrite S2, (ho_rafts _ _ Hok).
    + done.
    + rewrite <- !(length_fmap in_ps). congruence.
    + unfold saved_persister. cbn. rewrite S3.
      destruct (saved cfg !! a) as [[p|]|] eqn:Hp; try done. cbn. apply Hps. intros ->.
      by destruct (ho_held _ _ Hok a k inst Hk Hp).
Qed.

(** The server has stopped and the last saved state is kept for it. *)
Lemma crash1_heap cfg cfg' (a : nat) :
  links_ok cfg -> heap_ok None cfg -> crash1 cfg (Z.of_nat a) = Ret cfg' ->
  heap_ok None cfg' /\ rafts cfg' !! a = Some None /\ saved_state cfg' a = saved_state cfg a /\
  n cfg' = n cfg /\ length (insts cfg') = length (insts cfg) /\
  (saved cfg' !! a = Some None \/ exists st, saved_persister cfg' a = Some (mkPersister st [])).
Proof.
  intros Hl Hok (cfg2 & cfg3 & Ha & H2 & H3 & H4)%crash1_inv; [|done].
  cbv zeta in H2. set (cfg1 := cfg <| connected := _ |> <| net := _ |>) in *.
  apply copy_saved_heap in H2 as (Hok2 & Hn2 & Hi2 & _ & Hs2); [|by apply links_heap|done].
  apply stops_heap in H3 as (Hok3 & Hr3 & Hn3 & Hi3 & Hs3); [|done|by rewrite Hn2].
  rewrite Hn2 in Hn3. rewrite Hi2 in Hi3. rewrite Hs2 in Hs3.
  assert (a < length (saved cfg3))%nat as Hlen by (by rewrite (ho_saved_len _ _ Hok3), Hn3).
  destruct H4 as [[Hs ->]|(p & ps & Hp & Hps & ->)].
  - split_and!; try done; [|by left]. unfold saved_state. by rewrite Hs3.
  - split_and!; try done.
    + apply (heap_ok_weaken _ a); [|done].
      apply (heap_ok_fresh_saved None); [done|by left|by rewrite Hn3].
    + unfold saved_state. rewrite saved_persister_fresh by done.
      change (saved_persister cfg a) with (saved_persister cfg1 a).
      by rewrite <- Hs3, (saved_persister_Some _ _ _ Hp), Hps.
    + right. exists (ReadRaftState ps). by rewrite saved_persister_fresh.
Qed.

(** *** start1 *)

Lemma start1_heap cfg cfg' i rands :
  links_ok cfg -> heap_ok None cfg -> start1 cfg i rands = Ret cfg' ->
  heap_ok None cfg' /\ exists (a p : nat), i = Z.of_nat a /\
    let ps := mkPersister (default [] (saved_state cfg a)) [] in
    rafts cfg' !! a = Some (Some (length (insts cfg))) /\
    insts cfg' !! length (insts cfg) = Some (mkInst (Make (n cfg) i ps) p) /\
    persisters cfg' !! p = Some ps /\ saved cfg' !! a = Some (Some p).
Proof.
  intros Hl Hok Hs.
  destruct (start1_inv _ _ _ _ Hl Hs) as (a & cfg1 & rn & names & -> & H1 & Ha & _ & _ & _ & Hr).
  destruct (crash1_heap _ _ _ Hl Hok H1) as (Hok1 & Hra & Hst & Hn & Hi & Hsnap). clear Hl Hs H1.
  set (cfg2 := cfg1 <| endnames := _ |> <| net := _ |>) in *.
  assert (heap_ok None cfg2) as Hok2 by (by apply (heap_ok_same None cfg1)).
  cbv zeta in Hr. destruct Hr as [Hor ->].
  assert (default MakePersister (saved_persister cfg2 a) = mkPersister (default [] (saved_state cfg a)) [])
    as ->.
  { change (saved_persister cfg2 a) with (saved_persister cfg1 a). rewrite <- Hst. unfold saved_state.
    destruct Hsnap as [Hnone|[st ->]]; [|done]. by rewrite (saved_persister_None _ _ Hnone). }
  set (ps := mkPersister _ _).
  assert (a < length (saved cfg2))%nat as Hlen by (by rewrite (ho_saved_len _ _ Hok2)).
  assert (saved (fresh_saved cfg2 a ps) !! a = Some (Some (length (persisters cfg2)))) as Hsv.
  { cbn. by apply list_lookup_insert_eq. }
  split.
  - apply heap_ok_with_instance; [|done|done]. apply (heap_ok_fresh_saved None); [done|by left|done].
  - exists a, (length (persisters cfg2)). split; [done|]. cbv zeta. rewrite <- Hi, <- Hn. split_and!.
    + cbn. apply list_lookup_insert_eq. by rewrite (ho_rafts _ _ Hok1).
    + cbn. by apply list_lookup_middle.
    + cbn. by apply list_lookup_middle.
    + exact Hsv.
Qed.

(** ** The runs of the harness *)

(** What a test does with the harness, and what its peers and the network do
    in between: [f] is any operation of an instance. *)
Inductive harness : config -> Prop :=
| harness_new n unreliable : harness (new_config n unreliable)
| harness_start1 cfg i rands cfg' : harness cfg -> start1 cfg i rands = Ret cfg' -> harness cfg'
| harness_crash1 cfg i cfg' : harness cfg -> crash1 cfg i = Ret cfg' -> harness cfg'
| harness_connect cfg i cfg' : harness cfg -> connect cfg i = Ret cfg' -> harness cfg'
| harness_disconnect cfg i cfg' : harness cfg -> disconnect cfg i = Ret cfg' -> harness cfg'
| harness_instance cfg k f cfg' : harness cfg -> run_instance cfg k f = Ret cfg' -> harness cfg'
| harness_apply cfg i m cfg' : harness cfg -> apply_msg cfg i m = Ret cfg' -> harness cfg'
| harness_begin cfg : harness cfg -> harness (begin cfg)
| harness_cleanup cfg failed elapsed cfg' :
    harness cfg -> cleanup cfg failed elapsed = Ret cfg' -> harness cfg'
| harness_unreliable cfg b : harness cfg -> harness (setunreliable cfg b)
| harness_longreordering cfg b : harness cfg -> harness (setlongreordering cfg b)
| harness_traffic cfg c b :
    harness cfg -> harness (cfg <| net := (net cfg) <| count := c |> <| bytes := b |> |>).

Lemma apply_msg_same cfg i m cfg' :
  apply_msg cfg i m = Ret cfg' -> same_links cfg cfg' /\ same_heap cfg cfg'.
Proof.
  unfold apply_msg. destruct (CommandValid m); [|by intros [= <-]]. cbv zeta.
  intros (l & _ & (ls & _ & Hc)%bind_Ret)%bind_Ret.
  revert Hc. repeat case_match; intros; simplify_eq; done.
Qed.

Lemma new_config_ok n b : links_ok (new_config n b) /\ heap_ok None (new_config n b).
Proof.
  assert (forall (A : Type) (a : nat) (x y : A), replicate n x !! a = Some y -> y = x) as Hr.
  { intros A a x y [-> _]%lookup_replicate. done. }
  split; split; cbn; try (by rewrite length_replicate); try done.
  - intros a. unfold is_connected. rewrite bool_decide_eq_true. by intros ?%Hr.
  - by intros a names ?%Hr.
  - intros a b' a' b'' e. unfold end_name. cbn. destruct (replicate n None !! a) as [o|] eqn:Ho; [|done].
    apply Hr in Ho as ->. done.
  - intros a b' e. unfold end_name. cbn. destruct (replicate n None !! a) as [o|] eqn:Ho; [|done].
    apply Hr in Ho as ->. done.
  - intros a b' e. unfold end_name. cbn. destruct (replicate n None !! a) as [o|] eqn:Ho; [|done].
    apply Hr in Ho as ->. done.
  - by intros a p ?%Hr.
  - by intros a b' p ?%Hr.
  - by intros a k _ ?%Hr.
Qed.

Lemma kill_all_ok cfg cfg' :
  links_ok cfg -> heap_ok None cfg -> kill_all cfg = Ret cfg' -> links_ok cfg' /\ heap_ok None cfg'.
Proof.
  intros Hl Hh. unfold kill_all, for_range. apply (for_each_inv (fun c => links_ok c /\ heap_ok None c)); [|done].
  intros i c c' _ [Hl1 Hh1] ([k|] & _ & Hs)%bind_Ret; [|by injection Hs as <-].
  split; [by eapply links_ok_same; [eapply run_instance_same|]|].
  by eapply heap_ok_same; [eapply run_instance_heap|].
Qed.

Lemma harness_ok cfg : harness cfg -> links_ok cfg /\ heap_ok None cfg.
Proof.
  induction 1 as [n b|cfg i rands cfg' _ [Hl Hh] Hs|cfg i cfg' _ [Hl Hh] Hs|cfg i cfg' _ [Hl Hh] Hs|
    cfg i cfg' _ [Hl Hh] Hs|cfg k f cfg' _ [Hl Hh] Hs|cfg i m cfg' _ [Hl Hh] Hs|
    cfg _ [Hl Hh]|cfg failed elapsed cfg' _ [Hl Hh] Hs|cfg b _ [Hl Hh]|cfg b _ [Hl Hh]|cfg c b _ [Hl Hh]].
  - apply new_config_ok.
  - split; [by eapply start1_links|by eapply start1_heap].
  - destruct (crash1_links _ _ _ Hl Hs) as (? & _ & a & -> & _). split; [done|].
    exact (proj1 (crash1_heap _ _ _ Hl Hh Hs)).
  - split; [by eapply connect_links|].
    destruct (connect_spec _ _ _ Hl Hs) as (a & ns & rn & _ & _ & _ & -> & _). by apply links_heap.
  - destruct (disconnect_links _ _ _ Hl Hs) as (? & a & _ & _ & ->). split; [done|by apply links_heap].
  - split; [by eapply links_ok_same; [eapply run_instance_same|]|].
    by eapply heap_ok_same; [eapply run_instance_heap|].
  - destruct (apply_msg_same _ _ _ _ Hs). split; [by eapply links_ok_same|by eapply heap_ok_same].
  - split; [by apply (links_ok_same cfg)|by apply (heap_ok_same _ cfg)].
  - apply bind_Ret in Hs as (cfg1 & Hk & (rn & Hc & (u & _ & [= <-])%bind_Ret)%bind_Ret).
    destruct (kill_all_ok _ _ Hl Hh Hk) as [Hl1 Hh1]. unfold Cleanup in Hc. case_match; [done|].
    injection Hc as <-. split; [by apply (links_ok_same cfg1)|by apply (heap_ok_same _ cfg1)].
  - split; [by apply (links_ok_same cfg)|by apply (heap_ok_same _ cfg)].
  - split; [by apply (links_ok_same cfg)|by apply (heap_ok_same _ cfg)].
  - split; [by apply (links_ok_same cfg)|by apply (heap_ok_same _ cfg)].
Qed.

Lemma make_config_harness n b rands cfg : make_config n b rands = Ret cfg -> harness cfg.
Proof.
  intros (cfg1 & H1 & H2)%bind_Ret. revert H2. apply for_each_inv.
  { intros i c c' _ Hc Hs. by eapply harness_connect. }
  revert H1. apply for_each_inv; [|constructor].
  intros i c c' _ Hc Hs. by eapply harness_start1.
Qed.

(** C34: in every state a test can bring the harness to, the end from server
    [a] to server [b] is enabled exactly when both are connected. *)
Theorem harness_links cfg (a b : nat) (e : string) :
  harness cfg -> end_name cfg a b = Some e ->
  is_enabled (net cfg) (IString e) = is_connected cfg a && is_connected cfg b.
Proof. intros [Hl _]%harness_ok. apply (lk_link cfg Hl). Qed.

(** Operations of the instances, one after the other. *)
Definition run_instances cfg (runs : list (nat * (Raft -> Raft))) : outcome config :=
  for_each runs (fun '(k, f) cfg => run_instance cfg k f) cfg.

(** Whatever other instances do, a running one keeps its persister. *)
Lemma run_instances_frame cfg runs cfg' k inst :
  heap_ok None cfg -> insts cfg !! k = Some inst -> (forall r, r ∈ runs -> r.1 <> k) ->
  run_instances cfg runs = Ret cfg' ->
  persisters cfg' !! in_ps inst = persisters cfg !! in_ps inst /\ insts cfg' !! k = Some inst.
Proof.
  unfold run_instances. revert cfg. induction runs as [|[k' f] runs IH]; intros cfg Hok Hk Hne; cbn [for_each].
  { by intros [= <-]. }
  intros (cfg1 & H1 & H2)%bind_Ret.
  destruct (run_instance_heap _ _ _ _ H1) as (Hsame & inst' & Hk' & Hps & Hin).
  assert (k' <> k) as Hkk by (apply (Hne (k', f)); by left).
  destruct (IH cfg1) as [Hp ?]; [by eapply heap_ok_same|by rewrite Hin| |done|].
  { intros r Hr. apply Hne. by right. }
  split; [|done]. rewrite Hp. apply Hps. intros He. apply Hkk. symmetry.
  by eapply (ho_distinct _ _ Hok).
Qed.

(** C33: start1 gives the new instance of a server a persister of its own with
    the Raft state the server last saved, and nothing that earlier instances
    or other servers do afterwards changes that persister or the instance. *)
Theorem start1_isolates cfg i rands cfg' :
  harness cfg -> start1 cfg i rands = Ret cfg' ->
  exists a p : nat, i = Z.of_nat a /\
    let k := length (insts cfg) in
    let ps := mkPersister (default [] (saved_state cfg a)) [] in
    let inst := mkInst (Make (n cfg) i ps) p in
    rafts cfg' !! a = Some (Some k) /\ insts cfg' !! k = Some inst /\
    persisters cfg' !! p = Some ps /\
    forall runs cfg'', (forall r, r ∈ runs -> r.1 <> k) -> run_instances cfg' runs = Ret cfg'' ->
      persisters cfg'' !! p = Some ps /\ insts cfg'' !! k = Some inst /\
      saved_state cfg'' a = Some (raftstate ps).
Proof.
  intros [Hl Hok]%harness_ok Hs.
  destruct (start1_heap _ _ _ _ Hl Hok Hs) as (Hok' & a & p & -> & Hr & Hk & Hp & Hsv).
  exists a, p. split; [done|]. cbv zeta. do 3 (split; [done|]).
  intros runs cfg'' Hne Hruns.
  destruct (run_instances_frame cfg' runs cfg'' _ _ Hok' Hk Hne Hruns) as [Hp' Hk'].
  cbn [in_ps] in Hp'. rewrite Hp in Hp'. do 2 (split; [done|]).
  assert (same_heap cfg' cfg'') as Hsame.
  { revert Hruns. apply (for_each_inv (fun c => same_heap cfg' c)); [|done].
    intros [k f] c c' _ Hc Hrun. eapply same_heap_trans; [done|]. by eapply run_instance_heap. }
  unfold saved_state. rewrite (saved_persister_Some _ _ p) by (by rewrite (sh_saved _ _ Hsame)).
  by rewrite Hp'.
Qed.

End heap.

(** ** Witnesses *)

Section witnesses.
#[local] Existing Instance first_types.

(** Every start of a server draws other names. *)
Definition end_names (start i j : Z) : string :=
  String (Ascii.ascii_of_nat (65 + Z.to_nat start))
    (String (Ascii.ascii_of_nat (65 + Z.to_nat i)) (String (Ascii.ascii_of_nat (65 + Z.to_nat j)) EmptyString)).

Definition returned (m : outcome config) : config :=
  match m with Ret cfg => cfg | Panic _ => new_config 0 false end.

Definition returns_cfg (m : outcome config) : bool := match m with Ret _ => true | Panic _ => false end.

Lemma returned_Ret m : returns_cfg m = true -> m = Ret (returned m).
Proof. by destruct m. Qed.

(** Three servers, the second one disconnected. *)
Definition c3 : config := returned (make_config 3 false (end_names 0)).
Definition c3_cut : config := returned (disconnect c3 1).

Lemma c3_harness : harness c3.
Proof. apply (make_config_harness 3 false (end_names 0)), returned_Ret. by vm_compute. Qed.

Lemma c3_cut_harness : harness c3_cut.
Proof. apply (harness_disconnect c3 1); [apply c3_harness|]. apply returned_Ret. by vm_compute. Qed.

Lemma harness_links_witness :
  is_enabled (net c3_cut) (IString (end_names 0 0 2)) = true /\
  is_enabled (net c3_cut) (IString (end_names 0 0 1)) = false.
Proof.
  split.
  - rewrite (harness_links c3_cut 0 2 _ c3_cut_harness) by (vm_compute; reflexivity). by vm_compute.
  - rewrite (harness_links c3_cut 0 1 _ c3_cut_harness) by (vm_compute; reflexivity). by vm_compute.
Defined.

(** The first server writes to its persister; then it is restarted. *)
Definition c3_saved : config :=
  returned (run_instance c3 0 (fun rf => rf <| persister := SaveRaftState (persister rf) [1; 2] |>)).
Definition c3_restarted : config := returned (start1 c3_saved 0 (end_names 1 0)).

Lemma c3_saved_harness : harness c3_saved.
Proof.
  apply (harness_instance c3 0 (fun rf => rf <| persister := SaveRaftState (persister rf) [1; 2] |>));
    [apply c3_harness|apply returned_Ret; by vm_compute].
Qed.

Lemma start1_isolates_witness :
  exists p : nat, rafts c3_restarted !! 0%nat = Some (Some 3%nat) /\
    persisters c3_restarted !! p = Some (mkPersister [1; 2] []) /\
    forall cfg'', run_instances c3_restarted [(0%nat, fun rf => rf <| persister := MakePersister |>)] = Ret cfg'' ->
      persisters cfg'' !! p = Some (mkPersister [1; 2] []).
Proof.
  destruct (start1_isolates c3_saved 0 (end_names 1 0) c3_restarted c3_saved_harness)
    as (a & p & Ha & H); [apply returned_Ret; by vm_compute|].
  assert (a = 0%nat) as -> by lia. cbv zeta in H.
  assert (length (insts c3_saved) = 3%nat) as Hi by (by vm_compute). rewrite Hi in H.
  assert (saved_state c3_saved 0 = Some [1; 2]) as Hsv by (by vm_compute). rewrite Hsv in H.
  destruct H as (Hr & _ & Hp & Hruns). exists p. split; [exact Hr|]. split; [exact Hp|].
  intros cfg'' Hrun.
  refine (proj1 (Hruns [(0%nat, fun rf => rf <| persister := MakePersister |>)] cfg'' _ Hrun)).
  intros r Hin%list_elem_of_singleton. rewrite Hin. done.
Defined.

End witnesses.
