(* ===== verification/ConfigView.v ===== *)
(** * The harness: what crash1 and start1 keep

    The instances of Raft as they are with their persisters, the persister
    kept for each server, and the exact effect of [crash1] and [start1] on
    them. *)

From S2P Require Import Prelude Gob PersisterModel RaftState Labrpc.
From S2P Require Import Config ConfigProps ConfigLinks ConfigRuns ConfigHeap.
Open Scope go_scope.

Section view.
Context {GT : GobTypes}.
Implicit Types (cfg : config) (x : option nat).

(** Instance [k] with what its persister holds. *)
Definition instance cfg (k : nat) : option Raft :=
  inst ← insts cfg !! k;
  ps ← persisters cfg !! in_ps inst;
  Some ((in_raft inst) <| persister := ps |>).

Lemma instance_Some cfg k inst ps :
  insts cfg !! k = Some inst -> persisters cfg !! in_ps inst = Some ps ->
  instance cfg k = Some ((in_raft inst) <| persister := ps |>).
Proof. intros Hk Hp. unfold instance. rewrite Hk. cbn [mbind option_bind]. by rewrite Hp. Qed.

Lemma set_persister (rf : Raft) ps : persister rf = ps -> rf <| persister := ps |> = rf.
Proof. intros <-. by destruct rf. Qed.

(** Raft objects and persisters are the same ones. *)
Definition same_objects cfg cfg' : Prop := insts cfg' = insts cfg /\ persisters cfg' = persisters cfg.

Lemma instance_same cfg cfg' k : same_objects cfg cfg' -> instance cfg' k = instance cfg k.
Proof. intros [Hi Hp]. unfold instance. by rewrite Hi, Hp. Qed.

Lemma saved_persister_same cfg cfg' a :
  saved cfg' = saved cfg -> persisters cfg' = persisters cfg -> saved_persister cfg' a = saved_persister cfg a.
Proof. intros Hs Hp. unfold saved_persister. by rewrite Hs, Hp. Qed.

(** The persister kept for a server that runs is that of its instance. *)
Lemma saved_running cfg a k :
  heap_ok None cfg -> rafts cfg !! a = Some (Some k) -> saved_persister cfg a = persister <$> instance cfg k.
Proof.
  intros Hok Hr. destruct (ho_running _ _ Hok a k) as (inst & Hk & Hs); [done|done|].
  rewrite (saved_persister_Some _ _ _ Hs). unfold instance. rewrite Hk. cbn [mbind option_bind].
  by destruct (persisters cfg !! in_ps inst).
Qed.

(** *** A new persister *)

Lemma instance_fresh x cfg a ps k : heap_ok x cfg -> instance (fresh_saved cfg a ps) k = instance cfg k.
Proof.
  intros Hok. unfold instance. cbn. destruct (insts cfg !! k) as [inst|] eqn:Hk; [|done]. cbn.
  by rewrite lookup_app_l by (by eapply ho_ps).
Qed.

Lemma saved_fresh x cfg a ps b :
  heap_ok x cfg -> (a < n cfg)%nat ->
  saved_persister (fresh_saved cfg a ps) b = if decide (b = a) then Some ps else saved_persister cfg b.
Proof.
  intros Hok Ha. case_decide as Hb.
  - rewrite Hb. apply saved_persister_fresh. by rewrite (ho_saved_len _ _ Hok).
  - unfold saved_persister. cbn. rewrite list_lookup_insert_ne by done.
    destruct (saved cfg !! b) as [[p|]|] eqn:Hs; try done. cbn.
    by rewrite lookup_app_l by (by eapply ho_saved).
Qed.

(** *** An instance runs *)

Lemma run_instance_view x cfg k f cfg' :
  heap_ok x cfg -> run_instance cfg k f = Ret cfg' ->
  rafts cfg' = rafts cfg /\ saved cfg' = saved cfg /\ net cfg' = net cfg /\ is_Some (instance cfg k) /\
  (forall k', instance cfg' k' = if decide (k' = k) then f <$> instance cfg k else instance cfg k') /\
  (forall b, rafts cfg !! b <> Some (Some k) \/ (forall rf, persister (f rf) = persister rf) ->
    x <> Some b -> saved_persister cfg' b = saved_persister cfg b).
Proof.
  intros Hok (inst & Hk%deref_Ret & (ps & Hps%deref_Ret & Hc)%bind_Ret)%bind_Ret.
  assert (instance cfg k = Some ((in_raft inst) <| persister := ps |>)) as Hin.
  { unfold instance. rewrite Hk. cbn. by rewrite Hps. }
  revert Hin Hc. generalize ((in_raft inst) <| persister := ps |>) as rf0. cbv zeta. intros rf0 Hin [= Hc].
  assert (persister rf0 = ps) as Hps0.
  { unfold instance in Hin. rewrite Hk in Hin. cbn [mbind option_bind] in Hin. rewrite Hps in Hin. by injection Hin as <-. }
  assert (insts cfg' = <[k := mkInst (f rf0) (in_ps inst)]> (insts cfg)) as Hi' by by rewrite <- Hc.
  assert (persisters cfg' = <[in_ps inst := persister (f rf0)]> (persisters cfg)) as Hp' by by rewrite <- Hc.
  assert (saved cfg' = saved cfg) as Hs' by by rewrite <- Hc.
  split_and!; [by rewrite <- Hc|done|by rewrite <- Hc|by eexists| |].
  - intros k'. rewrite Hin. cbn [fmap option_fmap option_map]. unfold instance. rewrite Hi', Hp'. case_decide as Hne.
    + rewrite Hne, list_lookup_insert_eq by exact (lookup_lt_Some _ _ _ Hk). cbn [mbind option_bind in_ps in_raft].
      rewrite list_lookup_insert_eq by exact (lookup_lt_Some _ _ _ Hps). cbn [mbind option_bind]. by destruct (f rf0).
    + rewrite list_lookup_insert_ne by done. destruct (insts cfg !! k') as [inst'|] eqn:Hk'; [|done].
      cbn [mbind option_bind]. rewrite list_lookup_insert_ne; [done|].
      intros He. apply Hne. symmetry. by eapply (ho_distinct _ _ Hok).
  - intros b Hor Hx. unfold saved_persister. rewrite Hs', Hp'.
    destruct (saved cfg !! b) as [[p|]|] eqn:Hs; try done. cbn.
    destruct (decide (p = in_ps inst)) as [->|Hp]; [|by rewrite list_lookup_insert_ne].
    destruct Hor as [Hr|Hf]; [by destruct (ho_held _ _ Hok b k inst Hk Hs)|].
    rewrite list_lookup_insert_eq by (by eapply lookup_lt_Some). by rewrite Hf, Hps0, Hps.
Qed.

(** *** crash1 *)

(** The network and the connections are the same. *)
Definition same_net cfg cfg' : Prop :=
  net cfg' = net cfg /\ connected cfg' = connected cfg /\ endnames cfg' = endnames cfg.

Lemma copy_saved_view cfg (a : nat) cfg' :
  heap_ok None cfg -> (a < n cfg)%nat -> copy_saved cfg (Z.of_nat a) = Ret cfg' ->
  same_net cfg cfg' /\ (forall k, instance cfg' k = instance cfg k) /\
  (forall b, saved_persister cfg' b = saved_persister cfg b).
Proof.
  intros Hok Ha [[_ ->]|(p & ps & Hp & Hps & ->)]%copy_saved_inv; [done|]. split_and!; [done|..].
  - intros k. by apply (instance_fresh None).
  - intros b. rewrite (saved_fresh None) by done. case_decide as Hb; [|done].
    by rewrite Hb, (saved_persister_Some _ _ _ Hp), Copy_id, Hps.
Qed.

Lemma stops_view cfg (a : nat) cfg' :
  stopping cfg a -> stops cfg a cfg' ->
  same_net cfg cfg' /\ rafts cfg' = <[a := None]> (rafts cfg) /\
  (forall k, instance cfg' k =
    if decide (rafts cfg !! a = Some (Some k)) then Kill <$> instance cfg k else instance cfg k) /\
  (forall b, saved_persister cfg' b = saved_persister cfg b).
Proof.
  intros Hok [[Hr ->]|(k & cfg1 & Hr & Hrun & ->)].
  - split_and!; [done|by rewrite list_insert_id| |done]. intros k. by rewrite decide_False by congruence.
  - destruct Hok as [[Hr' _]|Hok]; [congruence|].
    destruct (run_instance_view _ _ _ _ _ Hok Hrun) as (Er & Es & En & _ & Hi & Hs).
    destruct (run_instance_same _ _ _ _ Hrun) as [_ Ec Ee _ _]. split_and!.
    + by split_and!.
    + cbn. by rewrite Er.
    + intros k'. rewrite (instance_same cfg1 _ k') by done. rewrite Hi.
      destruct (decide (k' = k)) as [->|Hne]; [by rewrite decide_True|]. rewrite decide_False; [done|]. congruence.
    + intros b. rewrite (saved_persister_same cfg1 _ b) by done.
      destruct (decide (b = a)) as [->|Hb]; [|apply Hs; [by right|congruence]].
      destruct (stops_heap cfg a (cfg1 <| rafts := <[a := None]> (rafts cfg1) |>)) as (_ & _ & _ & _ & Hp).
      * by right.
      * rewrite <- (ho_rafts _ _ Hok). by eapply lookup_lt_Some.
      * right. by exists k, cfg1.
      * exact Hp.
Qed.

(** The copy that [crash1] leaves of a persister. *)
Definition saved_copy (ps : Persister) : Persister := SaveRaftState MakePersister (ReadRaftState ps).

(** [crash1] kills the instance that runs, and replaces the server's
    persister by a copy. *)
Lemma crash1_view cfg cfg' (a : nat) :
  links_ok cfg -> heap_ok None cfg -> crash1 cfg (Z.of_nat a) = Ret cfg' ->
  (a < n cfg)%nat /\
  net cfg' = DeleteServer (disconnected_net cfg a) (IInt (Z.of_nat a)) /\
  connected cfg' = <[a := false]> (connected cfg) /\ endnames cfg' = endnames cfg /\
  rafts cfg' = <[a := None]> (rafts cfg) /\
  (forall k, instance cfg' k =
    if decide (rafts cfg !! a = Some (Some k)) then Kill <$> instance cfg k else instance cfg k) /\
  (forall b, saved_persister cfg' b =
    if decide (b = a) then saved_copy <$> saved_persister cfg a else saved_persister cfg b).
Proof.
  intros Hl Hok (cfg2 & cfg3 & Ha & H2 & H3 & H4)%crash1_inv; [|done]. cbv zeta in H2. split; [done|].
  set (cfg1 := cfg <| connected := _ |> <| net := _ |>) in *.
  assert (heap_ok None cfg1) as Hok1 by by apply links_heap.
  pose proof (copy_saved_heap _ _ _ Hok1 Ha H2) as (Hok2 & Hn2 & _ & Hr2 & _).
  pose proof (copy_saved_view _ _ _ Hok1 Ha H2) as ((En & Ec & Ee) & Hi2 & Hs2).
  destruct (stops_heap _ _ _ Hok2 ltac:(by rewrite Hn2) H3) as (Hok3 & _ & Hn3 & _).
  destruct (stops_view _ _ _ Hok2 H3) as ((En' & Ec' & Ee') & Hr3 & Hi3 & Hs3).
  rewrite Hr2 in Hr3, Hi3. change (rafts cfg1) with (rafts cfg) in *.
  assert (net cfg3 = DeleteServer (disconnected_net cfg a) (IInt (Z.of_nat a)) /\
    connected cfg3 = <[a := false]> (connected cfg) /\ endnames cfg3 = endnames cfg /\
    (forall k, instance cfg3 k =
      if decide (rafts cfg !! a = Some (Some k)) then Kill <$> instance cfg k else instance cfg k) /\
    (forall b, saved_persister cfg3 b = saved_persister cfg b)) as (En3 & Ec3 & Ee3 & Hi & Hs).
  { rewrite En', En, Ec', Ec, Ee', Ee. split_and!; try done.
    - intros k. by rewrite Hi3, Hi2.
    - intros b. by rewrite Hs3, Hs2. }
  destruct H4 as [[Hsv ->]|(p & ps & Hp & Hps & ->)].
  - split_and!; try done. intros b. rewrite Hs. case_decide as Hb; [|done].
    by rewrite Hb, <- (Hs a), (saved_persister_None _ _ Hsv).
  - split_and!; try done.
    + intros k. by rewrite (instance_fresh None).
    + intros b. rewrite (saved_fresh None) by (done || by rewrite Hn3, Hn2). rewrite Hs. case_decide; [|done].
      by rewrite <- (Hs a), (saved_persister_Some _ _ _ Hp), Hps.
Qed.

(** *** start1 *)

Lemma Make_persister peers me ps : persister (Make peers me ps) = ps.
Proof. unfold Make, readPersist. by repeat case_match. Qed.

(** [start1] is [crash1], new ends, and a new instance on a persister that
    holds what the server saved. *)
Lemma start1_view cfg cfg' i rands :
  links_ok cfg -> heap_ok None cfg -> start1 cfg i rands = Ret cfg' ->
  exists (a : nat) cfg1 rn names, i = Z.of_nat a /\ crash1 cfg (Z.of_nat a) = Ret cfg1 /\
    names = map rands (seqZ 0 (Z.of_nat (n cfg1))) /\
    net_made rands (seqZ 0 (Z.of_nat (n cfg1))) (net cfg1) = Ret rn /\
    let ps := default MakePersister (saved_persister cfg1 a) in
    let k := length (insts cfg1) in
    net cfg' = AddServer rn (IInt (Z.of_nat a)) k /\
    connected cfg' = connected cfg1 /\ endnames cfg' = <[a := Some names]> (endnames cfg1) /\
    rafts cfg' = <[a := Some k]> (rafts cfg1) /\
    (forall j, instance cfg' j =
      if decide (j = k) then Some (Make (n cfg1) (Z.of_nat a) ps) else instance cfg1 j) /\
    (forall b, saved_persister cfg' b = if decide (b = a) then Some ps else saved_persister cfg1 b) /\
    length (insts cfg') = S k.
Proof.
  intros Hl Hok Hs.
  destruct (start1_inv _ _ _ _ Hl Hs) as (a & cfg1 & rn & names & -> & H1 & Ha & Hn & _ & Hm & Hr).
  destruct (crash1_heap _ _ _ Hl Hok H1) as (Hok1 & _ & _ & _ & _ & _).
  exists a, cfg1, rn, names. do 4 (split; [done|]). cbv zeta in Hr |- *.
  set (cfg2 := cfg1 <| endnames := _ |> <| net := _ |>) in *. destruct Hr as [_ ->].
  assert (heap_ok None cfg2) as Hok2 by by apply (heap_ok_same None cfg1).
  change (saved_persister cfg2 a) with (saved_persister cfg1 a). set (ps := default _ _).
  split_and!; try done.
  - intros j. set (cfg3 := with_instance _ _ _ _).
    assert (insts cfg3 = insts cfg1 ++ [mkInst (Make (n cfg1) (Z.of_nat a) ps) (length (persisters cfg1))]) as Hi by done.
    assert (persisters cfg3 = persisters cfg1 ++ [ps]) as Hp by done. clearbody cfg3. case_decide as Hj.
    + rewrite (instance_Some cfg3 j (mkInst (Make (n cfg1) (Z.of_nat a) ps) (length (persisters cfg1))) ps).
      * by rewrite set_persister by apply Make_persister.
      * rewrite Hi, Hj. by apply list_lookup_middle.
      * rewrite Hp. by apply list_lookup_middle.
    + unfold instance. rewrite Hi, Hp. destruct (decide (j < length (insts cfg1)))%nat as [Hlt|Hge].
      * rewrite lookup_app_l by done. destruct (insts cfg1 !! j) as [inst|] eqn:Hk; [|done]. cbn [mbind option_bind].
        by rewrite lookup_app_l by (by eapply (ho_ps _ _ Hok1)).
      * rewrite !lookup_ge_None_2; [done|lia|]. rewrite length_app. cbn. lia.
  - intros b. by apply (saved_fresh None cfg2).
  - cbn. rewrite length_app. cbn. lia.
Qed.

End view.
