(* ===== verification/RaftRpc.v ===== *)
(** * Raft over labrpc, with crashes and restarts

    The program as the harness runs it: every Raft object made so far with its
    goroutines, the network of labrpc.go between them, and what config.go does
    to both.  A goroutine that sends an RPC begins a call on the end of the
    server it sends to; the network runs the handler of the object that is
    registered for that server, as its dispatcher does; when a call returns
    true its goroutine handles the reply.  [RCrash] and [RStart] are [crash1]
    and [start1]: a crash disables the ends of the peer, takes its server off
    the network and kills the object, which lives on, its goroutines and
    handlers included; a start makes new ends, a new object from the saved
    persister, and a new server for it. *)

From S2P Require Import Prelude Gob PersisterModel RaftState RaftVote RaftAppend RaftNode.
From S2P Require Import Labrpc NetCalls.
From S2P Require Cluster.
Open Scope go_scope.

(** ** The values peers exchange *)

Inductive RpcVal : Type :=
| VRequestVoteArgs (args : RequestVoteArgs)
| VRequestVoteReply (reply : RequestVoteReply)
| VAppendEntriesArgs (args : AppendEntriesArgs)
| VAppendEntriesReply (reply : AppendEntriesReply).

Inductive RpcType : Type := TVoteArgs | TVoteReply | TAppendArgs | TAppendReply.

Definition rpc_type (v : RpcVal) : RpcType :=
  match v with
  | VRequestVoteArgs _ => TVoteArgs
  | VRequestVoteReply _ => TVoteReply
  | VAppendEntriesArgs _ => TAppendArgs
  | VAppendEntriesReply _ => TAppendReply
  end.

Definition rpc_zero (t : RpcType) : RpcVal :=
  match t with
  | TVoteArgs => VRequestVoteArgs (mkRequestVoteArgs 0 0 0 0)
  | TVoteReply => VRequestVoteReply (mkRequestVoteReply 0 false)
  | TAppendArgs => VAppendEntriesArgs (mkAppendEntriesArgs 0 0 0 0 [] 0)
  | TAppendReply => VAppendEntriesReply (mkAppendEntriesReply 0 false 0 0)
  end.

(** gob's encoder and decoder on these values, and what it documents: a value
    arrives unchanged in a zero value of its type. *)
Class RpcGob := {
  rpc_encode : RpcVal -> list Z;
  rpc_decode : RpcVal -> list Z -> RpcVal * bool;
  rpc_roundtrip : forall v, rpc_decode (rpc_zero (rpc_type v)) (rpc_encode v) = (v, true);
}.

#[export] Instance rpc_codec {G : RpcGob} : Codec RpcType RpcVal := {|
  TypeOf := rpc_type;
  New := rpc_zero;
  Encode := rpc_encode;
  Decode := rpc_decode;
|}.

Section rpc.
Context {GT : GobTypes} {G : RpcGob}.

(** ** The service of a Raft object *)

(** A handler of the Raft object [i] run by the dispatcher. *)
Definition on_peer (i : nat) (f : Raft -> outcome (Raft * RpcVal)) (w : list Node) :
    outcome (list Node * RpcVal) :=
  match w !! i with
  | Some n => '(rf, v) ← f (raft n); Ret (<[i := n <| raft := rf |>]> w, v)
  | None => Panic NilDereference
  end.

(** The exported methods of *Raft as reflect lists them.  Arguments of
    another type make reflect panic. *)
Definition raft_methods (i : nat) : list (Method (list Node) RpcVal) :=
  [mkMethod "AppendEntries" EmptyString 3 true 0 (fun w v =>
     match v with
     | VAppendEntriesArgs args =>
         on_peer i (fun rf => '(rf, reply) ← AppendEntries rf args; Ret (rf, VAppendEntriesReply reply)) w
     | _ => Panic Fatal
     end);
   mkMethod "GetState" EmptyString 1 false 2 (fun _ _ => Panic Fatal);
   mkMethod "Kill" EmptyString 1 false 0 (fun _ _ => Panic Fatal);
   mkMethod "RequestVote" EmptyString 3 true 0 (fun w v =>
     match v with
     | VRequestVoteArgs args =>
         on_peer i (fun rf => '(rf, reply) ← RequestVote rf args; Ret (rf, VRequestVoteReply reply)) w
     | _ => Panic Fatal
     end);
   mkMethod "Start" EmptyString 2 false 3 (fun _ _ => Panic Fatal)].

Definition raft_service (i : nat) : Service (list Node) RpcVal := MakeService "Raft" (raft_methods i).

(** [srv := labrpc.MakeServer(); srv.AddService(svc)] *)
Definition raft_server (i : nat) : Server (list Node) RpcVal := AddService MakeServer (raft_service i).

(** ** Requests as calls *)

#[local] Notation Sys := (Sys (list Node) RpcType RpcVal).
#[local] Notation NetEvent := (NetEvent (list Node) RpcVal).
#[local] Notation Call := (Call (list Node) RpcType RpcVal).

(** The method, the arguments and the reply variable of a request. *)
Definition request_call (b : Cluster.Body) : option (string * RpcVal * RpcVal) :=
  match b with
  | Cluster.VoteReq _ args => Some ("Raft.RequestVote", VRequestVoteArgs args, rpc_zero TVoteReply)
  | Cluster.AppendReq args => Some ("Raft.AppendEntries", VAppendEntriesArgs args, rpc_zero TAppendReply)
  | _ => None
  end%string.

(** [rf.peers[server].Call(...)] up to its first select; [peers] are the
    names of the ends the object was made with. *)
Definition issue (peers : list string) (m : Cluster.Msg) (s : Sys) : option (outcome Sys) :=
  '(meth, args, reply0) ← request_call (Cluster.m_body m);
  e ← peers !! Cluster.m_dst m;
  net_exec (NCall (IString e) meth args reply0) s.

Fixpoint issue_all (peers : list string) (ms : list Cluster.Msg) (s : Sys) : option (outcome Sys) :=
  match ms with
  | [] => Some (Ret s)
  | m :: ms =>
      o ← issue peers m s;
      match o with
      | Ret s => issue_all peers ms s
      | Panic f => Some (Panic f)
      end
  end.

(** The reply to the request [b] that a call brought back. *)
Definition reply_body (b : Cluster.Body) (v : RpcVal) : option Cluster.Body :=
  match b, v with
  | Cluster.VoteReq round args, VRequestVoteReply reply => Some (Cluster.VoteRep round args reply)
  | Cluster.AppendReq args, VAppendEntriesReply reply => Some (Cluster.AppendRep args reply)
  | _, _ => None
  end.

Definition reply_to (m : Cluster.Msg) (v : RpcVal) : option Cluster.Msg :=
  b ← reply_body (Cluster.m_body m) v;
  Some (Cluster.mkMsg (Cluster.m_src m) (Cluster.m_inc m) (Cluster.m_dst m) b).

(** ** The composed system *)

(** What the harness keeps for a peer: [cfg.rafts[i]], or, while there is
    none, the object it had last, [cfg.saved[i]], and how often it crashed. *)
Inductive Slot : Type :=
| Running (k : nat)
| Down (last : option nat) (saved : option Persister) (crashes : nat).

(** The world of [sys] are the Raft objects made so far, and its server
    object [k] serves object [k].  [owners] and [names] are, object by object,
    the peer it is an instance of and the names of its ends; [slots] is peer
    by peer.  [sent] is, call by call, the object that made it and the request
    it carries; [handled] the calls whose reply the goroutine has handled.
    [lost] are the calls that came to nothing because of a crash: those made
    by a killed object, and those whose handler ran on one.  [lost] and the
    last two fields are history, as in Cluster.v. *)
Record RpcSys := mkRpcSys {
  sys : Sys;
  owners : list nat;
  names : list (list string);
  slots : list Slot;
  sent : list (nat * Cluster.Msg);
  handled : list nat;
  lost : list nat;
  r_elections : list (Z * nat);
  r_created : list Cluster.Birth;
}.

#[export] Instance RpcSys_eta : Eta RpcSys := fun r =>
  mkRpcSys (sys r) (owners r) (names r) (slots r) (sent r) (handled r) (lost r) (r_elections r) (r_created r).

#[export] Instance Slot_eq_dec : EqDecision Slot.
Proof. solve_decision. Defined.

Definition running (r : RpcSys) (k : nat) : bool := bool_decide (Running k ∈ slots r).

(** What [start1] passes to [Make] as the persister. *)
Definition boot_persister (saved : option Persister) : Persister :=
  match saved with
  | Some ps => Cluster.restart_persister ps
  | None => MakePersister
  end.

(** What [crash1] leaves in [cfg.saved[i]]. *)
Definition save_persister (ps : Persister) : Persister :=
  SaveRaftState MakePersister (ReadRaftState (Copy ps)).

(** A peer as Cluster.v has it: its running object, or the one the next
    start will make. *)
Definition slot_node (r : RpcSys) (i : nat) (sl : Slot) : Node :=
  match sl with
  | Running k => default (make_node 0 0 MakePersister 0) (world (sys r) !! k)
  | Down _ saved crashes => make_node (length (slots r)) (Z.of_nat i) (boot_persister saved) crashes
  end.

Definition peer_nodes (r : RpcSys) : list Node := imap (slot_node r) (slots r).

Definition peer_view (r : RpcSys) : Cluster.Cluster :=
  Cluster.mkCluster (peer_nodes r) [] (r_elections r) (r_created r).

(** The same with the object [n] of peer [i] in its place: the object sees
    nothing of the others. *)
Definition inst_view (r : RpcSys) (i : nat) (n : Node) : Cluster.Cluster :=
  Cluster.mkCluster (<[i := n]> (peer_nodes r)) [] (r_elections r) (r_created r).

(** After a step of object [k] of peer [i] to the peer's state in [s]: the
    messages of [s] become calls. *)
Definition continue (r : RpcSys) (k i : nat) (hd : list nat) (s : Cluster.Cluster) : option (outcome RpcSys) :=
  n ← Cluster.nodes s !! i;
  peers ← names r !! k;
  o ← issue_all peers (Cluster.net s) ((sys r) <| world := <[k := n]> (world (sys r)) |>);
  Some (y ← o;
        let r' := r <| sys := y |> <| handled := hd |>
                    <| sent := sent r ++ map (pair k) (Cluster.net s) |> in
        Ret (if running r k then
               r' <| r_elections := Cluster.elections s |> <| r_created := Cluster.created s |>
             else r' <| lost := lost r ++ seq (length (sent r)) (length (Cluster.net s)) |>)).

Definition then_continue (r : RpcSys) (k i : nat) (hd : list nat) (o : outcome Cluster.Cluster) :
    option (outcome RpcSys) :=
  match o with
  | Ret s => continue r k i hd s
  | Panic f => Some (Panic f)
  end.

(** ** The harness *)

(** [cfg.endnames[i]] *)
Definition endnames (r : RpcSys) (i : nat) : list string :=
  match slots r !! i with
  | Some (Running k) | Some (Down (Some k) _ _) => default [] (names r !! k)
  | _ => []
  end.

(** [cfg.net.Enable(names[j], yes)] *)
Definition enable_name (ns : list string) (j : nat) (yes : bool) (rn : Network) : Network :=
  match ns !! j with
  | Some e => Enable rn (IString e) yes
  | None => rn
  end.

(** The two loops of [disconnect]. *)
Definition disconnect_net (r : RpcSys) (i : nat) (rn : Network) : Network :=
  let js := seq 0 (length (slots r)) in
  let rn := fold_left (fun rn j => enable_name (endnames r i) j false rn) js rn in
  fold_left (fun rn j => enable_name (endnames r j) i false rn) js rn.

(** The part of [crash1] that acts on the network. *)
Definition crash_net (r : RpcSys) (i : nat) (rn : Network) : Network :=
  DeleteServer (disconnect_net r i rn) (IInt (Z.of_nat i)).

(** The loop of [start1] that makes the ends; [ns] are the random names. *)
Fixpoint make_ends (ns : list string) (j : nat) (rn : Network) : outcome Network :=
  match ns with
  | [] => Ret rn
  | e :: ns =>
      '(rn, _) ← MakeEnd rn (IString e);
      make_ends ns (S j) (Connect rn (IString e) (IInt (Z.of_nat j)))
  end.

(** [crash1]: on a peer that does not run it disables the ends again and
    makes another copy of the persister. *)
Definition crash (r : RpcSys) (i : nat) : option RpcSys :=
  let rn := crash_net r i (net (sys r)) in
  match slots r !! i with
  | Some (Running k) =>
      n ← world (sys r) !! k;
      let y := (sys r) <| net := rn |> <| world := <[k := n <| raft := Kill (raft n) |>]> (world (sys r)) |> in
      let sl := Down (Some k) (Some (save_persister (persister (raft n)))) (S (incarnation n)) in
      Some (r <| sys := y |> <| slots := <[i := sl]> (slots r) |>)
  | Some (Down last saved crashes) =>
      let sl := Down last (save_persister <$> saved) crashes in
      Some (r <| sys := (sys r) <| net := rn |> |> <| slots := <[i := sl]> (slots r) |>)
  | None => None
  end.

(** [start1] after its crash. *)
Definition boot (r : RpcSys) (i : nat) (ns : list string) : option (outcome RpcSys) :=
  match slots r !! i with
  | Some (Down _ saved crashes) =>
      if decide (length ns = length (slots r)) then
        Some (rn ← make_ends ns 0 (net (sys r));
              let k := length (world (sys r)) in
              let rf := make_node (length (slots r)) (Z.of_nat i) (boot_persister saved) crashes in
              let y := mkSys (AddServer rn (IInt (Z.of_nat i)) k) (heap (sys r) ++ [raft_server k])
                         (world (sys r) ++ [rf]) (calls (sys r)) in
              Ret (r <| sys := y |> <| owners := owners r ++ [i] |> <| names := names r ++ [ns] |>
                     <| slots := <[i := Running k]> (slots r) |>))
      else None
  | _ => None
  end.

(** [start1]; [ns] are the names drawn. *)
Definition start (r : RpcSys) (i : nat) (ns : list string) : option (outcome RpcSys) :=
  r ← crash r i; boot r i ns.

(** ** Steps *)

Inductive RpcEvent : Type :=
| RLocal (k : nat) (ev : Cluster.Event)  (* a goroutine of object k, or the service *)
| RNet (ev : NetEvent)                   (* the network *)
| RReturn (q : nat)                      (* call q returned true to its goroutine *)
| REnable (k j : nat) (yes : bool)       (* connect and disconnect: the end of object k to peer j *)
| RCrash (i : nat)
| RStart (i : nat) (ns : list string).

(** The peer a step of a goroutine or a call of the service belongs to. *)
Definition local_peer (ev : Cluster.Event) : option nat :=
  match ev with
  | Cluster.EvHeartBeat i _ | Cluster.EvTimer i | Cluster.EvNotify i _ _ | Cluster.EvTask i _
  | Cluster.EvStart i _ | Cluster.EvKill i => Some i
  | Cluster.EvDeliver _ | Cluster.EvLose _ | Cluster.EvRestart _ => None
  end.

(** What the network does by itself, and the settings a test may change. *)
Definition is_network (ev : NetEvent) : bool :=
  match ev with
  | NSend _ | NAbort _ | NStart _ | NDrop _ _ | NHandler _ | NRecv _ | NTick _ | NFinal _ _ _ | NReply _
  | NReliable _ | NLongReordering _ | NLongDelays _ | NCleanup => true
  | _ => false
  end.

(** The event runs a handler on an object that was killed. *)
Definition on_killed (r : RpcSys) (ev : NetEvent) : list nat :=
  match ev with
  | NHandler q =>
      match calls (sys r) !! q with
      | Some c =>
          match c_handler c with
          | HRunning sid => if running r sid then [] else [q]
          | _ => []
          end
      | None => []
      end
  | _ => []
  end.

Definition rpc_exec (ev : RpcEvent) (r : RpcSys) : option (outcome RpcSys) :=
  match ev with
  | RLocal k ev =>
      i ← owners r !! k;
      n ← world (sys r) !! k;
      if decide (local_peer ev = Some i) then
        o ← Cluster.exec ev (inst_view r i n);
        then_continue r k i (handled r) o
      else None
  | RNet ev =>
      if is_network ev then
        o ← net_exec ev (sys r);
        Some (y ← o; Ret (r <| sys := y |> <| lost := lost r ++ on_killed r ev |>))
      else None
  | RReturn q =>
      c ← calls (sys r) !! q;
      '(k, m) ← sent r !! q;
      n ← world (sys r) !! k;
      match c_pc c with
      | CReturned true v =>
          if decide (q ∈ handled r) then None
          else
            m' ← reply_to m v;
            o ← Cluster.deliver (inst_view r (Cluster.m_src m) n) m';
            then_continue r k (Cluster.m_src m) (q :: handled r) o
      | _ => None
      end
  | REnable k j yes =>
      if negb yes || running r k then
        ns ← names r !! k;
        Some (Ret (r <| sys := (sys r) <| net := enable_name ns j yes (net (sys r)) |> |>))
      else None
  | RCrash i => r ← crash r i; Some (Ret r)
  | RStart i ns => start r i ns
  end.

(** N peers that were never started, on a new network. *)
Definition rpc_init (N : nat) : RpcSys :=
  mkRpcSys (net_init []) [] [] (replicate N (Down None None 0)) [] [] [] [] [].

Inductive rpc_reachable (N : nat) : RpcSys -> Prop :=
| rpc_reachable_init : rpc_reachable N (rpc_init N)
| rpc_reachable_step r ev r' :
    rpc_reachable N r -> Cluster.bounded (peer_view r) -> rpc_exec ev r = Some (Ret r') ->
    rpc_reachable N r'.

End rpc.
Arguments RpcSys : clear implicits.
