(* ===== verification/RaftRpcInv.v ===== *)
(** * Raft over labrpc: the invariant of the composed system

    The wiring of the network and the calls in progress, over all runs of
    RaftRpc.v: ends lead from the objects that were made with them to the
    peers, the ends of killed objects are disabled, only running objects are
    registered, every call carries the request it was made for, and a call
    that a crash made void returns false. *)

From S2P Require Import Prelude Gob PersisterModel RaftState RaftVote RaftAppend RaftNode.
From S2P Require Import Labrpc NetCalls NetProps RaftRpc.
From S2P Require Cluster.
Open Scope go_scope.

(** ** One call moves on *)

Section call.
Context {W T V : Type} {C : Codec T V}.
#[local] Notation Call := (Call W T V).
#[local] Notation Sys := (Sys W T V).
Implicit Types (y : Sys) (c : Call) (P K : nat -> Prop).

(** The call goes to the server [n], and the server object that may run, or
    runs, its handler satisfies [P]. *)
Definition routed (n : iface) P c : Prop :=
  match c_pc c with
  | PDrop i => i_servername i = n /\ forall sid, i_server i = Some sid -> P sid
  | PWait i | PFinal i _ => i_servername i = n /\ forall sid, c_handler c = HRunning sid -> i_server i = Some sid
  | _ => True
  end /\
  match c_handler c with HRunning sid => P sid | _ => True end.

Definition same_call n P c c' : Prop :=
  c_req c' = c_req c /\ c_reply0 c' = c_reply0 c /\ routed n P c'.

Lemma same_call_pc n P c c' :
  routed n P c -> c_req c' = c_req c -> c_reply0 c' = c_reply0 c ->
  c_handler c' = c_handler c \/ c_handler c' = HTaken ->
  match c_pc c' with
  | PDrop i => i_servername i = n /\ forall sid, i_server i = Some sid -> P sid
  | PWait i | PFinal i _ => i_servername i = n /\ forall sid, c_handler c' = HRunning sid -> i_server i = Some sid
  | _ => True
  end ->
  same_call n P c c'.
Proof. intros [_ Hh] Hq Hr [He|He] Hi; (split_and!; [done..|split; [done|]]); by rewrite He. Qed.

Lemma start_handler_same n P c i :
  i_servername i = n -> (forall sid, i_server i = Some sid -> P sid) -> routed n P c ->
  same_call n P c (start_handler c i).
Proof.
  intros Hn Hi Hc. unfold start_handler. destruct (i_server i) as [sid|] eqn:Hs; [|done].
  split_and!; [done..|]. split; [|by apply Hi]. cbn. split; [done|]. by intros ? [= <-].
Qed.

(** The tables of the network that no step of a call changes. *)
Definition same_tables (rn rn' : Network) : Prop :=
  ends rn' = ends rn /\ servers rn' = servers rn /\ connections rn' = connections rn /\ enabled rn' = enabled rn.

Lemma call_exec_static y y' k c ev n P :
  connection (net y) (req_endname (c_req c)) = n ->
  (forall sid, server_of (net y) n = Some sid -> P sid) ->
  routed n P c -> call_exec y k c ev = Some (Ret y') ->
  same_tables (net y) (net y') /\
  exists c', calls y' = <[k := c']> (calls y) /\ same_call n P c c'.
Proof.
  intros Hn Hi Hc. unfold call_exec.
  assert (i_servername (readEndnameInfo (net y) (req_endname (c_req c))) = n) as Hin by exact Hn.
  assert (forall sid, i_server (readEndnameInfo (net y) (req_endname (c_req c))) = Some sid -> P sid) as His.
  { intros sid. unfold readEndnameInfo. cbn [i_server]. rewrite Hn. case_decide; [apply Hi|done]. }
  assert (forall y1 c', same_tables (net y) (net y1) -> calls y1 = <[k := c']> (calls y) -> same_call n P c c' ->
    same_tables (net y) (net y1) /\ exists c', calls y1 = <[k := c']> (calls y) /\ same_call n P c c') as Hmk
    by naive_solver.
  pose proof Hc as [Hp _].
  destruct (c_pc c) as [| |i|i|i r|r late|ok v] eqn:Hpc; destruct ev; try done.
  - intros [= <-]. eapply Hmk; [done..|]. by apply same_call_pc; auto.
  - destruct (done_closed (net y)); [|done]. intros [= <-]. eapply Hmk; [done..|]. by apply same_call_pc; auto.
  - intros [= <-]. eapply Hmk; [done..|]. unfold processReq_start.
    case_match; [|by apply same_call_pc; auto].
    case_match; [by apply start_handler_same|by apply same_call_pc; auto].
  - intros [= <-]. eapply Hmk; [done..|]. unfold processReq_drop. destruct Hp.
    case_match; [by apply same_call_pc; auto|by apply start_handler_same].
  - unfold processReq_receive. destruct (c_handler c); try done.
    cbn [mbind option_bind]. intros [= <-].
    eapply Hmk; [done..|]. apply same_call_pc; auto. split; [apply Hp|done].
  - intros [= <-]. eapply Hmk; [done..|]. unfold processReq_tick.
    case_match; apply same_call_pc; auto; by rewrite ?Hpc.
  - destruct (processReq_final _ _ _ _ _ _) as [rn c'] eqn:Hf. intros [= <-]. unfold processReq_final in Hf.
    clear Hp. repeat case_match; injection Hf as <- <-; (eapply Hmk; [done..|]); by apply same_call_pc; auto.
  - destruct (processReq_reply _ _ _ _) as [[rn c']|] eqn:Hf; [|done]. cbn [mbind outcome_bind].
    intros [= <-]. unfold processReq_reply, Call_finish in Hf. clear Hp.
    repeat case_match; try done; cbn in Hf; injection Hf as <- <-; (eapply Hmk; [done..|]); by apply same_call_pc; auto.
Qed.

(** The call can only return false: it was not received yet and its end is
    disabled for ever ([Z]), or it was given to a server object, one of [K],
    that is not registered any more. *)
Definition dead (Z : Prop) (n : iface) K c : Prop :=
  (forall sid, c_handler c <> HRunning sid) /\
  match c_pc c with
  | CSending | PStart => Z
  | PDrop _ => False
  | PWait i | PFinal i _ => i_servername i = n /\ exists sid, i_server i = Some sid /\ K sid
  | PSend r _ => r = no_reply
  | CReturned ok _ => ok = false
  end.

Lemma call_exec_dead y y' k c ev (Z : Prop) n K :
  (Z -> is_enabled (net y) (req_endname (c_req c)) = false) ->
  (forall sid, K sid -> server_of (net y) n <> Some sid) ->
  dead Z n K c -> call_exec y k c ev = Some (Ret y') ->
  exists c', calls y' = <[k := c']> (calls y) /\ dead Z n K c'.
Proof.
  intros HZ HK [Hh Hd]. unfold call_exec.
  destruct (c_pc c) as [| |i|i|i r|r late|ok v] eqn:Hpc; destruct ev; try done.
  - intros [= <-]. by eexists.
  - destruct (done_closed (net y)); [|done]. intros [= <-]. by eexists.
  - intros [= <-]. eexists. split; [reflexivity|]. unfold processReq_start, readEndnameInfo.
    cbn [i_enabled]. by rewrite (HZ Hd).
  - unfold processReq_receive. destruct (c_handler c); try done. cbn [mbind option_bind].
    intros [= <-]. by eexists.
  - intros [= <-]. eexists. split; [reflexivity|]. unfold processReq_tick.
    case_match; (split; [done|]); [exact Hd|]. by rewrite Hpc.
  - destruct Hd as (Hn & sid & Hs & Hk). unfold processReq_final, isServerDead.
    rewrite Hn, Hs, (bool_decide_eq_false_2 (server_of (net y) n = Some sid)) by auto.
    rewrite orb_true_r. destruct r; intros [= <-]; by eexists.
  - subst r. unfold processReq_reply, Call_finish. cbn [r_ok no_reply mbind outcome_bind].
    intros [= <-]. by eexists.
Qed.

(** A handler that runs for a server object that is gone runs in vain. *)
Lemma abandoned_dead (Z : Prop) n K c c' sid :
  call_ok c -> routed n (fun _ => True) c -> c_handler c = HRunning sid -> K sid ->
  c_pc c' = c_pc c -> (forall sid, c_handler c' <> HRunning sid) -> dead Z n K c'.
Proof.
  intros Hok [Hr _] Hh Hk Hpc Hh'. split; [done|]. rewrite Hpc. pose proof (co_pc _ Hok) as Hp.
  unfold pc_ok, replied in Hp. rewrite Hh in *.
  destruct (c_pc c) as [| |i|i|i [r|]|r late|[|] v]; try naive_solver.
Qed.

End call.

Section inv.
Context {GT : GobTypes} {G : RpcGob}.
#[local] Notation Sys := (Sys (list Node) RpcType RpcVal).
#[local] Notation NetEvent := (NetEvent (list Node) RpcVal).
#[local] Notation Call := (Call (list Node) RpcType RpcVal).
Implicit Types (r : RpcSys) (y : Sys) (c : Call) (m : Cluster.Msg).

(** ** The network *)

(** The name of the end from object [k] to peer [j]. *)
Definition end_of r (k j : nat) : option string := ns ← names r !! k; ns !! j.

(** An object that was made and does not run any more. *)
Definition is_killed r (k : nat) : Prop := (k < length (owners r))%nat /\ running r k = false.

Definition peer_name (j : nat) : iface := IInt (Z.of_nat j).

Record wired (N : nat) r : Prop := {
  wd_slots : length (slots r) = N;
  wd_owners : length (owners r) = length (world (sys r));
  wd_names : length (names r) = length (world (sys r));
  wd_heap : length (heap (sys r)) = length (world (sys r));
  wd_owner : forall k i, owners r !! k = Some i -> (i < N)%nat;
  wd_named : forall k ns, names r !! k = Some ns -> length ns = N;
  wd_running : forall i k, slots r !! i = Some (Running k) -> owners r !! k = Some i;
  wd_ends : forall k j e, end_of r k j = Some e ->
    ends (net (sys r)) !! IString e = Some (mkClientEnd (IString e)) /\
    connection (net (sys r)) (IString e) = peer_name j;
  wd_distinct : forall k j k' j' e, end_of r k j = Some e -> end_of r k' j' = Some e -> k = k' /\ j = j';
  wd_killed : forall k j e, is_killed r k -> end_of r k j = Some e ->
    is_enabled (net (sys r)) (IString e) = false;
  wd_registered : forall j sid, server_of (net (sys r)) (peer_name j) = Some sid ->
    slots r !! j = Some (Running sid);
  wd_services : forall k rs, heap (sys r) !! k = Some rs -> services rs = services (raft_server k);
}.

(** ** The calls *)

(** The message a call stands for: its request until the handler has run,
    then the reply until the caller has handled it. *)
Definition call_messages (done : bool) c m : list Cluster.Msg :=
  if done then []
  else match c_log c with
       | [] => [m]
       | x :: _ => option_list (reply_to m (rpc_decode (c_reply0 c) (r_reply (x_reply x))).1)
       end.

Record carries (N : nat) r (q : nat) c (k : nat) m : Prop := {
  ca_owner : owners r !! k = Some (Cluster.m_src m);
  ca_dst : (Cluster.m_dst m < N)%nat;
  ca_request : exists meth args e,
    request_call (Cluster.m_body m) = Some (meth, args, c_reply0 c) /\
    end_of r k (Cluster.m_dst m) = Some e /\
    c_req c = mkReqMsg (IString e) meth (rpc_type args) (rpc_encode args);
  ca_routed : routed (peer_name (Cluster.m_dst m)) (fun sid => owners r !! sid = Some (Cluster.m_dst m)) c;
  ca_message : exists m', call_messages false c m = [m'];
  ca_lost : q ∈ lost r -> dead (is_killed r k) (peer_name (Cluster.m_dst m)) (is_killed r) c;
}.

Record rpc_ok (N : nat) r : Prop := {
  ok_wired : wired N r;
  ok_sent : length (sent r) = length (calls (sys r));
  ok_handled : forall q, q ∈ handled r -> exists c, calls (sys r) !! q = Some c /\ c_log c <> [];
  ok_lost : forall q, q ∈ lost r -> (q < length (calls (sys r)))%nat;
  ok_carries : forall q c k m, calls (sys r) !! q = Some c -> sent r !! q = Some (k, m) -> carries N r q c k m;
  ok_calls : calls_ok (sys r);
}.

(** ** Steps that leave most alone *)

(** Objects are only added, and killed ones stay killed. *)
Record grows r r' : Prop := {
  gr_owners : owners r `prefix_of` owners r';
  gr_names : names r `prefix_of` names r';
  gr_killed : forall k, is_killed r k -> is_killed r' k;
}.

Lemma grows_end r r' k j e : grows r r' -> end_of r k j = Some e -> end_of r' k j = Some e.
Proof.
  intros Hg. unfold end_of. destruct (names r !! k) as [ns|] eqn:Hk; [|done].
  by rewrite (prefix_lookup_Some _ _ _ _ Hk (gr_names _ _ Hg)).
Qed.

Lemma dead_mono {W T V} (Z Z' : Prop) n (K K' : nat -> Prop) (c : NetCalls.Call W T V) :
  (Z -> Z') -> (forall k, K k -> K' k) -> dead Z n K c -> dead Z' n K' c.
Proof.
  intros HZ HK [Hh Hd]. split; [done|]. destruct (c_pc c); auto; destruct Hd as (? & sid & ? & ?); eauto.
Qed.

Lemma routed_mono {W T V} n (P P' : nat -> Prop) (c : NetCalls.Call W T V) :
  (forall k, P k -> P' k) -> routed n P c -> routed n P' c.
Proof.
  intros HP [Hi Hh]. split.
  - destruct (c_pc c); try done. destruct Hi. auto.
  - destruct (c_handler c); auto.
Qed.

Lemma carries_grows N r r' q c k m :
  grows r r' -> (q ∈ lost r' -> q ∈ lost r) -> carries N r q c k m -> carries N r' q c k m.
Proof.
  intros Hg Hl [C1 C2 (meth & args & e & C3 & C4 & C5) C6 C7 C8]. split; try done.
  - by eapply prefix_lookup_Some; [|apply Hg].
  - exists meth, args, e. split; [done|]. split; [by eapply grows_end|done].
  - eapply routed_mono; [|exact C6]. intros sid Hs. by eapply prefix_lookup_Some; [|apply Hg].
  - intros Hq. eapply dead_mono; [..|by apply C8, Hl]; apply Hg.
Qed.

Lemma grows_same r r' :
  owners r' = owners r -> names r' = names r -> slots r' = slots r -> grows r r'.
Proof.
  intros Ho Hn Hs. split; [by rewrite Ho|by rewrite Hn|]. unfold is_killed, running. by rewrite Ho, Hs.
Qed.

(** Objects and ends stay; ends may be disabled and servers deleted. *)
Lemma wired_same N r r' :
  owners r' = owners r -> names r' = names r -> slots r' = slots r ->
  length (world (sys r')) = length (world (sys r)) ->
  ends (net (sys r')) = ends (net (sys r)) -> connections (net (sys r')) = connections (net (sys r)) ->
  (forall k j e, is_killed r k -> end_of r k j = Some e -> is_enabled (net (sys r)) (IString e) = false ->
    is_enabled (net (sys r')) (IString e) = false) ->
  (forall n sid, server_of (net (sys r')) n = Some sid -> server_of (net (sys r)) n = Some sid) ->
  services <$> heap (sys r') = services <$> heap (sys r) ->
  wired N r -> wired N r'.
Proof.
  intros Ho Hn Hs Hw He Hc Hen Hsv Hh [W1 W2 W3 W4 W5 W6 W7 W8 W9 W10 W11 W12].
  assert (forall k j, end_of r' k j = end_of r k j) as Heo by (intros; unfold end_of; by rewrite Hn).
  assert (forall k, is_killed r' k -> is_killed r k) as Hkl by (intros k; unfold is_killed, running; by rewrite Ho, Hs).
  split; rewrite ?Ho, ?Hn, ?Hs, ?Hw; try done.
  - apply (f_equal length) in Hh. rewrite !length_fmap in Hh. congruence.
  - intros k j e. rewrite Heo, He. unfold connection. rewrite Hc. apply W8.
  - intros k j k' j' e. rewrite !Heo. apply W9.
  - intros k j e Hk. rewrite Heo. intros Hke. apply (Hen k j e); eauto.
  - intros j sid Hsid%Hsv. by apply W11.
  - intros k rs Hk. apply (f_equal (fun l => l !! k)) in Hh. rewrite !list_lookup_fmap, Hk in Hh.
    destruct (heap (sys r) !! k) as [rs0|] eqn:Hk0; [|done]. injection Hh as ->. by apply W12.
Qed.

(** Nothing but the network's settings, its enabled ends and the objects'
    state changed. *)
Lemma settings_ok N r r' :
  owners r' = owners r -> names r' = names r -> slots r' = slots r ->
  sent r' = sent r -> handled r' = handled r -> lost r' = lost r ->
  calls (sys r') = calls (sys r) -> heap (sys r') = heap (sys r) ->
  length (world (sys r')) = length (world (sys r)) ->
  ends (net (sys r')) = ends (net (sys r)) -> connections (net (sys r')) = connections (net (sys r)) ->
  servers (net (sys r')) = servers (net (sys r)) ->
  (forall k j e, is_killed r k -> end_of r k j = Some e -> is_enabled (net (sys r)) (IString e) = false ->
    is_enabled (net (sys r')) (IString e) = false) ->
  rpc_ok N r -> rpc_ok N r'.
Proof.
  intros Ho Hn Hs Hst Hhd Hlo Hcs Hh Hw He Hc Hsv Hen [K1 K2 K3 K4 K5 K6]. split.
  - eapply wired_same; try done; [|by rewrite Hh]. unfold server_of. by rewrite Hsv.
  - by rewrite Hst, Hcs.
  - by rewrite Hhd, Hcs.
  - by rewrite Hlo, Hcs.
  - intros q c k m. rewrite Hcs, Hst. intros Hq Hm. eapply carries_grows; [by apply grows_same| |by apply K5].
    by rewrite Hlo.
  - unfold calls_ok. by rewrite Hcs.
Qed.

(** ** One call changes *)

Lemma sent_lookup N r q c :
  rpc_ok N r -> calls (sys r) !! q = Some c ->
  exists k m, sent r !! q = Some (k, m) /\ carries N r q c k m.
Proof.
  intros Hr Hq. destruct (lookup_lt_is_Some_2 (sent r) q) as [[k m] Hm].
  { rewrite (ok_sent _ _ Hr). by eapply lookup_lt_Some. }
  exists k, m. split; [done|by apply (ok_carries _ _ Hr)].
Qed.

Lemma ok_call N r r' q c c' k m :
  rpc_ok N r -> calls (sys r) !! q = Some c -> sent r !! q = Some (k, m) ->
  wired N r' -> grows r r' -> calls (sys r') = <[q := c']> (calls (sys r)) -> sent r' = sent r ->
  handled r' = handled r -> (forall j, j ∈ lost r' -> j = q \/ j ∈ lost r) ->
  (c_log c <> [] -> c_log c' <> []) -> call_ok c' -> carries N r' q c' k m -> rpc_ok N r'.
Proof.
  intros [K1 K2 K3 K4 K5 K6] Hq Hm Hw Hg Hcs Hst Hhd Hlo Hlog Hok Hca.
  pose proof (lookup_lt_Some _ _ _ Hq) as Hlt. split; [done|..].
  - by rewrite Hst, Hcs, length_insert.
  - intros j Hj. rewrite Hhd in Hj. destruct (K3 j Hj) as (c0 & Hc0 & Hl). rewrite Hcs.
    destruct (decide (j = q)) as [->|Hne].
    + rewrite list_lookup_insert_eq by done. exists c'. split; [done|]. apply Hlog. congruence.
    + rewrite list_lookup_insert_ne by done. by exists c0.
  - intros j [->|Hj%K4]%Hlo; by rewrite Hcs, length_insert.
  - intros j c0 k0 m0. rewrite Hcs, Hst. intros [(<- & <- & _)|[Hne Hj]]%list_lookup_insert_Some Hm0.
    + rewrite Hm in Hm0. by injection Hm0 as <- <-.
    + eapply carries_grows; [done| |by apply K5]. intros [->|?]%Hlo; [congruence|done].
  - unfold calls_ok. rewrite Hcs. by apply Forall_insert.
Qed.

(** The tables a call reads. *)
Lemma call_route N r q c k m :
  rpc_ok N r -> carries N r q c k m ->
  connection (net (sys r)) (req_endname (c_req c)) = peer_name (Cluster.m_dst m) /\
  (forall sid, server_of (net (sys r)) (peer_name (Cluster.m_dst m)) = Some sid ->
    owners r !! sid = Some (Cluster.m_dst m)).
Proof.
  intros Hr [_ _ (meth & args & e & _ & He & ->) _ _ _]. pose proof (ok_wired _ _ Hr) as Hw.
  split; [by eapply wd_ends|]. intros sid Hs. by apply (wd_running _ _ Hw), (wd_registered _ _ Hw).
Qed.

(** A void call finds its end disabled and its server gone. *)
Lemma call_void N r q c k m :
  rpc_ok N r -> carries N r q c k m ->
  (is_killed r k -> is_enabled (net (sys r)) (req_endname (c_req c)) = false) /\
  (forall sid, is_killed r sid -> server_of (net (sys r)) (peer_name (Cluster.m_dst m)) <> Some sid).
Proof.
  intros Hr [_ _ (meth & args & e & _ & He & ->) _ _ _]. pose proof (ok_wired _ _ Hr) as Hw. split.
  - intros Hk. by eapply wd_killed.
  - intros sid [_ Hk] Hs%(wd_registered _ _ Hw). unfold running in Hk. apply bool_decide_eq_false in Hk.
    apply Hk. by eapply list_elem_of_lookup_2.
Qed.

(** A step of the goroutines of call [q], its handler aside. *)
Lemma call_step N r q c ev y' :
  rpc_ok N r -> calls (sys r) !! q = Some c -> call_exec (sys r) q c ev = Some (Ret y') ->
  world y' = world (sys r) /\ rpc_ok N (r <| sys := y' |>) /\
  exists c', calls y' = <[q := c']> (calls (sys r)) /\ c_log c' = c_log c /\ c_reply0 c' = c_reply0 c.
Proof.
  intros Hr Hq Hex. destruct (sent_lookup N r q c Hr Hq) as (k & m & Hm & Hca).
  pose proof (Forall_lookup_1 _ _ _ _ (ok_calls _ _ Hr) Hq) as Hok.
  destruct (call_route N r q c k m Hr Hca) as [Hn Hsv].
  destruct (call_exec_move _ _ _ _ _ Hok Hex) as (c1 & (Hcs1 & Hok' & _) & Hlog & Hh & Hw).
  destruct (call_exec_static _ _ _ _ _ _ _ Hn Hsv (ca_routed _ _ _ _ _ _ Hca) Hex)
    as ((Te & Ts & Tc & Ten) & c' & Hcs & Hq' & Hr0 & Hrt).
  assert (forall c2, calls y' = <[q := c2]> (calls (sys r)) -> c2 = c') as Huniq.
  { intros c2 Hc2. rewrite Hcs in Hc2. apply (f_equal (fun l => l !! q)) in Hc2.
    rewrite !list_lookup_insert_eq in Hc2 by (by eapply lookup_lt_Some). congruence. }
  apply Huniq in Hcs1 as ->. split; [done|]. split; [|by exists c'].
  assert (grows r (r <| sys := y' |>)) as Hg by by apply grows_same.
  eapply (ok_call N r _ q c c' k m); try done.
  - apply (wired_same N r); try done; cbn; rewrite ?Hw, ?Hh; try done; [|by unfold server_of; rewrite Ts|apply Hr].
    unfold is_enabled. by rewrite Ten.
  - intros j Hj. by right.
  - by rewrite Hlog.
  - destruct (call_void N r q c k m Hr Hca) as [Hz Hk].
    destruct Hca as [C1 C2 (meth & args & e & C3 & C4 & C5) C6 C7 C8]. split; [done|done| |done| |].
    + exists meth, args, e. by rewrite Hr0, Hq'.
    + unfold call_messages. by rewrite Hlog, Hr0.
    + intros Hl. destruct (call_exec_dead _ _ _ _ _ _ _ _ Hz Hk (C8 Hl) Hex) as (c2 & Hc2 & Hd).
      apply Huniq in Hc2 as ->. exact Hd.
Qed.

(** ** A handler runs *)

(** What a Raft object does with a request. *)
Definition run_request (b : Cluster.Body) (rf : Raft) : outcome (Raft * RpcVal) :=
  match b with
  | Cluster.VoteReq _ args => '(rf, reply) ← RequestVote rf args; Ret (rf, VRequestVoteReply reply)
  | Cluster.AppendReq args => '(rf, reply) ← AppendEntries rf args; Ret (rf, VAppendEntriesReply reply)
  | _ => Panic Fatal
  end.

(** The dispatcher of server object [j] runs the request on Raft object [j]. *)
Lemma dispatch_request (rs : Server (list Node) RpcVal) j e b meth args reply0 w :
  services rs = services (raft_server j) -> request_call b = Some (meth, args, reply0) ->
  Server_dispatch rs (mkReqMsg e meth (rpc_type args) (rpc_encode args)) w =
  ('(w, v) ← on_peer j (run_request b) w;
   Ret (mkServer (services rs) (srv_count rs +! 1), w, mkReplyMsg true (rpc_encode v))).
Proof.
  intros Hs. destruct b as [rd a|rd a rp|a|a rp]; try done; cbn [request_call]; intros [= <- <- <-];
    unfold Server_dispatch; cbn [svcMeth services srv_count];
    (change (str_slice_to _ _) with (Ret "Raft"%string));
    (match goal with |- context [str_slice_from ?x ?y] =>
       let v := eval vm_compute in (str_slice_from x y) in change (str_slice_from x y) with v end);
    cbn [mbind outcome_bind]; rewrite Hs; cbn [services raft_server AddService name raft_service MakeService];
    rewrite lookup_insert_eq; unfold Service_dispatch.
  - change (methods _ !! "RequestVote"%string) with
      (Some (mkMethod (W := list Node) "RequestVote" EmptyString 3 true 0 (fun w v =>
         match v with
         | VRequestVoteArgs args => on_peer j (run_request (Cluster.VoteReq rd args)) w
         | _ => Panic Fatal
         end))).
    cbn [argsType req_args New rpc_codec Decode Encode]. rewrite rpc_roundtrip. cbn [fst Func].
    by destruct (on_peer _ _ _) as [[w' v]|].
  - change (methods _ !! "AppendEntries"%string) with
      (Some (mkMethod (W := list Node) "AppendEntries" EmptyString 3 true 0 (fun w v =>
         match v with
         | VAppendEntriesArgs args => on_peer j (run_request (Cluster.AppendReq args)) w
         | _ => Panic Fatal
         end))).
    cbn [argsType req_args New rpc_codec Decode Encode]. rewrite rpc_roundtrip. cbn [fst Func].
    by destruct (on_peer _ _ _) as [[w' v]|].
Qed.

Lemma run_request_reply m rf0 rf v meth args reply0 :
  run_request (Cluster.m_body m) rf0 = Ret (rf, v) ->
  request_call (Cluster.m_body m) = Some (meth, args, reply0) ->
  rpc_decode reply0 (rpc_encode v) = (v, true) /\ exists m', reply_to m v = Some m'.
Proof.
  unfold reply_to. destruct (Cluster.m_body m) as [rd a|rd a rp|a|a rp]; try done; cbn [run_request request_call];
    intros Hrun [= <- <- <-]; apply bind_Ret in Hrun as ([rf' reply] & _ & [= _ <-]); (split; [|by eexists]).
  - apply (rpc_roundtrip (VRequestVoteReply reply)).
  - apply (rpc_roundtrip (VAppendEntriesReply reply)).
Qed.

(** What running the handler of call [q] on object [sid] does to the system. *)
Record served r q y' c sid k m n rf m' : Prop := {
  se_call : calls (sys r) !! q = Some c;
  se_sent : sent r !! q = Some (k, m);
  se_handler : c_handler c = HRunning sid;
  se_owner : owners r !! sid = Some (Cluster.m_dst m);
  se_node : world (sys r) !! sid = Some n;
  se_world : world y' = <[sid := n <| raft := rf |>]> (world (sys r));
  se_run : exists v, run_request (Cluster.m_body m) (raft n) = Ret (rf, v) /\ reply_to m v = Some m';
  se_before : call_messages false c m = [m];
  se_after : exists c', calls y' = <[q := c']> (calls (sys r)) /\ call_messages false c' m = [m'];
}.

Lemma handler_step N r q y' :
  rpc_ok N r -> net_exec (NHandler q) (sys r) = Some (Ret y') ->
  rpc_ok N (r <| sys := y' |> <| lost := lost r ++ on_killed r (NHandler q) |>) /\
  exists c sid k m n rf m', served r q y' c sid k m n rf m'.
Proof.
  intros Hr. cbn [net_exec]. destruct (calls (sys r) !! q) as [c|] eqn:Hq; [|done]. cbn [mbind option_bind].
  unfold handler_exec. destruct (c_handler c) as [|sid| |] eqn:Hh; try done.
  destruct (heap (sys r) !! sid) as [rs|] eqn:Hrs; [|done]. cbn [mbind option_bind].
  destruct (handler_run rs (world (sys r)) c sid) as [[[rs' w'] c']|] eqn:Hrun; [|done].
  cbn [mbind outcome_bind]. intros [= <-]. destruct (sent_lookup N r q c Hr Hq) as (k & m & Hm & Hca).
  pose proof (Forall_lookup_1 _ _ _ _ (ok_calls _ _ Hr) Hq) as Hok.
  pose proof Hca as [C1 C2 (meth & args & e & C3 & C4 & C5) C6 C7 C8].
  destruct C6 as [C6 C6']. rewrite Hh in C6'.
  pose proof (wd_services _ _ (ok_wired _ _ Hr) _ _ Hrs) as Hsv.
  destruct (handler_run_ok (sys r) q c c' sid rs rs' w' Hok Hh Hrun) as ((Hcs & Hok' & _) & _ & Hsv' & _).
  pose proof (co_handler _ Hok) as Hlog. unfold handler_ok in Hlog. rewrite Hh in Hlog.
  unfold handler_run in Hrun. rewrite C5, (dispatch_request rs _ _ _ _ _ _ _ Hsv C3) in Hrun.
  apply bind_Ret in Hrun as ([[rs1 w1] rp] & Hrun & [= -> -> Hc']).
  apply bind_Ret in Hrun as ([w2 v] & Hrun & [= _ -> <-]).
  unfold on_peer in Hrun. destruct (world (sys r) !! sid) as [n|] eqn:Hn; [|done].
  apply bind_Ret in Hrun as ([rf v'] & Hreq & [= Hw' ->]).
  destruct (run_request_reply m (raft n) rf v meth args _ Hreq C3) as (Hdec & m' & Hm').
  assert (call_messages false c' m = [m']) as Hmsg.
  { subst c'. unfold call_messages. cbn. rewrite Hlog. cbn. rewrite Hdec. cbn [fst]. by rewrite Hm'. }
  assert (forall j, j ∈ lost r ++ on_killed r (NHandler q) -> j ∈ lost r \/ j = q /\ running r sid = false) as Hkl.
  { intros j [Hj|Hj]%elem_of_app; [by left|right]. unfold on_killed in Hj. rewrite Hq, Hh in Hj.
    destruct (running r sid); set_solver. }
  split.
  - eapply (ok_call N r _ q c c' k m); try done.
    + apply (wired_same N r); try done; [cbn; subst w'; by rewrite length_insert| |apply Hr].
      cbn. rewrite list_fmap_insert. apply list_insert_id. by rewrite list_lookup_fmap, Hrs, Hsv'.
    + intros j [Hj|[-> _]]%Hkl; [by right|by left].
    + subst c'. split; [done|done| | |by exists m'|].
      * by exists meth, args, e.
      * split; [|done]. cbn. destruct (c_pc c); try done; (split; [apply C6|done]).
      * intros [Hj%C8|[_ Hrs']]%Hkl; [destruct Hj as [Hj _]; by destruct (Hj sid)|].
        eapply (abandoned_dead _ _ _ c _ sid); try done.
        -- by eapply routed_mono; [|exact (ca_routed _ _ _ _ _ _ Hca)].
        -- split; [by eapply lookup_lt_Some|done].
  - exists c, sid, k, m, n, rf, m'. split; try done; [by exists v|unfold call_messages; by rewrite Hlog|].
    by exists c'.
Qed.

End inv.
