(* ===== verification/RaftRpcSteps.v ===== *)
(** * Raft over labrpc: the objects send, crash and start

    The steps of RaftRpc.v other than those of the network keep its
    invariant (RaftRpcInv.v). *)

From S2P Require Import Prelude Gob PersisterModel RaftState RaftVote RaftAppend RaftNode.
From S2P Require Import Labrpc NetCalls NetProps RaftRpc RaftRpcInv.
From S2P Require Cluster.
Open Scope go_scope.

Section steps.
Context {GT : GobTypes} {G : RpcGob}.
#[local] Notation Sys := (Sys (list Node) RpcType RpcVal).
#[local] Notation Call := (Call (list Node) RpcType RpcVal).
Implicit Types (r : RpcSys) (y : Sys) (c : Call) (m : Cluster.Msg).

(** ** Sending *)

(** A call that object [k] has just begun for [m]. *)
Record fresh_call (N : nat) r (k : nat) c m : Prop := {
  fc_log : c_log c = [];
  fc_pc : c_pc c = CSending;
  fc_handler : c_handler c = HNone;
  fc_ok : call_ok c;
  fc_dst : (Cluster.m_dst m < N)%nat;
  fc_request : exists meth args e,
    request_call (Cluster.m_body m) = Some (meth, args, c_reply0 c) /\
    end_of r k (Cluster.m_dst m) = Some e /\
    c_req c = mkReqMsg (IString e) meth (rpc_type args) (rpc_encode args);
}.

Lemma issue_spec N r k peers m y o :
  wired N r -> names r !! k = Some peers -> ends (net y) = ends (net (sys r)) ->
  issue peers m y = Some o ->
  exists c, o = Ret (y <| calls := calls y ++ [c] |>) /\ fresh_call N r k c m.
Proof.
  intros Hw Hk Hy. unfold issue.
  destruct (request_call (Cluster.m_body m)) as [[[meth args] reply0]|] eqn:Hq; [|done]. cbn [mbind option_bind].
  destruct (peers !! Cluster.m_dst m) as [e|] eqn:He; [|done]. cbn [mbind option_bind net_exec]. rewrite Hy.
  assert (end_of r k (Cluster.m_dst m) = Some e) as Hend by (unfold end_of; by rewrite Hk).
  destruct (wd_ends _ _ Hw _ _ _ Hend) as [-> _]. cbn [mbind option_bind]. intros [= <-].
  exists (Call_begin (mkClientEnd (IString e)) meth args reply0). split; [done|].
  split; [done|done|done|by repeat constructor| |by exists meth, args, e].
  rewrite <- (wd_named _ _ Hw _ _ Hk). by eapply lookup_lt_Some.
Qed.

Lemma issue_all_spec N r k peers ms y o :
  wired N r -> names r !! k = Some peers -> ends (net y) = ends (net (sys r)) ->
  issue_all peers ms y = Some o ->
  exists cs, o = Ret (y <| calls := calls y ++ cs |>) /\ Forall2 (fresh_call N r k) cs ms.
Proof.
  intros Hw Hk. revert y. induction ms as [|m ms IH]; intros y Hy; cbn [issue_all].
  { intros [= <-]. exists []. split; [|done]. destruct y as [rn h w cs]. cbn. by rewrite app_nil_r. }
  destruct (issue peers m y) as [o1|] eqn:Hi; [|done]. cbn [mbind option_bind].
  destruct (issue_spec N r k peers m y o1 Hw Hk Hy Hi) as (c & -> & Hc). intros Ha.
  destruct (IH (y <| calls := calls y ++ [c] |>)) as (cs & -> & Hcs); [done|done|].
  exists (c :: cs). split; [|by constructor]. cbn. by rewrite <- app_assoc.
Qed.

(** What [continue] does to the system. *)
Record continued r (k i : nat) (hd : list nat) (s : Cluster.Cluster) r' (n : Node) (cs : list Call) : Prop := {
  ct_node : Cluster.nodes s !! i = Some n;
  ct_world : world (sys r') = <[k := n]> (world (sys r));
  ct_calls : calls (sys r') = calls (sys r) ++ cs;
  ct_sent : sent r' = sent r ++ map (pair k) (Cluster.net s);
  ct_handled : handled r' = hd;
  ct_slots : slots r' = slots r;
  ct_owners : owners r' = owners r;
  ct_history : if running r k
    then lost r' = lost r /\ r_elections r' = Cluster.elections s /\ r_created r' = Cluster.created s
    else lost r' = lost r ++ seq (length (sent r)) (length cs) /\
         r_elections r' = r_elections r /\ r_created r' = r_created r;
}.

Lemma fresh_carries N r r' q k c m :
  grows r r' -> fresh_call N r k c m -> owners r !! k = Some (Cluster.m_src m) ->
  (q ∈ lost r' -> is_killed r' k) -> carries N r' q c k m.
Proof.
  intros Hg [F1 F2 F3 F4 F5 (meth & args & e & F6 & F7 & F8)] Ho Hl. split; try done.
  - by eapply prefix_lookup_Some; [|apply Hg].
  - exists meth, args, e. split; [done|]. split; [by eapply grows_end|done].
  - split; [by rewrite F2|by rewrite F3].
  - exists m. unfold call_messages. by rewrite F1.
  - intros Hq. split; [by rewrite F3|]. rewrite F2. by apply Hl.
Qed.

Lemma continue_ok N r k i hd s o :
  rpc_ok N r -> owners r !! k = Some i -> Forall (fun m => Cluster.m_src m = i) (Cluster.net s) ->
  (forall q, q ∈ hd -> exists c, calls (sys r) !! q = Some c /\ c_log c <> []) ->
  continue r k i hd s = Some o ->
  exists r' n cs, o = Ret r' /\ rpc_ok N r' /\ continued r k i hd s r' n cs /\
    Forall2 (fresh_call N r k) cs (Cluster.net s).
Proof.
  intros Hr Hk Hsrc Hhd. unfold continue. destruct (Cluster.nodes s !! i) as [n|] eqn:Hn; [|done].
  cbn [mbind option_bind]. destruct (names r !! k) as [peers|] eqn:Hp; [|done]. cbn [mbind option_bind].
  destruct (issue_all _ _ _) as [oy|] eqn:Hi; [|done]. cbn [mbind option_bind].
  pose proof (ok_wired _ _ Hr) as Hw.
  apply (issue_all_spec N r k) in Hi as (cs & -> & Hcs); [|done..]. cbn [mbind outcome_bind]. intros [= <-].
  pose proof (Forall2_length _ _ _ Hcs) as Hlen.
  match goal with |- exists r' n cs, Ret ?x = Ret r' /\ _ => set (r' := x) end.
  assert (continued r k i hd s r' n cs) as Hct by (subst r'; destruct (running r k) eqn:Hrun;
    split; try done; rewrite Hrun; split_and!; try done; by rewrite Hlen).
  assert (names r' = names r) as Hnm by (subst r'; by destruct (running r k)).
  assert (net (sys r') = net (sys r) /\ heap (sys r') = heap (sys r)) as [Hnet Hheap]
    by (subst r'; by destruct (running r k)).
  exists r', n, cs. split; [done|]. split; [|done]. clearbody r'. clear Hn.
  destruct Hct as [T1 T2 T3 T4 T5 T6 T7 T8]. destruct Hr as [K1 K2 K3 K4 K5 K6].
  assert (grows r r') as Hg by by apply grows_same.
  assert (forall q, q ∈ lost r' -> q ∈ lost r \/ is_killed r k /\ (length (sent r) <= q < length (sent r) + length cs)%nat) as Hl.
  { intros q. destruct (running r k) eqn:Hrun; destruct T8 as (-> & _ & _); [by left|].
    intros [Hq|Hq%elem_of_seq]%elem_of_app; [by left|right]. split; [|done].
    split; [by eapply lookup_lt_Some|done]. }
  split.
  - apply (wired_same N r); rewrite ?Hnet, ?Hheap, ?T2, ?length_insert; done.
  - by rewrite T3, T4, !length_app, length_map, K2, Hlen.
  - rewrite T5, T3. intros q (c & Hc & Hlog)%Hhd. exists c. split; [|done]. by apply lookup_app_l_Some.
  - rewrite T3, length_app. intros q [Hq%K4|[_ Hq]]%Hl; rewrite ?K2 in *; lia.
  - intros q c k0 m. rewrite T3, T4. intros [Hc|[Hle Hc]]%lookup_app_Some Hm.
    + rewrite lookup_app_l in Hm by (rewrite K2; by eapply lookup_lt_Some).
      eapply carries_grows; [exact Hg| |by apply K5]. intros [?|[_ Hq]]%Hl; [done|].
      apply lookup_lt_Some in Hc. rewrite K2 in *. lia.
    + rewrite lookup_app_r, K2 in Hm by (rewrite K2; lia). rewrite list_lookup_fmap in Hm.
      destruct (Cluster.net s !! (q - length (calls (sys r)))%nat) as [m0|] eqn:Hm0; [|done].
      injection Hm as <- <-. rewrite Forall_forall in Hsrc.
      eapply fresh_carries; [exact Hg|by eapply Forall2_lookup_lr|rewrite Hk; f_equal|].
      * symmetry. apply Hsrc. by eapply list_elem_of_lookup_2.
      * intros [Hq%K4|[Hq _]]%Hl; [lia|by apply Hg].
  - unfold calls_ok. rewrite T3. apply Forall_app. split; [done|].
    clear -Hcs. induction Hcs as [|c m cs ms Hf _ IH]; constructor; [apply Hf|done].
Qed.

(** ** The tables of the network *)

(** Ends were disabled, nothing else. *)
Record disables (rn rn' : Network) : Prop := {
  di_ends : ends rn' = ends rn;
  di_servers : servers rn' = servers rn;
  di_connections : connections rn' = connections rn;
  di_enabled : forall e, is_enabled rn e = false -> is_enabled rn' e = false;
}.

Lemma disables_refl rn : disables rn rn.
Proof. by split. Qed.

Lemma disables_trans rn1 rn2 rn3 : disables rn1 rn2 -> disables rn2 rn3 -> disables rn1 rn3.
Proof. intros [] []. split; [congruence..|auto]. Qed.

Lemma enable_name_disables ns j rn : disables rn (enable_name ns j false rn).
Proof.
  unfold enable_name. destruct (ns !! j) as [e|]; [|apply disables_refl]. split; try done.
  intros e' He. rewrite is_enabled_Enable. by case_decide.
Qed.

Lemma fold_disables (f : Network -> nat -> Network) js rn :
  (forall rn j, disables rn (f rn j)) -> disables rn (fold_left f js rn).
Proof.
  intros Hf. revert rn. induction js as [|j js IH]; intros rn; [apply disables_refl|].
  eapply disables_trans; [apply Hf|apply IH].
Qed.

Lemma disconnect_disables r i rn : disables rn (disconnect_net r i rn).
Proof.
  unfold disconnect_net. cbv zeta.
  eapply disables_trans; apply fold_disables; intros; apply enable_name_disables.
Qed.

Lemma disconnect_disabled r i rn j e :
  (j < length (slots r))%nat -> endnames r i !! j = Some e ->
  is_enabled (disconnect_net r i rn) (IString e) = false.
Proof.
  intros Hj He. unfold disconnect_net. cbv zeta.
  eapply di_enabled; [apply fold_disables; intros; apply enable_name_disables|].
  assert (j ∈ seq 0 (length (slots r))) as Hin by (apply elem_of_seq; lia).
  apply list_elem_of_split in Hin as (l1 & l2 & ->). rewrite fold_left_app. cbn [fold_left].
  eapply di_enabled; [apply fold_disables; intros; apply enable_name_disables|].
  unfold enable_name. rewrite He, is_enabled_Enable. by rewrite decide_True.
Qed.

Lemma server_of_crash r i rn j sid :
  server_of (crash_net r i rn) (peer_name j) = Some sid -> j <> i /\ server_of rn (peer_name j) = Some sid.
Proof.
  unfold crash_net, server_of, DeleteServer. cbn. rewrite (di_servers _ _ (disconnect_disables r i rn)).
  destruct (decide (j = i)) as [->|Hne]; [by rewrite lookup_insert_eq|].
  rewrite lookup_insert_ne; [done|]. unfold peer_name. intros [= Hn]. lia.
Qed.

Lemma slots_running_inj N r i i' k :
  wired N r -> slots r !! i = Some (Running k) -> slots r !! i' = Some (Running k) -> i = i'.
Proof. intros Hw Hi%(wd_running _ _ Hw) Hi'%(wd_running _ _ Hw). congruence. Qed.

Lemma running_slot N r i k :
  wired N r -> owners r !! k = Some i -> running r k = true -> slots r !! i = Some (Running k).
Proof.
  intros Hw Ho. unfold running. rewrite bool_decide_eq_true.
  intros [i' Hi']%list_elem_of_lookup. pose proof (wd_running _ _ Hw _ _ Hi') as Ho'. congruence.
Qed.

(** ** A crash *)

(** What [crash] does to the system. *)
Record crashed r (i : nat) r' : Prop := {
  cr_net : net (sys r') = crash_net r i (net (sys r));
  cr_heap : heap (sys r') = heap (sys r);
  cr_world : length (world (sys r')) = length (world (sys r));
  cr_calls : calls (sys r') = calls (sys r);
  cr_slot : is_Some (slots r !! i);
  cr_slots : exists last saved crashes, slots r' = <[i := Down last saved crashes]> (slots r);
  cr_objects : owners r' = owners r /\ names r' = names r;
  cr_rest : sent r' = sent r /\ handled r' = handled r /\ lost r' = lost r;
}.

Lemma crash_crashed r i r' : crash r i = Some r' -> crashed r i r'.
Proof.
  unfold crash. destruct (slots r !! i) as [[k|last saved crashes]|] eqn:Hi; [| |done].
  - destruct (world (sys r) !! k) as [n|]; [|done]. cbn [mbind option_bind]. intros [= <-].
    split; try done; [cbn; apply length_insert|by do 3 eexists].
  - intros [= <-]. split; try done. by do 3 eexists.
Qed.

Section crashed.
Variables (N : nat) (r r' : RpcSys) (i : nat).
Hypothesis Hw : wired N r.
Hypothesis Hcr : crashed r i r'.

(** The object of peer [i] runs no more; the others run on. *)
Lemma crashed_slot j k : slots r' !! j = Some (Running k) <-> j <> i /\ slots r !! j = Some (Running k).
Proof using Hcr.
  destruct (cr_slots _ _ _ Hcr) as (last & saved & crashes & ->). rewrite list_lookup_insert_Some. naive_solver.
Qed.

Lemma crashed_running k : running r' k = true <-> slots r !! i <> Some (Running k) /\ running r k = true.
Proof using Hcr Hw.
  unfold running. rewrite !bool_decide_eq_true, !list_elem_of_lookup. split.
  - intros [j [Hne Hj]%crashed_slot]. split; [|by exists j]. intros Hi. apply Hne. by eapply slots_running_inj.
  - intros [Hne [j Hj]]. exists j. apply crashed_slot. split; [congruence|done].
Qed.

Lemma crashed_grows : grows r r'.
Proof using Hcr Hw.
  destruct (cr_objects _ _ _ Hcr) as [Ho Hn]. split; [by rewrite Ho|by rewrite Hn|].
  intros k [Hl Hk]. split; [by rewrite Ho|]. apply not_true_iff_false. intros [_ H]%crashed_running. congruence.
Qed.

(** [disconnect] disables the ends of the object that ran. *)
Lemma disconnect_own k rn j e :
  slots r !! i = Some (Running k) -> end_of r k j = Some e ->
  is_enabled (disconnect_net r i rn) (IString e) = false.
Proof using Hw.
  intros Hi He. unfold end_of in He. apply (disconnect_disabled r i _ j).
  - destruct (names r !! k) as [ns|] eqn:Hns; [|done]. rewrite (wd_slots _ _ Hw), <- (wd_named _ _ Hw _ _ Hns).
    by eapply lookup_lt_Some.
  - unfold endnames. rewrite Hi. by destruct (names r !! k).
Qed.

Lemma crashed_disabled k j e :
  is_killed r' k -> end_of r k j = Some e -> is_enabled (disconnect_net r i (net (sys r))) (IString e) = false.
Proof using Hcr Hw.
  intros [Hl Hk] He. rewrite (proj1 (cr_objects _ _ _ Hcr)) in Hl.
  destruct (decide (slots r !! i = Some (Running k))) as [Hi|Hi]; [by eapply disconnect_own|].
  apply (di_enabled _ _ (disconnect_disables r i _)), (wd_killed _ _ Hw k j); [|done].
  split; [done|]. apply not_true_iff_false. intros H.
  assert (running r' k = true) as H' by by apply crashed_running. congruence.
Qed.

Lemma crashed_wired : wired N r'.
Proof using Hcr Hw.
  pose proof (disconnect_disables r i (net (sys r))) as Hdis. pose proof crashed_disabled as Hk.
  destruct Hcr as [C1 C2 C3 C4 C5 (last & saved & crashes & C6) [C7 C8] C9].
  split; rewrite ?C1, ?C2, ?C3, ?C7, ?C8; try apply Hw.
  - rewrite C6, length_insert. apply Hw.
  - intros j k [_ Hj]%crashed_slot. by apply Hw.
  - intros k j e. unfold end_of. rewrite C8. intros He. unfold connection. cbn.
    rewrite (di_ends _ _ Hdis), (di_connections _ _ Hdis). by apply (wd_ends _ _ Hw k j).
  - intros k j k' j' e. unfold end_of. rewrite C8. apply (wd_distinct _ _ Hw).
  - intros k j e Hkl. unfold end_of. rewrite C8. by apply Hk.
  - intros j sid [Hne Hs%(wd_registered _ _ Hw)]%server_of_crash. by rewrite C6, list_lookup_insert_ne.
Qed.

End crashed.

Lemma crash_ok N r i r' : rpc_ok N r -> crash r i = Some r' -> rpc_ok N r'.
Proof.
  intros Hr Hcr%crash_crashed. pose proof (ok_wired _ _ Hr) as Hw. destruct (cr_rest _ _ _ Hcr) as (Es & Eh & El).
  pose proof (cr_calls _ _ _ Hcr) as Ec. destruct Hr as [K1 K2 K3 K4 K5 K6]. split; rewrite ?Es, ?Eh, ?El, ?Ec; try done.
  - by eapply crashed_wired.
  - intros q c k m Hc Hm. eapply carries_grows; [by eapply crashed_grows|by rewrite El|by apply K5].
  - unfold calls_ok. by rewrite Ec.
Qed.

(** ** A start *)

Lemma make_ends_spec ns j0 rn rn' :
  make_ends ns j0 rn = Ret rn' ->
  NoDup ns /\ servers rn' = servers rn /\
  (forall j e, ns !! j = Some e -> ends rn !! IString e = None /\
    ends rn' !! IString e = Some (mkClientEnd (IString e)) /\
    connection rn' (IString e) = peer_name (j0 + j)) /\
  (forall e, e ∉ ns -> ends rn' !! IString e = ends rn !! IString e /\
    connection rn' (IString e) = connection rn (IString e) /\
    is_enabled rn' (IString e) = is_enabled rn (IString e)).
Proof.
  revert j0 rn. induction ns as [|e ns IH]; intros j0 rn; cbn [make_ends].
  { intros [= <-]. split; [constructor|]. split; [done|]. by split. }
  unfold MakeEnd. destruct (ends rn !! IString e) as [ce|] eqn:He; [done|]. cbn [mbind outcome_bind].
  set (rn1 := Connect _ _ _). intros (Hnd & Hsv & Hnew & Hold)%IH.
  assert (ends rn1 = <[IString e := mkClientEnd (IString e)]> (ends rn)) as He1 by done.
  assert (e ∉ ns) as Hni.
  { intros [j Hj]%list_elem_of_lookup. destruct (Hnew j e Hj) as [H _]. by rewrite He1, lookup_insert_eq in H. }
  split; [by constructor|]. split; [done|]. split.
  - intros [|j] e'; cbn [lookup list_lookup].
    + intros [= <-]. destruct (Hold e Hni) as (-> & -> & _). split; [done|]. split; [by rewrite He1, lookup_insert_eq|].
      rewrite Nat.add_0_r. unfold connection. cbn. by rewrite lookup_insert_eq.
    + intros Hj. destruct (Hnew j e' Hj) as (H1 & H2 & H3). split; [|by rewrite Nat.add_succ_r].
      rewrite He1, lookup_insert_ne in H1; [done|]. intros [= ->]. apply Hni. by eapply list_elem_of_lookup_2.
  - intros e' [Hne Hnin]%not_elem_of_cons. destruct (Hold e' Hnin) as (-> & -> & ->).
    unfold connection, is_enabled. cbn. by rewrite !lookup_insert_ne by congruence.
Qed.

Lemma end_of_app r r' ns k j e :
  names r' = names r ++ [ns] -> end_of r' k j = Some e ->
  end_of r k j = Some e \/ k = length (names r) /\ ns !! j = Some e.
Proof.
  intros Hn. unfold end_of. rewrite Hn. destruct ((names r ++ [ns]) !! k) as [ns'|] eqn:Hk; [|done].
  cbn [mbind option_bind]. apply lookup_snoc_Some in Hk as [[_ ->]|[-> <-]]; auto.
Qed.

(** What [boot] makes of a system whose tables are right. *)
Record started r (i : nat) (ns : list string) (rn : Network) r' : Prop := {
  st_ends : make_ends ns 0 (net (sys r)) = Ret rn;
  st_net : net (sys r') = AddServer rn (peer_name i) (length (world (sys r)));
  st_heap : heap (sys r') = heap (sys r) ++ [raft_server (length (world (sys r)))];
  st_world : exists n, world (sys r') = world (sys r) ++ [n];
  st_calls : calls (sys r') = calls (sys r);
  st_owners : owners r' = owners r ++ [i];
  st_names : names r' = names r ++ [ns];
  st_slots : slots r' = <[i := Running (length (world (sys r)))]> (slots r);
  st_down : exists last saved crashes, slots r !! i = Some (Down last saved crashes);
  st_rest : sent r' = sent r /\ handled r' = handled r /\ lost r' = lost r;
}.

Lemma boot_started r i ns r' :
  boot r i ns = Some (Ret r') -> length ns = length (slots r) /\ exists rn, started r i ns rn r'.
Proof.
  unfold boot. destruct (slots r !! i) as [[|last saved crashes]|] eqn:Hi; try done.
  case_decide as Hlen; [|done]. intros [= (rn & Hrn & [= <-])%bind_Ret]. split; [done|].
  exists rn. split; try done; [by eexists|by do 3 eexists].
Qed.

Section started.
Variables (N : nat) (r r' : RpcSys) (i : nat) (ns : list string) (rn : Network).
Hypothesis Hw : wired N r.
Hypothesis Hst : started r i ns rn r'.
#[local] Notation K := (length (world (sys r))).

(** The new object runs, and those that ran run on. *)
Lemma started_running k : running r' k = false -> k <> K /\ running r k = false.
Proof using Hst.
  destruct (st_down _ _ _ _ _ Hst) as (last & saved & crashes & Hi). unfold running. rewrite !bool_decide_eq_false.
  rewrite (st_slots _ _ _ _ _ Hst), !list_elem_of_lookup. intros Hno. split.
  - intros ->. apply Hno. exists i. apply list_lookup_insert_eq. by eapply lookup_lt_Some.
  - intros [j Hj]. apply Hno. exists j. rewrite list_lookup_insert_ne; [done|]. intros ->. congruence.
Qed.

Lemma started_killed k : is_killed r' k -> (k < K)%nat /\ is_killed r k.
Proof using Hst Hw.
  intros [Hk [Hne Hrun]%started_running]. rewrite (st_owners _ _ _ _ _ Hst), length_app, (wd_owners _ _ Hw) in Hk.
  cbn in Hk. split; [lia|]. split; [|done]. rewrite (wd_owners _ _ Hw). lia.
Qed.

Lemma started_grows : grows r r'.
Proof using Hst Hw.
  split; [rewrite (st_owners _ _ _ _ _ Hst); by eexists|rewrite (st_names _ _ _ _ _ Hst); by eexists|].
  intros k [Hk Hrun]. split; [rewrite (st_owners _ _ _ _ _ Hst), length_app; lia|].
  unfold running in *. apply bool_decide_eq_false in Hrun. apply bool_decide_eq_false.
  rewrite (st_slots _ _ _ _ _ Hst). intros [j Hj]%list_elem_of_lookup. rewrite (wd_owners _ _ Hw) in Hk.
  apply list_lookup_insert_Some in Hj as [(_ & [= Hk'] & _)|[_ Hj]]; [lia|].
  by apply Hrun, (list_elem_of_lookup_2 _ j).
Qed.

(** The ends of the objects there were keep their entries. *)
Lemma started_old k j e :
  end_of r k j = Some e ->
  e ∉ ns /\ (k < K)%nat /\ ends rn !! IString e = ends (net (sys r)) !! IString e /\
  connection rn (IString e) = connection (net (sys r)) (IString e) /\
  is_enabled rn (IString e) = is_enabled (net (sys r)) (IString e).
Proof using Hst Hw.
  destruct (make_ends_spec _ _ _ _ (st_ends _ _ _ _ _ Hst)) as (_ & _ & Hnew & Hold). intros Hk.
  assert (e ∉ ns) as Hni.
  { intros [j' Hj]%list_elem_of_lookup. destruct (Hnew _ _ Hj) as (H & _).
    destruct (wd_ends _ _ Hw _ _ _ Hk) as [H' _]. congruence. }
  destruct (Hold e Hni) as (H1 & H2 & H3). split_and!; try done.
  unfold end_of in Hk. destruct (names r !! k) eqn:Hl; [|done]. rewrite <- (wd_names _ _ Hw). by eapply lookup_lt_Some.
Qed.

Lemma started_end_of k j e :
  end_of r' k j = Some e ->
  end_of r k j = Some e \/
  k = K /\ ns !! j = Some e /\ ends rn !! IString e = Some (mkClientEnd (IString e)) /\
    connection rn (IString e) = peer_name j.
Proof using Hst Hw.
  intros [Hk|[-> Hj]]%(end_of_app r r' ns k j e (st_names _ _ _ _ _ Hst)); [by left|right].
  destruct (make_ends_spec _ _ _ _ (st_ends _ _ _ _ _ Hst)) as (_ & _ & Hnew & _).
  destruct (Hnew j e Hj) as (_ & H1 & H2). split_and!; try done. apply Hw.
Qed.

Lemma started_distinct k j k' j' e : end_of r' k j = Some e -> end_of r' k' j' = Some e -> k = k' /\ j = j'.
Proof using Hst Hw.
  destruct (make_ends_spec _ _ _ _ (st_ends _ _ _ _ _ Hst)) as (Hnd & _).
  intros [Hk|(-> & Hj & _)]%started_end_of [Hk'|(-> & Hj' & _)]%started_end_of.
  - by eapply (wd_distinct _ _ Hw).
  - destruct (started_old _ _ _ Hk) as [Hni _]. destruct Hni. by eapply list_elem_of_lookup_2.
  - destruct (started_old _ _ _ Hk') as [Hni _]. destruct Hni. by eapply list_elem_of_lookup_2.
  - split; [done|]. by eapply NoDup_lookup.
Qed.

Lemma started_registered j sid :
  server_of (net (sys r')) (peer_name j) = Some sid -> slots r' !! j = Some (Running sid).
Proof using Hst Hw.
  destruct (make_ends_spec _ _ _ _ (st_ends _ _ _ _ _ Hst)) as (_ & Hsv & _).
  destruct (st_down _ _ _ _ _ Hst) as (last & saved & crashes & Hi).
  rewrite (st_net _ _ _ _ _ Hst), (st_slots _ _ _ _ _ Hst). unfold server_of. cbn.
  destruct (decide (j = i)) as [->|Hne].
  - rewrite lookup_insert_eq. intros [= <-]. apply list_lookup_insert_eq. by eapply lookup_lt_Some.
  - rewrite list_lookup_insert_ne, lookup_insert_ne, Hsv by (done || (unfold peer_name; intros [= ?]; lia)).
    apply (wd_registered _ _ Hw).
Qed.

Lemma started_wired : length ns = N -> wired N r'.
Proof using Hst Hw.
  intros Hlen. destruct Hst as [S1 S2 S3 [n S4] S5 S6 S7 S8 S9 S10].
  split; rewrite ?S2, ?S3, ?S4, ?S6, ?S7, ?S8, ?length_app, ?length_insert; cbn [length].
  - apply Hw.
  - by rewrite (wd_owners _ _ Hw).
  - by rewrite (wd_names _ _ Hw).
  - by rewrite (wd_heap _ _ Hw).
  - intros k j Hk. apply lookup_snoc_Some in Hk as [[_ Hk]|[_ <-]]; [by eapply wd_owner|].
    destruct S9 as (? & ? & ? & Hi). rewrite <- (wd_slots _ _ Hw). by eapply lookup_lt_Some.
  - intros k ns' Hk. apply lookup_snoc_Some in Hk as [[_ Hk]|[_ <-]]; [by eapply wd_named|done].
  - intros j k. intros [(-> & [= <-] & _)|[_ Hj]]%list_lookup_insert_Some.
    + by rewrite lookup_app_r, (wd_owners _ _ Hw), Nat.sub_diag by (by rewrite (wd_owners _ _ Hw)).
    + apply lookup_app_l_Some. by apply (wd_running _ _ Hw).
  - intros k j e [Hk|(_ & _ & Hends)]%started_end_of; [|done].
    destruct (started_old _ _ _ Hk) as (_ & _ & H1 & H2 & _). unfold connection in *. cbn. rewrite H1, H2.
    by apply (wd_ends _ _ Hw k).
  - apply started_distinct.
  - intros k j e [HkK Hk]%started_killed [Hke|(-> & _)]%started_end_of; [|lia].
    destruct (started_old _ _ _ Hke) as (_ & _ & _ & _ & H3).
    change (is_enabled rn (IString e) = false). rewrite H3. by eapply wd_killed.
  - intros j sid. rewrite <- S2, <- S8. apply started_registered.
  - intros k rs Hk. apply lookup_snoc_Some in Hk as [[_ Hk]|[-> <-]]; [by apply (wd_services _ _ Hw)|].
    by rewrite (wd_heap _ _ Hw).
Qed.

End started.

Lemma boot_ok N r i ns r' : rpc_ok N r -> boot r i ns = Some (Ret r') -> rpc_ok N r'.
Proof.
  intros Hr (Hlen & rn & Hst)%boot_started. pose proof (ok_wired _ _ Hr) as Hw.
  destruct (st_rest _ _ _ _ _ Hst) as (Es & Eh & El). pose proof (st_calls _ _ _ _ _ Hst) as Ec.
  destruct Hr as [K1 K2 K3 K4 K5 K6]. split; rewrite ?Es, ?Eh, ?El, ?Ec; try done.
  - eapply started_wired; [done..|]. rewrite Hlen. apply Hw.
  - intros q c k m Hc Hm. eapply carries_grows; [by eapply started_grows|by rewrite El|by apply K5].
  - unfold calls_ok. by rewrite Ec.
Qed.

(** ** The network *)

Lemma enable_ok N r k j yes ns :
  rpc_ok N r -> negb yes || running r k = true -> names r !! k = Some ns ->
  rpc_ok N (r <| sys := (sys r) <| net := enable_name ns j yes (net (sys r)) |> |>).
Proof.
  intros Hr Hyes Hns. pose proof (ok_wired _ _ Hr) as Hw.
  unfold enable_name. destruct (ns !! j) as [e|] eqn:He; [|by apply (settings_ok N r)].
  apply (settings_ok N r); try done. intros k' j' e' [_ Hk'] Hke' Hdis. cbn [sys set_field net].
  rewrite is_enabled_Enable. case_decide as Heq; [|done]. injection Heq as ->.
  assert (end_of r k j = Some e) as Hke by (unfold end_of; by rewrite Hns).
  destruct (wd_distinct _ _ Hw _ _ _ _ _ Hke' Hke) as [-> _]. rewrite Hk' in Hyes. by destruct yes.
Qed.

(** What one event of the network, a handler aside, does to the calls. *)
Definition same_calls r y' : Prop :=
  calls y' = calls (sys r) \/
  exists q c c', calls (sys r) !! q = Some c /\ calls y' = <[q := c']> (calls (sys r)) /\
    c_log c' = c_log c /\ c_reply0 c' = c_reply0 c.

Lemma network_ok N r ev y' :
  rpc_ok N r -> is_network ev = true -> (forall q, ev <> NHandler q) -> net_exec ev (sys r) = Some (Ret y') ->
  rpc_ok N (r <| sys := y' |>) /\ world y' = world (sys r) /\ same_calls r y'.
Proof.
  intros Hr Hn Hh.
  assert (forall q, (c ← calls (sys r) !! q; call_exec (sys r) q c ev) = Some (Ret y') ->
    rpc_ok N (r <| sys := y' |>) /\ world y' = world (sys r) /\ same_calls r y') as Hcall.
  { intros q. destruct (calls (sys r) !! q) as [c|] eqn:Hq; [|done]. cbn [mbind option_bind]. intros Hex.
    destruct (call_step N r q c ev y' Hr Hq Hex) as (Hw & Hok & c' & Hcs & Hl & H0).
    split_and!; [done|done|]. right. by exists q, c, c'. }
  destruct ev as [e m a v|q|q|q|q rnd|q|q|q|q r1 r2|q|svcs|e|n sid|n|e n|e b|b|b|b|]; try done;
    cbn [net_exec]; try exact (Hcall q); unfold api;
    try (intros [= <-]; (split_and!; [by apply (settings_ok N r)|done|by left])).
  - by destruct (Hh q).
  - unfold Cleanup. destruct (done_closed _); [done|]. cbn [mbind outcome_bind]. intros [= <-].
    split_and!; [by apply (settings_ok N r)|done|by left].
Qed.

End steps.
