(* ===== verification/RaftRpcProps.v ===== *)
(** * Raft over labrpc refines the cluster of messages

    Every run of the program of RaftRpc.v is a run of Cluster.v, in which an
    RPC is a message that waits in the network: a call whose handler has not
    run is the request, one whose handler has run is the reply, a call that
    fails leaves its message behind undelivered, and a call that a crash made
    void has none.  A crash is the restart of the peer; the start that follows
    it changes nothing. *)

From S2P Require Import Prelude Gob PersisterModel RaftState RaftVote RaftAppend RaftNode.
From S2P Require Import Labrpc NetCalls NetProps RaftRpc RaftRpcInv RaftRpcSteps.
From S2P Require Cluster ClusterInv ClusterBounds.
Open Scope go_scope.

(** ** Messages call by call *)

Section concat.
Context {A : Type}.
Implicit Types (f g : nat -> list A).

Lemma concat_seq_replace f g n k :
  (k < n)%nat -> (forall j, j <> k -> f j = g j) ->
  exists rest, concat (map f (seq 0 n)) ≡ₚ f k ++ rest /\ concat (map g (seq 0 n)) ≡ₚ g k ++ rest.
Proof.
  intros Hk Hfg. replace n with (k + S (n - S k))%nat by lia.
  rewrite seq_app. cbn [seq]. rewrite !map_app, !concat_app. cbn [map concat].
  assert (forall a b, (k < a \/ a + b <= k)%nat -> concat (map f (seq a b)) = concat (map g (seq a b))) as Heq.
  { intros a b Hab. f_equal. apply map_ext_in. intros j Hj%in_seq. apply Hfg. lia. }
  exists (concat (map g (seq 0 k)) ++ concat (map g (seq (S (0 + k)) (n - S k)))).
  rewrite !Heq by lia. split; solve_Permutation.
Qed.

Lemma concat_seq_ext f g n :
  (forall j, (j < n)%nat -> f j = g j) -> concat (map f (seq 0 n)) = concat (map g (seq 0 n)).
Proof. intros Hfg. f_equal. apply map_ext_in. intros j Hj%in_seq. apply Hfg. lia. Qed.

Lemma concat_seq_new f n (l : list A) :
  (forall j x, l !! j = Some x -> f (n + j)%nat = [x]) -> concat (map f (seq n (length l))) = l.
Proof.
  revert n. induction l as [|x l IH]; intros n Hf; [done|]. cbn [length seq map concat].
  rewrite <- (Nat.add_0_r n) at 1. rewrite (Hf 0%nat x eq_refl). cbn [app]. f_equal.
  apply IH. intros j y Hj. rewrite <- (Hf (S j) y Hj). f_equal. lia.
Qed.

End concat.

Section refinement.
Context {GT : GobTypes} {G : RpcGob}.
#[local] Notation Sys := (Sys (list Node) RpcType RpcVal).
#[local] Notation NetEvent := (NetEvent (list Node) RpcVal).
#[local] Notation Call := (Call (list Node) RpcType RpcVal).
Implicit Types (r : RpcSys) (s : Cluster.Cluster) (y : Sys) (c : Call) (m : Cluster.Msg).

(** The call stands for no message any more. *)
Definition finished r (q : nat) : bool := bool_decide (q ∈ handled r \/ q ∈ lost r).

Definition msgs_at r (q : nat) : list Cluster.Msg :=
  match calls (sys r) !! q, sent r !! q with
  | Some c, Some (_, m) => call_messages (finished r q) c m
  | _, _ => []
  end.

Definition messages r : list Cluster.Msg := concat (map (msgs_at r) (seq 0 (length (calls (sys r))))).

Record refines (N : nat) r s : Prop := {
  rf_ok : rpc_ok N r;
  rf_nodes : Cluster.nodes s = peer_nodes r;
  rf_elections : Cluster.elections s = r_elections r;
  rf_created : Cluster.created s = r_created r;
  rf_net : Cluster.net s ≡ₚ messages r;
}.

(** ** The peers *)

Lemma peer_nodes_lookup r i : peer_nodes r !! i = slot_node r i <$> slots r !! i.
Proof. apply list_lookup_imap. Qed.

Lemma peer_nodes_running N r i k n :
  wired N r -> slots r !! i = Some (Running k) -> world (sys r) !! k = Some n -> peer_nodes r !! i = Some n.
Proof. intros Hw Hi Hk. rewrite peer_nodes_lookup, Hi. cbn. by rewrite Hk. Qed.

(** Object [k] moves on to [n]. *)
Lemma peer_nodes_step N r r' i k n :
  wired N r -> owners r !! k = Some i -> slots r' = slots r ->
  world (sys r') = <[k := n]> (world (sys r)) ->
  peer_nodes r' = if running r k then <[i := n]> (peer_nodes r) else peer_nodes r.
Proof.
  intros Hw Ho Hs Hwo. pose proof (lookup_lt_Some _ _ _ Ho) as Hlt. rewrite (wd_owners _ _ Hw) in Hlt.
  apply list_eq. intros j. destruct (running r k) eqn:Hrun.
  - pose proof (running_slot _ _ _ _ Hw Ho Hrun) as Hi. rewrite peer_nodes_lookup, Hs.
    destruct (decide (j = i)) as [->|Hne].
    + rewrite Hi, list_lookup_insert_eq; [cbn; by rewrite Hwo, list_lookup_insert_eq|].
      unfold peer_nodes. rewrite length_imap. by eapply lookup_lt_Some.
    + rewrite list_lookup_insert_ne, peer_nodes_lookup by done.
      destruct (slots r !! j) as [[k'|]|] eqn:Hj; cbn; rewrite ?Hs; try done.
      rewrite Hwo, list_lookup_insert_ne; [done|]. intros ->. apply Hne.
      by eapply slots_running_inj.
  - rewrite !peer_nodes_lookup, Hs. destruct (slots r !! j) as [[k'|]|] eqn:Hj; cbn; rewrite ?Hs; try done.
    rewrite Hwo, list_lookup_insert_ne; [done|]. intros ->. unfold running in Hrun.
    apply bool_decide_eq_false in Hrun. apply Hrun. by eapply list_elem_of_lookup_2.
Qed.

Lemma peer_nodes_same r r' : world (sys r') = world (sys r) -> slots r' = slots r -> peer_nodes r' = peer_nodes r.
Proof. intros Hw Hs. apply list_eq. intros j. rewrite !peer_nodes_lookup, Hs. unfold slot_node. by rewrite Hw, Hs. Qed.

(** ** The messages *)

Lemma messages_same r r' :
  same_calls r (sys r') -> sent r' = sent r -> handled r' = handled r -> lost r' = lost r ->
  messages r' = messages r.
Proof.
  intros Hcs Hs Hh Hl. unfold messages. destruct Hcs as [Hcs|(q & c & c' & Hq & Hcs & Hlog & H0)].
  - rewrite Hcs. apply concat_seq_ext. intros j _. unfold msgs_at, finished. by rewrite Hcs, Hs, Hh, Hl.
  - rewrite Hcs, length_insert. apply concat_seq_ext. intros j _. unfold msgs_at, finished. rewrite Hcs, Hs, Hh, Hl.
    destruct (decide (j = q)) as [->|Hne]; [|by rewrite list_lookup_insert_ne].
    rewrite list_lookup_insert_eq, Hq by (by eapply lookup_lt_Some).
    destruct (sent r !! q) as [[k m]|]; [|done]. unfold call_messages. by rewrite Hlog, H0.
Qed.

Lemma messages_call r r' q c c' k m :
  calls (sys r) !! q = Some c -> sent r !! q = Some (k, m) ->
  calls (sys r') = <[q := c']> (calls (sys r)) -> sent r' = sent r ->
  (forall j, j <> q -> (j ∈ handled r' <-> j ∈ handled r) /\ (j ∈ lost r' <-> j ∈ lost r)) ->
  exists rest,
    messages r ≡ₚ call_messages (finished r q) c m ++ rest /\
    messages r' ≡ₚ call_messages (finished r' q) c' m ++ rest.
Proof.
  intros Hq Hm Hc Hs Hh. unfold messages. rewrite Hc, length_insert.
  pose proof (lookup_lt_Some _ _ _ Hq) as Hlt.
  assert (msgs_at r q = call_messages (finished r q) c m) as <- by (unfold msgs_at; by rewrite Hq, Hm).
  assert (msgs_at r' q = call_messages (finished r' q) c' m) as <-.
  { unfold msgs_at. by rewrite Hc, Hs, list_lookup_insert_eq, Hm. }
  apply concat_seq_replace; [done|]. intros j Hj. unfold msgs_at.
  rewrite Hc, Hs, list_lookup_insert_ne by done. destruct (calls (sys r) !! j), (sent r !! j) as [[]|]; try done.
  f_equal. apply bool_decide_ext. destruct (Hh j Hj). tauto.
Qed.

Lemma finished_lt N r q : rpc_ok N r -> finished r q = true -> (q < length (calls (sys r)))%nat.
Proof.
  intros Hr. unfold finished. rewrite bool_decide_eq_true. intros [(c & Hc & _)%(ok_handled _ _ Hr)|Hl].
  - by eapply lookup_lt_Some.
  - by apply (ok_lost _ _ Hr).
Qed.

(** The messages an object sends are new; those of a killed object are lost. *)
Lemma messages_continued N r r' k i hd s n cs :
  rpc_ok N r -> rpc_ok N (r <| handled := hd |>) ->
  continued r k i hd s r' n cs -> Forall2 (fresh_call N r k) cs (Cluster.net s) ->
  messages r' ≡ₚ messages (r <| handled := hd |>) ++ if running r k then Cluster.net s else [].
Proof.
  intros Hr Hrh [T1 T2 T3 T4 T5 T6 T7 T8] Hcs. pose proof (Forall2_length _ _ _ Hcs) as Hlen.
  pose proof (ok_sent _ _ Hr) as Hsl.
  assert (forall q, (q < length (calls (sys r)))%nat -> finished r' q = finished (r <| handled := hd |>) q) as Hold.
  { intros q Hq. apply bool_decide_ext. rewrite T5. cbn. destruct (running r k); destruct T8 as (-> & _ & _); [done|].
    rewrite elem_of_app, elem_of_seq. intuition lia. }
  assert (forall j, finished r' (length (calls (sys r)) + j) = true <->
    running r k = false /\ (j < length cs)%nat) as Hnew.
  { intros j. unfold finished. rewrite bool_decide_eq_true, T5.
    assert (forall q, q ∈ hd \/ q ∈ lost r -> (q < length (calls (sys r)))%nat) as Hb.
    { intros q Hq. apply (finished_lt N _ q Hrh). by apply bool_decide_eq_true. }
    destruct (running r k); destruct T8 as (-> & _ & _).
    - split; [intros Hq%Hb; lia|by intros []].
    - rewrite elem_of_app, elem_of_seq. split; [|intros [_ ?]; right; right; lia].
      intros [Hq|[Hq|Hq]]; [specialize (Hb _ (or_introl Hq)); lia|specialize (Hb _ (or_intror Hq)); lia|].
      split; [done|lia]. }
  unfold messages. rewrite T3, length_app, seq_app, map_app, concat_app. f_equiv.
  - rewrite (concat_seq_ext _ (msgs_at (r <| handled := hd |>))); [done|]. intros j Hj.
    unfold msgs_at. rewrite Hold, T3, T4 by done. cbn. rewrite !lookup_app_l by lia. done.
  - assert (forall j m, Cluster.net s !! j = Some m ->
      msgs_at r' (length (calls (sys r)) + j) = if running r k then [m] else []) as Hat.
    { intros j m Hj. destruct (Forall2_lookup_r _ _ _ _ _ Hcs Hj) as (c & Hc & Hf).
      unfold msgs_at. rewrite T3, T4, !lookup_app_r, Hsl, !Nat.add_sub_swap, !Nat.sub_diag by lia.
      cbn [Nat.add]. rewrite Hc, list_lookup_fmap, Hj. cbn [fmap option_fmap option_map].
      destruct (finished r' (length (calls (sys r)) + j)) eqn:Hf1.
      - apply Hnew in Hf1 as [-> _]. done.
      - destruct (running r k); [unfold call_messages; by rewrite (fc_log _ _ _ _ _ Hf)|].
        assert (finished r' (length (calls (sys r)) + j) = true); [|congruence].
        apply Hnew. split; [done|]. by eapply lookup_lt_Some. }
    cbn [Nat.add]. rewrite Hlen. destruct (running r k); [by rewrite (concat_seq_new _ _ _ Hat)|].
    clear -Hat. induction (Cluster.net s) as [|m ms IH] using rev_ind; [done|].
    rewrite length_app, seq_app, map_app, concat_app. cbn.
    rewrite (Hat (length ms) m) by (by rewrite lookup_app_r, Nat.sub_diag). rewrite app_nil_r.
    apply IH. intros j m' Hj. apply (Hat j m'). by apply lookup_app_l_Some.
Qed.

Lemma elem_of_messages N r s m q c k m0 :
  refines N r s -> calls (sys r) !! q = Some c -> sent r !! q = Some (k, m0) ->
  call_messages (finished r q) c m0 = [m] -> exists k', Cluster.net s !! k' = Some m.
Proof.
  intros Hr Hq Hm0 Hm. apply list_elem_of_lookup. rewrite (rf_net _ _ _ Hr).
  destruct (messages_call r r q c c k m0 Hq Hm0) as (rest & -> & _); [by rewrite list_insert_id|done..|].
  rewrite Hm. set_solver.
Qed.

(** ** The goroutines of an object *)

(** The goroutines of a peer do not look at the network. *)
Lemma exec_local_frame i0 ev s hs :
  local_peer ev = Some i0 -> Cluster.exec ev (Cluster.mkCluster (Cluster.nodes s) [] (Cluster.elections s) (Cluster.created s)) = Some (Ret hs) ->
  exists s', Cluster.exec ev s = Some (Ret s') /\ Cluster.nodes s' = Cluster.nodes hs /\
    Cluster.elections s' = Cluster.elections hs /\ Cluster.created s' = Cluster.created hs /\
    Cluster.net s' = Cluster.net s ++ Cluster.net hs.
Proof.
  intros Hl Hex. destruct ev as [i ch|i|i ch d|i k|k|k|i command|i|i]; try done; cbn [Cluster.exec] in *;
    cbn [Cluster.nodes] in Hex; destruct (Cluster.nodes s !! i) as [n|]; try done; cbn [mbind option_bind] in *.
  - destruct (hb_step n ch); [|done]. injection Hex as <-. eexists. split; [reflexivity|]. cbn. by rewrite app_nil_r.
  - destruct (timer_step n); [|done]. injection Hex as <-. eexists. split; [reflexivity|]. cbn. by rewrite app_nil_r.
  - destruct (notify_step n ch d); [|done]. injection Hex as <-. eexists. split; [reflexivity|]. cbn. by rewrite app_nil_r.
  - destruct (tasks n !! k) as [t|]; [|done]. injection Hex as Hex. cbn [mbind option_bind].
    destruct t as [|j]; unfold Cluster.run_task, Cluster.send_vote_requests, Cluster.send_append_request in *;
      cbn [set_field raft] in *;
      [destruct (startRequestVote_args (raft n)) as [[args|]|]|destruct (appendEntries_args (raft n) j) as [[args|]|]];
      try done; cbn [mbind outcome_bind] in *; injection Hex as <-;
      (eexists; split; [reflexivity|]); cbn; by rewrite ?app_nil_r.
  - destruct (Start (raft n) command) as [rf [[x t] l]]. injection Hex as <-.
    eexists. split; [reflexivity|]. destruct l; cbn; by rewrite app_nil_r.
  - injection Hex as <-. eexists. split; [reflexivity|]. cbn. by rewrite app_nil_r.
Qed.

(** A request that some peer may send. *)
Definition is_request m : Prop :=
  exists meth args reply0, request_call (Cluster.m_body m) = Some (meth, args, reply0).

(** They change their own peer only, and send requests of it. *)
Lemma exec_local_own i ev s hs :
  local_peer ev = Some i -> Cluster.net s = [] -> Cluster.exec ev s = Some (Ret hs) ->
  (exists n, Cluster.nodes hs = <[i := n]> (Cluster.nodes s)) /\
  Forall (fun m => Cluster.m_src m = i /\ is_request m) (Cluster.net hs).
Proof.
  intros Hl Hnil. destruct ev as [j ch|j|j ch d|j k|k|k|j command|j|j]; try done; injection Hl as ->;
    cbn [Cluster.exec]; destruct (Cluster.nodes s !! i) as [n|]; try done; cbn [mbind option_bind].
  - destruct (hb_step n ch); [|done]. intros [= <-]. cbn. rewrite Hnil. split; [by eexists|done].
  - destruct (timer_step n); [|done]. intros [= <-]. cbn. rewrite Hnil. split; [by eexists|done].
  - destruct (notify_step n ch d); [|done]. intros [= <-]. cbn. rewrite Hnil. split; [by eexists|done].
  - destruct (tasks n !! k) as [t|]; [|done]. intros [= Hr]. unfold Cluster.run_task in Hr.
    destruct t as [|j]; unfold Cluster.send_vote_requests, Cluster.send_append_request in Hr;
      apply bind_Ret in Hr as (o & _ & Hr); destruct o; injection Hr as <-; cbn; rewrite Hnil;
      (split; [by eexists|]); try done.
    + apply Forall_map, Forall_forall. intros j _. split; [done|by eexists _, _, _].
    + apply Forall_singleton. split; [done|by eexists _, _, _].
  - destruct (Start (raft n) command) as [rf [[x t] l]]. intros [= <-].
    destruct l; cbn; rewrite Hnil; (split; [by eexists|done]).
  - intros [= <-]. cbn. rewrite Hnil. split; [by eexists|done].
Qed.

(** ** A goroutine handles a reply *)

Lemma deliver_reply_frame nds ms els cr m v m0 hs :
  reply_to m0 v = Some m ->
  Cluster.deliver (Cluster.mkCluster nds [] els cr) m = Some (Ret hs) ->
  Cluster.net hs = [] /\
  Cluster.deliver (Cluster.mkCluster nds ms els cr) m =
    Some (Ret (Cluster.mkCluster (Cluster.nodes hs) ms (Cluster.elections hs) (Cluster.created hs))).
Proof.
  unfold reply_to. destruct (Cluster.m_body m0) as [rd a|rd a rp|a|a rp]; destruct v as [|rp'| |rp']; try done;
    cbn [reply_body mbind option_bind]; intros [= <-];
    unfold Cluster.deliver; cbn [Cluster.m_body Cluster.m_src Cluster.m_inc Cluster.m_dst Cluster.nodes];
    destruct (nds !! Cluster.m_src m0) as [n|]; try done; cbn [mbind option_bind];
    (case_decide; [by intros [= <-]|]).
  - unfold Cluster.handle_vote_reply. destruct (rounds n !! rd) as [nl|]; [|done]. cbn [mbind option_bind].
    destruct (startRequestVote_reply _ _ _ _) as [rf nl']. intros [= <-]. by case_match.
  - unfold Cluster.handle_append_reply. intros [= Hx]. apply bind_Ret in Hx as ([rf again] & -> & [= <-]). done.
Qed.

Lemma deliver_reply_own v m m0 s hs :
  reply_to m0 v = Some m -> Cluster.deliver s m = Some (Ret hs) ->
  exists n, Cluster.nodes hs = <[Cluster.m_src m0 := n]> (Cluster.nodes s).
Proof.
  unfold reply_to. destruct (Cluster.m_body m0) as [rd a|rd a rp|a|a rp]; destruct v as [|rp'| |rp']; try done;
    cbn [reply_body mbind option_bind]; intros [= <-];
    unfold Cluster.deliver; cbn [Cluster.m_body Cluster.m_src Cluster.m_inc Cluster.m_dst Cluster.nodes];
    destruct (Cluster.nodes s !! Cluster.m_src m0) as [n|] eqn:Hn; try done; cbn [mbind option_bind];
    (case_decide; [intros [= <-]; exists n; by rewrite list_insert_id|]).
  - unfold Cluster.handle_vote_reply. destruct (rounds n !! rd) as [nl|]; [|done]. cbn [mbind option_bind].
    destruct (startRequestVote_reply _ _ _ _) as [rf nl']. intros [= <-]. case_match; by eexists.
  - unfold Cluster.handle_append_reply. intros [= Hx]. apply bind_Ret in Hx as ([rf again] & _ & [= <-]). by eexists.
Qed.

(** After a step of object [k]: the peers, the messages and the history. *)
Lemma continued_refines N r r' k i hd hs n cs s s' :
  refines N r s -> rpc_ok N (r <| handled := hd |>) -> rpc_ok N r' -> owners r !! k = Some i ->
  continued r k i hd hs r' n cs -> Forall2 (fresh_call N r k) cs (Cluster.net hs) ->
  (exists n, Cluster.nodes hs = <[i := n]> (peer_nodes r)) ->
  (if running r k then
     Cluster.nodes s' = Cluster.nodes hs /\ Cluster.elections s' = Cluster.elections hs /\
     Cluster.created s' = Cluster.created hs /\ Cluster.net s' ≡ₚ messages (r <| handled := hd |>) ++ Cluster.net hs
   else
     Cluster.nodes s' = Cluster.nodes s /\ Cluster.elections s' = Cluster.elections s /\
     Cluster.created s' = Cluster.created s /\ Cluster.net s' ≡ₚ messages (r <| handled := hd |>)) ->
  refines N r' s'.
Proof.
  intros [R1 R2 R3 R4 R5] Hhd Hr' Ho Hct Hcs [n1 Hn] Hs'.
  pose proof (messages_continued N r r' k i hd hs n cs R1 Hhd Hct Hcs) as Hm.
  pose proof (peer_nodes_step N r r' i k n (ok_wired _ _ R1) Ho (ct_slots _ _ _ _ _ _ _ _ Hct)
    (ct_world _ _ _ _ _ _ _ _ Hct)) as Hp.
  pose proof (ct_history _ _ _ _ _ _ _ _ Hct) as Hh. pose proof (ct_node _ _ _ _ _ _ _ _ Hct) as Hni.
  destruct (running r k); destruct Hs' as (S1 & S2 & S3 & S4), Hh as (_ & H2 & H3); split; try congruence.
  - rewrite S1, Hp, Hn. rewrite Hn in Hni. apply list_lookup_insert_Some in Hni as [(_ & <- & _)|[? _]]; [|done]. done.
  - by rewrite S4, Hm.
  - by rewrite S4, Hm, app_nil_r.
Qed.

End refinement.
