(* ===== verification/RaftRpcSim.v ===== *)
(** * Raft over labrpc: the simulation

    Each event of RaftRpc.v is an event of Cluster.v or changes nothing there. *)

From S2P Require Import Prelude Gob PersisterModel RaftState RaftVote RaftAppend RaftNode.
From S2P Require Import Labrpc NetCalls NetProps RaftRpc RaftRpcInv RaftRpcSteps RaftRpcProps.
From S2P Require Cluster ClusterInv ClusterBounds.
Open Scope go_scope.

Section simulation.
Context {GT : GobTypes} {G : RpcGob}.
#[local] Notation Sys := (Sys (list Node) RpcType RpcVal).
#[local] Notation NetEvent := (NetEvent (list Node) RpcVal).
#[local] Notation Call := (Call (list Node) RpcType RpcVal).
Implicit Types (r : RpcSys) (s : Cluster.Cluster) (y : Sys) (c : Call) (m : Cluster.Msg).

(** [s] moves by one event to [s'], or stays. *)
Definition moves s s' : Prop := s' = s \/ exists ev, Cluster.exec ev s = Some (Ret s').

Lemma set_handled_id r : r <| handled := handled r |> = r.
Proof. by destruct r. Qed.

Lemma inst_view_running N r i k n :
  wired N r -> owners r !! k = Some i -> running r k = true -> world (sys r) !! k = Some n ->
  inst_view r i n = peer_view r.
Proof.
  intros Hw Ho Hrun Hn. unfold inst_view, peer_view. f_equal. apply list_insert_id.
  eapply peer_nodes_running; [done| |done]. by eapply running_slot.
Qed.

(** ** A goroutine of an object *)

Lemma local_refines N r s k ev r' :
  refines N r s -> rpc_exec (RLocal k ev) r = Some (Ret r') -> exists s', moves s s' /\ refines N r' s'.
Proof.
  intros Hr. cbn [rpc_exec]. destruct (owners r !! k) as [i|] eqn:Ho; [|done]. cbn [mbind option_bind].
  destruct (world (sys r) !! k) as [n|] eqn:Hn; [|done]. cbn [mbind option_bind].
  case_decide as Hl; [|done]. destruct (Cluster.exec ev (inst_view r i n)) as [[hs|f]|] eqn:Hex; try done.
  cbn [mbind option_bind then_continue]. intros Hc.
  pose proof (rf_ok _ _ _ Hr) as Hok. pose proof (ok_wired _ _ Hok) as Hw.
  destruct (exec_local_own i ev (inst_view r i n) hs Hl eq_refl Hex) as [[n' Hnodes] Hms].
  destruct (continue_ok N r k i (handled r) hs (Ret r') Hok Ho) as (r1 & n1 & cs & [= <-] & Hok' & Hct & Hcs);
    [by eapply Forall_impl; [exact Hms|]; intros m []|apply (ok_handled _ _ Hok)|exact Hc|].
  assert (exists n, Cluster.nodes hs = <[i := n]> (peer_nodes r)) as Hn'.
  { exists n'. rewrite Hnodes. cbn. by rewrite list_insert_insert_eq. }
  destruct (running r k) eqn:Hrun.
  - rewrite (inst_view_running N r i k n Hw Ho Hrun Hn) in Hex. unfold peer_view in Hex.
    rewrite <- (rf_nodes _ _ _ Hr), <- (rf_elections _ _ _ Hr), <- (rf_created _ _ _ Hr) in Hex.
    destruct (exec_local_frame i ev s hs Hl Hex) as (s' & Hs' & H1 & H2 & H3 & H4).
    exists s'. split; [right; by exists ev|].
    eapply (continued_refines N r r' k i); try done; rewrite ?set_handled_id; [done|].
    rewrite Hrun. split_and!; try done. by rewrite H4, (rf_net _ _ _ Hr).
  - exists s. split; [by left|].
    eapply (continued_refines N r r' k i); try done; rewrite ?set_handled_id; [done|].
    rewrite Hrun. split_and!; try done. apply Hr.
Qed.

(** What a step of a killed object may do: nothing to the peers and the
    history, and to the messages nothing but to take one away. *)
Record no_effect r r' : Prop := {
  ne_nodes : peer_nodes r' = peer_nodes r;
  ne_elections : r_elections r' = r_elections r;
  ne_created : r_created r' = r_created r;
  ne_messages : forall m, m ∈ messages r' -> m ∈ messages r;
}.

(** The object went on; it handled the calls [hd]. *)
Lemma killed_continued N r k i hd hs r' n cs :
  rpc_ok N r -> rpc_ok N (r <| handled := hd |>) -> running r k = false -> owners r !! k = Some i ->
  handled r ⊆ hd -> continued r k i hd hs r' n cs -> Forall2 (fresh_call N r k) cs (Cluster.net hs) ->
  no_effect r r' /\ lost r' = lost r ++ seq (length (sent r)) (length cs).
Proof.
  intros Hok Hhd Hrun Ho Hsub Hct Hcs. pose proof (ok_wired _ _ Hok) as Hw.
  pose proof (messages_continued N r r' k i hd hs n cs Hok Hhd Hct Hcs) as Hm. rewrite Hrun, app_nil_r in Hm.
  pose proof (ct_history _ _ _ _ _ _ _ _ Hct) as Hh. rewrite Hrun in Hh. destruct Hh as (Hl & He & Hcr).
  split; [|done]. split; [|done|done|].
  - rewrite (peer_nodes_step N r r' i k n Hw Ho (ct_slots _ _ _ _ _ _ _ _ Hct) (ct_world _ _ _ _ _ _ _ _ Hct)).
    by rewrite Hrun.
  - intros m. rewrite Hm. unfold messages. rewrite !list_elem_of_In, !in_concat.
    intros (l & (q & <- & Hq)%in_map_iff & Hml). exists (msgs_at r q). split; [by apply in_map|].
    revert Hml. unfold msgs_at. cbn [sys set_field sent].
    destruct (calls (sys r) !! q) as [c|]; [|done]. destruct (sent r !! q) as [[k0 m0]|]; [|done].
    unfold call_messages, finished. cbn [handled lost]. case_bool_decide as H1; [done|].
    rewrite bool_decide_eq_false_2; [done|]. intros [?|?]; apply H1; [left; by apply Hsub|by right].
Qed.

Lemma killed_local N r k ev r' :
  rpc_ok N r -> running r k = false -> rpc_exec (RLocal k ev) r = Some (Ret r') ->
  no_effect r r' /\ forall q, (length (sent r) <= q < length (sent r'))%nat -> q ∈ lost r'.
Proof.
  intros Hok Hrun. cbn [rpc_exec]. destruct (owners r !! k) as [i|] eqn:Ho; [|done]. cbn [mbind option_bind].
  destruct (world (sys r) !! k) as [n|] eqn:Hn; [|done]. cbn [mbind option_bind].
  case_decide as Hl; [|done]. destruct (Cluster.exec ev (inst_view r i n)) as [[hs|f]|] eqn:Hex; try done.
  cbn [mbind option_bind then_continue]. intros Hc.
  destruct (exec_local_own i ev (inst_view r i n) hs Hl eq_refl Hex) as [_ Hms].
  destruct (continue_ok N r k i (handled r) hs (Ret r') Hok Ho) as (r1 & n1 & cs & [= <-] & _ & Hct & Hcs);
    [by eapply Forall_impl; [exact Hms|]; intros m []|apply (ok_handled _ _ Hok)|exact Hc|].
  destruct (killed_continued N r k i (handled r) hs r' n1 cs) as [He Hlost]; try done; [by rewrite set_handled_id|].
  split; [done|]. intros q. rewrite (ct_sent _ _ _ _ _ _ _ _ Hct), length_app, length_map, Hlost.
  rewrite <- (Forall2_length _ _ _ Hcs), elem_of_app, elem_of_seq. lia.
Qed.

(** ** A goroutine handles a reply *)

(** A call that returned true brought back the reply its message stands for. *)
Lemma returned_reply N r q c k m0 v :
  rpc_ok N r -> calls (sys r) !! q = Some c -> sent r !! q = Some (k, m0) -> c_pc c = CReturned true v ->
  exists m, reply_to m0 v = Some m /\ c_log c <> [] /\ q ∉ lost r /\
    forall d, call_messages d c m0 = if d then [] else [m].
Proof.
  intros Hr Hq Hm0 Hpc. pose proof (Forall_lookup_1 _ _ _ _ (ok_calls _ _ Hr) Hq) as Hok.
  pose proof (co_pc _ Hok) as Hp. unfold pc_ok in Hp. rewrite Hpc in Hp.
  destruct Hp as (rr & (_ & x & Hlog & Hx) & _ & Hdec).
  pose proof (ok_carries _ _ Hr _ _ _ _ Hq Hm0) as Hca.
  destruct (ca_message _ _ _ _ _ _ Hca) as [m Hm]. exists m.
  assert (call_messages false c m0 = option_list (reply_to m0 v)) as Heq.
  { unfold call_messages. rewrite Hlog, Hx.
    change (rpc_decode (c_reply0 c) (r_reply rr)) with (Decode (c_reply0 c) (r_reply rr)). by rewrite Hdec. }
  split_and!; [|by rewrite Hlog| |intros [|]; [done|exact Hm]].
  - rewrite Hm in Heq. destruct (reply_to m0 v) as [m1|]; [by injection Heq as ->|done].
  - intros Hl. destruct (ca_lost _ _ _ _ _ _ Hca Hl) as [_ Hd]. by rewrite Hpc in Hd.
Qed.

Lemma handled_ok N r q c :
  rpc_ok N r -> calls (sys r) !! q = Some c -> c_log c <> [] -> rpc_ok N (r <| handled := q :: handled r |>).
Proof.
  intros [K1 K2 K3 K4 K5 K6] Hq Hlog. split; try done.
  - by apply (wired_same N r).
  - intros j [->|Hj]%elem_of_cons; [by exists c|by apply K3].
  - intros j c0 k0 m0 Hj Hm0. apply (carries_grows N r); [by apply grows_same|done|by apply K5].
Qed.

(** A reply that a killed object handles. *)
Lemma killed_return N r q k m0 r' :
  rpc_ok N r -> running r k = false -> sent r !! q = Some (k, m0) ->
  rpc_exec (RReturn q) r = Some (Ret r') -> no_effect r r'.
Proof.
  intros Hok Hrun Hm0. cbn [rpc_exec]. destruct (calls (sys r) !! q) as [c|] eqn:Hq; [|done].
  rewrite Hm0. cbn [mbind option_bind].
  destruct (world (sys r) !! k) as [n|] eqn:Hn; [|done]. cbn [mbind option_bind].
  destruct (c_pc c) as [| | | | | |[|] v] eqn:Hpc; try done. case_decide as Hnew; [done|].
  destruct (returned_reply N r q c k m0 v Hok Hq Hm0 Hpc) as (m & Hm & Hlog & Hnl & Hmsg).
  rewrite Hm. cbn [mbind option_bind]. set (i := Cluster.m_src m0).
  destruct (Cluster.deliver (inst_view r i n) m) as [[hs|]|] eqn:Hd; try done.
  cbn [mbind option_bind then_continue]. intros Hc.
  pose proof (ca_owner _ _ _ _ _ _ (ok_carries _ _ Hok _ _ _ _ Hq Hm0)) as Ho.
  destruct (deliver_reply_frame _ [] _ _ _ _ _ _ Hm Hd) as [Hnil _].
  pose proof (handled_ok N r q c Hok Hq Hlog) as Hhd.
  destruct (continue_ok N r k i (q :: handled r) hs (Ret r') Hok Ho) as (r1 & n1 & cs & [= <-] & Hok' & Hct & Hcs);
    [by rewrite Hnil|apply (ok_handled _ _ Hhd)|exact Hc|].
  eapply (killed_continued N r k i (q :: handled r)); try done. set_solver.
Qed.

Lemma return_refines N r s q r' :
  refines N r s -> rpc_exec (RReturn q) r = Some (Ret r') -> exists s', moves s s' /\ refines N r' s'.
Proof.
  intros Hr. cbn [rpc_exec]. destruct (calls (sys r) !! q) as [c|] eqn:Hq; [|done].
  destruct (sent r !! q) as [[k m0]|] eqn:Hm0; [|done]. cbn [mbind option_bind].
  destruct (world (sys r) !! k) as [n|] eqn:Hn; [|done]. cbn [mbind option_bind].
  destruct (c_pc c) as [| | | | | |[|] v] eqn:Hpc; try done. case_decide as Hnew; [done|].
  pose proof (rf_ok _ _ _ Hr) as Hok. pose proof (ok_wired _ _ Hok) as Hw.
  destruct (returned_reply N r q c k m0 v Hok Hq Hm0 Hpc) as (m & Hm & Hlog & Hnl & Hmsg).
  rewrite Hm. cbn [mbind option_bind]. set (i := Cluster.m_src m0).
  destruct (Cluster.deliver (inst_view r i n) m) as [[hs|]|] eqn:Hd; try done.
  cbn [mbind option_bind then_continue]. intros Hc.
  pose proof (ca_owner _ _ _ _ _ _ (ok_carries _ _ Hok _ _ _ _ Hq Hm0)) as Ho.
  destruct (deliver_reply_frame _ [] _ _ _ _ _ _ Hm Hd) as [Hnil _].
  destruct (deliver_reply_own v m m0 _ hs Hm Hd) as [n' Hnodes].
  pose proof (handled_ok N r q c Hok Hq Hlog) as Hhd.
  destruct (continue_ok N r k i (q :: handled r) hs (Ret r') Hok Ho) as (r1 & n1 & cs & [= <-] & Hok' & Hct & Hcs);
    [by rewrite Hnil|apply (ok_handled _ _ Hhd)|exact Hc|].
  assert (exists n, Cluster.nodes hs = <[i := n]> (peer_nodes r)) as Hn'.
  { exists n'. rewrite Hnodes. cbn. by rewrite list_insert_insert_eq. }
  assert (finished r q = false) as Hfin by (apply bool_decide_eq_false; tauto).
  destruct (elem_of_messages N r s m q c k m0 Hr Hq Hm0) as [k' Hk']; [by rewrite Hmsg, Hfin|].
  set (rh := r <| handled := q :: handled r |>).
  assert (finished rh q = true) as Hfin' by (apply bool_decide_eq_true; left; cbn; set_solver).
  destruct (messages_call r rh q c c k m0 Hq Hm0) as (rest & Hm1 & Hm2); [by rewrite list_insert_id|done| |].
  { intros j Hj. cbn. set_solver. }
  rewrite Hmsg, Hfin in Hm1. rewrite Hmsg, Hfin' in Hm2.
  assert (delete k' (Cluster.net s) ≡ₚ messages rh) as Hdel.
  { rewrite Hm2. apply (Permutation_cons_inv (a := m)).
    by rewrite <- (delete_Permutation _ _ _ Hk'), (rf_net _ _ _ Hr), Hm1. }
  destruct (running r k) eqn:Hrun.
  - rewrite (inst_view_running N r i k n Hw Ho Hrun Hn) in Hd.
    destruct (deliver_reply_frame _ (delete k' (Cluster.net s)) _ _ _ _ _ _ Hm Hd) as [_ Hd'].
    eexists. split.
    { right. exists (Cluster.EvDeliver k'). cbn [Cluster.exec]. rewrite Hk'. cbn [mbind option_bind].
      rewrite <- (rf_nodes _ _ _ Hr), <- (rf_elections _ _ _ Hr), <- (rf_created _ _ _ Hr) in Hd'. exact Hd'. }
    eapply (continued_refines N r r' k i); try done. rewrite Hrun. split_and!; try done.
    cbn. by rewrite Hnil, app_nil_r.
  - eexists. split; [right; exists (Cluster.EvLose k'); cbn [Cluster.exec]; by rewrite Hk'|].
    eapply (continued_refines N r r' k i); try done. rewrite Hrun. by split_and!.
Qed.

(** ** A handler runs *)

(** The request as a message: the peer serves it, its reply takes its place. *)
Lemma deliver_request s m n rf v m' :
  Cluster.nodes s !! Cluster.m_dst m = Some n -> run_request (Cluster.m_body m) (raft n) = Ret (rf, v) ->
  reply_to m v = Some m' ->
  Cluster.deliver s m = Some (Ret (Cluster.mkCluster (<[Cluster.m_dst m := n <| raft := rf |>]> (Cluster.nodes s))
    (Cluster.net s ++ [m']) (Cluster.elections s) (Cluster.created s))).
Proof.
  intros Hn. unfold reply_to, Cluster.deliver.
  destruct (Cluster.m_body m) as [rd a|rd a rp|a|a rp]; try done; cbn [run_request];
    intros Hrun; apply bind_Ret in Hrun as ([rf' reply] & Hh & [= <- <-]); cbn [reply_body mbind option_bind];
    intros [= <-]; rewrite Hn; cbn [mbind option_bind].
  - unfold Cluster.serve_vote. by rewrite Hh.
  - unfold Cluster.serve_append. by rewrite Hh.
Qed.

Lemma handler_refines N r s q y' :
  refines N r s -> net_exec (NHandler q) (sys r) = Some (Ret y') ->
  exists s', moves s s' /\
    refines N (r <| sys := y' |> <| lost := lost r ++ on_killed r (NHandler q) |>) s'.
Proof.
  intros Hr Hex. pose proof (rf_ok _ _ _ Hr) as Hok. pose proof (ok_wired _ _ Hok) as Hw.
  destruct (handler_step N r q y' Hok Hex) as (Hok' & c & sid & k & m & n & rf & m' & Hs).
  destruct Hs as [Hq Hm Hh Ho Hn Hwo (v & Hreq & Hm') Hb (c' & Hcs & Ha)].
  set (r' := r <| sys := y' |> <| lost := lost r ++ on_killed r (NHandler q) |>) in *.
  assert (finished r q = false) as Hfin.
  { apply bool_decide_eq_false. intros [(c0 & Hc0 & Hl)%(ok_handled _ _ Hok)|Hl].
    - rewrite Hq in Hc0. injection Hc0 as <-. pose proof (Forall_lookup_1 _ _ _ _ (ok_calls _ _ Hok) Hq) as Hco.
      pose proof (co_handler _ Hco) as Hho. unfold handler_ok in Hho. by rewrite Hh in Hho.
    - destruct (ca_lost _ _ _ _ _ _ (ok_carries _ _ Hok _ _ _ _ Hq Hm) Hl) as [Hd _]. by destruct (Hd sid). }
  assert (on_killed r (NHandler q) = if running r sid then [] else [q]) as Hkl.
  { unfold on_killed. by rewrite Hq, Hh. }
  destruct (elem_of_messages N r s m q c k m Hr Hq Hm) as [k' Hk']; [by rewrite Hfin|].
  destruct (messages_call r r' q c c' k m Hq Hm Hcs eq_refl) as (rest & Hm1 & Hm2).
  { intros j Hj. split; [done|]. change (lost r') with (lost r ++ on_killed r (NHandler q)). rewrite Hkl.
    destruct (running r sid); set_solver. }
  rewrite Hfin, Hb in Hm1.
  assert (delete k' (Cluster.net s) ≡ₚ rest) as Hdel.
  { apply (Permutation_cons_inv (a := m)). by rewrite <- (delete_Permutation _ _ _ Hk'), (rf_net _ _ _ Hr), Hm1. }
  pose proof (peer_nodes_step N r r' (Cluster.m_dst m) sid _ Hw Ho eq_refl Hwo) as Hp.
  assert (finished r' q = negb (running r sid)) as Hfin'.
  { unfold finished in *. apply bool_decide_eq_false in Hfin.
    change (handled r') with (handled r). change (lost r') with (lost r ++ on_killed r (NHandler q)). rewrite Hkl.
    destruct (running r sid); cbn [negb]; [rewrite app_nil_r; by apply bool_decide_eq_false|].
    apply bool_decide_eq_true. set_solver. }
  rewrite Hfin' in Hm2. destruct (running r sid) eqn:Hrun.
  - pose proof (running_slot _ _ _ _ Hw Ho Hrun) as Hsl.
    assert (Cluster.nodes s !! Cluster.m_dst m = Some n) as Hnode.
    { rewrite (rf_nodes _ _ _ Hr). by eapply peer_nodes_running. }
    eexists. split.
    { right. exists (Cluster.EvDeliver k'). cbn [Cluster.exec]. rewrite Hk'. cbn [mbind option_bind].
      apply (deliver_request (Cluster.mkCluster (Cluster.nodes s) (delete k' (Cluster.net s))
        (Cluster.elections s) (Cluster.created s)) m n rf v m'); done. }
    split; try done; cbn [Cluster.nodes Cluster.elections Cluster.created Cluster.net]; try apply Hr.
    + by rewrite Hp, (rf_nodes _ _ _ Hr).
    + rewrite Hdel, Hm2. cbn [negb]. rewrite Ha. by rewrite (Permutation_app_comm rest).
  - eexists. split; [right; exists (Cluster.EvLose k'); cbn [Cluster.exec]; by rewrite Hk'|].
    split; try done; cbn [Cluster.nodes Cluster.elections Cluster.created Cluster.net]; try apply Hr;
      [by rewrite Hp; apply Hr|].
    change (Cluster.net _) with (delete k' (Cluster.net s)).
    by rewrite Hm2, Hdel.
Qed.

Lemma killed_handler N r k q c r' :
  rpc_ok N r -> running r k = false -> calls (sys r) !! q = Some c -> c_handler c = HRunning k ->
  rpc_exec (RNet (NHandler q)) r = Some (Ret r') -> no_effect r r' /\ q ∈ lost r'.
Proof.
  intros Hok Hrun Hq Hh. cbn [rpc_exec is_network].
  destruct (net_exec (NHandler q) (sys r)) as [[y'|]|] eqn:Hex; try done.
  cbn [mbind option_bind outcome_bind]. intros [= <-]. pose proof (ok_wired _ _ Hok) as Hw.
  destruct (handler_step N r q y' Hok Hex) as (_ & c0 & sid & k0 & m & n & rf & m' & [Hq0 Hm Hh0 Ho _ Hwo _ _ (c' & Hcs & _)]).
  assert (sid = k) as -> by congruence. set (r' := r <| sys := y' |> <| lost := lost r ++ on_killed r (NHandler q) |>).
  assert (lost r' = lost r ++ [q]) as Hl by (cbn; by rewrite Hq, Hh, Hrun).
  assert (q ∈ lost r') as Hin by (rewrite Hl; set_solver). split; [|done]. split; [|done|done|].
  - pose proof (peer_nodes_step N r r' (Cluster.m_dst m) k _ Hw Ho eq_refl Hwo) as Hp. by rewrite Hrun in Hp.
  - destruct (messages_call r r' q c c' k0 m Hq Hm Hcs eq_refl) as (rest & Hm1 & Hm2).
    { intros j Hj. split; [done|]. rewrite Hl. set_solver. }
    assert (finished r' q = true) as Hf by (apply bool_decide_eq_true; by right).
    rewrite Hf in Hm2. intros m1. change (m1 ∈ messages r' -> m1 ∈ messages r).
    rewrite (elem_of_Permutation_proper m1 _ _ Hm1), (elem_of_Permutation_proper m1 _ _ Hm2). set_solver.
Qed.

Lemma network_refines N r s ev r' :
  refines N r s -> rpc_exec (RNet ev) r = Some (Ret r') -> exists s', moves s s' /\ refines N r' s'.
Proof.
  intros Hr. cbn [rpc_exec]. destruct (is_network ev) eqn:Hn; [|done].
  destruct (net_exec ev (sys r)) as [[y'|]|] eqn:Hex; try done. cbn [mbind option_bind outcome_bind]. intros [= <-].
  assert ((exists q, ev = NHandler q) \/ forall q, ev <> NHandler q) as [[q ->]|Hnh].
  { destruct ev; eauto. }
  - by apply handler_refines.
  - destruct (network_ok N r ev y' (rf_ok _ _ _ Hr) Hn Hnh Hex) as (Hok & Hw & Hcs).
    assert (on_killed r ev = []) as -> by (destruct ev; try done; by edestruct Hnh).
    rewrite app_nil_r. exists s. split; [by left|]. change (refines N (r <| sys := y' |>) s). destruct Hr as [R1 R2 R3 R4 R5]. split; try done.
    + rewrite R2. symmetry. by apply peer_nodes_same.
    + rewrite R5. by rewrite (messages_same r (r <| sys := y' |>)).
Qed.

Lemma enable_refines N r s k j yes r' :
  refines N r s -> rpc_exec (REnable k j yes) r = Some (Ret r') -> refines N r' s.
Proof.
  intros Hr. cbn [rpc_exec]. destruct (negb yes || running r k) eqn:Hyes; [|done].
  destruct (names r !! k) as [ns|] eqn:Hns; [|done]. cbn [mbind option_bind]. intros [= <-].
  destruct Hr as [R1 R2 R3 R4 R5]. split; try done. by apply (enable_ok N r k j yes ns).
Qed.

(** ** Crash and start *)

Lemma restart_saved ps : boot_persister (Some (save_persister ps)) = Cluster.restart_persister ps.
Proof. done. Qed.

(** The peers after the slot of peer [i] changed. *)
Lemma peer_nodes_slot N r r' i sl nd :
  wired N r -> is_Some (slots r !! i) -> slots r' = <[i := sl]> (slots r) -> slot_node r' i sl = nd ->
  (forall j k, j <> i -> slots r !! j = Some (Running k) -> world (sys r') !! k = world (sys r) !! k) ->
  peer_nodes r' = <[i := nd]> (peer_nodes r).
Proof.
  intros Hw [sl0 Hi] Hs <- Hk. apply list_eq. intros j. pose proof (lookup_lt_Some _ _ _ Hi) as Hlt.
  assert (length (peer_nodes r) = length (slots r)) as Hlen by apply length_imap.
  rewrite peer_nodes_lookup. destruct (decide (j = i)) as [->|Hne].
  - by rewrite Hs, !list_lookup_insert_eq by lia.
  - rewrite Hs, !list_lookup_insert_ne, peer_nodes_lookup by done.
    destruct (slots r !! j) as [[k|last saved crashes]|] eqn:Hj; cbn; [|by rewrite Hs, length_insert|done].
    by rewrite (Hk j k Hne Hj).
Qed.

Lemma crash_refines N r s i r' :
  refines N r s -> ClusterInv.inv s -> crash r i = Some r' -> exists s', moves s s' /\ refines N r' s'.
Proof.
  intros Hr Hinv Hc. pose proof (rf_ok _ _ _ Hr) as Hok. pose proof (ok_wired _ _ Hok) as Hw.
  pose proof (crash_ok N r i r' Hok Hc) as Hok'. revert Hc. unfold crash.
  destruct Hr as [R1 R2 R3 R4 R5]. destruct (slots r !! i) as [[k|last saved crashes]|] eqn:Hi; [| |done].
  - destruct (world (sys r) !! k) as [n|] eqn:Hn; [|done]. cbn [mbind option_bind]. intros [= Hr'].
    assert (Cluster.nodes s !! i = Some n) as Hnode.
    { rewrite R2. by eapply peer_nodes_running. }
    pose proof (ClusterInv.bi_nodes s (proj1 Hinv) i n Hnode) as Hni.
    eexists. split; [right; exists (Cluster.EvRestart i); cbn [Cluster.exec]; rewrite Hnode; reflexivity|].
    split; [done| |by rewrite <- Hr'|by rewrite <- Hr'|cbn; rewrite R5; by rewrite <- Hr'].
    cbn. rewrite R2. symmetry.
    eapply (peer_nodes_slot N r r' i); [done|by eexists|by rewrite <- Hr'| |].
    + assert (length (slots r') = length (slots r)) as Hls by (rewrite <- Hr'; apply length_insert).
      cbn [slot_node]. rewrite Hls, restart_saved. f_equal.
      * rewrite (ClusterInv.no_peers _ _ _ _ _ Hni), R2. unfold peer_nodes. by rewrite length_imap.
      * symmetry. apply (ClusterInv.no_me _ _ _ _ _ Hni).
    + intros j k' Hne Hj. rewrite <- Hr'. cbn. rewrite list_lookup_insert_ne; [done|].
      intros ->. apply Hne. by eapply slots_running_inj.
  - intros [= Hr']. exists s. split; [by left|]. split; [done| |by rewrite <- Hr'..].
    rewrite R2. assert (peer_nodes r !! i = Some (slot_node r i (Down last saved crashes))) as Hsame.
    { by rewrite peer_nodes_lookup, Hi. }
    rewrite <- (list_insert_id _ _ _ Hsame). symmetry.
    eapply (peer_nodes_slot N r r' i); [done|by eexists|by rewrite <- Hr'| |by rewrite <- Hr'].
    assert (length (slots r') = length (slots r)) as Hls by (rewrite <- Hr'; apply length_insert).
    cbn [slot_node]. rewrite Hls. by destruct saved.
Qed.

Lemma boot_refines N r s i ns r' :
  refines N r s -> boot r i ns = Some (Ret r') -> refines N r' s.
Proof.
  intros Hr Hs. pose proof (rf_ok _ _ _ Hr) as Hok. pose proof (ok_wired _ _ Hok) as Hw.
  pose proof (boot_ok N r i ns r' Hok Hs) as Hok'. revert Hs. unfold boot.
  destruct (slots r !! i) as [[|last saved crashes]|] eqn:Hi; try done.
  case_decide; [|done]. intros [= (rn & _ & [= Hr'])%bind_Ret].
  destruct Hr as [R1 R2 R3 R4 R5]. split; [done| |by rewrite <- Hr'|by rewrite <- Hr'|by rewrite <- Hr'].
  rewrite R2. assert (peer_nodes r !! i = Some (slot_node r i (Down last saved crashes))) as Hsame.
  { by rewrite peer_nodes_lookup, Hi. }
  rewrite <- (list_insert_id _ _ _ Hsame). symmetry.
  eapply (peer_nodes_slot N r r' i); [done|by eexists|by rewrite <- Hr'| |].
  - rewrite <- Hr'. cbn. by rewrite lookup_app_r, Nat.sub_diag.
  - intros j k _ Hj. rewrite <- Hr'. cbn. rewrite lookup_app_l; [done|].
    rewrite <- (wd_owners _ _ Hw). eapply lookup_lt_Some. by apply (wd_running _ _ Hw).
Qed.

Lemma start_refines N r s i ns r' :
  refines N r s -> ClusterInv.inv s -> start r i ns = Some (Ret r') -> exists s', moves s s' /\ refines N r' s'.
Proof.
  intros Hr Hinv. unfold start. destruct (crash r i) as [r1|] eqn:Hc; [|done]. cbn [mbind option_bind]. intros Hb.
  destruct (crash_refines N r s i r1 Hr Hinv Hc) as (s' & Hm & Hr1). exists s'. split; [done|]. by eapply boot_refines.
Qed.

(** ** Runs *)

Lemma step_refines N r s ev r' :
  refines N r s -> ClusterInv.inv s -> rpc_exec ev r = Some (Ret r') -> exists s', moves s s' /\ refines N r' s'.
Proof.
  intros Hr Hinv Hex. destruct ev as [k ev|ev|q|k j yes|i|i ns].
  - by eapply local_refines.
  - by eapply network_refines.
  - by eapply return_refines.
  - exists s. split; [by left|by eapply enable_refines].
  - cbn [rpc_exec] in Hex. destruct (crash r i) as [r1|] eqn:Hc; [|done]. injection Hex as <-.
    by apply (crash_refines N r s i).
  - by eapply start_refines.
Qed.

Lemma initially_refines N : refines N (rpc_init N) (Cluster.init N).
Proof.
  split; try done.
  - split; try done; [|by intros q ?%elem_of_nil..|by apply Forall_nil_2].
    split; try done; [apply length_replicate|]. intros i k Hi. by apply lookup_replicate in Hi as [? _].
  - unfold peer_nodes. cbn. apply list_eq. intros i. rewrite list_lookup_imap.
    destruct (decide (i < N)%nat) as [Hi|Hi].
    + rewrite lookup_replicate_2 by done. cbn. rewrite length_replicate, list_lookup_fmap.
      by rewrite lookup_seq_lt.
    + rewrite !lookup_ge_None_2; [done|rewrite length_replicate; lia|rewrite length_map, length_seq; lia].
Qed.

Context {GTok : GobTypesOk}.

(** Every run of the program is one of Cluster.v. *)
Lemma rpc_reachable_refines N r : rpc_reachable N r -> exists s, Cluster.reachable s /\ refines N r s.
Proof.
  induction 1 as [|r ev r' _ (s & Hs & Hr) Hb Hex].
  - exists (Cluster.init N). split; [constructor|apply initially_refines].
  - destruct (step_refines N r s ev r' Hr (ClusterInv.reachable_inv s Hs) Hex) as (s' & [->|[cev He]] & Hr');
      [by exists s|].
    exists s'. split; [|done]. apply (Cluster.reachable_step s cev s' Hs); [|done].
    unfold Cluster.bounded. rewrite (rf_nodes _ _ _ Hr). exact Hb.
Qed.

End simulation.
