(* ===== verification/RaftRpcRuns.v ===== *)
(** * Theorems about Raft over labrpc, crashes and restarts included

    The program of RaftRpc.v behaves as the cluster of messages; labrpc takes
    no step away from a running object; and objects that were killed have no
    effect on the peers any more. *)

From S2P Require Import Prelude Gob PersisterModel RaftState RaftVote RaftAppend RaftNode RaftInv.
From S2P Require Import Labrpc NetCalls NetProps RaftRpc RaftRpcInv RaftRpcSteps RaftRpcProps RaftRpcSim.
From S2P Require Cluster ClusterInv ClusterBounds ClusterAddresses Runs.
Open Scope go_scope.

Section runs.
Context {GT : GobTypes} {GTok : GobTypesOk} {G : RpcGob}.
#[local] Notation Sys := (Sys (list Node) RpcType RpcVal).
Implicit Types (r : RpcSys) (s : Cluster.Cluster) (y : Sys) (m : Cluster.Msg).

(** ** Sends *)

Definition sendable (N : nat) m : Prop := (Cluster.m_dst m < N)%nat /\ is_request m.

Lemma issue_all_total N r k peers ms y :
  wired N r -> names r !! k = Some peers -> ends (net y) = ends (net (sys r)) ->
  Forall (sendable N) ms -> issue_all peers ms y <> None.
Proof.
  intros Hw Hk Hy Hms. revert y Hy. induction Hms as [|m ms [Hd (meth & args & reply0 & Hq)] _ IH]; intros y Hy; [done|].
  cbn [issue_all]. destruct (issue peers m y) as [o|] eqn:Hi.
  - destruct (issue_spec N r k peers m y o Hw Hk Hy Hi) as (c & -> & _). cbn [mbind option_bind]. by apply IH.
  - unfold issue in Hi. rewrite Hq in Hi. cbn [mbind option_bind] in Hi.
    rewrite <- (wd_named _ _ Hw _ _ Hk) in Hd. apply lookup_lt_is_Some_2 in Hd as [e He]. rewrite He in Hi.
    cbn [mbind option_bind net_exec] in Hi. rewrite Hy in Hi.
    destruct (wd_ends _ _ Hw k (Cluster.m_dst m) e) as [Hends _]; [unfold end_of; by rewrite Hk|].
    by rewrite Hends in Hi.
Qed.

Lemma continue_total N r k i hd hs :
  wired N r -> owners r !! k = Some i -> is_Some (Cluster.nodes hs !! i) ->
  Forall (sendable N) (Cluster.net hs) -> continue r k i hd hs <> None.
Proof.
  intros Hw Ho [n Hn] Hms. unfold continue. rewrite Hn. cbn [mbind option_bind].
  destruct (lookup_lt_is_Some_2 (names r) k) as [peers Hp].
  { rewrite (wd_names _ _ Hw), <- (wd_owners _ _ Hw). by eapply lookup_lt_Some. }
  rewrite Hp. cbn [mbind option_bind]. destruct (issue_all _ _ _) as [o|] eqn:Hi; [done|].
  by eapply issue_all_total in Hi.
Qed.

(** ** What a running object can do *)

Lemma local_enabled N r s k i ev o :
  refines N r s -> ClusterInv.inv s -> ClusterAddresses.addressed s ->
  owners r !! k = Some i -> running r k = true -> local_peer ev = Some i ->
  Cluster.exec ev (peer_view r) = Some o -> rpc_exec (RLocal k ev) r <> None.
Proof.
  intros Hr Hinv Ha Ho Hrun Hl Hex. pose proof (rf_ok _ _ _ Hr) as Hok. pose proof (ok_wired _ _ Hok) as Hw.
  destruct (lookup_lt_is_Some_2 (world (sys r)) k) as [n Hn].
  { rewrite <- (wd_owners _ _ Hw). by eapply lookup_lt_Some. }
  cbn [rpc_exec]. rewrite Ho, Hn. cbn [mbind option_bind]. rewrite decide_True by done.
  rewrite (inst_view_running N r i k n Hw Ho Hrun Hn), Hex. cbn [mbind option_bind then_continue].
  destruct o as [hs|f]; [|done].
  destruct (exec_local_own i ev (peer_view r) hs Hl eq_refl Hex) as [[n' Hn'] Hms].
  assert (i < N)%nat as Hi by by apply (wd_owner _ _ Hw) in Ho.
  assert (length (Cluster.nodes s) = N) as HN.
  { rewrite (rf_nodes _ _ _ Hr). unfold peer_nodes. rewrite length_imap. apply Hw. }
  apply (continue_total N); [done..| |].
  - rewrite Hn'. exists n'. apply list_lookup_insert_eq. cbn. by rewrite <- (rf_nodes _ _ _ Hr), HN.
  - unfold peer_view in Hex.
    rewrite <- (rf_nodes _ _ _ Hr), <- (rf_elections _ _ _ Hr), <- (rf_created _ _ _ Hr) in Hex.
    destruct (exec_local_frame i ev s hs Hl Hex) as (s' & Hs' & _ & _ & _ & Hnet).
    pose proof (ClusterAddresses.ad_net s' (ClusterAddresses.exec_addressed ev s s' Hinv Ha Hs')) as Hin.
    rewrite Hnet, Forall_app in Hin. destruct Hin as [_ Hin].
    pose proof (ClusterBounds.gr_length _ _ (ClusterBounds.exec_grows _ _ _ Hs')) as Hlen.
    rewrite Forall_forall in *. intros m Hm. destruct (Hin m Hm) as (_ & Hd & _), (Hms m Hm) as [_ Hq].
    split; [by rewrite Hlen, HN in Hd|done].
Qed.

Lemma handler_enabled N r q c sid :
  rpc_ok N r -> calls (sys r) !! q = Some c -> c_handler c = HRunning sid ->
  rpc_exec (RNet (NHandler q)) r <> None.
Proof.
  intros Hr Hq Hh. destruct (sent_lookup N r q c Hr Hq) as (k & m & Hm & Hca). pose proof (ok_wired _ _ Hr) as Hw.
  destruct (ca_routed _ _ _ _ _ _ Hca) as [_ Ho]. rewrite Hh in Ho.
  destruct (lookup_lt_is_Some_2 (heap (sys r)) sid) as [rs Hrs].
  { rewrite (wd_heap _ _ Hw), <- (wd_owners _ _ Hw). by eapply lookup_lt_Some. }
  cbn [rpc_exec is_network net_exec]. rewrite Hq. cbn [mbind option_bind].
  unfold handler_exec. by rewrite Hh, Hrs.
Qed.

Lemma return_enabled N r s q c k m0 v :
  refines N r s -> ClusterAddresses.addressed s -> calls (sys r) !! q = Some c -> sent r !! q = Some (k, m0) ->
  running r k = true -> c_pc c = CReturned true v -> q ∉ handled r -> rpc_exec (RReturn q) r <> None.
Proof.
  intros Hr Ha Hq Hm0 Hrun Hpc Hnew. pose proof (rf_ok _ _ _ Hr) as Hok. pose proof (ok_wired _ _ Hok) as Hw.
  destruct (returned_reply N r q c k m0 v Hok Hq Hm0 Hpc) as (m & Hm & _ & Hnl & Hmsg).
  pose proof (ca_owner _ _ _ _ _ _ (ok_carries _ _ Hok _ _ _ _ Hq Hm0)) as Ho.
  destruct (lookup_lt_is_Some_2 (world (sys r)) k) as [n Hn].
  { rewrite <- (wd_owners _ _ Hw). by eapply lookup_lt_Some. }
  cbn [rpc_exec]. rewrite Hq, Hm0. cbn [mbind option_bind]. rewrite Hn. cbn [mbind option_bind].
  rewrite Hpc, decide_False, Hm by done. cbn [mbind option_bind].
  destruct (elem_of_messages N r s m q c k m0 Hr Hq Hm0) as [k' Hk'].
  { rewrite Hmsg. unfold finished. rewrite bool_decide_eq_false_2; [done|tauto]. }
  pose proof (Forall_lookup_1 _ _ _ _ (ClusterAddresses.ad_net s Ha) Hk') as Hin.
  rewrite (rf_nodes _ _ _ Hr) in Hin. rewrite (inst_view_running N r _ k n Hw Ho Hrun Hn).
  destruct (ClusterAddresses.deliver_enabled (peer_view r) m Hin) as [o Hd]. rewrite Hd.
  cbn [mbind option_bind]. destruct o as [hs|f]; [|done]. cbn [then_continue].
  destruct (deliver_reply_frame _ [] _ _ _ _ _ _ Hm Hd) as [Hnil _].
  destruct (deliver_reply_own v m m0 _ hs Hm Hd) as [n' Hn'].
  apply (continue_total N); [done..| |by rewrite Hnil].
  rewrite Hn'. exists n'. apply list_lookup_insert_eq. cbn. unfold peer_nodes. rewrite length_imap.
  rewrite (wd_slots _ _ Hw). by apply (wd_owner _ _ Hw) in Ho.
Qed.

Lemma make_ends_total ns j rn :
  NoDup ns -> Forall (fun e => ends rn !! IString e = None) ns -> exists rn', make_ends ns j rn = Ret rn'.
Proof.
  intros Hnd. revert j rn. induction Hnd as [|e ns Hni _ IH]; intros j rn Hf; [by eexists|].
  apply Forall_cons in Hf as [He Hf]. cbn [make_ends]. unfold MakeEnd. rewrite He. cbn [mbind outcome_bind].
  apply IH. rewrite Forall_forall in *. intros e' He'. cbn. rewrite lookup_insert_ne; [by apply Hf|].
  intros [= ->]. done.
Qed.

Lemma start_enabled N r i ns :
  wired N r -> (i < N)%nat -> length ns = N -> NoDup ns ->
  Forall (fun e => ends (net (sys r)) !! IString e = None) ns -> exists r', rpc_exec (RStart i ns) r = Some (Ret r').
Proof.
  intros Hw Hi Hlen Hnd Hf. cbn [rpc_exec]. unfold start.
  assert (exists r1, crash r i = Some r1) as [r1 Hc].
  { unfold crash. rewrite <- (wd_slots _ _ Hw) in Hi. apply lookup_lt_is_Some_2 in Hi as [[k|] Hi]; rewrite Hi; [|by eexists].
    destruct (lookup_lt_is_Some_2 (world (sys r)) k) as [n ->]; [|by eexists].
    rewrite <- (wd_owners _ _ Hw). eapply lookup_lt_Some. by apply (wd_running _ _ Hw). }
  rewrite Hc. apply crash_crashed in Hc as [C1 _ _ _ C5 (last & saved & crashes & C6) _ _].
  cbn [mbind option_bind]. unfold boot. rewrite C6, list_lookup_insert_eq by (by apply lookup_lt_is_Some_1).
  rewrite decide_True by (by rewrite length_insert, (wd_slots _ _ Hw)).
  destruct (make_ends_total ns 0 (net (sys r1)) Hnd) as [rn ->]; [|by eexists].
  rewrite C1. cbn. by rewrite (di_ends _ _ (disconnect_disables r i _)).
Qed.

(** ** The theorems *)

(** C3: Raft over labrpc, crashes and restarts included, is the protocol of
    Cluster.v: in every state the program can reach, whatever ends the tests
    disable, whichever peers they crash and start again, whatever the network
    drops, delays or reorders, and whatever killed objects still do, the
    peers, the elections and the entries created are those of a reachable
    state of Cluster.v.  Its network holds one message for every call but the
    handled ones and the void ones: the request until the handler has run, the
    reply afterwards.  A call is handled when its goroutine has taken the
    reply; it is void when an object made it after it was killed, or when its
    handler ran on a killed object.  So a call that returned false, and one
    whose caller was killed in the meantime, keep their message, which waits in
    the network of Cluster.v without being delivered. *)
Theorem rpc_refines_cluster N r :
  rpc_reachable N r ->
  exists s, Cluster.reachable s /\ Cluster.nodes s = peer_nodes r /\
    Cluster.elections s = r_elections r /\ Cluster.created s = r_created r /\
    Cluster.net s ≡ₚ messages r.
Proof.
  intros Hr. destruct (rpc_reachable_refines N r Hr) as (s & Hs & [_ R2 R3 R4 R5]). by exists s.
Qed.

(** C4: labrpc and the harness block no running peer: over labrpc a goroutine
    of a running object can take a step exactly when it can in Cluster.v (its
    sends always find their ends), a handler that was started can run, the
    reply of a call that returned true can be handled, and a peer can be
    started, or started again, with any names that are new. *)
Theorem rpc_blocks_no_peer N r :
  rpc_reachable N r ->
  (forall k i ev, owners r !! k = Some i -> running r k = true -> local_peer ev = Some i ->
    rpc_exec (RLocal k ev) r = None <-> Cluster.exec ev (peer_view r) = None) /\
  (forall q c sid, calls (sys r) !! q = Some c -> c_handler c = HRunning sid ->
    rpc_exec (RNet (NHandler q)) r <> None) /\
  (forall q c k m v, calls (sys r) !! q = Some c -> sent r !! q = Some (k, m) -> running r k = true ->
    c_pc c = CReturned true v -> q ∉ handled r -> rpc_exec (RReturn q) r <> None) /\
  (forall i ns, (i < N)%nat -> length ns = N -> NoDup ns ->
    Forall (fun e => ends (net (sys r)) !! IString e = None) ns -> exists r', rpc_exec (RStart i ns) r = Some (Ret r')).
Proof.
  intros Hre. destruct (rpc_reachable_refines N r Hre) as (s & Hs & Hr). pose proof (rf_ok _ _ _ Hr) as Hok.
  pose proof (ClusterInv.reachable_inv s Hs) as Hinv.
  pose proof (ClusterAddresses.reachable_addressed s Hs) as Ha. pose proof (ok_wired _ _ Hok) as Hw. split_and!.
  - intros k i ev Ho Hrun Hl. split.
    + intros Hn. destruct (Cluster.exec ev (peer_view r)) as [o|] eqn:Hex; [|done].
      by destruct (local_enabled N r s k i ev o Hr Hinv Ha Ho Hrun Hl Hex).
    + intros Hex. destruct (lookup_lt_is_Some_2 (world (sys r)) k) as [n Hn].
      { rewrite <- (wd_owners _ _ Hw). by eapply lookup_lt_Some. }
      cbn [rpc_exec]. rewrite Ho, Hn. cbn [mbind option_bind]. rewrite decide_True by done.
      by rewrite (inst_view_running N r i k n Hw Ho Hrun Hn), Hex.
  - intros q c sid Hq Hh. by eapply handler_enabled.
  - intros q c k m v Hq Hm Hrun Hpc Hnew. by eapply return_enabled.
  - intros i ns. by apply (start_enabled N).
Qed.



End runs.

(** ** A codec for the values peers exchange *)

#[local] Instance LogEntry_eq_dec : EqDecision LogEntry.
Proof. solve_decision. Defined.

#[local] Instance LogEntry_countable : Countable LogEntry.
Proof.
  by refine (inj_countable' (fun e => (Command e, Term e)) (fun p => mkLogEntry p.1 p.2) _); intros [].
Defined.

Definition flat (v : RpcVal) :
    (Z * Z * Z * Z) + (Z * bool) + (Z * Z * Z * Z * list LogEntry * Z) + (Z * bool * Z * Z) :=
  match v with
  | VRequestVoteArgs (mkRequestVoteArgs a b c d) => inl (inl (inl (a, b, c, d)))
  | VRequestVoteReply (mkRequestVoteReply a b) => inl (inl (inr (a, b)))
  | VAppendEntriesArgs (mkAppendEntriesArgs a b c d e f) => inl (inr (a, b, c, d, e, f))
  | VAppendEntriesReply (mkAppendEntriesReply a b c d) => inr (a, b, c, d)
  end.

Definition unflat (x : (Z * Z * Z * Z) + (Z * bool) + (Z * Z * Z * Z * list LogEntry * Z) + (Z * bool * Z * Z)) :
    RpcVal :=
  match x with
  | inl (inl (inl (a, b, c, d))) => VRequestVoteArgs (mkRequestVoteArgs a b c d)
  | inl (inl (inr (a, b))) => VRequestVoteReply (mkRequestVoteReply a b)
  | inl (inr (a, b, c, d, e, f)) => VAppendEntriesArgs (mkAppendEntriesArgs a b c d e f)
  | inr (a, b, c, d) => VAppendEntriesReply (mkAppendEntriesReply a b c d)
  end.

Definition flat_encode (v : RpcVal) : list Z := [Zpos (encode (flat v))].

Definition flat_decode (v : RpcVal) (data : list Z) : RpcVal * bool :=
  match data with
  | [Zpos p] => match decode p with Some x => (unflat x, true) | None => (v, false) end
  | _ => (v, false)
  end.

Lemma flat_roundtrip v : flat_decode (rpc_zero (rpc_type v)) (flat_encode v) = (v, true).
Proof. unfold flat_decode, flat_encode. rewrite decode_encode. by destruct v as [[]|[]|[]|[]]. Qed.

#[local] Instance flat_gob : RpcGob := {|
  rpc_encode := flat_encode;
  rpc_decode := flat_decode;
  rpc_roundtrip := flat_roundtrip;
|}.

(** ** Runs *)

Section witnesses.
#[local] Existing Instance first_types.
#[local] Existing Instance first_types_ok.
#[local] Existing Instance Runs.bounded_dec.

(** Run [evs] and check the bounds before every event. *)
Fixpoint rpc_run_in_bounds (evs : list RpcEvent) (r : RpcSys) : option RpcSys :=
  match evs with
  | [] => Some r
  | ev :: evs =>
      if decide (Cluster.bounded (peer_view r)) then
        match rpc_exec ev r with
        | Some (Ret r) => rpc_run_in_bounds evs r
        | _ => None
        end
      else None
  end.

Lemma rpc_run_in_bounds_reachable N evs r r' :
  rpc_reachable N r -> rpc_run_in_bounds evs r = Some r' -> rpc_reachable N r'.
Proof.
  revert r. induction evs as [|ev evs IH]; intros r Hr; cbn [rpc_run_in_bounds]; [by intros [= <-]|].
  case_decide as Hb; [|done]. destruct (rpc_exec ev r) as [[r1|]|] eqn:Hex; try done.
  apply IH. by eapply rpc_reachable_step.
Qed.

Definition rpc_after (evs : list RpcEvent) : RpcSys := default (rpc_init 3) (rpc_run_in_bounds evs (rpc_init 3)).

Lemma rpc_after_reachable evs : rpc_reachable 3 (rpc_after evs).
Proof.
  unfold rpc_after. destruct (rpc_run_in_bounds evs (rpc_init 3)) as [r|] eqn:Hr; [|constructor].
  eapply rpc_run_in_bounds_reachable; [constructor|exact Hr].
Qed.

(** The names of the ends of object [k]. *)
Definition names_of (k : nat) : list string :=
  map (fun j => String (Ascii.ascii_of_nat (97 + k)) (String (Ascii.ascii_of_nat (97 + j)) EmptyString)) (seq 0 3).

(** make_config: three peers are started and connected. *)
Definition boot3 : list RpcEvent :=
  map (fun i => RStart i (names_of i)) (seq 0 3) ++
  concat (map (fun i => map (fun j => REnable i j true) (seq 0 3)) (seq 0 3)).

(** Call [q] is served and returns; its goroutine handles the reply. *)
Definition served_call (q : nat) : list RpcEvent :=
  map RNet [NSend q; NStart q; NHandler q; NRecv q; NFinal q 0 0; NReply q] ++ [RReturn q].

(** Peer 0 campaigns, peer 1 votes for it, and peer 2 received the request. *)
Definition rpc_election : list RpcEvent :=
  boot3 ++ map (RLocal 0) (Runs.campaign 0) ++ served_call 0 ++ map RNet [NSend 1; NStart 1].

(** Then peer 2 crashes, and starts as another object. *)
Definition rpc_crashed : list RpcEvent := rpc_election ++ [RCrash 2; RStart 2 (names_of 3)].


Lemma rpc_refines_cluster_witness :
  exists s, Cluster.reachable s /\ Cluster.elections s = [(1, 0%nat)] /\
    length (Cluster.net s) = 1%nat.
Proof.
  destruct (rpc_refines_cluster 3 (rpc_after rpc_crashed) (rpc_after_reachable rpc_crashed))
    as (s & Hs & _ & He & _ & Hn).
  exists s. split; [exact Hs|]. split; [rewrite He; vm_compute; reflexivity|].
  rewrite (Permutation_length Hn). vm_compute. reflexivity.
Defined.

Lemma rpc_blocks_no_peer_witness :
  rpc_exec (RNet (NHandler 1)) (rpc_after rpc_crashed) <> None.
Proof.
  destruct (rpc_blocks_no_peer 3 (rpc_after rpc_crashed) (rpc_after_reachable rpc_crashed)) as (_ & Hh & _).
  destruct (calls (sys (rpc_after rpc_crashed)) !! 1%nat) as [c|] eqn:Hk; [|vm_compute in Hk; discriminate Hk].
  apply (Hh 1%nat c 2%nat Hk).
  vm_compute in Hk. injection Hk as <-. reflexivity.
Defined.


End witnesses.
