(* ===== verification/ConfigRpc.v ===== *)
(** * The harness drives Raft over labrpc

    config.go works on the network, the Raft objects and their persisters
    through many small calls; RaftRpc.v has [crash1] and [start1] as single
    steps.  Here both are the same: whatever a test does with the harness, as
    Config.v has it call by call, and whatever the peers and the network do in
    between, is a run of RaftRpc.v, and so one of Cluster.v. *)

From S2P Require Import Prelude Gob PersisterModel RaftState RaftVote RaftAppend RaftNode.
From S2P Require Import Labrpc NetCalls NetProps RaftRpc RaftRpcInv RaftRpcSteps RaftRpcProps RaftRpcSim.
From S2P Require Cluster Config ConfigProps ConfigLinks ConfigRuns ConfigHeap ConfigView.
Open Scope go_scope.

#[local] Existing Instance Config.config_eta.

Section drives.
Context {GT : GobTypes} {G : RpcGob}.
#[local] Notation Sys := (Sys (list Node) RpcType RpcVal).
#[local] Notation NetEvent := (NetEvent (list Node) RpcVal).
Implicit Types (r : RpcSys) (y : Sys) (cfg : Config.config).

(** ** The two states *)

(** The object a peer runs, or ran last. *)
Definition slot_object (sl : Slot) : option nat :=
  match sl with
  | Running k => Some k
  | Down last _ _ => last
  end.

(** [cfg.rafts[i]] and [cfg.endnames[i]] *)
Definition slot_raft (sl : Slot) : option nat :=
  match sl with
  | Running k => Some k
  | Down _ _ _ => None
  end.

Definition slot_names r (sl : Slot) : option (list string) := k ← slot_object sl; names r !! k.

(** The harness [cfg] works on the network and the objects of [r]. *)
Record drives (N : nat) cfg r : Prop := {
  dr_harness : ConfigHeap.harness cfg;
  dr_n : Config.n cfg = N;
  dr_net : Config.net cfg = net (sys r);
  dr_count : length (Config.insts cfg) = length (world (sys r));
  dr_insts : forall k, ConfigView.instance cfg k = raft <$> world (sys r) !! k;
  dr_rafts : Config.rafts cfg = map slot_raft (slots r);
  dr_names : Config.endnames cfg = map (slot_names r) (slots r);
  dr_objects : forall a sl k, slots r !! a = Some sl -> slot_object sl = Some k -> is_Some (names r !! k);
  dr_saved : forall a last saved crashes, slots r !! a = Some (Down last saved crashes) ->
    ConfigLinks.is_connected cfg a = false /\ ConfigRuns.saved_persister cfg a = saved;
}.

Lemma dr_links N cfg r : drives N cfg r -> ConfigLinks.links_ok cfg /\ ConfigHeap.heap_ok None cfg.
Proof. intros Hd. apply ConfigHeap.harness_ok, Hd. Qed.

Lemma endnames_object r a : endnames r a = default [] (slots r !! a ≫= slot_names r).
Proof. unfold endnames. destruct (slots r !! a) as [[k|[k|] saved crashes]|]; done. Qed.

Lemma end_name_object N cfg r a b :
  drives N cfg r -> ConfigLinks.end_name cfg a b = endnames r a !! b.
Proof.
  intros Hd. unfold ConfigLinks.end_name. rewrite (dr_names _ _ _ Hd), list_lookup_fmap, endnames_object.
  destruct (slots r !! a) as [sl|]; [|done]. cbn. by destruct (slot_names r sl).
Qed.

(** An end of server [a] is the end of its object. *)
Lemma end_name_of N cfg r a b e :
  drives N cfg r -> ConfigLinks.end_name cfg a b = Some e ->
  exists sl k, slots r !! a = Some sl /\ slot_object sl = Some k /\ end_of r k b = Some e.
Proof.
  intros Hd. rewrite (end_name_object N cfg r) by done. rewrite endnames_object.
  destruct (slots r !! a) as [sl|]; [|done]. cbn. unfold slot_names. destruct (slot_object sl) as [k|] eqn:Hk; [|done].
  cbn. intros He. exists sl, k. split_and!; [done..|]. unfold end_of. by destruct (names r !! k).
Qed.

Lemma connected_running N cfg r a :
  drives N cfg r -> wired N r -> ConfigLinks.is_connected cfg a = true -> exists k, slots r !! a = Some (Running k).
Proof.
  intros Hd Hw Hc. destruct (slots r !! a) as [[k|last saved crashes]|] eqn:Ha; [by exists k| |].
  - destruct (dr_saved _ _ _ Hd a last saved crashes Ha). congruence.
  - unfold ConfigLinks.is_connected in Hc. apply bool_decide_eq_true, lookup_lt_Some in Hc.
    rewrite (ConfigLinks.lk_connected _ (proj1 (dr_links _ _ _ Hd))), (dr_n _ _ _ Hd) in Hc.
    apply lookup_ge_None in Ha. rewrite (wd_slots _ _ Hw) in Ha. lia.
Qed.

(** ** Runs of the composition *)

Fixpoint rpc_run (evs : list RpcEvent) r : option (outcome RpcSys) :=
  match evs with
  | [] => Some (Ret r)
  | ev :: evs =>
      o ← rpc_exec ev r;
      match o with
      | Ret r => rpc_run evs r
      | Panic f => Some (Panic f)
      end
  end.

Definition set_net r (rn : Network) : RpcSys := r <| sys := (sys r) <| net := rn |> |>.

(** The steps of RaftRpc.v that the harness takes. *)
Definition harness_event (ev : RpcEvent) : bool :=
  match ev with
  | REnable _ _ _ | RCrash _ | RStart _ _ | RLocal _ (Cluster.EvKill _) => true
  | RNet (NReliable _) | RNet (NLongReordering _) | RNet (NLongDelays _) | RNet NCleanup => true
  | _ => false
  end.

Lemma rpc_run_app evs evs' r r1 : rpc_run evs r = Some (Ret r1) -> rpc_run (evs ++ evs') r = rpc_run evs' r1.
Proof.
  revert r. induction evs as [|ev evs IH]; intros r; cbn [rpc_run app]; [by intros [= <-]|].
  destruct (rpc_exec ev r) as [[r2|]|]; try done. cbn [mbind option_bind]. apply IH.
Qed.

(** [r'] is what the harness makes of [r]. *)
Definition driven (N : nat) r r' : Prop :=
  exists evs, Forall (fun ev => harness_event ev = true) evs /\ rpc_run evs r = Some (Ret r') /\
    (rpc_reachable N r -> Cluster.bounded (peer_view r) -> rpc_reachable N r').

Lemma driven_refl N r : driven N r r.
Proof. exists []. by split_and!. Qed.

Lemma driven_one N r ev r' : harness_event ev = true -> rpc_exec ev r = Some (Ret r') -> driven N r r'.
Proof.
  intros Hev Hex. exists [ev]. split; [by repeat constructor|]. split; [cbn; by rewrite Hex|].
  intros Hr Hb. by eapply rpc_reachable_step.
Qed.

Lemma driven_snoc N r r1 ev r' :
  driven N r r1 -> (Cluster.bounded (peer_view r) -> Cluster.bounded (peer_view r1)) ->
  harness_event ev = true -> rpc_exec ev r1 = Some (Ret r') -> driven N r r'.
Proof.
  intros (evs & Hevs & Hrun & Hreach) Hb Hev Hex. exists (evs ++ [ev]).
  split; [apply Forall_app; by repeat constructor|]. split; [rewrite (rpc_run_app _ _ _ _ Hrun); cbn; by rewrite Hex|].
  intros Hr Hb'. eapply rpc_reachable_step; [by apply Hreach|by apply Hb|done].
Qed.

(** Steps that change the network only. *)
Lemma driven_net N r ev rn r' :
  harness_event ev = true -> rpc_exec ev r = Some (Ret (set_net r rn)) -> driven N (set_net r rn) r' -> driven N r r'.
Proof.
  intros Hev Hex (evs & Hevs & Hrun & Hreach). exists (ev :: evs). split; [by constructor|].
  split; [cbn; by rewrite Hex|]. intros Hr Hb. apply Hreach; [|done]. by eapply rpc_reachable_step.
Qed.

Lemma driven_enable N r es yes :
  Forall (fun e => exists k j, end_of r k j = Some e /\ (yes = true -> running r k = true)) es ->
  driven N r (set_net r (ConfigLinks.enable_all (net (sys r)) es yes)).
Proof.
  intros Hes. remember (net (sys r)) as rn eqn:Hrn. assert (r = set_net r rn) as Hr by (rewrite Hrn; by destruct r as [[]]).
  rewrite Hr at 1. clear Hrn Hr. revert rn. induction Hes as [|e es (k & j & He & Hk) _ IH]; intros rn; [apply driven_refl|].
  eapply (driven_net N _ (REnable k j yes)); [done| |apply (IH (Enable rn (IString e) yes))].
  cbn [rpc_exec]. assert (negb yes || running (set_net r rn) k = true) as ->.
  { destruct yes; [by apply Hk|done]. }
  unfold end_of in He. change (names (set_net r rn)) with (names r).
  destruct (names r !! k) as [ns|]; [|done]. cbn [mbind option_bind] in He |- *. do 2 f_equal.
  unfold set_net. cbn. unfold enable_name. by rewrite He.
Qed.

(** ** Crashes *)

Lemma fold_enable (l : nat -> list string) (g : nat -> nat) (t : nat -> option string) yes js rn :
  (forall j, l j !! g j = t j) ->
  fold_left (fun rn j => enable_name (l j) (g j) yes rn) js rn = ConfigLinks.enable_all rn (omap t js) yes.
Proof.
  intros Ht. revert rn. induction js as [|j js IH]; intros rn; [done|]. cbn [fold_left omap list_omap].
  rewrite IH. unfold enable_name. rewrite Ht. by destruct (t j).
Qed.

Lemma disconnect_net_eq N cfg r a :
  drives N cfg r -> wired N r -> disconnect_net r a (net (sys r)) = ConfigLinks.disconnected_net cfg a.
Proof.
  intros Hd Hw. unfold disconnect_net, ConfigLinks.disconnected_net. cbv zeta.
  rewrite (dr_n _ _ _ Hd), (wd_slots _ _ Hw), (dr_net _ _ _ Hd).
  rewrite (fold_enable (fun j => endnames r j) (fun _ => a) (fun j => ConfigLinks.end_name cfg j a)).
  2:{ intros j. by rewrite (end_name_object N cfg r). }
  rewrite (fold_enable (fun _ => endnames r a) (fun j => j) (fun j => ConfigLinks.end_name cfg a j)); [done|].
  intros j. by rewrite (end_name_object N cfg r).
Qed.

Lemma is_connected_insert cfg cfg' (a b : nat) :
  Config.connected cfg' = <[a := false]> (Config.connected cfg) ->
  ConfigLinks.is_connected cfg b = false \/ b = a -> ConfigLinks.is_connected cfg' b = false.
Proof.
  intros Hc Hb. unfold ConfigLinks.is_connected in *. rewrite Hc. apply bool_decide_eq_false.
  rewrite list_lookup_insert_Some. destruct Hb as [Hb%bool_decide_eq_false| ->]; naive_solver.
Qed.

(** What [crash1] did matches a system in which peer [a] runs nothing. *)
Lemma stopped_drives N cfg cfg' r r' (a : nat) sl sl' :
  drives N cfg r -> Config.crash1 cfg (Z.of_nat a) = Ret cfg' -> slots r !! a = Some sl ->
  names r' = names r -> slots r' = <[a := sl']> (slots r) ->
  slot_object sl' = slot_object sl -> slot_raft sl' = None ->
  net (sys r') = Config.net cfg' -> length (world (sys r')) = length (world (sys r)) ->
  (forall k, ConfigView.instance cfg' k = raft <$> world (sys r') !! k) ->
  (forall last saved crashes, sl' = Down last saved crashes -> ConfigRuns.saved_persister cfg' a = saved) ->
  drives N cfg' r'.
Proof.
  intros Hd Hc Ha Rn Rs Ro Rr Rt Rw Ri Rd. destruct (dr_links _ _ _ Hd) as [Hl Hh].
  destruct (ConfigLinks.crash1_links _ _ _ Hl Hc) as (_ & Hn' & _).
  destruct (ConfigView.crash1_view _ _ _ Hl Hh Hc) as (_ & En & Ec & Ee & Er & _ & Hs).
  destruct (ConfigHeap.crash1_heap _ _ _ Hl Hh Hc) as (_ & _ & _ & _ & Hlen & _).
  destruct Hd as [D1 D2 D3 D4 D5 D6 D7 D8 D9].
  split; [by eapply ConfigHeap.harness_crash1|congruence|done|congruence|done|..].
  - by rewrite Er, D6, Rs, list_fmap_insert, Rr.
  - rewrite Ee, D7, Rs. unfold slot_names. rewrite Rn, list_fmap_insert, Ro. symmetry. apply list_insert_id.
    by rewrite list_lookup_fmap, Ha.
  - rewrite Rs, Rn. intros b sl1 k [(<- & -> & _)|[_ Hb]]%list_lookup_insert_Some Hk; [|by eapply D8].
    rewrite Ro in Hk. by eapply D8.
  - rewrite Rs. intros b last saved crashes [(<- & Hsl & _)|[Hne Hb]]%list_lookup_insert_Some.
    + split; [eapply is_connected_insert; [done|by right]|by eapply Rd].
    + destruct (D9 b last saved crashes Hb) as [Hcn Hsv].
      split; [eapply is_connected_insert; [done|by left]|]. by rewrite Hs, decide_False by done.
Qed.

(** [crash1] is [crash]. *)
Lemma crash_drives N cfg r i cfg' :
  drives N cfg r -> wired N r -> Config.crash1 cfg i = Ret cfg' ->
  exists (a : nat) r', i = Z.of_nat a /\ crash r a = Some r' /\ drives N cfg' r' /\
    exists last saved crashes, slots r' !! a = Some (Down last (save_persister <$> saved) crashes).
Proof.
  intros Hd Hw Hc. destruct (dr_links _ _ _ Hd) as [Hl Hh].
  destruct (ConfigLinks.crash1_links _ _ _ Hl Hc) as (_ & Hn' & a & -> & _).
  destruct (ConfigView.crash1_view _ _ _ Hl Hh Hc) as (Ha & En & _ & _ & _ & Hi & Hs).
  rewrite <- (disconnect_net_eq N cfg r a Hd Hw) in En. fold (crash_net r a (net (sys r))) in En.
  rewrite (dr_n _ _ _ Hd), <- (wd_slots _ _ Hw) in Ha. apply lookup_lt_is_Some_2 in Ha as [sl Ha].
  assert (Config.rafts cfg !! a = Some (slot_raft sl)) as Hra.
  { by rewrite (dr_rafts _ _ _ Hd), list_lookup_fmap, Ha. }
  exists a. unfold crash. rewrite Ha. destruct sl as [k|last saved crashes].
  - destruct (lookup_lt_is_Some_2 (world (sys r)) k) as [nd Hk].
    { rewrite <- (wd_owners _ _ Hw). eapply lookup_lt_Some. by apply (wd_running _ _ Hw). }
    rewrite Hk. cbn [mbind option_bind]. eexists. split; [done|]. split; [reflexivity|]. split.
    + eapply stopped_drives; try done; [apply length_insert| |].
      * intros k'. cbn. rewrite Hi, (dr_insts _ _ _ Hd). cbn [slot_raft] in Hra. case_decide as Hk'.
        -- assert (k' = k) as -> by congruence. rewrite list_lookup_insert_eq by (by eapply lookup_lt_Some).
           by rewrite Hk.
        -- rewrite list_lookup_insert_ne; [done|]. intros ->. congruence.
      * intros last saved crashes [= <- <- <-]. rewrite Hs, decide_True by done.
        by rewrite (ConfigView.saved_running _ _ _ Hh Hra), (dr_insts _ _ _ Hd), Hk.
    + cbn. rewrite list_lookup_insert_eq by (by eapply lookup_lt_Some).
      by eexists _, (Some (persister (raft nd))), _.
  - eexists. split; [done|]. split; [reflexivity|]. split.
    + eapply stopped_drives; try done.
      * intros k'. rewrite Hi, (dr_insts _ _ _ Hd). by rewrite decide_False by (by rewrite Hra).
      * intros last' saved' crashes' [= <- <- <-]. rewrite Hs, decide_True by done.
        destruct (dr_saved _ _ _ Hd a _ _ _ Ha) as [_ ->]. by destruct saved.
    + cbn. rewrite list_lookup_insert_eq by (by eapply lookup_lt_Some). by do 3 eexists.
Qed.

(** ** Starts *)

Lemma net_made_ends rands (m j : nat) rn rn' :
  ConfigRuns.net_made rands (seqZ (Z.of_nat j) (Z.of_nat m)) rn = Ret rn' ->
  make_ends (map rands (seqZ (Z.of_nat j) (Z.of_nat m))) j rn = Ret rn'.
Proof.
  revert j rn. induction m as [|m IH]; intros j rn; [done|].
  rewrite seqZ_cons by lia. cbn [map ConfigRuns.net_made make_ends].
  replace (Z.succ (Z.of_nat j)) with (Z.of_nat (S j)) by lia.
  replace (Z.pred (Z.of_nat (S m))) with (Z.of_nat m) by lia.
  destruct (MakeEnd rn _) as [[rn1 ce]|]; [|done]. cbn [mbind outcome_bind]. apply IH.
Qed.

(** The names of the other peers' objects stay. *)
Lemma slot_names_app r r' ns sl :
  names r' = names r ++ [ns] -> (forall k, slot_object sl = Some k -> is_Some (names r !! k)) ->
  slot_names r' sl = slot_names r sl.
Proof.
  intros Hn Hk. unfold slot_names. destruct (slot_object sl) as [k|]; [|done]. cbn.
  destruct (Hk k eq_refl) as [x Hx]. rewrite Hn, Hx. by apply lookup_app_l_Some.
Qed.

(** [start1] after its crash is [boot]. *)
Lemma boot_drives N cfg cfg' r r' (a : nat) ns last saved crashes :
  drives N cfg r -> wired N r -> slots r !! a = Some (Down last (save_persister <$> saved) crashes) ->
  length ns = N -> boot r a ns = Some (Ret r') -> ConfigHeap.harness cfg' ->
  let ps := default MakePersister (ConfigRuns.saved_persister cfg a) in
  let k := length (Config.insts cfg) in
  Config.n cfg' = N -> Config.net cfg' = net (sys r') -> length (Config.insts cfg') = S k ->
  Config.connected cfg' = Config.connected cfg -> Config.endnames cfg' = <[a := Some ns]> (Config.endnames cfg) ->
  Config.rafts cfg' = <[a := Some k]> (Config.rafts cfg) ->
  (forall j, ConfigView.instance cfg' j =
    if decide (j = k) then Some (Make N (Z.of_nat a) ps) else ConfigView.instance cfg j) ->
  (forall b, ConfigRuns.saved_persister cfg' b = if decide (b = a) then Some ps else ConfigRuns.saved_persister cfg b) ->
  drives N cfg' r'.
Proof.
  intros [D1 D2 D3 D4 D5 D6 D7 D8 D9] Hw Ha Hns. unfold boot. rewrite Ha.
  rewrite decide_True by (by rewrite (wd_slots _ _ Hw)). intros [= (rn & _ & [= Hr'])%bind_Ret] Hh. cbv zeta.
  intros En Et Ei Ec Ee Er Hi Hs. destruct (D9 _ _ _ _ Ha) as [_ Hsv]. rewrite Hsv in Hi, Hs.
  assert (a < length (slots r))%nat as Hlt by by eapply lookup_lt_Some.
  assert (names r' = names r ++ [ns]) as Rn by by rewrite <- Hr'.
  assert (slots r' = <[a := Running (length (world (sys r)))]> (slots r)) as Rs by by rewrite <- Hr'.
  assert (world (sys r') = world (sys r) ++ [make_node N (Z.of_nat a) (boot_persister (save_persister <$> saved)) crashes]) as Rw
    by by rewrite <- Hr', <- (wd_slots _ _ Hw).
  clear Hr'. split; try done.
  - rewrite Rw, length_app, Ei, D4. cbn. lia.
  - intros j. rewrite Hi, Rw, D4. case_decide as Hj.
    + rewrite Hj, list_lookup_middle by done. by destruct saved.
    + rewrite D5. destruct (decide (j < length (world (sys r))))%nat; [by rewrite lookup_app_l|].
      rewrite !lookup_ge_None_2; [done| |lia]. rewrite length_app. cbn. lia.
  - by rewrite Er, D6, Rs, list_fmap_insert, D4.
  - rewrite Ee, D7, Rs, list_fmap_insert. unfold slot_names at 2. cbn [slot_object mbind option_bind].
    rewrite Rn, <- (wd_names _ _ Hw), list_lookup_middle by done. f_equal. apply list_fmap_ext.
    intros b sl Hb. symmetry. apply (slot_names_app r r' ns); [done|]. intros k. by apply (D8 b).
  - rewrite Rs, Rn. intros b sl k [(<- & <- & _)|[_ Hb]]%list_lookup_insert_Some Hk.
    + injection Hk as <-. rewrite <- (wd_names _ _ Hw), list_lookup_middle by done. by eexists.
    + destruct (D8 b sl k Hb Hk) as [x Hx]. exists x. by apply lookup_app_l_Some.
  - rewrite Rs. intros b last' saved' crashes' [(_ & ? & _)|[Hne Hb]]%list_lookup_insert_Some; [done|].
    rewrite Hs, decide_False by done. destruct (D9 b _ _ _ Hb) as [Hc Hp]. split; [|done].
    unfold ConfigLinks.is_connected in *. by rewrite Ec.
Qed.

(** [start1] is [start]. *)
Lemma start_drives N cfg r i rands cfg' :
  drives N cfg r -> wired N r -> Config.start1 cfg i rands = Ret cfg' ->
  exists (a : nat) r', i = Z.of_nat a /\
    start r a (map rands (seqZ 0 (Z.of_nat N))) = Some (Ret r') /\ drives N cfg' r'.
Proof.
  intros Hd0 Hw0 Hst. destruct (dr_links _ _ _ Hd0) as [Hl Hh].
  destruct (ConfigView.start1_view _ _ _ _ Hl Hh Hst) as (a & cfg1 & rn & ns & -> & Hc & Hns & Hm & Hr).
  cbv zeta in Hr. destruct Hr as (En & Ec & Ee & Er & Hi & Hs & Hcount).
  destruct (crash_drives N cfg r _ cfg1 Hd0 Hw0 Hc) as (a' & r1 & Ea & Hcr & Hd & last & saved & crashes & Ha).
  apply Nat2Z.inj in Ea as <-. pose proof (crashed_wired N r r1 a Hw0 (crash_crashed _ _ _ Hcr)) as Hw.
  rewrite (dr_n _ _ _ Hd) in *. rewrite (dr_net _ _ _ Hd) in Hm. apply (net_made_ends _ _ 0) in Hm.
  change (Z.of_nat 0) with 0 in Hm.
  assert (length ns = N) as Hlen by (rewrite Hns, length_map, length_seqZ; lia). rewrite <- Hns in Hm |- *.
  exists a. unfold start. rewrite Hcr. cbn [mbind option_bind].
  assert (exists r', boot r1 a ns = Some (Ret r') /\ net (sys r') = Config.net cfg') as (r' & Hb & Hnet).
  { unfold boot. rewrite Ha, decide_True by (by rewrite (wd_slots _ _ Hw)). rewrite Hm. eexists.
    split; [reflexivity|]. cbn. by rewrite En, (dr_count _ _ _ Hd). }
  exists r'. split; [done|]. split; [done|].
  eapply (boot_drives N cfg1 cfg' r1 r' a ns); try done.
  - eapply ConfigHeap.harness_start1; [apply Hd0|exact Hst].
  - destruct (ConfigRuns.start1_links _ _ _ _ Hl Hst) as [_ ->]. apply Hd0.
Qed.

End drives.
