(* ===== verification/ConfigRpcRuns.v ===== *)
(** * The harness drives Raft over labrpc: the theorem

    Every operation of the harness is a sequence of steps of RaftRpc.v, and
    every step of the peers and the network keeps the two in agreement. *)

From S2P Require Import Prelude Gob PersisterModel RaftState RaftVote RaftAppend RaftNode.
From S2P Require Import Labrpc NetCalls NetProps RaftRpc RaftRpcInv RaftRpcSteps RaftRpcProps RaftRpcSim ConfigRpc.
From S2P Require Cluster Config ConfigProps ConfigLinks ConfigRuns ConfigHeap ConfigView Runs RaftRpcRuns.
Open Scope go_scope.

#[local] Existing Instance Config.config_eta.

Section ops.
Context {GT : GobTypes} {G : RpcGob}.
#[local] Notation Sys := (Sys (list Node) RpcType RpcVal).
#[local] Notation NetEvent := (NetEvent (list Node) RpcVal).
Implicit Types (r : RpcSys) (y : Sys) (cfg : Config.config).

(** ** The operations of the harness *)

Inductive HarnessOp : Type :=
| HStart (i : Z) (rands : Z -> string)
| HCrash (i : Z)
| HConnect (i : Z)
| HDisconnect (i : Z)
| HUnreliable (b : bool)
| HLongReordering (b : bool)
| HApply (i : Z) (m : ApplyMsg)
| HBegin
| HCleanup (failed : bool) (elapsed : Z).

Definition harness_op (op : HarnessOp) cfg : outcome Config.config :=
  match op with
  | HStart i rands => Config.start1 cfg i rands
  | HCrash i => Config.crash1 cfg i
  | HConnect i => Config.connect cfg i
  | HDisconnect i => Config.disconnect cfg i
  | HUnreliable b => Ret (Config.setunreliable cfg b)
  | HLongReordering b => Ret (Config.setlongreordering cfg b)
  | HApply i m => Config.apply_msg cfg i m
  | HBegin => Ret (Config.begin cfg)
  | HCleanup failed elapsed => Config.cleanup cfg failed elapsed
  end.

(** Tests connect servers that run only; [connect] itself does not check it. *)
Definition op_allowed (op : HarnessOp) cfg : Prop :=
  match op with
  | HConnect i => exists k, Config.rafts cfg !! Z.to_nat i = Some (Some k)
  | _ => True
  end.

Lemma harness_op_harness op cfg cfg' :
  ConfigHeap.harness cfg -> harness_op op cfg = Ret cfg' -> ConfigHeap.harness cfg'.
Proof.
  intros Hh. destruct op; cbn [harness_op]; intros Hop; try (injection Hop as <-).
  - by eapply ConfigHeap.harness_start1.
  - by eapply ConfigHeap.harness_crash1.
  - by eapply ConfigHeap.harness_connect.
  - by eapply ConfigHeap.harness_disconnect.
  - by apply ConfigHeap.harness_unreliable.
  - by apply ConfigHeap.harness_longreordering.
  - by eapply ConfigHeap.harness_apply.
  - by apply ConfigHeap.harness_begin.
  - by eapply ConfigHeap.harness_cleanup.
Qed.

(** *** Operations on the network and the books of the harness *)

Lemma set_net_id r : set_net r (net (sys r)) = r.
Proof. by destruct r as [[]]. Qed.

Lemma drives_net N cfg cfg' r :
  drives N cfg r -> ConfigHeap.harness cfg' ->
  Config.n cfg' = Config.n cfg -> Config.insts cfg' = Config.insts cfg ->
  Config.persisters cfg' = Config.persisters cfg -> Config.saved cfg' = Config.saved cfg ->
  Config.rafts cfg' = Config.rafts cfg -> Config.endnames cfg' = Config.endnames cfg ->
  (forall a, ConfigLinks.is_connected cfg' a = true ->
    ConfigLinks.is_connected cfg a = true \/ exists k, slots r !! a = Some (Running k)) ->
  drives N cfg' (set_net r (Config.net cfg')).
Proof.
  intros [D1 D2 D3 D4 D5 D6 D7 D8 D9] Hh En Ei Ep Es Er Ee Hc.
  split; try done; rewrite ?En, ?Ei, ?Er, ?Ee; try done.
  - intros k. rewrite (ConfigView.instance_same cfg cfg') by done. apply D5.
  - intros a last saved crashes Ha. destruct (D9 a last saved crashes Ha) as [Hca Hsa]. split.
    + apply not_true_iff_false. intros [?|[k Hk]]%Hc; [congruence|]. change (slots r !! a = Some (Down last saved crashes)) in Ha.
      congruence.
    + by rewrite (ConfigView.saved_persister_same cfg cfg').
Qed.

Lemma apply_msg_objects cfg i m cfg' :
  Config.apply_msg cfg i m = Ret cfg' ->
  Config.insts cfg' = Config.insts cfg /\ Config.persisters cfg' = Config.persisters cfg /\
  Config.net cfg' = Config.net cfg.
Proof.
  unfold Config.apply_msg. destruct (CommandValid m); [|by intros [= <-]]. cbv zeta.
  intros (l & _ & (ls & _ & Hc)%bind_Ret)%bind_Ret. revert Hc. repeat case_match; intros; by simplify_eq.
Qed.

(** *** connect and disconnect *)

Lemma ends_of_objects N cfg r a j e (P : nat -> Prop) :
  drives N cfg r -> ConfigLinks.end_name cfg a j = Some e ->
  (forall sl k, slots r !! a = Some sl -> slot_object sl = Some k -> P k) ->
  exists k j', end_of r k j' = Some e /\ P k.
Proof.
  intros Hd He HP. destruct (end_name_of N cfg r a j e Hd He) as (sl & k & Ha & Hk & Hj).
  exists k, j. split; [done|by eapply HP].
Qed.

Lemma enable_all_app rn es1 es2 yes :
  ConfigLinks.enable_all (ConfigLinks.enable_all rn es1 yes) es2 yes = ConfigLinks.enable_all rn (es1 ++ es2) yes.
Proof. unfold ConfigLinks.enable_all. by rewrite foldl_app. Qed.

Lemma disconnect_drives N cfg r i cfg' :
  drives N cfg r -> Config.disconnect cfg i = Ret cfg' -> exists r', driven N r r' /\ drives N cfg' r'.
Proof.
  intros Hd Hdc. destruct (dr_links _ _ _ Hd) as [Hl _].
  destruct (ConfigLinks.disconnect_links _ _ _ Hl Hdc) as (_ & a & -> & Ha & Hcfg').
  exists (set_net r (Config.net cfg')). split.
  - rewrite Hcfg'. cbn. unfold ConfigLinks.disconnected_net. cbv zeta. rewrite enable_all_app, (dr_net _ _ _ Hd).
    apply driven_enable, Forall_forall. intros e [He|He]%elem_of_app;
      apply ConfigLinks.elem_of_targets in He as (j & _ & He); by eapply ends_of_objects.
  - eapply drives_net; try done; try by rewrite Hcfg'.
    + eapply ConfigHeap.harness_disconnect; [apply Hd|exact Hdc].
    + intros b. unfold ConfigLinks.is_connected. rewrite Hcfg'. cbn. rewrite !bool_decide_eq_true, list_lookup_insert_Some.
      naive_solver.
Qed.

Lemma connect_drives N cfg r i cfg' :
  drives N cfg r -> wired N r -> Config.connect cfg i = Ret cfg' ->
  (exists k, Config.rafts cfg !! Z.to_nat i = Some (Some k)) -> exists r', driven N r r' /\ drives N cfg' r'.
Proof.
  intros Hd Hw Hcn [k0 Hk0]. destruct (dr_links _ _ _ Hd) as [Hl _].
  destruct (ConfigLinks.connect_eq _ _ _ Hl Hcn) as (a & ns & -> & Ha & _ & Hcfg'). cbv zeta in Hcfg'.
  rewrite Nat2Z.id in Hk0. set (conn := <[a := true]> (Config.connected cfg)) in *.
  assert (forall b, conn !! b = Some true -> exists k, slots r !! b = Some (Running k)) as Hconn.
  { unfold conn. intros b [(<- & _ & _)|[_ Hb]]%list_lookup_insert_Some.
    - rewrite (dr_rafts _ _ _ Hd), list_lookup_fmap in Hk0. destruct (slots r !! a) as [[k|]|]; try done. by exists k.
    - apply (connected_running N cfg); [done..|]. unfold ConfigLinks.is_connected. by rewrite bool_decide_eq_true. }
  assert (conn !! a = Some true) as Hca.
  { apply list_lookup_insert_eq. by rewrite (ConfigLinks.lk_connected _ Hl). }
  assert (forall x sl k, conn !! x = Some true -> slots r !! x = Some sl -> slot_object sl = Some k -> running r k = true) as Hrun.
  { intros x sl k [k' Hx]%Hconn Hx' Hk. rewrite Hx in Hx'. injection Hx' as <-. injection Hk as <-.
    unfold running. apply bool_decide_eq_true. by eapply list_elem_of_lookup_2. }
  exists (set_net r (Config.net cfg')). split.
  - rewrite Hcfg'. cbn. unfold ConfigLinks.connected_net. cbv zeta. rewrite enable_all_app, (dr_net _ _ _ Hd).
    apply driven_enable, Forall_forall. intros e [He|He]%elem_of_app;
      apply ConfigLinks.elem_of_targets in He as (j & _ & He); unfold ConfigLinks.live_end in He;
      case_bool_decide as Hj; try done; (eapply ends_of_objects; [done|exact He|]);
      intros sl k Hsl Hk _; (refine (Hrun _ sl k _ Hsl Hk); done).
  - eapply drives_net; try done; try by rewrite Hcfg'.
    + eapply ConfigHeap.harness_connect; [apply Hd|exact Hcn].
    + intros b. unfold ConfigLinks.is_connected at 1. rewrite Hcfg'. cbn. rewrite bool_decide_eq_true.
      intros Hb. right. by apply Hconn.
Qed.

(** *** One instance runs *)

Lemma drives_instance N cfg r k n cfg1 r' :
  drives N cfg r -> Config.run_instance cfg k (fun _ => raft n) = Ret cfg1 ->
  slots r' = slots r -> names r' = names r -> net (sys r') = net (sys r) ->
  (k < length (world (sys r)))%nat -> world (sys r') = <[k := n]> (world (sys r)) ->
  drives N cfg1 r'.
Proof.
  intros Hd Hrun Es En Et Hk Ew. destruct (dr_links _ _ _ Hd) as [_ Hh].
  destruct (ConfigView.run_instance_view _ _ _ _ _ Hh Hrun) as (Er & _ & Ent & Hin & Hi & Hs).
  destruct (ConfigLinks.run_instance_same _ _ _ _ Hrun) as [S1 S2 S3 _ _].
  destruct (ConfigHeap.run_instance_heap _ _ _ _ Hrun) as [[_ _ _ _ S4] _].
  destruct Hd as [D1 D2 D3 D4 D5 D6 D7 D8 D9].
  split; rewrite ?Es, ?En, ?Et, ?Er, ?S1, ?S3; try done.
  - by eapply ConfigHeap.harness_instance.
  - congruence.
  - apply (f_equal length) in S4. rewrite !length_fmap in S4. by rewrite Ew, length_insert, S4.
  - intros k'. rewrite Hi, Ew. case_decide as Hk'.
    + rewrite Hk', list_lookup_insert_eq by done. destruct Hin as [rf ->]. done.
    + by rewrite list_lookup_insert_ne.
  - unfold slot_names. by rewrite D7, En.
  - intros a last saved crashes Ha. destruct (D9 a last saved crashes Ha) as [Hc Hsv]. split.
    + unfold ConfigLinks.is_connected in *. by rewrite S2.
    + rewrite Hs; [done| |done]. left. rewrite D6, list_lookup_fmap, Ha. done.
Qed.

(** *** cleanup *)

Lemma run_instance_known cfg k f rf cfg' :
  ConfigView.instance cfg k = Some rf -> Config.run_instance cfg k f = Ret cfg' ->
  Config.run_instance cfg k (fun _ => f rf) = Ret cfg'.
Proof.
  unfold ConfigView.instance, Config.run_instance, Config.deref.
  destruct (Config.insts cfg !! k) as [inst|]; [|done]. cbn [mbind option_bind outcome_bind].
  destruct (Config.persisters cfg !! Config.in_ps inst) as [ps|]; [|done]. by intros [= <-].
Qed.

(** [cfg.rafts[i].Kill()] of a running server. *)
Lemma kill_drives N cfg r (a k : nat) cfg' :
  drives N cfg r -> wired N r -> slots r !! a = Some (Running k) -> Config.run_instance cfg k Kill = Ret cfg' ->
  exists r', rpc_exec (RLocal k (Cluster.EvKill a)) r = Some (Ret r') /\ drives N cfg' r' /\ wired N r' /\
    (Cluster.bounded (peer_view r) -> Cluster.bounded (peer_view r')).
Proof.
  intros Hd Hw Ha Hrun. pose proof (wd_running _ _ Hw _ _ Ha) as Ho.
  pose proof (lookup_lt_Some _ _ _ Ho) as Hlt. rewrite (wd_owners _ _ Hw) in Hlt.
  destruct (lookup_lt_is_Some_2 _ _ Hlt) as [n Hn].
  assert (running r k = true) as Hr by (apply bool_decide_eq_true; by eapply list_elem_of_lookup_2).
  pose proof (peer_nodes_running N r a k n Hw Ha Hn) as Hp.
  destruct (lookup_lt_is_Some_2 (names r) k) as [ns Hns]; [by rewrite (wd_names _ _ Hw)|].
  set (n' := n <| raft := Kill (raft n) |>).
  exists (r <| sys := (sys r) <| world := <[k := n']> (world (sys r)) |> |>
            <| handled := handled r |> <| sent := sent r ++ [] |>
            <| r_elections := r_elections r |> <| r_created := r_created r |>).
  split; [|split_and!].
  - cbn [rpc_exec]. rewrite Ho, Hn. cbn [mbind option_bind]. rewrite decide_True by done.
    rewrite (inst_view_running N r a k n Hw Ho Hr Hn). cbn [Cluster.exec peer_view Cluster.nodes].
    rewrite Hp. cbn [mbind option_bind then_continue]. unfold continue.
    cbn [Cluster.set_raft Cluster.set_node set_field Cluster.nodes Cluster.net].
    rewrite list_lookup_insert_eq by (by eapply lookup_lt_Some). cbn [mbind option_bind]. rewrite Hns, Hr.
    reflexivity.
  - eapply (drives_instance N cfg r k n'); try done. eapply run_instance_known; [|done].
    by rewrite (dr_insts _ _ _ Hd), Hn.
  - eapply wired_same; [..|exact Hw]; try done. cbn. apply length_insert.
  - unfold Cluster.bounded, peer_view. cbn [Cluster.nodes]. intros Hb.
    erewrite (peer_nodes_step N r _ a k n'); [|done..]. rewrite Hr.
    apply Forall_insert; [done|]. destruct (Forall_lookup_1 _ _ _ _ Hb Hp) as [[] ?]. by split.
Qed.

Lemma cleanup_drives N cfg r failed elapsed cfg' :
  drives N cfg r -> wired N r -> ConfigHeap.harness cfg' -> Config.cleanup cfg failed elapsed = Ret cfg' ->
  exists r', driven N r r' /\ drives N cfg' r'.
Proof.
  intros Hd Hw Hh (cfg1 & Hk & (rn & Hc & (u & _ & [= Hcfg'])%bind_Ret)%bind_Ret)%bind_Ret.
  set (I := fun c => exists r1, driven N r r1 /\ drives N c r1 /\ wired N r1 /\
    (Cluster.bounded (peer_view r) -> Cluster.bounded (peer_view r1))).
  assert (I cfg1) as (r1 & Hdr & Hd1 & _ & Hb1).
  { revert Hk. unfold Config.kill_all, for_range. apply (for_each_inv I).
    - intros i c c' _ (r1 & Hdr & Hd1 & Hw1 & Hb1) ([k|] & Hi & Hs)%bind_Ret.
      2:{ injection Hs as <-. by exists r1. }
      apply go_index_Ret in Hi as [_ Hi]. rewrite (dr_rafts _ _ _ Hd1), list_lookup_fmap in Hi.
      destruct (slots r1 !! Z.to_nat i) as [[k'|]|] eqn:Hsl; try done. injection Hi as ->.
      destruct (kill_drives N c r1 _ k c' Hd1 Hw1 Hsl Hs) as (r2 & Hex & Hd2 & Hw2 & Hb2).
      exists r2. split; [by apply (driven_snoc N r r1 (RLocal k (Cluster.EvKill (Z.to_nat i))))|]. split; [done|]. split; [done|auto].
    - exists r. split; [apply driven_refl|]. by split_and!. }
  unfold Cleanup in Hc. destruct (done_closed (Config.net cfg1)) eqn:Hdc; [done|]. injection Hc as <-.
  exists (set_net r1 (Config.net cfg')). split.
  - eapply (driven_snoc N r r1 (RNet NCleanup)); [done|done|done|]. cbn [rpc_exec is_network net_exec].
    unfold Cleanup. rewrite <- (dr_net _ _ _ Hd1), Hdc. rewrite <- Hcfg'. cbn [mbind option_bind outcome_bind].
    cbn [on_killed]. rewrite app_nil_r. by destruct r1 as [[]].
  - rewrite <- Hcfg' in Hh |- *. apply (drives_net N cfg1); try done. by left.
Qed.

(** Every operation of the harness. *)
Lemma op_drives N op cfg r cfg' :
  drives N cfg r -> wired N r -> harness_op op cfg = Ret cfg' -> op_allowed op cfg ->
  exists r', driven N r r' /\ drives N cfg' r'.
Proof.
  intros Hd Hw Hop Hal. pose proof (harness_op_harness op cfg cfg' (dr_harness _ _ _ Hd) Hop) as Hh.
  pose proof (dr_net _ _ _ Hd) as Hnet.
  destruct op as [i rands|i|i|i|b|b|i m| |failed elapsed]; cbn [harness_op op_allowed] in *.
  - destruct (start_drives N cfg r i rands cfg' Hd Hw Hop) as (a & r' & _ & Hr & Hd'). exists r'. split; [|done].
    by eapply (driven_one N r (RStart a _)).
  - destruct (crash_drives N cfg r i cfg' Hd Hw Hop) as (a & r' & _ & Hr & Hd' & _). exists r'. split; [|done].
    eapply (driven_one N r (RCrash a)); [done|]. cbn [rpc_exec]. by rewrite Hr.
  - by eapply connect_drives.
  - by eapply disconnect_drives.
  - injection Hop as <-. eexists. split; [|apply (drives_net N cfg); try done; auto].
    eapply (driven_one N r (RNet (NReliable (negb b)))); [done|]. cbn. rewrite app_nil_r, Hnet. by destruct r as [[]].
  - injection Hop as <-. eexists. split; [|apply (drives_net N cfg); try done; auto].
    eapply (driven_one N r (RNet (NLongReordering b))); [done|]. cbn. rewrite app_nil_r, Hnet. by destruct r as [[]].
  - destruct (apply_msg_objects _ _ _ _ Hop) as (Ei & Ep & En).
    destruct (ConfigHeap.apply_msg_same _ _ _ _ Hop) as [[S1 S2 S3 _ _] [_ S4 S5 _ _]].
    exists r. split; [apply driven_refl|]. rewrite <- (set_net_id r), <- Hnet, <- En.
    apply (drives_net N cfg); try done. unfold ConfigLinks.is_connected. rewrite S2. auto.
  - injection Hop as <-. exists r. split; [apply driven_refl|]. rewrite <- (set_net_id r), <- Hnet.
    change (Config.net cfg) with (Config.net (Config.begin cfg)). apply (drives_net N cfg); try done; auto.
  - by eapply cleanup_drives.
Qed.

(** ** The peers and the network *)

(** Steps that are not the harness's; the ones of the network carry calls. *)
Definition peers_event (ev : RpcEvent) : bool :=
  match ev with
  | RLocal _ _ | RReturn _ => true
  | RNet (NReliable _) | RNet (NLongReordering _) | RNet (NLongDelays _) | RNet NCleanup => false
  | RNet _ => true
  | _ => false
  end.

(** The Raft object a step works on. *)
Definition object_of (ev : RpcEvent) r : option nat :=
  match ev with
  | RLocal k _ => Some k
  | RReturn q => fst <$> sent r !! q
  | RNet (NHandler q) =>
      c ← calls (sys r) !! q;
      match c_handler c with
      | HRunning sid => Some sid
      | _ => None
      end
  | _ => None
  end.

(** What the harness would see of a step from [r] to [r']: one instance ran,
    and the network counted. *)
Definition follow (ev : RpcEvent) r r' cfg : outcome Config.config :=
  cfg ← match k ← object_of ev r; n ← world (sys r') !! k; Some (k, n) with
        | Some (k, n) => Config.run_instance cfg k (fun _ => raft n)
        | None => Ret cfg
        end;
  Ret (cfg <| Config.net := net (sys r') |>).

Lemma issue_all_calls peers ms y y' :
  issue_all peers ms y = Some (Ret y') -> net y' = net y /\ world y' = world y.
Proof.
  revert y. induction ms as [|m ms IH]; intros y; cbn [issue_all]; [by intros [= <-]|].
  destruct (issue peers m y) as [[y1|]|] eqn:Hi; try done. cbn [mbind option_bind]. intros [-> ->]%IH.
  unfold issue in Hi. destruct (request_call _) as [[[meth args] reply0]|]; [|done]. cbn [mbind option_bind] in Hi.
  destruct (peers !! _) as [e|]; [|done]. cbn [mbind option_bind net_exec] in Hi.
  destruct (ends (net y) !! IString e); [|done]. by injection Hi as <-.
Qed.

(** What a step of the peers or the network leaves alone. *)
Record peers_moved r (o : option nat) r' : Prop := {
  pm_slots : slots r' = slots r;
  pm_names : names r' = names r;
  pm_net : counted (net (sys r)) (net (sys r'));
  pm_world : match o with
             | Some k => exists n, (k < length (world (sys r)))%nat /\ world (sys r') = <[k := n]> (world (sys r))
             | None => world (sys r') = world (sys r)
             end;
}.

Lemma continue_moved r k i hd s r' n :
  world (sys r) !! k = Some n -> continue r k i hd s = Some (Ret r') -> peers_moved r (Some k) r'.
Proof.
  intros Hk. unfold continue. destruct (Cluster.nodes s !! i) as [n'|]; [|done]. cbn [mbind option_bind].
  destruct (names r !! k) as [peers|]; [|done]. cbn [mbind option_bind].
  destruct (issue_all _ _ _) as [[y|]|] eqn:Hi; try done. apply issue_all_calls in Hi as [Hn Hw].
  cbn [mbind option_bind outcome_bind]. intros [= <-]. apply lookup_lt_Some in Hk.
  destruct (running r k); (split; [done|done|cbn; rewrite Hn; apply counted_refl|exists n'; split; [done|exact Hw]]).
Qed.

Lemma peers_event_moved N r ev r' :
  rpc_ok N r -> peers_event ev = true -> rpc_exec ev r = Some (Ret r') -> peers_moved r (object_of ev r) r'.
Proof.
  intros Hok Hev. destruct ev as [k ev|ev|q|k j yes|i|i ns]; try done; cbn [rpc_exec object_of].
  - destruct (owners r !! k) as [i|]; [|done]. cbn [mbind option_bind].
    destruct (world (sys r) !! k) as [n|] eqn:Hn; [|done]. cbn [mbind option_bind]. case_decide; [|done].
    destruct (Cluster.exec _ _) as [[s|f]|]; try done. by apply continue_moved with (n := n).
  - destruct (is_network ev) eqn:Hin; [|done].
    destruct (net_exec ev (sys r)) as [[y'|f]|] eqn:Hex; try done. cbn [mbind option_bind outcome_bind]. intros [= <-].
    assert (forall q, (c ← calls (sys r) !! q; call_exec (sys r) q c ev) = Some (Ret y') ->
      counted (net (sys r)) (net y') /\ world y' = world (sys r)) as Hcall.
    { intros q. destruct (calls (sys r) !! q) as [c|]; [|done]. intros Hx. by destruct (call_exec_keeps _ _ _ _ _ Hx) as (Hc & _ & Hw & _). }
    destruct ev as [e m a v|q|q|q|q rnd|q|q|q|q r1 r2|q|svcs|e|n sid|n|e n|e b|b|b|b|]; try done;
      try (destruct (Hcall q Hex) as [Hc Hw]; by split).
    destruct (handler_step N r q y' Hok Hex) as (_ & c & sid & k & m & n & rf & m' & [Hq _ Hh _ Hn Hwo _ _ _]).
    cbn [object_of]. rewrite Hq. cbn [mbind option_bind]. rewrite Hh. split; [done|done| |].
    + cbn [net_exec] in Hex. rewrite Hq in Hex. cbn [mbind option_bind] in Hex. unfold handler_exec in Hex. rewrite Hh in Hex.
      destruct (heap (sys r) !! sid); [|done]. cbn [mbind option_bind] in Hex.
      injection Hex as ([[rs w] c'] & _ & [= <-])%bind_Ret. apply counted_refl.
    + eexists. split; [by eapply lookup_lt_Some|exact Hwo].
  - destruct (calls (sys r) !! q) as [c|]; [|done]. cbn [mbind option_bind].
    destruct (sent r !! q) as [[k m]|]; [|done]. cbn [mbind option_bind].
    destruct (world (sys r) !! k) as [n|] eqn:Hn; [|done]. cbn [mbind option_bind].
    destruct (c_pc c) as [| | | | | |[] v]; try done. case_decide; [done|]. destruct (reply_to m v) as [m'|]; [|done].
    cbn [mbind option_bind]. destruct (Cluster.deliver _ _) as [[s|f]|]; try done. cbn [mbind option_bind then_continue].
    by apply continue_moved with (n := n).
Qed.

(** *** The harness sees a step *)

Lemma run_instance_total cfg k f :
  ConfigHeap.heap_ok None cfg -> (k < length (Config.insts cfg))%nat -> exists cfg', Config.run_instance cfg k f = Ret cfg'.
Proof.
  intros Hh [inst Hk]%lookup_lt_is_Some_2. unfold Config.run_instance, Config.deref. rewrite Hk. cbn [mbind outcome_bind].
  destruct (lookup_lt_is_Some_2 (Config.persisters cfg) (Config.in_ps inst)) as [ps ->];
    [by eapply ConfigHeap.ho_ps|by eexists].
Qed.

Lemma drives_counted N cfg r rn r' :
  drives N cfg r -> counted (net (sys r)) rn -> slots r' = slots r -> names r' = names r ->
  world (sys r') = world (sys r) -> net (sys r') = rn -> drives N (cfg <| Config.net := rn |>) r'.
Proof.
  intros Hd (c & b & Hrn) Es En Ew Et. pose proof (dr_net _ _ _ Hd) as Hnet.
  assert (ConfigHeap.harness (cfg <| Config.net := rn |>)) as Hh.
  { rewrite Hrn, <- Hnet. apply ConfigHeap.harness_traffic, Hd. }
  destruct Hd as [D1 D2 D3 D4 D5 D6 D7 D8 D9]. split; rewrite ?Es, ?En, ?Ew; try done.
  unfold slot_names. by rewrite En.
Qed.

Lemma follow_drives N cfg r ev r' :
  drives N cfg r -> peers_moved r (object_of ev r) r' -> exists cfg', follow ev r r' cfg = Ret cfg' /\ drives N cfg' r'.
Proof.
  intros Hd [P1 P2 P3 P4]. destruct (dr_links _ _ _ Hd) as [_ Hh]. unfold follow.
  destruct (object_of ev r) as [k|]; cbn [mbind option_bind].
  - destruct P4 as (n & Hk & Hw). rewrite Hw, list_lookup_insert_eq by done. cbn [mbind option_bind].
    destruct (run_instance_total cfg k (fun _ => raft n) Hh) as [cfg1 Hrun]; [by rewrite (dr_count _ _ _ Hd)|].
    rewrite Hrun. cbn [mbind outcome_bind]. eexists. split; [reflexivity|].
    eapply (drives_counted N cfg1 (set_net r' (net (sys r)))); try done.
    by eapply (drives_instance N cfg r k n).
  - eexists. split; [reflexivity|]. by eapply (drives_counted N cfg r).
Qed.

Lemma new_drives N u : exists r, driven N (rpc_init N) r /\ drives N (Config.new_config N u) r.
Proof.
  exists (set_net (rpc_init N) (Config.net (Config.new_config N u))). split.
  - apply (driven_net N (rpc_init N) (RNet (NReliable (negb u))) (Reliable MakeNetwork (negb u))); [done|done|].
    by apply (driven_one N _ (RNet (NLongDelays true))).
  - split; try done; cbn.
    + constructor.
    + by rewrite fmap_replicate.
    + by rewrite fmap_replicate.
    + intros a sl k [-> _]%lookup_replicate. done.
    + intros a last saved crashes [[= -> -> ->] Ha]%lookup_replicate.
      unfold ConfigLinks.is_connected, ConfigRuns.saved_persister. cbn.
      by rewrite !lookup_replicate_2.
Qed.

Context {GTok : GobTypesOk}.

(** C6: the harness of config.go, call by call, drives Raft over labrpc as
    RaftRpc.v has it.  In every state in which the two agree (they do when
    the harness is new, [new_drives]): whatever operation of the harness
    returns (start1, crash1, connect, disconnect, setunreliable,
    setlongreordering, the reader of an applyCh, begin and cleanup), where
    connect is called on a running server only ([op_allowed]; the tests do,
    config.go does not check it), is a sequence of steps of RaftRpc.v after
    which they agree again; whatever step
    the peers or the network take, the harness sees at most one instance run,
    and they agree again; and the instances the harness runs are the peers of
    a reachable state of Cluster.v. *)
Theorem harness_drives_rpc N cfg r :
  drives N cfg r -> rpc_reachable N r ->
  (forall op cfg', harness_op op cfg = Ret cfg' -> op_allowed op cfg ->
    exists r', driven N r r' /\ drives N cfg' r') /\
  (forall ev r', peers_event ev = true -> rpc_exec ev r = Some (Ret r') ->
    exists cfg', follow ev r r' cfg = Ret cfg' /\ drives N cfg' r') /\
  (exists s, Cluster.reachable s /\
    forall a k, Config.rafts cfg !! a = Some (Some k) ->
      exists n, Cluster.nodes s !! a = Some n /\ ConfigView.instance cfg k = Some (raft n)).
Proof.
  intros Hd Hre. destruct (rpc_reachable_refines N r Hre) as (s & Hs & Hr).
  pose proof (rf_ok _ _ _ Hr) as Hok. pose proof (ok_wired _ _ Hok) as Hw. split_and!.
  - intros op cfg' Hop Hal. by eapply op_drives.
  - intros ev r' Hev Hex. eapply follow_drives; [done|]. by eapply peers_event_moved.
  - exists s. split; [done|]. intros a k Ha. rewrite (dr_rafts _ _ _ Hd), list_lookup_fmap in Ha.
    destruct (slots r !! a) as [[k'|]|] eqn:Hsl; try done. injection Ha as ->.
    destruct (lookup_lt_is_Some_2 (world (sys r)) k) as [n Hn].
    { rewrite <- (wd_owners _ _ Hw). eapply lookup_lt_Some. by apply (wd_running _ _ Hw). }
    exists n. split; [|by rewrite (dr_insts _ _ _ Hd), Hn].
    rewrite (rf_nodes _ _ _ Hr). by eapply peer_nodes_running.
Qed.

End ops.

(** ** A test *)

Section witnesses.
#[local] Existing Instance first_types.
#[local] Existing Instance first_types_ok.
#[local] Existing Instance Runs.bounded_dec.
#[local] Existing Instance RaftRpcRuns.flat_gob.

(** The first server of a new harness is started. *)
Definition first_start : outcome Config.config :=
  Config.start1 (Config.new_config 3 false) 0 (ConfigHeap.end_names 0 0).

Lemma first_start_returns : first_start = Ret (ConfigHeap.returned first_start).
Proof. apply ConfigHeap.returned_Ret. vm_compute. reflexivity. Qed.

Lemma harness_drives_rpc_witness :
  exists r r', driven 3 r r' /\ drives 3 (ConfigHeap.returned first_start) r' /\
    Config.rafts (ConfigHeap.returned first_start) = [Some 0%nat; None; None].
Proof.
  destruct (new_drives 3 false) as (r & (evs & _ & _ & Hre) & Hd).
  assert (rpc_reachable 3 r) as Hreach.
  { apply Hre; [constructor|]. apply (bool_decide_unpack _). vm_compute. exact I. }
  destruct (harness_drives_rpc 3 (Config.new_config 3 false) r Hd Hreach) as (Hop & _).
  destruct (Hop (HStart 0 (ConfigHeap.end_names 0 0)) _ first_start_returns I) as (r' & Hdr & Hd').
  exists r, r'. split; [exact Hdr|]. split; [exact Hd'|]. vm_compute. reflexivity.
Defined.

End witnesses.
